(* ===== verification/_CoqProject ===== *)
-Q . S2P
Prelude.v
Text.v
Kernel.v
ScullParams.v
Scull.v
ScullInv.v
ScullFile.v
ScullIoctl.v
Fifo.v
Pipe.v
PipeFifo.v
PipeOpen.v
PipeRuns.v
PipeSys.v
PipeWake.v
ScullProc.v
ScullRuns.v
ScullFrame.v
ScullModule.v
ScullLoad.v
ScullSystem.v
ScullMem.v
ScullWhole.v
Edu.v
EduIrq.v
EduHw.v
EduAttr.v
EduProbe.v
EduRemove.v
ProcFiles.v
JitDelay.v
JitTime.v
Jit.v
JitInv.v
Jiq.v
JiqInv.v
JiqMany.v
Qus.v
Procs.v
