(* ===== verification/Prelude.v ===== *)
(** * Verification of the ldd3_workshop drivers

    The repository holds five Linux modules: scull (memory devices and pipes),
    edu (the driver of QEMU's educational PCI device), jit and jiq (files in
    /proc that show delays, timers, tasklets and work queues) and qus (the
    skeleton of a USB storage driver).  This library models their code over
    explicit states and proves what it does, its errors included.

    ** How the code is modelled

    A handler is a function of the monad [M] (Kernel.v): it takes what all
    drivers share ([kern]) and the driver's own state, and ends in a value and
    new states or in an [oops].  Every answer of the kernel (an allocation, a
    user copy, a signal, a register, the passing of time) is drawn from the
    stream [ans], about which nothing is assumed, so a theorem without a
    condition on [ans] holds whatever the kernel does.  [wp] is total: the code
    returns, without an oops, in a state with the property; [wlp] allows an
    oops.  Machine integers are [Z] with the C conversions written out
    ([wrap64], [wrap32], [s64], [s32] below).

    Code that sleeps is cut where it gives up its lock, and the pieces are the
    steps of a transition system that interleaves threads, interrupts, timers
    and deferred work.

    ** The files and the sources

    - Prelude.v, Text.v, Kernel.v: machine words, arrays, text, the monad and
      the services of the kernel; scull/mutex_sparse.h.
    - ScullParams.v, Scull.v (scull/scull.h, main.c): the parameters, one memory
      device and its file operations.  ScullInv.v: the memory invariant
      [dev_wf].  ScullFile.v: the device as a sparse file of bytes.
    - ScullIoctl.v (scull/ioctl.c): the commands and their handler.
      ScullProc.v (scull/proc.c): the text of /proc/scullmem, device by device.
      ScullRuns.v: all calls of a device one after the other.  ScullFrame.v:
      what a call leaves alone.
    - ScullModule.v (the init and exit functions of main.c and pipe.c, and the
      proc entry): loading and unloading.  ScullLoad.v: what is held.
      ScullSystem.v: the devices of the loaded module in use together.
      ScullMem.v: a walk through /proc/scullmem.  ScullWhole.v: devices and pipes of
      the module in use together, from loading to unloading.
    - Fifo.v: what a queue promises to those who use it in interleaved steps.
      Pipe.v (scull/pipe.c, pipe.h): the handlers of a pipe, in pieces.
      PipeFifo.v: the circular buffer is a bounded queue.  PipeOpen.v: open and
      release.  PipeRuns.v: sequences of calls that oops.  PipeSys.v: any
      number of threads on one pipe, an instance of Fifo.v.  PipeWake.v:
      threads asleep.
    - Edu.v (edu/hw.h, state.h, irq.c, sysfs.c): interrupts and attributes.
      EduIrq.v: the protocol of [test_irq_show] with the handler, its thread,
      the timer and the removal; the reads of the status register before the
      lock is taken and the expiry of the timer are steps of their own.  EduHw.v: the same on a device that keeps the
      promises of its interrupt registers.  EduAttr.v: the other attributes.
      EduProbe.v (edu/init.c): probe and removal.  EduRemove.v: the removal
      while interrupts come.
    - JitDelay.v, JitTime.v, Jit.v (jit/jit.c): the delay files, the
      current-time file, the timer and tasklet files; JitInv.v: their
      properties.
    - Jiq.v (jiq/jiq.c): the work-queue, tasklet and timer files; JiqInv.v: one
      reader with its item.  JiqMany.v: any number of readers.  That an item ends
      and that it wakes the readers are separate steps.
    - ProcFiles.v (jit.c, jiq.c, scull/proc.c): the tables of operations of the
      files in /proc and their open functions.
    - Procs.v (the init and exit functions of jit.c and jiq.c): the entries of
      both modules in the shared /proc.
    - Qus.v (qus/qus.c, qus.h): probe, disconnect and the reference count.

    A definition carries the name of the function it translates; a piece of a
    function is named after it ([read_transfer] and [read_wait] of
    [scull_p_read]) and its comment says what it covers.  A [struct] is a
    [Record] with its field names, less the locks and the fields that only
    link it to the kernel.

    ** What the theorems show

    - A scull device is a sparse file: [scull_read_ok], [scull_write_ok] and
      [scull_write_read] give every path of a read and a write.  No sequence of
      calls by unprivileged users oopses while the cache's objects have the default
      size ([scull_runs_safe]); with smaller ones, or with privileges, a write
      can run past a quantum ([reset_overflows], [enlarged_quantum_overflows]).
      Loading and unloading: [scull_init_ok], [scull_cleanup_ok].  A call on one
      device leaves the others alone ([scull_isolation]).  From loading to
      unloading, with the devices and the pipes in use in any order, no device
      call oopses, no memory of [kmalloc] is lost, and every pipe runs as one
      on its own does ([scull_life_ok], [scull_whole_ok]), while nobody resizes a
      pipe's buffer; the quanta, objects of the slab cache, are lost as
      [scull_trim_leaks] says.  The proc file prints the report of every device in
      order ([scullmem_ok], [scull_seq_show_ok]) as long as the quanta hold what
      is printed of them ([seq_show_overread]).
    - A pipe is a bounded FIFO under any interleaving ([pipe_threads_fifo]), an
      ordinary one never oopses ([pipe_never_oopses]), except that a kernel with
      lockdep reports the writers' test without the lock, and no thread is left
      asleep while nothing throws bytes away ([pipe_no_lost_wakeup]); the runs
      of PipeRuns.v and PipeWake.v show what goes wrong otherwise.
    - edu: one test of the interrupt at a time ([test_irq_exclusive]), and on a
      device that keeps its promises a test that had to wait prints "IRQ OK"
      ([test_irq_answers]); what a signal, an interrupt handled twice, a timer
      overtaken by its interrupt and a wrong device lead to
      ([interrupted_test_stuck], [stale_ok_reachable], [late_timeout_fails],
      [wrong_id_use_after_free]); probe and removal give
      back what they took ([qedu_probe_ok], [qedu_remove_ok]), unless an
      interrupt comes while the removal holds the lock ([remove_deadlocks]).
    - jit: a delay file ends and prints the true times ([jit_fn_show_ok]); a
      timer or tasklet file prints its lines ([jit_read_ok]), and the two ways
      in which freed memory is used ([jit_oops_only]).
    - jiq: a read ends within the page ([jiq_read_ok], [jiq_oops_only]), and so
      do reads that follow one another ([jiq_reads_ok]) unless a late wake-up of
      an earlier read meets a work-queue file; such a wake-up and readers that
      overlap break each other ([jiq_readers_collide]).
    - /proc: a file never outlives its module, and closing a file frees what
      opening it took ([procs_owned], [proc_files_balanced]).
    - qus: probe and disconnect ([qus_probe_ok], [qus_disconnect_ok]).

    ** Bounds and fuel

    The loops of the code are structural here: over the list of quantum sets,
    over an array of known length, or over the number of steps the code counts.
    Only the spinning loops of [jit_fn_show] take fuel, and [jit_fn_show_ok]
    asks for more of it than the number of reads of the clock in which the delay
    passes; that time passes is a condition on [ans].  The clocks of jit are
    integers that never wrap, read modulo 2^64; its theorems cover 2^61 or 2^62
    ticks.  [digits] takes as many digits as the widest number of its type has:
    16 hexadecimal, 10, 19 or 20 decimal ones.

    ** What is not modelled

    - The module parameters' declarations, the tables of file operations of the
      character devices and those of device identifiers are data for the
      kernel: the calls they lead to are the constructors of [dcall] and of the
      calls of PipeSys.v.
    - [pci_register_driver] and [module_usb_driver] only pass on a table.
    - Log messages, except that [__scull_meminfo], which reads the whole device
      for one, is there for its memory accesses.
    - [seq_file], which is the kernel's.  That it calls a show function again
      when its buffer was too small is among the walks of ScullMem.v; the page of
      jiq never needs it ([jiq_read_ok]).
    - The signal that [scull_p_write] sends with [kill_fasync] after its wake-up.
    - The timeout that [qedu_probe] computes from its parameter: the theorems
      hold for any.
    - That [qedu_probe] calls functions that sleep with its spinlock held; that a
      lock is held while somebody is waited for is modelled for the removal
      only (EduRemove.v).
    - The memory order of the processors: a step sees all earlier ones.

    ** Plan

    The sleeping calls of [qedu_probe]; several readers of jit whose callbacks
    outlive them; the proper FIFO of the module under the calls that do not
    oops. *)

From Stdlib Require Export ZArith Lia.
From Stdlib Require Import Strings.Byte.
From stdpp Require Export base gmap sets list fin_maps strings numbers.

#[global] Open Scope Z_scope.

(** ** Machine integers

    The drivers are built for a 64-bit kernel: [size_t], [ulong] and pointers
    have 64 bits, [u32] and [int] have 32, [loff_t], [ssize_t] and [long] are
    signed 64-bit.  A value is a [Z]; the conversions below are the C ones. *)

Definition wrap64 (z : Z) : Z := z mod 2 ^ 64.

Definition wrap32 (z : Z) : Z := z mod 2 ^ 32.

Definition s64 (z : Z) : Z := (z + 2 ^ 63) mod 2 ^ 64 - 2 ^ 63.

Definition s32 (z : Z) : Z := (z + 2 ^ 31) mod 2 ^ 32 - 2 ^ 31.

Definition is_u64 (z : Z) : Prop := 0 <= z < 2 ^ 64.

Definition is_u32 (z : Z) : Prop := 0 <= z < 2 ^ 32.

Definition is_s64 (z : Z) : Prop := - 2 ^ 63 <= z < 2 ^ 63.

(** ** Byte arrays, indexed by [Z] as C indexes them by [size_t] *)

Abbreviation zlen l := (Z.of_nat (length l)).

Definition slice {A} (off n : Z) (l : list A) : list A :=
  take (Z.to_nat n) (drop (Z.to_nat off) l).

Definition splice {A} (off : Z) (bs l : list A) : list A :=
  take (Z.to_nat off) l ++ bs ++ drop (Z.to_nat off + length bs) l.

(** ** Automation *)

Create Rewrite HintDb words.
Create Rewrite HintDb arrays.

(** [word_lia] is [lia] with the division and modulo of the word conversions
    turned into equations. *)
Ltac word_lia :=
  unfold is_u64, is_u32, is_s64, wrap64, wrap32, s64, s32 in *;
  Z.to_euclidean_division_equations; lia.

(** Split a conjunction down to its atoms. *)
Ltac split_all := repeat match goal with |- _ /\ _ => split end.

#[global] Instance byte_eq_dec : EqDecision Byte.byte := Byte.byte_eq_dec.

(** ** Lemmas on words *)

Lemma wrap64_small z : 0 <= z < 2 ^ 64 -> wrap64 z = z.
Proof. intros. unfold wrap64. by apply Z.mod_small. Qed.

Lemma wrap64_range z : 0 <= wrap64 z < 2 ^ 64.
Proof. unfold wrap64. by apply Z.mod_pos_bound. Qed.

Lemma wrap32_small z : 0 <= z < 2 ^ 32 -> wrap32 z = z.
Proof. intros. unfold wrap32. by apply Z.mod_small. Qed.

Lemma wrap32_range z : 0 <= wrap32 z < 2 ^ 32.
Proof. unfold wrap32. by apply Z.mod_pos_bound. Qed.

Lemma s64_small z : - 2 ^ 63 <= z < 2 ^ 63 -> s64 z = z.
Proof. intros. unfold s64. rewrite Z.mod_small; lia. Qed.

Lemma s32_small z : - 2 ^ 31 <= z < 2 ^ 31 -> s32 z = z.
Proof. intros. unfold s32. rewrite Z.mod_small; lia. Qed.

Lemma wrap64_s64 z : wrap64 (s64 z) = wrap64 z.
Proof.
  unfold wrap64, s64. rewrite Zminus_mod_idemp_l. f_equal. lia.
Qed.

Lemma s64_wrap64 z : s64 (wrap64 z) = s64 z.
Proof. unfold wrap64, s64. by rewrite Zplus_mod_idemp_l. Qed.

Lemma wrap64_wrap64_add t u : wrap64 (wrap64 t + u) = wrap64 (t + u).
Proof. word_lia. Qed.

(** The difference of two wrapped counters that are not too far apart. *)
Lemma s64_wrap64_sub a b :
  - 2 ^ 63 <= a - b < 2 ^ 63 -> s64 (wrap64 a - wrap64 b) = a - b.
Proof. word_lia. Qed.

#[export] Hint Rewrite wrap64_small wrap32_small s64_small s32_small
  using (lia || word_lia) : words.

(** [words] removes the conversions whose argument is known to be in range. *)
Ltac words := autorewrite with words in *.

(** ** Lemmas on slices *)

Section Slices.
Context {A : Type}.
Implicit Types (l bs : list A) (off n i : Z).

Lemma length_slice off n l :
  0 <= off -> 0 <= n -> off + n <= zlen l -> zlen (slice off n l) = n.
Proof.
  intros. unfold slice. rewrite length_take, length_drop. lia.
Qed.

Lemma length_splice off bs l :
  0 <= off -> off + zlen bs <= zlen l -> length (splice off bs l) = length l.
Proof.
  intros. unfold splice.
  rewrite !length_app, length_take, length_drop. lia.
Qed.

Lemma slice_nil off l : slice off 0 l = [].
Proof. reflexivity. Qed.

Lemma slice_all l : slice 0 (zlen l) l = l.
Proof. unfold slice. simpl. rewrite Nat2Z.id. by apply firstn_all. Qed.

(** Two adjacent slices make one. *)
Lemma slice_app off n1 n2 l :
  0 <= off -> 0 <= n1 -> 0 <= n2 ->
  slice off n1 l ++ slice (off + n1) n2 l = slice off (n1 + n2) l.
Proof.
  intros. unfold slice. rewrite !Z2Nat.inj_add by lia.
  rewrite <- drop_drop.
  rewrite <- (take_drop (Z.to_nat n1)
    (take (Z.to_nat n1 + Z.to_nat n2) (drop (Z.to_nat off) l))).
  rewrite take_take, Nat.min_l by lia. f_equal.
  by rewrite <- take_drop_commute.
Qed.

Lemma lookup_slice off n l (i : nat) :
  (Z.of_nat i < n) -> 0 <= off -> slice off n l !! i = l !! (Z.to_nat off + i)%nat.
Proof.
  intros. unfold slice. rewrite lookup_take_lt by lia. by rewrite lookup_drop.
Qed.

Lemma lookup_splice_in off bs l (i : nat) :
  0 <= off -> off + zlen bs <= zlen l -> (i < length bs)%nat ->
  splice off bs l !! (Z.to_nat off + i)%nat = bs !! i.
Proof.
  intros. unfold splice.
  rewrite lookup_app_r; rewrite length_take; [|lia].
  rewrite lookup_app_l by lia. f_equal. lia.
Qed.

Lemma lookup_splice_out off bs l (i : nat) :
  0 <= off -> off + zlen bs <= zlen l ->
  (i < Z.to_nat off \/ Z.to_nat off + length bs <= i)%nat ->
  splice off bs l !! i = l !! i.
Proof.
  intros ? ? [Hi | Hi]; unfold splice.
  - rewrite lookup_app_l by (rewrite length_take; lia).
    by rewrite lookup_take_lt.
  - rewrite lookup_app_r; rewrite length_take; [|lia].
    rewrite lookup_app_r by lia. rewrite lookup_drop. f_equal. lia.
Qed.

(** What was written is what is read back. *)
Lemma slice_splice_same off bs l :
  0 <= off -> off + zlen bs <= zlen l -> slice off (zlen bs) (splice off bs l) = bs.
Proof.
  intros. unfold slice, splice. rewrite Nat2Z.id.
  rewrite drop_app_length' by (rewrite length_take; lia).
  by apply take_app_length.
Qed.

Lemma slice_splice_before off n bs off' l :
  0 <= off -> 0 <= n -> off + n <= off' -> off' + zlen bs <= zlen l ->
  slice off n (splice off' bs l) = slice off n l.
Proof.
  intros. apply list_eq. intros i.
  destruct (decide (Z.of_nat i < n)) as [Hi | Hi].
  - rewrite !lookup_slice by lia. apply lookup_splice_out; lia.
  - assert (length (slice off n (splice off' bs l)) <= i)%nat.
    { pose proof (length_slice off n (splice off' bs l)) as Hl.
      rewrite length_splice in Hl by lia. lia. }
    assert (length (slice off n l) <= i)%nat.
    { pose proof (length_slice off n l). lia. }
    by rewrite !lookup_ge_None_2.
Qed.

Lemma slice_splice_after off n bs off' l :
  0 <= off' -> 0 <= n -> off' + zlen bs <= off -> off + n <= zlen l ->
  slice off n (splice off' bs l) = slice off n l.
Proof.
  intros. apply list_eq. intros i.
  destruct (decide (Z.of_nat i < n)) as [Hi | Hi].
  - rewrite !lookup_slice by lia. apply lookup_splice_out; lia.
  - assert (length (slice off n (splice off' bs l)) <= i)%nat.
    { pose proof (length_slice off n (splice off' bs l)) as Hl.
      rewrite length_splice in Hl by lia. lia. }
    assert (length (slice off n l) <= i)%nat.
    { pose proof (length_slice off n l). lia. }
    by rewrite !lookup_ge_None_2.
Qed.
End Slices.

#[export] Hint Rewrite @slice_nil @slice_all : arrays.
#[export] Hint Rewrite @length_slice @length_splice using lia : arrays.
