(* ===== verification/Text.v ===== *)
(** * Text

    The conversions of the kernel's [printf] that the drivers use, as strings. *)

From Stdlib Require Import Ascii.
From S2P Require Import Prelude.

Definition digit (n : Z) : ascii :=
  ascii_of_N (Z.to_N (if n <? 10 then 48 + n else 87 + n)).

(** The digits of [z] in base [b], at most [n] of them, then [acc]. *)
Fixpoint digits (b : Z) (n : nat) (z : Z) (acc : string) : string :=
  match n with
  | O => acc
  | S n =>
      let acc := String (digit (z mod b)) acc in
      if z / b =? 0 then acc else digits b n (z / b) acc
  end.

(** %lx and %x, %u: 64 bits have 16 hexadecimal digits, 32 bits 10 decimal
    ones. *)
Definition fmt_x (z : Z) : string := digits 16 16 z "".
Definition fmt_u (z : Z) : string := digits 10 10 z "".

Definition newline : string := String (ascii_of_nat 10) "".

(** A signed number of [long] or [int] has at most 19 digits, a [size_t] 20. *)
Definition fmt_d (z : Z) : string :=
  if z <? 0 then String "-" (digits 10 19 (- z) "") else digits 10 19 z "".
Definition fmt_zu (z : Z) : string := digits 10 20 z "".

Fixpoint spaces (n : nat) (s : string) : string :=
  match n with O => s | S n => String " " (spaces n s) end.

(** A field of width [n], filled on the left. *)
Definition pad (n : nat) (s : string) : string := spaces (n - String.length s) s.

(** ** Appending *)

Lemma sapp_assoc (s t u : string) : (s +:+ t) +:+ u = s +:+ (t +:+ u).
Proof.
  induction s as [| c s IH]; [done |].
  change (String c ((s +:+ t) +:+ u) = String c (s +:+ (t +:+ u))). by rewrite IH.
Qed.

Lemma sapp_nil_r (s : string) : s +:+ "" = s.
Proof.
  induction s as [| c s IH]; [done |]. change (String c (s +:+ "") = String c s). by rewrite IH.
Qed.

(** ** Lengths *)

Abbreviation slen s := (Z.of_nat (String.length s)).

Lemma slen_app s t : slen (s +:+ t) = slen s + slen t.
Proof.
  induction s as [| c s IH]; [done |].
  change (String c s +:+ t) with (String c (s +:+ t)). cbn [String.length]. lia.
Qed.

Lemma slen_cons c s : slen (String c s) = 1 + slen s.
Proof. cbn [String.length]. lia. Qed.

Lemma slen_spaces n s : slen (spaces n s) = Z.of_nat n + slen s.
Proof. induction n as [| n IH]; cbn [spaces]; rewrite ?slen_cons; lia. Qed.

Lemma slen_pad n s : slen (pad n s) = Z.max (Z.of_nat n) (slen s).
Proof. unfold pad. rewrite slen_spaces. lia. Qed.

Lemma slen_digits b n z acc :
  slen acc <= slen (digits b n z acc) <= Z.of_nat n + slen acc.
Proof.
  revert z acc. induction n as [| n IH]; intros z acc; cbn [digits]; [lia |].
  destruct (z / b =? 0); [rewrite slen_cons; lia |].
  specialize (IH (z / b) (String (digit (z mod b)) acc)). rewrite slen_cons in IH. lia.
Qed.

(** A number below [10 ^ m] has at most [m] digits. *)
Lemma slen_digits_small m n z acc :
  0 <= z < 10 ^ Z.of_nat m -> (0 < m)%nat -> slen (digits 10 n z acc) <= Z.of_nat m + slen acc.
Proof.
  revert n z acc. induction m as [| m IH]; intros n z acc Hz Hm; [lia |].
  destruct n as [| n]; cbn [digits]; [lia |].
  destruct (z / 10 =? 0) eqn:E; [rewrite slen_cons; lia |].
  rewrite Nat2Z.inj_succ, Z.pow_succ_r in Hz by lia.
  assert (0 <= z / 10 < 10 ^ Z.of_nat m) as Hq.
  { split; [apply Z.div_pos; lia | apply Z.div_lt_upper_bound; lia]. }
  destruct m as [| m]; [cbn in Hq; lia |].
  specialize (IH n (z / 10) (String (digit (z mod 10)) acc) Hq). rewrite slen_cons in IH. lia.
Qed.

Lemma slen_fmt_d z : 0 <= slen (fmt_d z) <= 20.
Proof.
  unfold fmt_d. destruct (z <? 0); rewrite ?slen_cons.
  - pose proof (slen_digits 10 19 (- z) ""). cbn [String.length] in *. lia.
  - pose proof (slen_digits 10 19 z ""). cbn [String.length] in *. lia.
Qed.

(** An [int] takes at most eleven characters. *)
Lemma slen_fmt_int z : 0 <= slen (fmt_d (s32 z)) <= 11.
Proof.
  assert (- 2 ^ 31 <= s32 z < 2 ^ 31) as Hz by word_lia. split; [lia |].
  assert (10 ^ Z.of_nat 10 = 10000000000) as Hp by reflexivity.
  unfold fmt_d. destruct (s32 z <? 0) eqn:E; rewrite ?slen_cons.
  - pose proof (slen_digits_small 10 19 (- s32 z) ""). cbn [String.length] in *. lia.
  - pose proof (slen_digits_small 10 19 (s32 z) ""). cbn [String.length] in *. lia.
Qed.
