(* ===== verification/Kernel.v ===== *)
(** * The kernel services the drivers call

    The numbers of the kernel's user interface (error codes, open flags), the
    failures that make the kernel oops, and the monad in which the handlers
    are written.  A call into the kernel that can fail draws its answer from
    the stream [ans]: 0 is success, anything else a failure, and for a user
    copy the number of bytes that were not copied.  Nothing is assumed about
    the stream, so every theorem holds whatever the kernel answers. *)

From S2P Require Import Prelude.

(** ** Numbers of the user interface (asm-generic/errno-base.h, fcntl.h) *)

Definition EPERM : Z := 1.
Definition ENOENT : Z := 2.
Definition EINTR : Z := 4.
Definition EAGAIN : Z := 11.
Definition ENOMEM : Z := 12.
Definition EFAULT : Z := 14.
Definition EBUSY : Z := 16.
Definition EEXIST : Z := 17.
Definition ENODEV : Z := 19.
Definition EINVAL : Z := 22.
Definition ENOTTY : Z := 25.
Definition ECANCELED : Z := 125.
Definition ERESTARTSYS : Z := 512.

Definition O_ACCMODE : Z := 3.
Definition O_WRONLY : Z := 1.
Definition O_NONBLOCK : Z := 2048.
Definition FMODE_READ : Z := 1.
Definition FMODE_WRITE : Z := 2.

(** What the handlers read of a [struct file], and which file it is. *)
Record file := File { f_id : nat; f_flags : Z; f_mode : Z }.

#[export] Instance file_eq_dec : EqDecision file.
Proof. solve_decision. Defined.

Definition flag_set (flags bit : Z) : bool := negb (Z.land flags bit =? 0).

(** ** Outcomes *)

(** What must never happen: memory errors, a divide error, a lock taken twice,
    an operation that needs the lock without it ([lockdep_assert_held]), and
    arming a timer that is armed ([BUG_ON] in [add_timer]). *)
Inductive oops :=
  | OobRead | OobWrite | UseAfterFree | NullDeref | DivideError
  | Deadlock | LockNotHeld | TimerPending.

Inductive outcome (A : Type) := Done (a : A) | Crash (o : oops).
Arguments Done {A} a.
Arguments Crash {A} o.

(** ** The monad

    [kern] is what all drivers share: the answers still to come, whether the
    lock of the object at hand is held, how many objects the driver has
    obtained from [kmalloc] and not given back, and whether the kernel checks
    the lock assertions (CONFIG_LOCKDEP); a violated assertion then counts as
    an oops. *)
Record kern := Kern { ans : nat -> Z; held : bool; kobjs : Z; lockdep : bool }.

Definition M (S A : Type) : Type := kern -> S -> outcome (A * kern * S).

#[export] Instance M_ret S : MRet (M S) := fun A a k s => Done (a, k, s).

#[export] Instance M_bind S : MBind (M S) := fun A B f m k s =>
  match m k s with
  | Done (a, k', s') => f a k' s'
  | Crash o => Crash o
  end.

Definition crash {S A} (o : oops) : M S A := fun _ _ => Crash o.

Definition gets {S A} (f : S -> A) : M S A := fun k s => Done (f s, k, s).

Definition modify {S} (f : S -> S) : M S unit := fun k s => Done (tt, k, f s).

Definition check {S} (b : bool) (o : oops) : M S unit :=
  if b then mret tt else crash o.

(** The next answer of the kernel. *)
Definition ask {S} : M S Z := fun k s =>
  Done (ans k 0%nat, Kern (fun i => ans k (i + 1)%nat) (held k) (kobjs k) (lockdep k), s).

Definition set_held {S} (b : bool) : M S unit := fun k s =>
  Done (tt, Kern (ans k) b (kobjs k) (lockdep k), s).

Definition add_kobjs {S} (n : Z) : M S unit := fun k s =>
  Done (tt, Kern (ans k) (held k) (kobjs k + n) (lockdep k), s).

Definition get_held {S} : M S bool := fun k s => Done (held k, k, s).

(** ** Locks *)

(** scull/mutex_sparse.h: the wrappers add only annotations for the static
    checker, [__acquire] and [__release] have no effect at run time. *)
Definition mutex_lock {S} : M S unit :=
  h ← get_held; check (negb h) Deadlock;; set_held true.

Definition mutex_unlock {S} : M S unit :=
  h ← get_held; check h LockNotHeld;; set_held false.

(** 0 with the lock taken, or [-EINTR] when a signal came first. *)
Definition mutex_lock_interruptible {S} : M S Z :=
  h ← get_held; check (negb h) Deadlock;;
  a ← ask;
  if a =? 0 then set_held true;; mret 0 else mret (- EINTR).

Definition __mutex_lock_interruptible_sparse {S} : M S Z :=
  ret ← mutex_lock_interruptible;
  mret ret.

Definition __mutex_lock_sparse {S} : M S unit := mutex_lock.

Definition __mutex_unlock_sparse {S} : M S unit := mutex_unlock.

Definition lockdep_assert_held {S} : M S unit := fun k s =>
  if lockdep k && negb (held k) then Crash LockNotHeld else Done (tt, k, s).

(** ** Allocation *)

(** [true] when the allocation succeeds. *)
Definition kmalloc {S} : M S bool :=
  a ← ask;
  if a =? 0 then add_kobjs 1;; mret true else mret false.

(** [n] bytes of memory nobody has initialised: any bytes, the base-256 digits
    of [a]. *)
Definition byte_of_Z (z : Z) : Byte.byte :=
  default Byte.x00 (Byte.of_N (Z.to_N (z mod 256))).

Fixpoint stale_bytes (n : nat) (a : Z) : list Byte.byte :=
  match n with
  | O => []
  | S n => byte_of_Z a :: stale_bytes n (a / 256)
  end.

Definition kfree {S} : M S unit := add_kobjs (-1).

(** ** User copies *)

(** The number of bytes not copied, of [n] requested. *)
Definition uncopied (n a : Z) : Z := Z.max 0 (Z.min n a).

(** [copy_to_user]: the number of bytes not copied, and the bytes the user
    received. *)
Definition copy_to_user {S} (src : list Byte.byte) : M S (Z * list Byte.byte) :=
  a ← ask;
  let r := uncopied (zlen src) a in
  mret (r, slice 0 (zlen src - r) src).

(** [copy_from_user]: the number of bytes not copied, and what the kernel
    buffer receives; the part not copied is zeroed. *)
Definition copy_from_user {S} (src : list Byte.byte) : M S (Z * list Byte.byte) :=
  a ← ask;
  let r := uncopied (zlen src) a in
  mret (r, slice 0 (zlen src - r) src ++ replicate (Z.to_nat r) Byte.x00).

(** The environment in which every call succeeds. *)
Definition all_ok : kern := Kern (fun _ => 0) false 0 true.

(** The state after an evaluation, for concrete runs. *)
Definition run_state {S A} (m : M S A) (k : kern) (s : S) : option S :=
  match m k s with Done (_, _, s') => Some s' | Crash _ => None end.

Definition run_value {S A} (m : M S A) (k : kern) (s : S) : option A :=
  match m k s with Done (a, _, _) => Some a | Crash _ => None end.

Definition run_oops {S A} (m : M S A) (k : kern) (s : S) : option oops :=
  match m k s with Done _ => None | Crash o => Some o end.

#[export] Instance oops_eq_dec : EqDecision oops.
Proof. solve_decision. Defined.

(** ** Weakest preconditions *)

(** [wpc c m Q k s]: if [m] finishes, its result and final state satisfy [Q],
    and if it oopses, [c].  [wp] is total: no oops; [wlp] is partial. *)
Definition wpc {S A} (c : Prop) (m : M S A) (Q : A -> kern -> S -> Prop) (k : kern)
    (s : S) : Prop :=
  match m k s with
  | Done (a, k', s') => Q a k' s'
  | Crash _ => c
  end.

Abbreviation wp := (wpc False).
Abbreviation wlp := (wpc True).

(** Unfold the monad's operations. *)
Ltac mred :=
  unfold wpc, __mutex_lock_interruptible_sparse, __mutex_lock_sparse,
    __mutex_unlock_sparse, mutex_lock, mutex_unlock, mutex_lock_interruptible,
    lockdep_assert_held,
    kmalloc, kfree, copy_to_user, copy_from_user,
    mbind, M_bind, mret, M_ret, get_held, check, crash, set_held, ask,
    add_kobjs, gets, modify;
  cbn.

Lemma length_stale_bytes n a : length (stale_bytes n a) = n.
Proof. revert a. induction n; intros a; cbn; auto. Qed.

Section Wp.
Context {S : Type} {c : Prop}.
Implicit Types (k : kern) (s : S).

Lemma wp_ret {A} (a : A) (Q : A -> kern -> S -> Prop) k s :
  Q a k s -> wpc c (mret a) Q k s.
Proof. done. Qed.

Lemma wp_bind {A B} (m : M S A) (f : A -> M S B) Q k s :
  wpc c m (fun a => wpc c (f a) Q) k s -> wpc c (mbind f m) Q k s.
Proof.
  unfold wpc, mbind, M_bind. by destruct (m k s) as [[[a k'] s'] | o].
Qed.

Lemma wp_mono {A} (m : M S A) (P Q : A -> kern -> S -> Prop) k s :
  wpc c m P k s -> (forall a k' s', P a k' s' -> Q a k' s') -> wpc c m Q k s.
Proof. unfold wpc. destruct (m k s) as [[[a k'] s'] | o]; auto. Qed.

Lemma wpc_weaken {A} (c' : Prop) (m : M S A) (Q : A -> kern -> S -> Prop) k s :
  (c' -> c) -> wpc c' m Q k s -> wpc c m Q k s.
Proof. unfold wpc. destruct (m k s) as [[[a k'] s'] | o]; auto. Qed.

Lemma wp_conj {A} (m : M S A) (P Q : A -> kern -> S -> Prop) k s :
  wpc c m P k s -> wpc c m Q k s -> wpc c m (fun a k' s' => P a k' s' /\ Q a k' s') k s.
Proof. unfold wpc. destruct (m k s) as [[[a k'] s'] | o]; auto. Qed.

Lemma wp_gets {A} (f : S -> A) (Q : A -> kern -> S -> Prop) k s :
  Q (f s) k s -> wpc c (gets f) Q k s.
Proof. done. Qed.

Lemma wp_modify (f : S -> S) (Q : unit -> kern -> S -> Prop) k s :
  Q tt k (f s) -> wpc c (modify f) Q k s.
Proof. done. Qed.

Lemma wp_check b o (Q : unit -> kern -> S -> Prop) k s :
  b = true -> Q tt k s -> wpc c (check b o) Q k s.
Proof. by intros ->. Qed.

Lemma wpc_check b o (Q : unit -> kern -> S -> Prop) k s :
  (b = true -> Q tt k s) -> (b = false -> c) -> wpc c (check b o) Q k s.
Proof. unfold wpc. destruct b; cbn; auto. Qed.

Lemma wlp_check b o (Q : unit -> kern -> S -> Prop) k s :
  (b = true -> Q tt k s) -> wlp (check b o) Q k s.
Proof. unfold wpc. destruct b; cbn; auto. Qed.

Lemma wp_wlp {A} (m : M S A) (Q : A -> kern -> S -> Prop) k s :
  wp m Q k s -> wlp m Q k s.
Proof. unfold wpc. by destruct (m k s) as [[[a k'] s'] | o]. Qed.

Lemma wpc_done {A} (m : M S A) (Q : A -> kern -> S -> Prop) k s a k' s' :
  wpc c m Q k s -> m k s = Done (a, k', s') -> Q a k' s'.
Proof. unfold wpc. by intros H E; rewrite E in H. Qed.

Lemma wlp_any {A} (m : M S A) (Q : A -> kern -> S -> Prop) k s :
  (forall a k' s', Q a k' s') -> wlp m Q k s.
Proof. unfold wpc. destruct (m k s) as [[[a k'] s'] | o]; auto. Qed.

Lemma wp_ask (Q : Z -> kern -> S -> Prop) k s :
  (forall a f, Q a (Kern f (held k) (kobjs k) (lockdep k)) s) -> wpc c ask Q k s.
Proof. unfold wpc, ask. auto. Qed.

(** [ask] and [kmalloc] with their answer. *)
Lemma wp_ask_ans (Q : Z -> kern -> S -> Prop) k s :
  Q (ans k 0%nat) (Kern (fun i => ans k (i + 1)%nat) (held k) (kobjs k) (lockdep k)) s ->
  wpc c ask Q k s.
Proof. done. Qed.

Lemma wp_kmalloc_ans (Q : bool -> kern -> S -> Prop) k s :
  (ans k 0%nat = 0 ->
     Q true (Kern (fun i => ans k (i + 1)%nat) (held k) (kobjs k + 1) (lockdep k)) s) ->
  (ans k 0%nat <> 0 ->
     Q false (Kern (fun i => ans k (i + 1)%nat) (held k) (kobjs k) (lockdep k)) s) ->
  wpc c kmalloc Q k s.
Proof.
  intros HT HF. mred. destruct (ans k 0 =? 0) eqn:E; cbn; [apply HT | apply HF]; lia.
Qed.

Lemma wp_lock (Q : unit -> kern -> S -> Prop) k s :
  held k = false -> Q tt (Kern (ans k) true (kobjs k) (lockdep k)) s -> wpc c mutex_lock Q k s.
Proof. intros H HQ. mred. by rewrite H. Qed.

Lemma wp_unlock (Q : unit -> kern -> S -> Prop) k s :
  held k = true -> Q tt (Kern (ans k) false (kobjs k) (lockdep k)) s -> wpc c mutex_unlock Q k s.
Proof. intros H HQ. mred. by rewrite H. Qed.

Lemma wp_lock_interruptible (Q : Z -> kern -> S -> Prop) k s :
  held k = false ->
  (forall f, Q 0 (Kern f true (kobjs k) (lockdep k)) s) ->
  (forall f, Q (- EINTR) (Kern f false (kobjs k) (lockdep k)) s) ->
  wpc c __mutex_lock_interruptible_sparse Q k s.
Proof.
  intros H HQ HI. mred. rewrite H. cbn.
  destruct (ans k 0 =? 0); cbn; [apply HQ | rewrite H; apply HI].
Qed.

(** No signal comes. *)
Lemma wp_lock_taken (Q : Z -> kern -> S -> Prop) k s :
  held k = false -> ans k 0%nat = 0 ->
  Q 0 (Kern (fun i => ans k (i + 1)%nat) true (kobjs k) (lockdep k)) s ->
  wpc c __mutex_lock_interruptible_sparse Q k s.
Proof. intros H Ha HQ. mred. rewrite H. cbn. by rewrite Ha. Qed.

Lemma wp_assert_held (Q : unit -> kern -> S -> Prop) k s :
  held k = true -> Q tt k s -> wpc c lockdep_assert_held Q k s.
Proof. intros H HQ. mred. by rewrite H, andb_false_r. Qed.

Lemma wp_kmalloc (Q : bool -> kern -> S -> Prop) k s :
  (forall f, Q true (Kern f (held k) (kobjs k + 1) (lockdep k)) s) ->
  (forall f, Q false (Kern f (held k) (kobjs k) (lockdep k)) s) ->
  wpc c kmalloc Q k s.
Proof.
  intros HT HF. mred. destruct (ans k 0 =? 0); cbn; auto.
Qed.

Lemma wp_kfree (Q : unit -> kern -> S -> Prop) k s :
  Q tt (Kern (ans k) (held k) (kobjs k + - 1) (lockdep k)) s -> wpc c kfree Q k s.
Proof. done. Qed.

Lemma wp_copy_to_user src (Q : Z * list Byte.byte -> kern -> S -> Prop) k s :
  (forall f, Q (0, src) (Kern f (held k) (kobjs k) (lockdep k)) s) ->
  (forall f r, 0 < r <= zlen src ->
     Q (r, slice 0 (zlen src - r) src) (Kern f (held k) (kobjs k) (lockdep k)) s) ->
  wpc c (copy_to_user src) Q k s.
Proof.
  intros H0 HF. mred.
  destruct (decide (uncopied (zlen src) (ans k 0%nat) = 0)) as [-> | Hne].
  - rewrite Z.sub_0_r, slice_all. apply H0.
  - apply HF. unfold uncopied in *. lia.
Qed.

Lemma wp_copy_from_user src (Q : Z * list Byte.byte -> kern -> S -> Prop) k s :
  (forall f, Q (0, src) (Kern f (held k) (kobjs k) (lockdep k)) s) ->
  (forall f r bs, 0 < r <= zlen src -> length bs = length src ->
     Q (r, bs) (Kern f (held k) (kobjs k) (lockdep k)) s) ->
  wpc c (copy_from_user src) Q k s.
Proof.
  intros H0 HF. mred.
  destruct (decide (uncopied (zlen src) (ans k 0%nat) = 0)) as [-> | Hne].
  - rewrite Z.sub_0_r, slice_all, app_nil_r. apply H0.
  - assert (0 < uncopied (zlen src) (ans k 0%nat) <= zlen src)
      by (unfold uncopied in *; lia).
    apply HF; [done |].
    rewrite length_app, length_replicate.
    pose proof (length_slice 0 (zlen src - uncopied (zlen src) (ans k 0%nat)) src).
    lia.
Qed.
End Wp.

(** ** Certain failures

    [oopses o m k s]: [m] ends in the oops [o]. *)
Section Oops.
Context {S A B : Type}.

Definition oopses {A} (o : oops) (m : M S A) (k : kern) (s : S) : Prop := m k s = Crash o.

Lemma oopses_run o (m : M S A) k s : oopses o m k s -> run_oops m k s = Some o.
Proof. unfold oopses, run_oops. by intros ->. Qed.

(** The first part ends well and the rest fails. *)
Lemma oopses_bind o (m : M S A) (f : A -> M S B) k s :
  wp m (fun a k' s' => oopses o (f a) k' s') k s -> oopses o (mbind f m) k s.
Proof.
  unfold wpc, oopses, mbind, M_bind. by destruct (m k s) as [[[a k'] s'] | o'].
Qed.

(** The first part fails. *)
Lemma oopses_first o (m : M S A) (f : A -> M S B) k s :
  oopses o m k s -> oopses o (mbind f m) k s.
Proof. unfold oopses, mbind, M_bind. by intros ->. Qed.

Lemma oopses_check o b k s : b = false -> oopses o (check b o) k s.
Proof. by intros ->. Qed.
End Oops.

(** One symbolic step of a handler. *)
Ltac wp_step :=
  cbv beta iota;
  lazymatch goal with
  | |- wpc _ (mbind _ _) _ _ _ => apply wp_bind
  | |- wpc _ (mret _) _ _ _ => apply wp_ret
  | |- wpc _ (gets _) _ _ _ => apply wp_gets
  | |- wpc _ (modify _) _ _ _ => apply wp_modify
  | |- wpc True (check _ _) _ _ _ => apply wlp_check; intros
  | |- wpc _ (check _ _) _ _ _ => apply wp_check
  | |- wpc _ ask _ _ _ => apply wp_ask; intros
  | |- wpc _ __mutex_lock_sparse _ _ _ => apply wp_lock; [done |]
  | |- wpc _ __mutex_unlock_sparse _ _ _ => apply wp_unlock; [done |]
  | |- wpc _ lockdep_assert_held _ _ _ => apply wp_assert_held; [done |]
  | |- wpc _ __mutex_lock_interruptible_sparse _ _ _ =>
      apply wp_lock_interruptible; [done | intros | intros]
  | |- wpc _ kmalloc _ _ _ => apply wp_kmalloc; intros
  | |- wpc _ kfree _ _ _ => apply wp_kfree
  | |- wpc _ (copy_to_user _) _ _ _ => apply wp_copy_to_user; intros
  | |- wpc _ (copy_from_user _) _ _ _ => apply wp_copy_from_user; intros
  | |- wpc _ (if ?b then _ else _) _ _ _ => destruct b eqn:?
  | |- wpc _ (let _ := _ in _) _ _ _ => cbv zeta
  end.

Ltac wp_steps := repeat (wp_step; cbn [held kobjs ans lockdep]).
