(* ===== verification/ScullParams.v ===== *)
(** * The module parameters of scull (src/scull/scull.h, main.c, pipe.c)

    Shared by the devices, the pipes and [scull_ioctl], which changes them
    while the devices are in use. *)

From S2P Require Import Prelude.

Definition SCULL_NR_DEVS : Z := 4.
Definition SCULL_P_NR_DEVS : Z := 4.
Definition SCULL_QUANTUM : Z := 4000.
Definition SCULL_QSET : Z := 1000.
Definition SCULL_P_LEN : Z := 4000.

Record params := Params { scull_quantum : Z; scull_qset : Z; scull_p_len : Z }.

Definition set_quantum (v : Z) (p : params) : params :=
  Params v (scull_qset p) (scull_p_len p).

Definition set_qset_param (v : Z) (p : params) : params :=
  Params (scull_quantum p) v (scull_p_len p).

Definition set_p_len (v : Z) (p : params) : params :=
  Params (scull_quantum p) (scull_qset p) v.

(** The values the module starts with. *)
Definition default_params : params := Params SCULL_QUANTUM SCULL_QSET SCULL_P_LEN.
