(* ===== verification/Scull.v ===== *)
(** * The scull device (src/scull/main.c, src/scull/scull.h)

    The bare device: a list of quantum sets, each an array of pointers to
    quanta of a slab cache.  This file holds the data and the operations on
    one device; its lock is [held] of the kernel state.  The properties are in
    ScullInv.v (memory) and ScullFile.v (contents). *)

From S2P Require Import Prelude Kernel ScullParams.

(** ** Data *)

(** The address of a slab object. *)
Abbreviation loc := positive.

(** A quantum set: its array of quanta, once there is one.  The [next] pointer
    is the node's position in the list. *)
Record qset_node := Qset { data : option (list (option loc)) }.

Record scull_dev := Dev {
  qset : list qset_node;
  quantum_len : Z;
  qset_len : Z;
  len : Z
}.

Record scull_follow := Follow { qset_p : Z; quantum_p : Z; offset_p : Z }.

(** The module parameters, the slab cache [kmc] (the size of its objects,
    fixed by [kmem_cache_create], and the objects in use) and the device at
    hand. *)
Record scull_st := St {
  par : params;
  kmc_size : Z;
  slab : gmap loc (list Byte.byte);
  dev : scull_dev
}.

Definition set_slab (m : gmap loc (list Byte.byte)) (s : scull_st) : scull_st :=
  St (par s) (kmc_size s) m (dev s).

Definition set_dev (d : scull_dev) (s : scull_st) : scull_st :=
  St (par s) (kmc_size s) (slab s) d.

Definition set_qset (qs : list qset_node) (s : scull_st) : scull_st :=
  set_dev (Dev qs (quantum_len (dev s)) (qset_len (dev s)) (len (dev s))) s.

Definition set_len (n : Z) (s : scull_st) : scull_st :=
  set_dev (Dev (qset (dev s)) (quantum_len (dev s)) (qset_len (dev s)) n) s.

(** ** The slab cache *)

Definition kmem_cache_alloc : M scull_st (option loc) :=
  a ← ask;
  if a =? 0 then
    stale ← ask;
    s ← gets id;
    let l := fresh (dom (slab s)) in
    modify (set_slab (<[l := stale_bytes (Z.to_nat (kmc_size s)) stale]> (slab s)));;
    mret (Some l)
  else mret None.

Definition kmem_cache_free (l : loc) : M scull_st unit :=
  m ← gets slab;
  check (bool_decide (is_Some (m !! l))) UseAfterFree;;
  modify (set_slab (delete l m)).

(** [kmem_cache_free_bulk]: frees the first [n] pointers, skipping NULL. *)
Fixpoint kmem_cache_free_bulk (n : nat) (p : list (option loc)) : M scull_st unit :=
  match n, p with
  | O, _ => mret tt
  | S _, [] => crash OobRead
  | S n, None :: p => kmem_cache_free_bulk n p
  | S n, Some l :: p => kmem_cache_free l;; kmem_cache_free_bulk n p
  end.

(** [n] bytes at offset [off] of the object at [l]. *)
Definition slab_read (l : loc) (off n : Z) : M scull_st (list Byte.byte) :=
  m ← gets slab;
  match m !! l with
  | None => crash UseAfterFree
  | Some blk =>
      check ((n =? 0) || (off + n <=? zlen blk)) OobRead;;
      mret (slice off n blk)
  end.

Definition slab_write (l : loc) (off : Z) (bs : list Byte.byte) : M scull_st unit :=
  m ← gets slab;
  match m !! l with
  | None => crash UseAfterFree
  | Some blk =>
      check ((zlen bs =? 0) || (off + zlen bs <=? zlen blk)) OobWrite;;
      modify (set_slab (<[l := splice off bs blk]> m))
  end.

(** ** Emptying a device *)

(** The loop of [__scull_trim], over the list of quantum sets. *)
Fixpoint trim_qsets (qlen : Z) (qs : list qset_node) : M scull_st unit :=
  match qs with
  | [] => mret tt
  | q :: next =>
      match data q with
      | None => mret tt
      | Some p => kmem_cache_free_bulk (Z.to_nat (wrap64 (qlen - 1))) p;; kfree
      end;;
      kfree;;
      trim_qsets qlen next
  end.

Definition __scull_trim : M scull_st unit :=
  lockdep_assert_held;;
  d ← gets dev;
  trim_qsets (qset_len d) (qset d);;
  modify (fun s => set_dev (Dev [] (scull_quantum (par s)) (scull_qset (par s)) 0) s).

Definition scull_open (filp : file) : M scull_st Z :=
  if Z.land (f_flags filp) O_ACCMODE =? O_WRONLY then
    r ← __mutex_lock_interruptible_sparse;
    if negb (r =? 0) then mret (- ERESTARTSYS)
    else
      __scull_trim;;
      __mutex_unlock_sparse;;
      mret 0
  else mret 0.

Definition scull_release (filp : file) : M scull_st Z := mret 0.

(** ** Finding a position *)

(** The [while (n--)] loop: from node [i], [n] nodes further, appending the
    ones that are missing. *)
Fixpoint follow_next (n : nat) (i : nat) : M scull_st (option nat) :=
  match n with
  | O => mret (Some i)
  | S n =>
      qs ← gets (fun s => qset (dev s));
      if bool_decide (S i < length qs)%nat then follow_next n (S i)
      else
        ok ← kmalloc;
        if (ok : bool) then
          modify (set_qset (qs ++ [Qset None]));;
          follow_next n (S i)
        else mret None
  end.

(** The node of the position (its index) or NULL, and the position's parts. *)
Definition __scull_follow (f_pos : Z) : M scull_st (option nat * scull_follow) :=
  d ← gets dev;
  let total_len := wrap64 (quantum_len d * qset_len d) in
  check (negb (total_len =? 0)) DivideError;;
  let rest := wrap64 f_pos mod total_len in
  lockdep_assert_held;;
  check (negb (quantum_len d =? 0)) DivideError;;
  let flw := Follow (wrap64 f_pos / total_len)
               (rest / quantum_len d) (rest mod quantum_len d) in
  head ← (if bool_decide (qset d = []) then
            ok ← kmalloc;
            if (ok : bool) then modify (set_qset [Qset None]);; mret true
            else mret false
          else mret true);
  if (head : bool) then
    q ← follow_next (Z.to_nat (qset_p flw)) 0;
    mret (q, flw)
  else mret (None, flw).

(** ** Memory report *)

Definition sizeof_qset : Z := 16.
Definition sizeof_ptr : Z := 8.

(** The inner loop of [__scull_meminfo]. *)
Fixpoint meminfo_quanta (n : nat) (p : list (option loc)) (qlen tmem mem : Z)
    : outcome (Z * Z) :=
  match n, p with
  | O, _ => Done (tmem, mem)
  | S _, [] => Crash OobRead
  | S _, None :: _ => Done (tmem, mem)
  | S n, Some _ :: p =>
      meminfo_quanta n p qlen (wrap64 (tmem + qlen)) (wrap64 (mem + sizeof_ptr))
  end.

Fixpoint meminfo_qsets (d : scull_dev) (qs : list qset_node) (tmem mem : Z)
    : outcome (Z * Z) :=
  match qs with
  | [] => Done (tmem, mem)
  | q :: qs =>
      let tmem := wrap64 (tmem + sizeof_qset) in
      let mem := wrap64 (mem + sizeof_qset) in
      match data q with
      | None => meminfo_qsets d qs tmem mem
      | Some p =>
          match meminfo_quanta (Z.to_nat (qset_len d)) p (quantum_len d)
                  (wrap64 (tmem + qset_len d * sizeof_ptr)) (wrap64 (mem + len d)) with
          | Done (tmem, mem) => meminfo_qsets d qs tmem mem
          | Crash o => Crash o
          end
      end
  end.

(** The two numbers the debug message prints. *)
Definition __scull_meminfo : M scull_st (Z * Z) := fun k s =>
  match meminfo_qsets (dev s) (qset (dev s)) 0 0 with
  | Done (tmem, mem) => Done (tmem / 1024, mem, k, s)
  | Crash o => Crash o
  end.

(** ** Reading and writing *)

Definition node_data (i : nat) (s : scull_st) : option (list (option loc)) :=
  qset (dev s) !! i ≫= data.

Definition set_node_data (i : nat) (p : list (option loc)) (s : scull_st) : scull_st :=
  set_qset (<[i := Qset (Some p)]> (qset (dev s))) s.

(** [qset->data[quantum_p]] *)
Definition data_at (p : list (option loc)) (i : Z) : M scull_st (option loc) :=
  match p !! Z.to_nat i with
  | None => crash OobRead
  | Some q => mret q
  end.

(** What a transfer gives back: the value returned, the new position and, for
    a read, the bytes the user's buffer received. *)
Record xfer := Xfer { ret : Z; pos : Z; out : list Byte.byte }.

(** Lines 171-184: from the node to the label [out]. *)
Definition read_from_node (i : nat) (flw : scull_follow) (count f_pos : Z)
    : M scull_st xfer :=
  d ← gets dev;
  p ← gets (node_data i);
  match p with
  | None => mret (Xfer 0 f_pos [])
  | Some p =>
      l ← data_at p (quantum_p flw);
      match l with
      | None => mret (Xfer 0 f_pos [])
      | Some l =>
          let room := wrap64 (quantum_len d - offset_p flw) in
          let count := if room <? count then room else count in
          src ← slab_read l (offset_p flw) count;
          '(r, bs) ← copy_to_user src;
          if negb (r =? 0) then mret (Xfer (- EFAULT) f_pos bs)
          else mret (Xfer (s64 count) (s64 (f_pos + count)) bs)
      end
  end.

(** [scull_read] between taking the lock and the label [out]. *)
Definition scull_read_locked (count f_pos : Z) : M scull_st xfer :=
  d ← gets dev;
  if len d <=? wrap64 f_pos then mret (Xfer 0 f_pos [])
  else
    let count := if len d <? wrap64 (f_pos + count) then wrap64 (len d - f_pos)
                 else count in
    '(q, flw) ← __scull_follow f_pos;
    match q with
    | None => mret (Xfer 0 f_pos [])
    | Some i => read_from_node i flw count f_pos
    end.

Definition scull_read (count f_pos : Z) : M scull_st xfer :=
  r ← __mutex_lock_interruptible_sparse;
  if negb (r =? 0) then mret (Xfer (- ERESTARTSYS) f_pos [])
  else
    x ← scull_read_locked count f_pos;
    __scull_meminfo;;
    __mutex_unlock_sparse;;
    mret x.

(** Lines 205-210: the array of the node, allocated if need be. *)
Definition get_data (i : nat) : M scull_st (option (list (option loc))) :=
  p ← gets (node_data i);
  match p with
  | Some p => mret (Some p)
  | None =>
      ok ← kmalloc;
      if (ok : bool) then
        d ← gets dev;
        let p := replicate (Z.to_nat (qset_len d)) None in
        modify (set_node_data i p);;
        mret (Some p)
      else mret None
  end.

(** Lines 211-215: the quantum, allocated if need be. *)
Definition get_quantum (i : nat) (p : list (option loc)) (j : Z) : M scull_st (option loc) :=
  l ← data_at p j;
  match l with
  | Some l => mret (Some l)
  | None =>
      l ← kmem_cache_alloc;
      match l with
      | Some l => modify (set_node_data i (<[Z.to_nat j := Some l]> p));; mret (Some l)
      | None => mret None
      end
  end.

(** Lines 217-231: the transfer into the quantum at [l]. *)
Definition write_to_quantum (l : loc) (flw : scull_follow) (ubuf : list Byte.byte)
    (f_pos : Z) : M scull_st xfer :=
  d ← gets dev;
  let room := wrap64 (quantum_len d - offset_p flw) in
  let count := if room <? zlen ubuf then room else zlen ubuf in
  '(r, bs) ← copy_from_user (take (Z.to_nat count) ubuf);
  slab_write l (offset_p flw) bs;;
  if negb (r =? 0) then mret (Xfer (- EFAULT) f_pos [])
  else
    let f_pos := s64 (f_pos + count) in
    (if len d <? wrap64 f_pos then modify (set_len (wrap64 f_pos)) else mret tt);;
    mret (Xfer (s64 count) f_pos []).

(** [scull_write] between taking the lock and the label [out]; [ubuf] are the
    [count] bytes of the user's buffer. *)
Definition scull_write_locked (ubuf : list Byte.byte) (f_pos : Z) : M scull_st xfer :=
  '(q, flw) ← __scull_follow f_pos;
  match q with
  | None => mret (Xfer (- ENOMEM) f_pos [])
  | Some i =>
      p ← get_data i;
      match p with
      | None => mret (Xfer (- ENOMEM) f_pos [])
      | Some p =>
          l ← get_quantum i p (quantum_p flw);
          match l with
          | None => mret (Xfer (- ENOMEM) f_pos [])
          | Some l => write_to_quantum l flw ubuf f_pos
          end
      end
  end.

Definition scull_write (ubuf : list Byte.byte) (f_pos : Z) : M scull_st xfer :=
  r ← __mutex_lock_interruptible_sparse;
  if negb (r =? 0) then mret (Xfer (- ERESTARTSYS) f_pos [])
  else
    x ← scull_write_locked ubuf f_pos;
    __scull_meminfo;;
    __mutex_unlock_sparse;;
    mret x.

(** ** A device to run *)

(** A device as [scull_init_module] leaves it. *)
Definition fresh_dev (quantum qsets objsize : Z) : scull_st :=
  St (Params quantum qsets SCULL_P_LEN) objsize ∅ (Dev [] quantum qsets 0).

#[export] Instance qset_node_eq_dec : EqDecision qset_node.
Proof. solve_decision. Defined.

Definition abc : list Byte.byte := [Byte.x61; Byte.x62; Byte.x63].

(** Five bytes into quanta of four: the first write stops at the boundary. *)
Example write_run :
  run_value (scull_write (abc ++ abc) 2) all_ok (fresh_dev 4 2 4)
  = Some (Xfer 2 4 []).
Proof. vm_compute. reflexivity. Qed.
