(* ===== verification/ScullInv.v ===== *)
(** * The scull device: memory invariant

    [dev_wf] is what every entry point keeps: the sizes are positive and do
    not overflow, every array has [qset_len] cells, every quantum is a live
    slab object of the cache's size, and no quantum is shared.  With it no
    operation oopses; [trim] keeps it exactly when the module parameters fit
    the cache ([params_ok]). *)

From S2P Require Import Prelude Kernel ScullParams Scull.

Implicit Types (k : kern) (s : scull_st) (qs : list qset_node) (l : loc).

(** ** Definitions *)

(** The quantum in cell [a] of node [i]. *)
Definition ptr_at (qs : list qset_node) (i a : nat) : option loc :=
  n ← qs !! i; p ← data n; mjoin (p !! a).

(** All quanta of a list of nodes, and those of the first [n] cells. *)
Definition node_ptrs (n : nat) (q : qset_node) : list loc :=
  match data q with None => [] | Some p => omap id (take n p) end.

Definition list_ptrs (n : nat) (qs : list qset_node) : list loc :=
  qs ≫= node_ptrs n.

(** [kmalloc]ed objects the list owns: its nodes and their arrays. *)
Definition owned_objs (qs : list qset_node) : Z :=
  zlen qs + zlen (omap data qs).

Record dev_wf (s : scull_st) : Prop := DevWf {
  wf_quantum : 0 < quantum_len (dev s);
  wf_qset : 0 < qset_len (dev s);
  wf_total : quantum_len (dev s) * qset_len (dev s) < 2 ^ 64;
  wf_fits : quantum_len (dev s) <= kmc_size s;
  wf_size : kmc_size s < 2 ^ 63;
  wf_len : 0 <= len (dev s) < 2 ^ 63;
  wf_arr : forall i n p, qset (dev s) !! i = Some n -> data n = Some p ->
    zlen p = qset_len (dev s);
  wf_live : forall i a l, ptr_at (qset (dev s)) i a = Some l ->
    exists blk, slab s !! l = Some blk /\ zlen blk = kmc_size s;
  wf_inj : forall i a j b l, ptr_at (qset (dev s)) i a = Some l ->
    ptr_at (qset (dev s)) j b = Some l -> i = j /\ a = b
}.

(** What the module parameters must satisfy for a device emptied now to be
    usable. *)
Definition params_ok (s : scull_st) : Prop :=
  0 < scull_quantum (par s) /\ 0 < scull_qset (par s) /\
  scull_quantum (par s) * scull_qset (par s) < 2 ^ 64 /\
  scull_quantum (par s) <= kmc_size s /\ kmc_size s < 2 ^ 63.

#[export] Instance params_ok_dec s : Decision (params_ok s).
Proof. unfold params_ok. apply _. Defined.

(** [s'] is [s] with [m] empty nodes more. *)
Definition grown (m : nat) (s s' : scull_st) : Prop :=
  s' = set_qset (qset (dev s) ++ replicate m (Qset None)) s.

(** [m'] is [m] without the objects of [ls]. *)
Definition slab_minus (ls : list loc) (m m' : gmap loc (list Byte.byte)) : Prop :=
  forall l, m' !! l = if decide (l ∈ ls) then None else m !! l.

(** The parts of a position, and the equation that characterises them. *)
Definition locate (d : scull_dev) (p : Z) : scull_follow :=
  let total := quantum_len d * qset_len d in
  Follow (p / total) (p mod total / quantum_len d) (p mod total mod quantum_len d).

Definition located (d : scull_dev) (p : Z) (flw : scull_follow) : Prop :=
  0 <= qset_p flw /\ 0 <= quantum_p flw < qset_len d /\
  0 <= offset_p flw < quantum_len d /\
  p = (qset_p flw * qset_len d + quantum_p flw) * quantum_len d + offset_p flw.

(** ** Pointers *)

Lemma ptr_at_app qs m i a :
  ptr_at (qs ++ replicate m (Qset None)) i a = ptr_at qs i a.
Proof.
  unfold ptr_at. destruct (decide (i < length qs)%nat).
  - by rewrite lookup_app_l.
  - rewrite lookup_app_r, (lookup_ge_None_2 qs i) by lia. simpl.
    destruct (replicate m (Qset None) !! (i - length qs)%nat) eqn:E; [| done].
    apply lookup_replicate in E as [-> _]. done.
Qed.

Lemma ptr_at_node qs i p :
  qs !! i ≫= data = Some p -> forall a, ptr_at qs i a = mjoin (p !! a).
Proof.
  intros H a. unfold ptr_at. destruct (qs !! i); simpl in *; [| done].
  by rewrite H.
Qed.

(** Storing the array [p] in node [i]. *)
Lemma ptr_at_set qs i p j a :
  (i < length qs)%nat ->
  ptr_at (<[i := Qset (Some p)]> qs) j a =
  if decide (i = j) then mjoin (p !! a) else ptr_at qs j a.
Proof.
  intros Hi. unfold ptr_at. destruct (decide (i = j)) as [<- | Hne].
  - by rewrite list_lookup_insert_eq.
  - by rewrite list_lookup_insert_ne.
Qed.

Lemma ptr_at_cons q qs i a : ptr_at (q :: qs) (S i) a = ptr_at qs i a.
Proof. reflexivity. Qed.

Lemma elem_of_node_ptrs n q l :
  l ∈ node_ptrs n q <-> exists a, (a < n)%nat /\ ptr_at [q] 0 a = Some l.
Proof.
  unfold node_ptrs, ptr_at. cbn. destruct (data q) as [p |]; cbn.
  - rewrite list_elem_of_omap. split.
    + intros (x & Hx & Hid). unfold id in Hid. subst x.
      apply list_elem_of_lookup in Hx as [a Ha].
      apply lookup_take_Some in Ha as [Ha ?]. exists a. by rewrite Ha.
    + intros (a & ? & Ha). exists (Some l). split; [| done].
      apply list_elem_of_lookup. exists a. rewrite lookup_take_lt by done.
      destruct (p !! a); simpl in *; congruence.
  - split; [by intros ?%not_elem_of_nil | intros (? & _ & ?); done].
Qed.

Lemma elem_of_list_ptrs n qs l :
  l ∈ list_ptrs n qs <-> exists i a, (a < n)%nat /\ ptr_at qs i a = Some l.
Proof.
  unfold list_ptrs. rewrite list_elem_of_bind. split.
  - intros (q & Hq & Hin). apply list_elem_of_lookup in Hin as [i Hi].
    apply elem_of_node_ptrs in Hq as (a & ? & Ha). exists i, a. split; [done |].
    unfold ptr_at in *. by rewrite Hi.
  - intros (i & a & ? & Ha). destruct (qs !! i) as [q |] eqn:Hi.
    + exists q. split; [| by eapply list_elem_of_lookup_2].
      apply elem_of_node_ptrs. exists a. split; [done |].
      unfold ptr_at in *. by rewrite Hi in Ha.
    + unfold ptr_at in Ha. by rewrite Hi in Ha.
Qed.

(** Without sharing, the list of quanta has no duplicates. *)
Lemma NoDup_omap_inj (p : list (option loc)) :
  (forall a b l, mjoin (p !! a) = Some l -> mjoin (p !! b) = Some l -> a = b) ->
  NoDup (omap id p).
Proof.
  induction p as [| x p IH]; intros Hinj; [constructor |].
  assert (NoDup (omap id p)) as Hp.
  { apply IH. intros a b l Ha Hb. specialize (Hinj (S a) (S b) l Ha Hb). lia. }
  destruct x as [l |]; simpl; [| done]. constructor; [| done].
  intros (x & Hx & Hid)%list_elem_of_omap. unfold id in Hid. subst x.
  apply list_elem_of_lookup in Hx as [a Ha].
  specialize (Hinj 0%nat (S a) l). simpl in Hinj. rewrite Ha in Hinj.
  specialize (Hinj eq_refl eq_refl). lia.
Qed.

Lemma NoDup_list_ptrs n qs :
  (forall i a j b l, ptr_at qs i a = Some l -> ptr_at qs j b = Some l -> i = j /\ a = b) ->
  NoDup (list_ptrs n qs).
Proof.
  induction qs as [| q qs IH]; intros Hinj; [constructor |].
  change (list_ptrs n (q :: qs)) with (node_ptrs n q ++ list_ptrs n qs).
  apply list.NoDup_app. split_and!.
  - unfold node_ptrs. destruct (data q) as [p |] eqn:Hp; [| constructor].
    apply NoDup_omap_inj. intros a b l Ha Hb.
    assert (forall c, mjoin (take n p !! c) = Some l -> ptr_at (q :: qs) 0 c = Some l) as Hc.
    { intros c Hc. unfold ptr_at. cbn. rewrite Hp. cbn.
      destruct (decide (c < n)%nat).
      - by rewrite lookup_take_lt in Hc.
      - rewrite lookup_take_ge in Hc by lia. done. }
    by destruct (Hinj 0%nat a 0%nat b l (Hc _ Ha) (Hc _ Hb)).
  - intros l (a & _ & Ha)%elem_of_node_ptrs (i & b & _ & Hb)%elem_of_list_ptrs.
    destruct (Hinj 0%nat a (S i) b l Ha Hb) as [? _]. lia.
  - apply IH. intros i a j b l Ha Hb.
    destruct (Hinj (S i) a (S j) b l Ha Hb). lia.
Qed.

(** ** Emptying *)

Lemma slab_minus_nil m : slab_minus [] m m.
Proof. intros l. case_decide as H; [by apply not_elem_of_nil in H | done]. Qed.

Lemma slab_minus_cons l ls m m' :
  l ∉ ls -> slab_minus ls (delete l m) m' -> slab_minus (l :: ls) m m'.
Proof.
  intros Hl H l'. rewrite (H l'), lookup_delete.
  destruct (decide (l' = l)) as [-> |]; repeat case_decide;
    rewrite ?elem_of_cons in *; tauto || congruence.
Qed.

Lemma slab_minus_app ls1 ls2 m m1 m2 :
  slab_minus ls1 m m1 -> slab_minus ls2 m1 m2 -> slab_minus (ls1 ++ ls2) m m2.
Proof.
  intros H1 H2 l. rewrite (H2 l), (H1 l).
  repeat case_decide; rewrite ?elem_of_app in *; tauto.
Qed.

Lemma slab_minus_live l ls m m' :
  slab_minus ls m m' -> l ∉ ls -> is_Some (m !! l) -> is_Some (m' !! l).
Proof. intros H ? ?. rewrite (H l). by case_decide. Qed.

Lemma set_slab_slab m m' s : set_slab m (set_slab m' s) = set_slab m s.
Proof. reflexivity. Qed.

Lemma owned_objs_cons q qs :
  owned_objs (q :: qs) = owned_objs qs + 1 +
    match data q with None => 0 | Some _ => 1 end.
Proof.
  unfold owned_objs.
  change (omap data (q :: qs)) with
    (match data q with Some p => p :: omap data qs | None => omap data qs end).
  destruct (data q); rewrite ?length_cons; lia.
Qed.

Lemma wp_free_bulk n p k s :
  (n <= length p)%nat ->
  NoDup (omap id (take n p)) ->
  (forall l, l ∈ omap id (take n p) -> is_Some (slab s !! l)) ->
  wp (kmem_cache_free_bulk n p)
    (fun _ k' s' => k' = k /\
       exists m, s' = set_slab m s /\ slab_minus (omap id (take n p)) (slab s) m) k s.
Proof.
  revert p s. induction n as [| n IH]; intros p s Hn Hnd Hl.
  - split; [done |]. exists (slab s). split; [by destruct s | apply slab_minus_nil].
  - destruct p as [| [l |] p]; simpl in *; [lia | | apply IH; auto with lia].
    apply list.NoDup_cons in Hnd as [Hnot Hnd]. unfold kmem_cache_free.
    wp_steps; [by apply bool_decide_eq_true, Hl; left |].
    eapply wp_mono; [apply IH; [lia | done |] |].
    + intros l' Hl'. simpl. rewrite lookup_delete_ne; [apply Hl; by right |].
      intros ->. done.
    + intros _ k' s' (-> & m & -> & Hm). split; [done |]. exists m.
      split; [done | by apply slab_minus_cons].
Qed.

Lemma wp_trim_qsets qlen qs k s :
  0 < qlen < 2 ^ 64 ->
  (forall i n p, qs !! i = Some n -> data n = Some p -> zlen p = qlen) ->
  NoDup (list_ptrs (Z.to_nat (qlen - 1)) qs) ->
  (forall l, l ∈ list_ptrs (Z.to_nat (qlen - 1)) qs -> is_Some (slab s !! l)) ->
  wp (trim_qsets qlen qs)
    (fun _ k' s' => k' = Kern (ans k) (held k) (kobjs k - owned_objs qs) (lockdep k) /\
       exists m, s' = set_slab m s /\
         slab_minus (list_ptrs (Z.to_nat (qlen - 1)) qs) (slab s) m) k s.
Proof.
  intros Hq. revert k s. induction qs as [| q qs IH]; intros k s Harr Hnd Hl.
  - split; [destruct k; f_equal; unfold owned_objs; simpl; lia |].
    exists (slab s). split; [by destruct s | apply slab_minus_nil].
  - change (list_ptrs (Z.to_nat (qlen - 1)) (q :: qs)) with
      (node_ptrs (Z.to_nat (qlen - 1)) q ++ list_ptrs (Z.to_nat (qlen - 1)) qs) in *.
    apply list.NoDup_app in Hnd as (Hnd1 & Hdis & Hnd2).
    assert (forall i n p, qs !! i = Some n -> data n = Some p -> zlen p = qlen) as Harr'.
    { intros i. apply (Harr (S i)). }
    pose proof (owned_objs_cons q qs) as Howned.
    simpl trim_qsets. unfold node_ptrs in Hnd1, Hl, Hdis |- *.
    destruct (data q) as [p |] eqn:Hp; wp_steps.
    + rewrite wrap64_small by lia.
      pose proof (Harr 0%nat q p eq_refl Hp) as Hlen.
      eapply wp_mono; [apply wp_free_bulk; [lia | done |] |].
      { intros l Hin. apply Hl, elem_of_app. by left. }
      intros _ k' s' (-> & m & -> & Hm). wp_steps.
      eapply wp_mono; [apply IH; [done | done |] |].
      { intros l Hin. simpl. eapply slab_minus_live; [done | |].
        - intros Hin'. by apply (Hdis l).
        - apply Hl, elem_of_app. by right. }
      intros _ k' s' (-> & m' & -> & Hm'). cbn. split; [f_equal; lia |].
      exists m'. split; [done |]. by eapply slab_minus_app.
    + eapply wp_mono; [apply IH; [done | done |] |]; [by apply Hl |].
      intros _ k' s' (-> & m' & -> & Hm'). cbn. split; [f_equal; lia |].
      by exists m'.
Qed.

(** What emptying a device does, without any condition on the parameters. *)
Lemma wp_trim k s :
  held k = true -> dev_wf s ->
  wp __scull_trim (fun _ k' s' =>
    k' = Kern (ans k) true (kobjs k - owned_objs (qset (dev s))) (lockdep k) /\
    exists m, s' = set_dev (Dev [] (scull_quantum (par s)) (scull_qset (par s)) 0) (set_slab m s) /\
      slab_minus (list_ptrs (Z.to_nat (qset_len (dev s) - 1)) (qset (dev s))) (slab s) m)
    k s.
Proof.
  intros Hh W. unfold __scull_trim. wp_steps.
  pose proof (wf_quantum s W). pose proof (wf_qset s W). pose proof (wf_total s W).
  eapply wp_mono; [apply wp_trim_qsets |].
  - split; [done | nia].
  - apply (wf_arr s W).
  - apply NoDup_list_ptrs, (wf_inj s W).
  - intros l (i & a & _ & Ha)%elem_of_list_ptrs.
    destruct (wf_live s W i a l Ha) as (blk & -> & _). done.
  - intros _ k' s' (-> & m & -> & Hm). wp_steps. rewrite Hh. split; [done |].
    by exists m.
Qed.

(** A device just emptied is well formed when the parameters fit. *)
Lemma dev_wf_empty s :
  params_ok s -> dev_wf (set_dev (Dev [] (scull_quantum (par s)) (scull_qset (par s)) 0) s).
Proof.
  intros (? & ? & ? & ? & ?). split; simpl; try lia; intros.
  - done.
  - done.
  - done.
Qed.

(** ** Positions *)

Lemma locate_located d p :
  0 < quantum_len d -> 0 < qset_len d -> 0 <= p -> located d p (locate d p).
Proof.
  intros Hq Hs Hp. unfold located, locate. cbn [qset_p quantum_p offset_p].
  assert (0 < quantum_len d * qset_len d) as Ht by nia.
  pose proof (Z.div_pos p _ Hp Ht).
  pose proof (Z.mod_pos_bound p _ Ht) as Hr.
  pose proof (Z.div_mod p (quantum_len d * qset_len d)) as Hdm.
  set (rest := p mod (quantum_len d * qset_len d)) in *.
  pose proof (Z.mod_pos_bound rest _ Hq).
  pose proof (Z.div_pos rest _ (proj1 Hr) Hq).
  pose proof (Z.div_lt_upper_bound rest (quantum_len d) (qset_len d) Hq).
  pose proof (Z.div_mod rest (quantum_len d)).
  split_and!; nia.
Qed.

Lemma located_unique d p f1 f2 :
  located d p f1 -> located d p f2 -> f1 = f2.
Proof.
  destruct f1 as [a1 b1 c1], f2 as [a2 b2 c2]. unfold located. cbn.
  intros (? & ? & ? & E1) (? & ? & ? & E2).
  destruct (Z.div_mod_unique (quantum_len d) (a1 * qset_len d + b1)
    (a2 * qset_len d + b2) c1 c2) as [E ->]; [lia.. | nia |].
  destruct (Z.div_mod_unique (qset_len d) a1 a2 b1 b2) as [-> ->]; [lia.. | nia |].
  done.
Qed.

(** Positions in the same quantum differ only by their offset. *)
Lemma locate_add d p j :
  0 < quantum_len d -> 0 < qset_len d -> 0 <= p -> 0 <= j ->
  offset_p (locate d p) + j < quantum_len d ->
  locate d (p + j) =
    Follow (qset_p (locate d p)) (quantum_p (locate d p)) (offset_p (locate d p) + j).
Proof.
  intros Hq Hs Hp Hj Hlt. apply (located_unique d (p + j)).
  - apply locate_located; lia.
  - destruct (locate_located d p) as (? & ? & ? & E); [done.. |].
    unfold located. cbn [qset_p quantum_p offset_p]. lia.
Qed.

(** ** Following *)

Lemma grown_0 s : grown 0 s s.
Proof.
  unfold grown. rewrite app_nil_r. by destruct s as [? ? ? []].
Qed.

Lemma grown_trans m1 m2 s1 s2 s3 :
  grown m1 s1 s2 -> grown m2 s2 s3 -> grown (m1 + m2) s1 s3.
Proof.
  unfold grown. intros -> ->. unfold set_qset, set_dev. cbn. do 2 f_equal.
  by rewrite <- app_assoc, <- replicate_add.
Qed.

Lemma grown_ptr_at m s s' i a :
  grown m s s' -> ptr_at (qset (dev s')) i a = ptr_at (qset (dev s)) i a.
Proof. intros ->. apply ptr_at_app. Qed.

Lemma grown_wf m s s' : grown m s s' -> dev_wf s -> dev_wf s'.
Proof.
  intros -> [? ? ? ? ? ? Harr Hlive Hinj].
  split; cbn; auto; intros *; rewrite ?ptr_at_app; eauto.
  intros [Hi | [_ Hi]]%lookup_app_Some Hp; [eauto |].
  apply lookup_replicate in Hi as [-> _]. done.
Qed.

Lemma wp_follow_next n i k s :
  (i < length (qset (dev s)))%nat ->
  wp (follow_next n i) (fun q k' s' =>
    held k' = held k /\
    exists m, grown m s s' /\ kobjs k' = kobjs k + Z.of_nat m /\
      match q with
      | None => (length (qset (dev s)) <= i + n)%nat
      | Some j => j = (i + n)%nat /\ (j < length (qset (dev s')))%nat
      end) k s.
Proof.
  revert i k s. induction n as [| n IH]; intros i k s Hi; cbn [follow_next].
  - wp_steps. split; [done |]. exists 0%nat.
    split; [apply grown_0 | lia].
  - wp_steps.
    + rewrite bool_decide_eq_true in *. eapply wp_mono; [by apply IH |].
      intros q k' s' (? & m & ? & ? & Hq). split; [done |]. exists m.
      split_and!; [done.. |]. destruct q; lia.
    + rewrite bool_decide_eq_false in *.
      assert (grown 1 s (set_qset (qset (dev s) ++ [Qset None]) s)) as Hg by done.
      eapply wp_mono; [apply IH; cbn; rewrite length_app; cbn; lia |].
      cbn. intros q k' s' (? & m & Hg' & ? & Hq). split; [done |].
      exists (1 + m)%nat.
      split_and!; [by eapply grown_trans | lia |].
      destruct q; rewrite ?length_app in Hq; cbn in Hq; lia.
    + rewrite bool_decide_eq_false in *. split; [done |]. exists 0%nat.
      split_and!; [apply grown_0 | cbn; lia | lia].
Qed.

Lemma wp_follow f_pos k s :
  held k = true -> dev_wf s -> 0 <= f_pos < 2 ^ 63 ->
  wp (__scull_follow f_pos) (fun x k' s' =>
    held k' = true /\ x.2 = locate (dev s) f_pos /\
    exists m, grown m s s' /\ kobjs k' = kobjs k + Z.of_nat m /\
      match x.1 with
      | None => (length (qset (dev s)) <= Z.to_nat (qset_p x.2))%nat
      | Some i => i = Z.to_nat (qset_p x.2) /\ (i < length (qset (dev s')))%nat
      end) k s.
Proof.
  intros Hh W Hp. pose proof (wf_quantum s W). pose proof (wf_qset s W).
  pose proof (wf_total s W). unfold __scull_follow.
  do 2 wp_step. cbv beta zeta. rewrite !wrap64_small by (lia || nia).
  wp_steps; [apply negb_true_iff, Z.eqb_neq; nia | apply negb_true_iff, Z.eqb_neq; lia | | |].
  - rewrite bool_decide_eq_true in *. rename select (qset _ = []) into Hqs.
    eapply wp_mono; [apply wp_follow_next; cbn; lia |].
    cbn. intros q k' s' (? & m & Hg & ? & Hq). wp_steps. cbn.
    split_and!; [congruence | done |]. exists (1 + m)%nat.
    assert (grown 1 s (set_qset [Qset None] s)) as Hg1.
    { unfold grown. by rewrite Hqs. }
    split_and!; [by eapply grown_trans | lia |].
    destruct q; rewrite ?Hqs; cbn; lia.
  - rewrite bool_decide_eq_true in *. rename select (qset _ = []) into Hqs.
    cbn. split_and!; [done | done |]. exists 0%nat.
    split_and!; [apply grown_0 | lia |]. rewrite Hqs. cbn. lia.
  - rewrite bool_decide_eq_false in *. eapply wp_mono; [apply wp_follow_next |].
    { destruct (qset (dev s)); [done | cbn; lia]. }
    cbn. intros q k' s' (? & m & ? & ? & ?). wp_steps. cbn.
    split_and!; [congruence | done |]. by exists m.
Qed.

(** ** The memory report reads nothing out of bounds *)

Lemma meminfo_quanta_done n p ql t m :
  (n <= length p)%nat -> exists r, meminfo_quanta n p ql t m = Done r.
Proof.
  revert p t m. induction n as [| n IH]; intros p t m Hn; cbn; [by eexists |].
  destruct p as [| [l |] p]; cbn in *; [lia | apply IH; lia | by eexists].
Qed.

Lemma meminfo_qsets_done d qs t m :
  (forall i n p, qs !! i = Some n -> data n = Some p -> zlen p = qset_len d) ->
  exists r, meminfo_qsets d qs t m = Done r.
Proof.
  revert t m. induction qs as [| q qs IH]; intros t m Harr; cbn; [by eexists |].
  assert (forall i n p, qs !! i = Some n -> data n = Some p -> zlen p = qset_len d)
    by (intros i; apply (Harr (S i))).
  destruct (data q) as [p |] eqn:Hp; [| auto].
  pose proof (Harr 0%nat q p eq_refl Hp).
  destruct (meminfo_quanta_done (Z.to_nat (qset_len d)) p (quantum_len d)
    (wrap64 (wrap64 (t + sizeof_qset) + qset_len d * sizeof_ptr))
    (wrap64 (wrap64 (m + sizeof_qset) + len d))) as [[t' m'] ->]; [lia | auto].
Qed.

Lemma wp_meminfo (Q : Z * Z -> kern -> scull_st -> Prop) k s :
  dev_wf s -> (forall r, Q r k s) -> wp __scull_meminfo Q k s.
Proof.
  intros W HQ. unfold wpc, __scull_meminfo.
  destruct (meminfo_qsets_done (dev s) (qset (dev s)) 0 0 (wf_arr s W))
    as [[t m] ->]. apply HQ.
Qed.
