(* ===== verification/ScullFile.v ===== *)
(** * The scull device as a file

    [byte_at] is what the device stores at a position; a device is a sparse
    file of bytes with a length.  [scull_read] and [scull_write] are proved to
    implement the reads and writes of such a file, cut at the end of the file
    and at the end of the quantum, on every path. *)

From S2P Require Import Prelude Kernel ScullParams Scull ScullInv.

Implicit Types (k : kern) (s : scull_st).

(** ** Definitions *)

(** The byte in cell [a] of node [i] at offset [o]. *)
Definition cell_byte (s : scull_st) (i a o : nat) : option Byte.byte :=
  l ← ptr_at (qset (dev s)) i a; blk ← slab s !! l; blk !! o.

Definition byte_at (s : scull_st) (p : Z) : option Byte.byte :=
  let flw := locate (dev s) p in
  cell_byte s (Z.to_nat (qset_p flw)) (Z.to_nat (quantum_p flw)) (Z.to_nat (offset_p flw)).

(** The specification: a sparse file.  Where [f_byte] is [None] nothing was
    ever stored. *)
Record sfile := SFile { f_size : Z; f_byte : Z -> option Byte.byte }.

(** Two files with the same length and the same bytes. *)
#[export] Instance sfile_equiv : Equiv sfile := fun f f' =>
  f_size f = f_size f' /\ forall p, f_byte f p = f_byte f' p.

Definition contents (s : scull_st) : sfile := SFile (len (dev s)) (byte_at s).

(** [bs] is what the file holds from [p] on. *)
Definition holds (f : sfile) (p : Z) (bs : list Byte.byte) : Prop :=
  forall (j : nat) b, bs !! j = Some b -> f_byte f (p + Z.of_nat j) = Some b.

(** Every byte stored in [f] outside [p, p + n) is still there in [f']. *)
Definition keeps_outside (p n : Z) (f f' : sfile) : Prop :=
  forall q b, 0 <= q -> ~ (p <= q < p + n) -> f_byte f q = Some b -> f_byte f' q = Some b.

(** What is left of the quantum at position [p]. *)
Definition quantum_room (s : scull_st) (p : Z) : Z :=
  quantum_len (dev s) - offset_p (locate (dev s) p).

(** The specification of a read of [count] bytes at [p]. *)
Definition read_spec (f : sfile) (room count p : Z) (x : xfer) : Prop :=
  (ret x = 0 /\ pos x = p /\ out x = [] /\ (f_size f <= p \/ f_byte f p = None)) \/
  (ret x = - EFAULT /\ pos x = p /\ holds f p (out x)) \/
  (p < f_size f /\ ret x = Z.min (Z.min count (f_size f - p)) room /\
   pos x = p + ret x /\ zlen (out x) = ret x /\ holds f p (out x)).

(** The specification of a write of [bs] at [p]. *)
Definition write_spec (f : sfile) (room : Z) (bs : list Byte.byte) (p : Z) (x : xfer)
    (f' : sfile) : Prop :=
  (ret x = - ENOMEM /\ pos x = p /\ f_size f' = f_size f /\ keeps_outside p 0 f f') \/
  (ret x = - EFAULT /\ pos x = p /\ f_size f' = f_size f /\
   keeps_outside p (Z.min (zlen bs) room) f f') \/
  (ret x = Z.min (zlen bs) room /\ pos x = p + ret x /\
   f_size f' = Z.max (f_size f) (p + ret x) /\
   keeps_outside p (ret x) f f' /\ holds f' p (take (Z.to_nat (ret x)) bs)).

(** The parameters and the device's sizes. *)
Definition same_geometry (s s' : scull_st) : Prop :=
  par s' = par s /\
  kmc_size s' = kmc_size s /\ quantum_len (dev s') = quantum_len (dev s) /\
  qset_len (dev s') = qset_len (dev s).

(** Everything of the state but the slab and the list of nodes. *)
Definition same_dims (s s' : scull_st) : Prop :=
  same_geometry s s' /\ len (dev s') = len (dev s).

(** Every stored byte is still there. *)
Definition keeps_cells (s s' : scull_st) : Prop :=
  forall i a o b, cell_byte s i a o = Some b -> cell_byte s' i a o = Some b.

(** The entry point gave up before doing anything. *)
Definition interrupted (k : kern) (s : scull_st) (p : Z) (x : xfer) (k' : kern)
    (s' : scull_st) : Prop :=
  x = Xfer (- ERESTARTSYS) p [] /\ s' = s /\ kobjs k' = kobjs k.

(** ** Lemmas *)

#[export] Instance sfile_equivalence : Equivalence (@equiv sfile _).
Proof.
  split.
  - by intros f.
  - intros f f' [E H]. split; [done | by intros p].
  - intros f f' f'' [E H] [E' H']. split; [congruence |]. intros p. by rewrite H.
Qed.

#[export] Instance holds_proper : Proper ((≡) ==> (=) ==> (=) ==> iff) holds.
Proof.
  intros f f' [_ Hb] p ? <- bs ? <-. unfold holds. by setoid_rewrite Hb.
Qed.

#[export] Instance f_byte_proper : Proper ((≡) ==> (=) ==> (=)) f_byte.
Proof. intros f f' [_ Hb] p ? <-. apply Hb. Qed.

#[export] Instance f_size_proper : Proper ((≡) ==> (=)) f_size.
Proof. by intros f f' [E _]. Qed.

#[export] Instance read_spec_proper :
  Proper ((≡) ==> (=) ==> (=) ==> (=) ==> (=) ==> iff) read_spec.
Proof.
  intros f f' Hf r ? <- c ? <- p ? <- x ? <-. unfold read_spec. by rewrite !Hf.
Qed.

#[export] Instance same_dims_refl : Reflexive same_dims.
Proof. intros s. by repeat split. Qed.

#[export] Instance same_dims_trans : Transitive same_dims.
Proof. unfold same_dims, same_geometry. intros s1 s2 s3. intuition congruence. Qed.

#[export] Instance same_geometry_trans : Transitive same_geometry.
Proof. unfold same_geometry. intros s1 s2 s3. intuition congruence. Qed.

#[export] Instance keeps_cells_refl : Reflexive keeps_cells.
Proof. by intros s i a o b. Qed.

#[export] Instance keeps_cells_trans : Transitive keeps_cells.
Proof. unfold keeps_cells. intros s1 s2 s3. auto. Qed.

Lemma same_geometry_locate s s' p :
  same_geometry s s' -> locate (dev s') p = locate (dev s) p.
Proof. intros (_ & _ & E1 & E2). unfold locate. by rewrite E1, E2. Qed.

Lemma same_dims_locate s s' p : same_dims s s' -> locate (dev s') p = locate (dev s) p.
Proof. intros [Hg _]. by apply same_geometry_locate. Qed.

Lemma same_geometry_room s s' p :
  same_geometry s s' -> quantum_room s' p = quantum_room s p.
Proof.
  intros Hg. unfold quantum_room. rewrite (same_geometry_locate s s') by done.
  f_equal. apply Hg.
Qed.

Lemma keeps_outside_intro s s' p n :
  same_dims s s' -> keeps_cells s s' -> keeps_outside p n (contents s) (contents s').
Proof.
  intros Hd Hk q b _ _. unfold contents, byte_at. cbn [f_byte].
  rewrite (same_dims_locate s s') by done. apply Hk.
Qed.

Lemma grown_same_dims m s s' : grown m s s' -> same_dims s s'.
Proof. intros ->. by repeat split. Qed.

Lemma grown_cell_byte m s s' i a o : grown m s s' -> cell_byte s' i a o = cell_byte s i a o.
Proof. intros Hg. unfold cell_byte. rewrite (grown_ptr_at m s s') by done. by rewrite Hg. Qed.

Lemma grown_keeps m s s' : grown m s s' -> keeps_cells s s'.
Proof. intros Hg i a o b. by rewrite (grown_cell_byte m s s'). Qed.

(** The whole quantum of an allocated cell is there. *)
Lemma cell_byte_blk s i a l blk o :
  ptr_at (qset (dev s)) i a = Some l -> slab s !! l = Some blk ->
  cell_byte s i a o = blk !! o.
Proof. intros Hp Hb. unfold cell_byte. by rewrite Hp; simpl; rewrite Hb. Qed.

Lemma node_data_ptr s i p a :
  node_data i s = Some p -> ptr_at (qset (dev s)) i a = mjoin (p !! a).
Proof. intros H. by apply ptr_at_node. Qed.

Lemma node_data_lt s i p : node_data i s = Some p -> (i < length (qset (dev s)))%nat.
Proof.
  unfold node_data. destruct (qset (dev s) !! i) eqn:E; [| done].
  intros _. by eapply lookup_lt_Some.
Qed.

(** Storing an array with the same quanta, or one more that is fresh. *)
Lemma set_node_data_wf s i p :
  dev_wf s -> (i < length (qset (dev s)))%nat -> zlen p = qset_len (dev s) ->
  (forall a l, mjoin (p !! a) = Some l ->
     exists blk, slab s !! l = Some blk /\ zlen blk = kmc_size s) ->
  (forall a b l, mjoin (p !! a) = Some l -> mjoin (p !! b) = Some l -> a = b) ->
  (forall a j b l, i <> j -> mjoin (p !! a) = Some l ->
     ptr_at (qset (dev s)) j b <> Some l) ->
  dev_wf (set_node_data i p s).
Proof.
  intros [? ? ? ? ? ? Harr Hlive Hinj] Hi Hp Hl Hpp Hpo. split; cbn; auto.
  - intros j n p' [(-> & <- & _) | [_ Hj]]%list_lookup_insert_Some Hn; [| eauto].
    by injection Hn as <-.
  - intros j a l. rewrite ptr_at_set by done. case_decide; eauto.
  - intros j a j' b l. rewrite !ptr_at_set by done.
    repeat case_decide; intros Ha Hb; [| exfalso | exfalso | eauto].
    + split; [congruence | by eapply Hpp].
    + by eapply (Hpo a j' b l).
    + by eapply (Hpo b j a l).
Qed.

Lemma wp_get_data i k s :
  dev_wf s -> (i < length (qset (dev s)))%nat ->
  wp (get_data i) (fun p k' s' =>
    held k' = held k /\ dev_wf s' /\ same_dims s s' /\ slab s' = slab s /\
    (forall j a, ptr_at (qset (dev s')) j a = ptr_at (qset (dev s)) j a) /\
    match p with
    | None => True
    | Some p => node_data i s' = Some p /\ zlen p = qset_len (dev s)
    end) k s.
Proof.
  intros W Hi. unfold get_data. wp_steps.
  destruct (node_data i s) as [p |] eqn:Hn; wp_steps.
  - split_and!; try done. unfold node_data in Hn.
    destruct (qset (dev s) !! i) as [n |] eqn:En; [| done].
    by apply (wf_arr s W i n p).
  - pose proof (wf_qset s W) as Hq.
    set (p := replicate (Z.to_nat (qset_len (dev s))) None).
    assert (forall a, mjoin (p !! a) = @None loc) as Hnone.
    { intros a. unfold p.
      destruct (replicate _ _ !! a) eqn:E; [| done].
      by apply lookup_replicate in E as [-> _]. }
    assert (forall j a, ptr_at (<[i:=Qset (Some p)]> (qset (dev s))) j a
      = ptr_at (qset (dev s)) j a) as Hsame.
    { intros j a. rewrite ptr_at_set by done. case_decide as E; [subst j | done].
      rewrite Hnone. unfold node_data, ptr_at in *.
      destruct (qset (dev s) !! i); simpl in *; [by rewrite Hn | done]. }
    split_and!; try done.
    + apply set_node_data_wf; try done; try (intros; by rewrite Hnone in *).
      unfold p. rewrite length_replicate. lia.
    + cbn. unfold node_data. cbn. by rewrite list_lookup_insert_eq.
    + unfold p. rewrite length_replicate. lia.
  - done.
Qed.

Lemma wp_kmem_cache_alloc (Q : option loc -> kern -> scull_st -> Prop) k s :
  0 <= kmc_size s ->
  (forall f, Q None (Kern f (held k) (kobjs k) (lockdep k)) s) ->
  (forall f l blk, slab s !! l = None -> zlen blk = kmc_size s ->
     Q (Some l) (Kern f (held k) (kobjs k) (lockdep k)) (set_slab (<[l := blk]> (slab s)) s)) ->
  wp kmem_cache_alloc Q k s.
Proof.
  intros Hsz HN HS. unfold kmem_cache_alloc. wp_steps; [| apply HN].
  apply HS.
  - apply not_elem_of_dom, is_fresh.
  - rewrite length_stale_bytes. unfold id. lia.
Qed.

Lemma wp_data_at p i (Q : option loc -> kern -> scull_st -> Prop) k s x :
  p !! Z.to_nat i = Some x -> Q x k s -> wp (data_at p i) Q k s.
Proof. intros H HQ. unfold data_at. by rewrite H. Qed.

(** A fresh object in the free cell [j] of node [i]. *)
Lemma add_quantum_wf s i p j l blk :
  dev_wf s -> node_data i s = Some p -> p !! j = Some None ->
  slab s !! l = None -> zlen blk = kmc_size s ->
  let s' := set_node_data i (<[j := Some l]> p) (set_slab (<[l := blk]> (slab s)) s) in
  dev_wf s' /\ keeps_cells s s' /\ ptr_at (qset (dev s')) i j = Some l.
Proof.
  intros W Hn Hj Hl Hblk s'.
  pose proof (node_data_lt s i p Hn) as Hi.
  pose proof (lookup_lt_Some _ _ _ Hj) as Hjlt.
  assert (forall a, mjoin (<[j := Some l]> p !! a) =
    if decide (j = a) then Some l else ptr_at (qset (dev s)) i a) as Hp.
  { intros a. destruct (decide (j = a)) as [<- | Hne].
    - by rewrite list_lookup_insert_eq.
    - rewrite list_lookup_insert_ne by done. by rewrite <- (node_data_ptr s i p). }
  assert (forall i' a, ptr_at (qset (dev s)) i' a <> Some l) as Hfresh.
  { intros i' a Ha. destruct (wf_live s W i' a l Ha) as (b & Hb & _). congruence. }
  split_and!.
  - subst s'. apply set_node_data_wf.
    + destruct W as [? ? ? ? ? ? Harr Hlive Hinj]. split; cbn; auto.
      intros i' a l' Ha. destruct (decide (l = l')) as [<- | Hne];
        [by destruct (Hfresh i' a) |].
      rewrite lookup_insert_ne by done. eauto.
    + done.
    + rewrite length_insert. cbn. unfold node_data in Hn.
      destruct (qset (dev s) !! i) as [n |] eqn:En; [| done].
      by apply (wf_arr s W i n p).
    + intros a l'. rewrite Hp. cbn. case_decide; intros Ha.
      * injection Ha as <-. rewrite lookup_insert_eq. eauto.
      * destruct (wf_live s W i a l' Ha) as (b & ? & ?).
        rewrite lookup_insert_ne; [eauto |]. intros <-. by destruct (Hfresh i a).
    + intros a b l'. rewrite !Hp. repeat case_decide; intros Ha Hb; try congruence;
        first [ exfalso; apply (Hfresh i b); congruence
              | exfalso; apply (Hfresh i a); congruence
              | by destruct (wf_inj s W i a i b l' Ha Hb) ].
    + intros a i' b l' Hne. rewrite Hp. cbn [set_slab dev]. case_decide; intros Ha Hb.
      * apply (Hfresh i' b). congruence.
      * destruct (wf_inj s W i a i' b l' Ha Hb). congruence.
  - intros i' a o b. unfold cell_byte. subst s'. cbn. rewrite ptr_at_set by done.
    destruct (decide (i = i')) as [<- | Hne].
    + rewrite Hp. case_decide as Ha; [subst a |].
      * by rewrite (node_data_ptr s i p), Hj.
      * destruct (ptr_at (qset (dev s)) i a) as [l' |] eqn:El; [| done]. simpl.
        rewrite lookup_insert_ne; [done |]. intros <-. by destruct (Hfresh i a).
    + destruct (ptr_at (qset (dev s)) i' a) as [l' |] eqn:El; [| done]. simpl.
      rewrite lookup_insert_ne; [done |]. intros <-. by destruct (Hfresh i' a).
  - subst s'. cbn. rewrite ptr_at_set by done. rewrite decide_True by done.
    by rewrite list_lookup_insert_eq.
Qed.

Lemma wp_get_quantum i p j k s :
  dev_wf s -> node_data i s = Some p -> 0 <= j < qset_len (dev s) ->
  zlen p = qset_len (dev s) ->
  wp (get_quantum i p j) (fun l k' s' =>
    held k' = held k /\ dev_wf s' /\ same_dims s s' /\ keeps_cells s s' /\
    match l with
    | None => True
    | Some l => ptr_at (qset (dev s')) i (Z.to_nat j) = Some l
    end) k s.
Proof.
  intros W Hn Hj Hp. unfold get_quantum. wp_step.
  destruct (lookup_lt_is_Some_2 p (Z.to_nat j)) as [x Hx]; [lia |].
  eapply wp_data_at; [done |]. destruct x as [l |]; wp_steps.
  - split_and!; try done. by rewrite (node_data_ptr s i p), Hx.
  - pose proof (wf_quantum s W). pose proof (wf_fits s W).
    apply wp_kmem_cache_alloc; [lia | |]; intros; wp_steps.
    + done.
    + destruct (add_quantum_wf s i p (Z.to_nat j) l blk) as (? & ? & ?); auto.
      by split_and!.
Qed.

(** Writing inside the quantum in cell [j] of node [i]. *)
Lemma wp_slab_write i j l off bs k s :
  dev_wf s -> ptr_at (qset (dev s)) i j = Some l ->
  0 <= off -> off + zlen bs <= quantum_len (dev s) ->
  wp (slab_write l off bs) (fun _ k' s' =>
    k' = k /\ dev_wf s' /\ same_dims s s' /\
    forall i' j' o, cell_byte s' i' j' o =
      if decide (i' = i /\ j' = j /\ Z.to_nat off <= o < Z.to_nat off + length bs)%nat
      then bs !! (o - Z.to_nat off)%nat else cell_byte s i' j' o) k s.
Proof.
  intros W Hp Hoff Hlen. unfold slab_write. wp_steps.
  destruct (wf_live s W i j l Hp) as (blk & Hb & Hsz). rewrite Hb.
  pose proof (wf_fits s W).
  wp_steps; [apply orb_true_iff; right; lia |].
  split_and!; [done | | done |].
  - destruct W as [? ? ? ? ? ? Harr Hlive Hinj]. split; cbn; auto.
    intros i' a l' Ha. destruct (decide (l = l')) as [<- | Hne].
    + rewrite lookup_insert_eq. eexists. split; [done |].
      rewrite length_splice; lia.
    + rewrite lookup_insert_ne by done. eauto.
  - intros i' j' o. case_decide as Hd.
    + destruct Hd as (-> & -> & ?).
      erewrite cell_byte_blk; [| done | cbn; by rewrite lookup_insert_eq].
      rewrite <- (lookup_splice_in off bs blk (o - Z.to_nat off)) by lia. f_equal. lia.
    + unfold cell_byte. cbn.
      destruct (ptr_at (qset (dev s)) i' j') as [l' |] eqn:El; [| done]. simpl.
      destruct (decide (l = l')) as [<- | Hne]; [| by rewrite lookup_insert_ne].
      rewrite lookup_insert_eq, Hb. simpl.
      destruct (wf_inj s W i' j' i j l El Hp) as [-> ->].
      apply lookup_splice_out; lia.
Qed.

Lemma wp_slab_read i j l off n (Q : list Byte.byte -> kern -> scull_st -> Prop) k s :
  dev_wf s -> ptr_at (qset (dev s)) i j = Some l ->
  0 <= off -> 0 <= n -> off + n <= quantum_len (dev s) ->
  (forall bs, zlen bs = n ->
     (forall (o : nat) b, bs !! o = Some b -> cell_byte s i j (Z.to_nat off + o) = Some b) ->
     Q bs k s) ->
  wp (slab_read l off n) Q k s.
Proof.
  intros W Hp ? ? Hn HQ. unfold slab_read. wp_steps.
  destruct (wf_live s W i j l Hp) as (blk & Hb & Hsz). rewrite Hb.
  pose proof (wf_fits s W).
  wp_steps; [apply orb_true_iff; right; lia |].
  pose proof (length_slice off n blk). apply HQ; [lia |].
  intros o b Ho. erewrite cell_byte_blk by done.
  rewrite <- lookup_slice with (n := n); [done | | lia].
  apply lookup_lt_Some in Ho. lia.
Qed.

(** The byte at an offset of the quantum of position [p]. *)
Lemma byte_at_add s p j :
  dev_wf s -> 0 <= p -> 0 <= j -> j < quantum_room s p ->
  byte_at s (p + j) =
  cell_byte s (Z.to_nat (qset_p (locate (dev s) p)))
    (Z.to_nat (quantum_p (locate (dev s) p)))
    (Z.to_nat (offset_p (locate (dev s) p) + j)).
Proof.
  intros W Hp Hj Hlt. unfold byte_at, quantum_room in *.
  pose proof (wf_quantum s W). pose proof (wf_qset s W).
  rewrite locate_add by (auto; lia). done.
Qed.

(** Where the node or the cell is missing, nothing is stored. *)
Lemma byte_at_missing s p :
  ptr_at (qset (dev s)) (Z.to_nat (qset_p (locate (dev s) p)))
    (Z.to_nat (quantum_p (locate (dev s) p))) = None ->
  byte_at s p = None.
Proof. intros H. unfold byte_at, cell_byte. by rewrite H. Qed.


(** A file's bytes are the same in a device with only more empty nodes. *)
Lemma grown_byte_at m s s' p : grown m s s' -> byte_at s' p = byte_at s p.
Proof.
  intros Hg. unfold byte_at.
  rewrite (same_dims_locate s s'), (grown_cell_byte m s s');
    eauto using grown_same_dims.
Qed.

Lemma quantum_room_pos s p : dev_wf s -> 0 <= p -> 0 < quantum_room s p <= quantum_len (dev s).
Proof.
  intros W Hp. pose proof (wf_quantum s W). pose proof (wf_qset s W).
  destruct (locate_located (dev s) p) as (_ & _ & ? & _); [lia.. |].
  unfold quantum_room. lia.
Qed.

Lemma wp_read_from_node n f_pos k s :
  let flw := locate (dev s) f_pos in
  dev_wf s -> 0 <= f_pos -> 0 <= n -> f_pos + n < 2 ^ 63 ->
  wp (read_from_node (Z.to_nat (qset_p flw)) flw n f_pos) (fun x k' s' =>
    s' = s /\ held k' = held k /\ kobjs k' = kobjs k /\
    ((x = Xfer 0 f_pos [] /\ byte_at s f_pos = None) \/
     (ret x = - EFAULT /\ pos x = f_pos /\ holds (contents s) f_pos (out x)) \/
     (ret x = Z.min n (quantum_room s f_pos) /\ pos x = f_pos + ret x /\
      zlen (out x) = ret x /\ holds (contents s) f_pos (out x)))) k s.
Proof.
  intros flw W Hf Hn Hfn. pose proof (wf_quantum s W). pose proof (wf_qset s W).
  pose proof (wf_fits s W). pose proof (wf_size s W).
  pose proof (quantum_room_pos s f_pos W Hf).
  destruct (locate_located (dev s) f_pos) as (Hqp & Hsp & Hop & _); [lia.. |].
  fold flw in Hqp, Hsp, Hop. unfold read_from_node. wp_steps.
  destruct (node_data _ s) as [p |] eqn:Hp; wp_steps.
  2:{ split_and!; auto. left. split; [done |]. apply byte_at_missing. fold flw.
      unfold node_data, ptr_at in *. destruct (_ !! _); simpl in *; [by rewrite Hp | done]. }
  assert (zlen p = qset_len (dev s)) as Hlen.
  { unfold node_data in Hp. destruct (qset (dev s) !! _) as [n' |] eqn:En; [| done].
    by apply (wf_arr s W (Z.to_nat (qset_p flw)) n' p). }
  destruct (lookup_lt_is_Some_2 p (Z.to_nat (quantum_p flw))) as [x Hx]; [lia |].
  pose proof (node_data_ptr s _ p (Z.to_nat (quantum_p flw)) Hp) as Hptr.
  rewrite Hx in Hptr. simpl in Hptr. eapply wp_data_at; [done |].
  destruct x as [l |]; wp_steps.
  2:{ split_and!; auto. left. split; [done |]. by apply byte_at_missing. }
  change (quantum_len (dev s) - offset_p flw) with (quantum_room s f_pos).
  rewrite !wrap64_small by lia.
  set (c := if quantum_room s f_pos <? n then _ else _).
  assert (c = Z.min n (quantum_room s f_pos)) as Hc.
  { unfold c. destruct (_ <? _) eqn:E; lia. }
  clearbody c. subst c.
  eapply wp_slab_read; [done | done | lia | lia | unfold quantum_room in *; fold flw; lia |].
  intros bs Hbs Hcell.
  assert (holds (contents s) f_pos bs) as Hholds.
  { intros j b Hj. cbn. pose proof (lookup_lt_Some _ _ _ Hj).
    rewrite byte_at_add by (auto; lia). fold flw.
    rewrite <- (Hcell j b Hj). f_equal. lia. }
  wp_steps; try lia; split_and!; auto; right.
  - right. cbn [ret pos out]. rewrite !s64_small by lia. split_and!; auto; lia.
  - left. cbn [ret pos out]. split_and!; auto.
    intros j b [Hj _]%lookup_take_Some. by apply Hholds.
Qed.

Lemma scull_read_locked_spec count f_pos k s :
  held k = true -> dev_wf s -> 0 <= f_pos -> 0 <= count -> f_pos + count < 2 ^ 63 ->
  wp (scull_read_locked count f_pos) (fun x k' s' =>
    held k' = true /\ dev_wf s' /\
    (exists m, grown m s s' /\ kobjs k' = kobjs k + Z.of_nat m) /\
    read_spec (contents s) (quantum_room s f_pos) count f_pos x) k s.
Proof.
  intros Hh W Hf Hc Hfc. pose proof (wf_len s W).
  unfold scull_read_locked. do 2 wp_step. rewrite !wrap64_small by lia.
  destruct (len (dev s) <=? f_pos) eqn:Hend; wp_step.
  { split_and!; [done.. | exists 0%nat; split; [apply grown_0 | lia] |].
    left. cbn. split_and!; auto. left. lia. }
  set (n := if len (dev s) <? f_pos + count then _ else _).
  assert (n = Z.min count (len (dev s) - f_pos)) as Hn.
  { unfold n. destruct (_ <? _) eqn:E; [rewrite wrap64_small by lia |]; lia. }
  clearbody n. eapply wp_mono; [apply wp_follow; auto; lia |].
  intros [q flw] k' s' (Hh' & Hflw & m & Hg & Hk & Hq). cbn [fst snd] in *. subst flw.
  pose proof (grown_wf m s s' Hg W) as W'.
  destruct q as [i |]; wp_steps.
  - destruct Hq as [-> _].
    rewrite <- (same_dims_locate s s') by eauto using grown_same_dims.
    eapply wp_mono; [apply wp_read_from_node; auto; lia |].
    intros x k'' s'' (-> & Hh'' & Hk'' & Hx).
    split_and!; [congruence | done | exists m; split; [done | congruence] |].
    assert (quantum_room s' f_pos = quantum_room s f_pos) as <-.
    { by rewrite Hg. }
    assert (forall bs, holds (contents s') f_pos bs -> holds (contents s) f_pos bs) as Hh1.
    { intros bs H1 j b Hj. specialize (H1 j b Hj). cbn in *.
      by rewrite (grown_byte_at m s s') in H1. }
    rewrite (grown_byte_at m s s') in Hx by done. unfold read_spec. cbn [f_size f_byte contents].
    destruct Hx as [[-> ?] | [(? & ? & ?) | (-> & ? & ? & ?)]]; auto 10.
    right. right. split_and!; auto; lia.
  - split_and!; [done | done | eauto |]. left. cbn. split_and!; auto. right.
    apply byte_at_missing. unfold ptr_at. by rewrite lookup_ge_None_2.
Qed.

(** Putting [bs] into the quantum of [p] leaves the other positions alone. *)
Lemma splice_outside s s' p bs :
  let flw := locate (dev s) p in
  dev_wf s -> 0 <= p -> zlen bs <= quantum_room s p -> same_dims s s' ->
  (forall i j o, cell_byte s' i j o =
     if decide (i = Z.to_nat (qset_p flw) /\ j = Z.to_nat (quantum_p flw) /\
                Z.to_nat (offset_p flw) <= o < Z.to_nat (offset_p flw) + length bs)%nat
     then bs !! (o - Z.to_nat (offset_p flw))%nat else cell_byte s i j o) ->
  keeps_outside p (zlen bs) (contents s) (contents s').
Proof.
  intros flw W Hp Hbs Hd Hcell q b Hq Hout. cbn. unfold byte_at.
  rewrite (same_dims_locate s s') by done. rewrite Hcell.
  case_decide as Hin; [exfalso | done].
  pose proof (wf_quantum s W). pose proof (wf_qset s W).
  destruct (locate_located (dev s) p) as (? & ? & ? & Ep); [lia.. |].
  destruct (locate_located (dev s) q) as (? & ? & ? & Eq); [lia.. |].
  fold flw in Ep. destruct Hin as (Hi & Hj & Ho).
  assert (qset_p (locate (dev s) q) = qset_p flw) as E1 by (unfold flw in *; lia).
  assert (quantum_p (locate (dev s) q) = quantum_p flw) as E2 by (unfold flw in *; lia).
  rewrite E1, E2 in Eq. unfold quantum_room in Hbs. fold flw in Hbs.
  unfold flw in *. lia.
Qed.

(** ... and what was put there is read back. *)
Lemma splice_holds s s' p bs :
  let flw := locate (dev s) p in
  dev_wf s -> 0 <= p -> zlen bs <= quantum_room s p -> same_dims s s' ->
  (forall i j o, cell_byte s' i j o =
     if decide (i = Z.to_nat (qset_p flw) /\ j = Z.to_nat (quantum_p flw) /\
                Z.to_nat (offset_p flw) <= o < Z.to_nat (offset_p flw) + length bs)%nat
     then bs !! (o - Z.to_nat (offset_p flw))%nat else cell_byte s i j o) ->
  holds (contents s') p bs.
Proof.
  intros flw W Hp Hbs Hd Hcell j b Hj. cbn. unfold byte_at.
  rewrite (same_dims_locate s s') by done.
  pose proof (wf_quantum s W). pose proof (wf_qset s W).
  pose proof (lookup_lt_Some _ _ _ Hj).
  destruct (locate_located (dev s) p) as (? & ? & ? & _); [lia.. |].
  rewrite locate_add by (unfold quantum_room in *; lia).
  cbn [qset_p quantum_p offset_p]. rewrite Hcell. fold flw.
  rewrite decide_True by (split_and!; auto; unfold flw in *; lia).
  rewrite <- Hj. f_equal. unfold flw. lia.
Qed.

Lemma set_len_wf n s : 0 <= n < 2 ^ 63 -> dev_wf s -> dev_wf (set_len n s).
Proof. intros Hn [? ? ? ? ? ? Harr Hlive Hinj]. split; cbn; eauto. Qed.

Lemma wp_write_to_quantum l ubuf f_pos k s :
  let flw := locate (dev s) f_pos in
  dev_wf s -> 0 <= f_pos -> f_pos + zlen ubuf < 2 ^ 63 ->
  ptr_at (qset (dev s)) (Z.to_nat (qset_p flw)) (Z.to_nat (quantum_p flw)) = Some l ->
  wp (write_to_quantum l flw ubuf f_pos) (fun x k' s' =>
    held k' = held k /\ dev_wf s' /\ same_geometry s s' /\
    write_spec (contents s) (quantum_room s f_pos) ubuf f_pos x (contents s')) k s.
Proof.
  intros flw W Hf Hfu Hptr. pose proof (wf_len s W). pose proof (wf_fits s W).
  pose proof (wf_size s W). pose proof (quantum_room_pos s f_pos W Hf).
  destruct (locate_located (dev s) f_pos) as (Hqp & Hsp & Hop & _);
    [pose proof (wf_quantum s W); lia | pose proof (wf_qset s W); lia | done |].
  fold flw in Hqp, Hsp, Hop.
  unfold write_to_quantum. wp_steps.
  all: change (quantum_len (dev s) - offset_p flw) with (quantum_room s f_pos) in *.
  all: assert (quantum_room s f_pos = quantum_len (dev s) - offset_p flw) as Hroom by done.
  all: rewrite ?(wrap64_small (quantum_room s f_pos)) in * by lia.
  all: set (c := if quantum_room s f_pos <? zlen ubuf then _ else _) in *.
  all: assert (c = Z.min (zlen ubuf) (quantum_room s f_pos)) as Hc
    by (unfold c; destruct (_ <? _) eqn:E; lia); clearbody c; subst c.
  all: set (n := Z.min (zlen ubuf) (quantum_room s f_pos)) in *.
  all: assert (zlen (take (Z.to_nat n) ubuf) = n) as Hn by (rewrite length_take; lia).
  - eapply wp_mono; [eapply wp_slab_write; [done | done | lia | lia] |].
    intros _ k' s' (-> & W' & Hd & Hcell).
    pose proof (splice_holds s s' f_pos (take (Z.to_nat n) ubuf) W Hf ltac:(lia) Hd Hcell).
    pose proof (splice_outside s s' f_pos (take (Z.to_nat n) ubuf) W Hf ltac:(lia) Hd Hcell).
    rewrite !(s64_small (f_pos + n)), !(wrap64_small (f_pos + n)), !(s64_small n) by lia.
    destruct Hd as [Hgeo Hlen]. unfold write_spec, contents in *.
    cbn [f_size f_byte] in *.
    wp_steps; (split_and!; [done | try (apply set_len_wf; lia || done); done | done |]);
      right; right; cbn [ret pos f_size dev set_len len set_dev];
      rewrite Hn in *; split_and!; auto; lia.
  - rewrite Hn in *.
    eapply wp_mono; [eapply wp_slab_write; [done | done | lia | lia] |].
    intros _ k' s' (-> & W' & Hd & Hcell).
    pose proof (splice_outside s s' f_pos bs W Hf ltac:(lia) Hd Hcell) as Hout.
    destruct Hd as [Hgeo Hlen].
    wp_steps; [split_and!; auto | lia | lia]. right. left.
    cbn [ret pos f_size contents].
    replace (zlen bs) with n in Hout by lia. split_and!; auto.
Qed.

(** The specification does not see what happens before it in other cells. *)
Lemma write_spec_pre f f1 room bs p x f' :
  f_size f1 = f_size f -> keeps_outside p 0 f f1 ->
  write_spec f1 room bs p x f' -> write_spec f room bs p x f'.
Proof.
  intros E K.
  assert (forall n, 0 <= n -> keeps_outside p n f1 f' -> keeps_outside p n f f') as Kn.
  { intros n Hn K1 q b Hq Hout Hb. apply K1; [done.. |]. apply K; auto. lia. }
  unfold write_spec. rewrite E.
  intros [(? & ? & ? & ?) | [(? & ? & ? & ?) | (? & ? & ? & ? & ?)]].
  - left. split_and!; auto. apply Kn; [lia | done].
  - right. left. split_and!; auto. intros q b Hq Hout Hb.
    destruct (decide (p <= q < p + 0)); [lia |]. auto.
  - right. right. split_and!; auto. intros q b Hq Hout Hb.
    destruct (decide (p <= q < p + 0)); [lia |]. auto.
Qed.

Lemma scull_write_locked_spec ubuf f_pos k s :
  held k = true -> dev_wf s -> 0 <= f_pos -> f_pos + zlen ubuf < 2 ^ 63 ->
  wp (scull_write_locked ubuf f_pos) (fun x k' s' =>
    held k' = true /\ dev_wf s' /\ same_geometry s s' /\
    write_spec (contents s) (quantum_room s f_pos) ubuf f_pos x (contents s')) k s.
Proof.
  intros Hh W Hf Hfu. unfold scull_write_locked. wp_step.
  eapply wp_mono; [apply wp_follow; auto; lia |].
  intros [q flw] k1 s1 (Hh1 & Hflw & m & Hg & _ & Hq). cbn [fst snd] in *. subst flw.
  pose proof (grown_wf m s s1 Hg W) as W1. pose proof (grown_same_dims m s s1 Hg) as D1.
  pose proof (grown_keeps m s s1 Hg) as K1.
  assert (forall s', same_dims s s' -> keeps_cells s s' -> dev_wf s' ->
    write_spec (contents s) (quantum_room s f_pos) ubuf f_pos (Xfer (- ENOMEM) f_pos [])
      (contents s')) as Hnomem.
  { intros s' D K _. left. cbn. split_and!; auto; [apply D |].
    by apply keeps_outside_intro. }
  destruct q as [i |]; wp_steps; [| by split_and!; [done | done | apply D1 | auto]].
  destruct Hq as [-> Hi].
  destruct (locate_located (dev s) f_pos) as (Hqp & Hsp & Hop & _);
    [pose proof (wf_quantum s W); lia | pose proof (wf_qset s W); lia | done |].
  eapply wp_mono; [by apply wp_get_data |].
  intros p k2 s2 (Hh2 & W2 & D2 & Hs2 & Hp2 & Hp).
  assert (keeps_cells s1 s2) as K2.
  { intros i a o b. unfold cell_byte. by rewrite Hp2, Hs2. }
  destruct p as [p |]; wp_steps;
    [| by split_and!; [congruence | done | etrans; [apply D1 | apply D2] | apply Hnomem; [etrans | etrans |]]].
  destruct Hp as [Hp Hpl].
  assert (qset_len (dev s1) = qset_len (dev s)) as E1 by apply (proj1 D1).
  assert (qset_len (dev s2) = qset_len (dev s1)) as E2 by apply (proj1 D2).
  eapply wp_mono; [apply wp_get_quantum; auto; lia |].
  intros l k3 s3 (Hh3 & W3 & D3 & K3 & Hl).
  assert (same_dims s s3) as D by (by do 2 etrans). assert (keeps_cells s s3) as K by (by do 2 etrans).
  destruct l as [l |]; wp_steps; [| by split_and!; [congruence | done | apply D | apply Hnomem]].
  rewrite <- (same_dims_locate s s3 f_pos) in * by done.
  eapply wp_mono; [by apply wp_write_to_quantum |].
  intros x k4 s4 (Hh4 & W4 & G4 & Hx).
  split_and!; [congruence | done | etrans; [apply D | done] |].
  rewrite <- (same_geometry_room s s3) by apply D.
  apply (write_spec_pre _ (contents s3)); [cbn; apply D | by apply keeps_outside_intro | done].
Qed.

(** ** The entry points *)

Lemma grown_contents m s s' : grown m s s' -> contents s' ≡ contents s.
Proof.
  intros Hg. split; [by rewrite Hg |]. intros p. by apply (grown_byte_at m).
Qed.

Lemma wp_scull_read count f_pos k s :
  held k = false -> dev_wf s -> 0 <= f_pos -> 0 <= count -> f_pos + count < 2 ^ 63 ->
  wp (scull_read count f_pos) (fun x k' s' =>
    held k' = false /\ dev_wf s' /\ same_dims s s' /\ contents s' ≡ contents s /\
    (interrupted k s f_pos x k' s' \/
     read_spec (contents s) (quantum_room s f_pos) count f_pos x)) k s.
Proof.
  intros Hh W Hf Hc Hfc. unfold scull_read. wp_steps; try done.
  - eapply wp_mono; [by apply scull_read_locked_spec |].
    intros x k' s' (Hh' & W' & (m & Hg & _) & Hx). wp_step.
    apply wp_meminfo; [done |]. intros _. wp_steps. split_and!; auto;
      [by apply (grown_same_dims m) | by apply (grown_contents m)].
  - unfold interrupted. by split_and!; auto.
Qed.

(** C4: [scull_read] returns what the file holds, cut at its end and at the end
    of the quantum; it changes nothing of the contents and the sizes, keeps the
    invariant and gives the lock back, whatever the kernel answers. *)
Theorem scull_read_ok count f_pos k s :
  held k = false -> dev_wf s -> 0 <= f_pos -> 0 <= count -> f_pos + count < 2 ^ 63 ->
  wp (scull_read count f_pos) (fun x k' s' =>
    held k' = false /\ dev_wf s' /\ same_dims s s' /\ contents s' ≡ contents s /\
    (interrupted k s f_pos x k' s' \/
     read_spec (contents s) (quantum_room s f_pos) count f_pos x)) k s.
Proof. apply wp_scull_read. Qed.

Lemma wp_scull_write ubuf f_pos k s :
  held k = false -> dev_wf s -> 0 <= f_pos -> f_pos + zlen ubuf < 2 ^ 63 ->
  wp (scull_write ubuf f_pos) (fun x k' s' =>
    held k' = false /\ dev_wf s' /\ same_geometry s s' /\
    (interrupted k s f_pos x k' s' \/
     write_spec (contents s) (quantum_room s f_pos) ubuf f_pos x (contents s'))) k s.
Proof.
  intros Hh W Hf Hfu. unfold scull_write. wp_steps; try done.
  - eapply wp_mono; [by apply scull_write_locked_spec |].
    intros x k' s' (Hh' & W' & Hg & Hx). wp_step.
    apply wp_meminfo; [done |]. intros _. wp_steps. by split_and!; auto.
  - unfold interrupted. by split_and!; auto.
Qed.

(** C3: [scull_write] stores a prefix of the user's bytes, up to the end of the
    quantum, grows the length to cover them, keeps every other stored byte,
    and on every failure leaves position and length as they were; it keeps
    the invariant and gives the lock back, whatever the kernel answers. *)
Theorem scull_write_ok ubuf f_pos k s :
  held k = false -> dev_wf s -> 0 <= f_pos -> f_pos + zlen ubuf < 2 ^ 63 ->
  wp (scull_write ubuf f_pos) (fun x k' s' =>
    held k' = false /\ dev_wf s' /\ same_geometry s s' /\
    (interrupted k s f_pos x k' s' \/
     write_spec (contents s) (quantum_room s f_pos) ubuf f_pos x (contents s'))) k s.
Proof. apply wp_scull_write. Qed.

Lemma holds_unique f p bs1 bs2 :
  holds f p bs1 -> holds f p bs2 -> length bs1 = length bs2 -> bs1 = bs2.
Proof.
  intros H1 H2 Hl. apply list_eq. intros j.
  destruct (bs1 !! j) as [b1 |] eqn:E1.
  - destruct (lookup_lt_is_Some_2 bs2 j) as [b2 E2];
      [rewrite <- Hl; by eapply lookup_lt_Some |].
    specialize (H1 j b1 E1). specialize (H2 j b2 E2). congruence.
  - apply lookup_ge_None in E1. symmetry. apply lookup_ge_None. lia.
Qed.

(** Cells are inside their arrays. *)
Lemma ptr_at_bound s i a l :
  dev_wf s -> ptr_at (qset (dev s)) i a = Some l -> Z.of_nat a < qset_len (dev s).
Proof.
  intros W. unfold ptr_at. destruct (qset (dev s) !! i) as [n |] eqn:En; [| done].
  simpl. destruct (data n) as [p |] eqn:Ep; [| done]. simpl. intros Ha.
  rewrite <- (wf_arr s W i n p En Ep).
  destruct (p !! a) eqn:E; [| done]. apply lookup_lt_Some in E. lia.
Qed.

(** Running two entry points one after the other. *)
Definition write_then_read (ubuf : list Byte.byte) (p : Z) : M scull_st (xfer * xfer) :=
  x ← scull_write ubuf p; y ← scull_read (zlen ubuf) p; mret (x, y).

(** C9: what one write stored, a read of the same range gives back, byte for
    byte and the same number of them, unless a signal interrupts the read's wait
    for the lock (-ERESTARTSYS) or the copy to the user faults (-EFAULT). *)
Theorem scull_write_read ubuf p k s :
  held k = false -> dev_wf s -> 0 <= p -> p + zlen ubuf < 2 ^ 63 ->
  wp (write_then_read ubuf p) (fun '(x, y) k' s' =>
    0 < ret x ->
    ret y = - ERESTARTSYS \/ ret y = - EFAULT \/
    (ret y = ret x /\ out y = take (Z.to_nat (ret x)) ubuf)) k s.
Proof.
  intros Hh W Hp Hpu. unfold write_then_read. wp_step.
  eapply wp_mono; [by apply wp_scull_write |].
  intros x k1 s1 (Hh1 & W1 & Hgeo & Hx). wp_step.
  eapply wp_mono; [apply wp_scull_read; auto; lia |].
  intros y k2 s2 (_ & _ & _ & _ & Hy). wp_step. intros Hpos.
  destruct Hy as [(-> & _) | Hy]; [by left |]. right.
  destruct Hx as [(-> & _) | [(? & _) | [(? & _) | (Hr & _ & Hsz & _ & Hold)]]];
    [done | unfold ENOMEM in *; lia | unfold EFAULT in *; lia |].
  rewrite (same_geometry_room s s1) in Hy by done.
  destruct Hy as [(_ & _ & _ & Hno) | [(? & _) | (_ & Hry & _ & Hlen & Hold')]]; auto.
  - exfalso. cbn [f_size contents] in *. destruct Hno as [? | Hno]; [lia |].
    destruct (lookup_lt_is_Some_2 (take (Z.to_nat (ret x)) ubuf) 0) as [b Hb];
      [rewrite length_take; lia |].
    specialize (Hold 0%nat b Hb). rewrite Z.add_0_r in Hold. congruence.
  - right. assert (ret y = ret x) as E by (cbn [f_size contents] in *; lia).
    split; [done |]. apply (holds_unique (contents s1) p); [done.. |].
    rewrite length_take. lia.
Qed.

(** Emptying a device gives back every node, every array and every quantum
    but those of the last cell of each array: [kmem_cache_free_bulk] is told
    [qset_len - 1].  Those stay allocated and nothing points to them. *)
Theorem scull_trim_leaks k s :
  held k = true -> dev_wf s ->
  wp __scull_trim (fun _ k' s' =>
    dev s' = Dev [] (scull_quantum (par s)) (scull_qset (par s)) 0 /\
    kobjs k' = kobjs k - owned_objs (qset (dev s)) /\
    (forall i a l, ptr_at (qset (dev s)) i a = Some l ->
       slab s' !! l = if decide (Z.of_nat a = qset_len (dev s) - 1)
                      then slab s !! l else None) /\
    (forall l, (forall i a, ptr_at (qset (dev s)) i a <> Some l) ->
       slab s' !! l = slab s !! l)) k s.
Proof.
  intros Hh W. eapply wp_mono; [by apply wp_trim |].
  intros _ k' s' (-> & m & -> & Hm). cbn. split_and!; [done | done | |].
  - intros i a l Ha. rewrite (Hm l).
    destruct (decide (l ∈ _)) as [Hin | Hnin], (decide (Z.of_nat a = _)) as [E | E]; try done.
    + exfalso. apply elem_of_list_ptrs in Hin as (j & b & Hb & Hl).
      destruct (wf_inj s W i a j b l Ha Hl) as [_ ->]. lia.
    + exfalso. apply Hnin, elem_of_list_ptrs. exists i, a. split; [| done].
      pose proof (ptr_at_bound s i a l W Ha). lia.
  - intros l Hl. rewrite (Hm l). rewrite decide_False; [done |].
    intros (i & a & _ & Ha)%elem_of_list_ptrs. by apply (Hl i a).
Qed.

(** Opening for writing only empties the device, takes the module parameters
    as its new sizes and keeps the invariant when they fit the cache; any
    other open changes nothing. *)
Theorem scull_open_ok filp k s :
  held k = false -> dev_wf s ->
  wp (scull_open filp) (fun r k' s' =>
    held k' = false /\
    if Z.land (f_flags filp) O_ACCMODE =? O_WRONLY then
      (r = - ERESTARTSYS /\ s' = s) \/
      (r = 0 /\ f_size (contents s') = 0 /\ (forall p, f_byte (contents s') p = None) /\
       quantum_len (dev s') = scull_quantum (par s) /\ qset_len (dev s') = scull_qset (par s) /\
       (params_ok s <-> dev_wf s'))
    else r = 0 /\ s' = s) k s.
Proof.
  intros Hh W. unfold scull_open. wp_steps; try done; [| by split_and!; auto].
  eapply wp_mono; [by apply wp_trim |].
  intros _ k' s' (-> & m & -> & Hm). wp_steps. split; [done |]. right.
  split_and!; try done. split; [apply (dev_wf_empty (set_slab m s)) |].
  intros []. cbn in *. unfold params_ok. lia.
Qed.

(** ** Witnesses *)

(** A device of two quanta of four bytes, both written. *)
Definition sample_dev : scull_st :=
  St (Params 4 2 8) 4 (<[1%positive := abc ++ [Byte.x64]]> {[2%positive := abc ++ [Byte.x65]]})
    (Dev [Qset (Some [Some 1%positive; Some 2%positive])] 4 2 8).

Lemma sample_ptr i a l :
  ptr_at (qset (dev sample_dev)) i a = Some l ->
  (i = 0 /\ a = 0 /\ l = 1%positive)%nat \/ (i = 0 /\ a = 1 /\ l = 2%positive)%nat.
Proof.
  destruct i as [| i]; [| by destruct i].
  destruct a as [| [| a]]; cbn; intros E; simplify_eq; auto.
Qed.

Lemma sample_wf : dev_wf sample_dev.
Proof.
  split; try (cbn; lia).
  - intros [| i] n p H1 H2; cbn in *; [by simplify_eq/= | by destruct i].
  - intros i a l [(_ & _ & ->) | (_ & _ & ->)]%sample_ptr; eexists; split; by vm_compute.
  - intros i a j b l [(? & ? & ?) | (? & ? & ?)]%sample_ptr
      [(? & ? & ?) | (? & ? & ?)]%sample_ptr; naive_solver.
Qed.

Lemma scull_read_ok_witness :
  wp (scull_read 6 2) (fun x k' s' => held k' = false /\ dev_wf s') all_ok sample_dev.
Proof.
  eapply wp_mono; [apply (scull_read_ok 6 2); [reflexivity | apply sample_wf | lia..] |].
  cbv beta. intros x k' s' (H1 & H2 & _). exact (conj H1 H2).
Defined.

Lemma scull_write_ok_witness :
  wp (scull_write abc 7) (fun x k' s' => held k' = false /\ dev_wf s') all_ok sample_dev.
Proof.
  eapply wp_mono; [apply (scull_write_ok abc 7); [reflexivity | apply sample_wf | cbn; lia..] |].
  cbv beta. intros x k' s' (H1 & H2 & _). exact (conj H1 H2).
Defined.

Lemma scull_write_read_witness :
  wp (write_then_read abc 4) (fun '(x, y) _ _ => 0 < ret x ->
    ret y = - ERESTARTSYS \/ ret y = - EFAULT \/
    (ret y = ret x /\ out y = take (Z.to_nat (ret x)) abc)) all_ok sample_dev.
Proof.
  apply (scull_write_read abc 4); [reflexivity | apply sample_wf | cbn; lia..].
Defined.

(** Of two quanta the second is lost. *)
Lemma scull_trim_leaks_witness :
  wp __scull_trim (fun _ _ s' => slab s' !! 1%positive = None /\
    slab s' !! 2%positive = Some (abc ++ [Byte.x65]))
    (Kern (fun _ => 0) true 2 true) sample_dev.
Proof.
  eapply wp_mono; [apply scull_trim_leaks; [reflexivity | apply sample_wf] |].
  cbv beta. intros _ k' s' (_ & _ & H & _). split.
  - exact (H 0%nat 0%nat 1%positive eq_refl).
  - exact (H 0%nat 1%nat 2%positive eq_refl).
Defined.

Lemma scull_open_ok_witness :
  wp (scull_open (File 0 O_WRONLY FMODE_WRITE)) (fun r k' s' => held k' = false)
    all_ok sample_dev.
Proof.
  eapply wp_mono; [apply scull_open_ok; [reflexivity | apply sample_wf] |].
  cbv beta. intros r k' s' (H & _). exact H.
Defined.
