(* ===== verification/ScullIoctl.v ===== *)
(** * The ioctl of scull (src/scull/ioctl.c, src/scull/scull.h)

    [scull_ioctl] reads and writes the module parameters.  The commands are
    the numbers the [_IO] macros of asm-generic/ioctl.h build. *)

From S2P Require Import Prelude Kernel ScullParams.

(** ** Command numbers *)

Definition _IOC (dir type nr size : Z) : Z :=
  Z.lor (Z.lor (Z.shiftl dir 30) (Z.shiftl type 8)) (Z.lor nr (Z.shiftl size 16)).

Definition _IOC_NR (cmd : Z) : Z := Z.land cmd 255.
Definition _IOC_TYPE (cmd : Z) : Z := Z.land (Z.shiftr cmd 8) 255.

Definition sizeof_int : Z := 4.
Definition _IO (type nr : Z) : Z := _IOC 0 type nr 0.
Definition _IOW (type nr size : Z) : Z := _IOC 1 type nr size.
Definition _IOR (type nr size : Z) : Z := _IOC 2 type nr size.
Definition _IOWR (type nr size : Z) : Z := _IOC 3 type nr size.

(** 'k' *)
Definition SCULL_IOC_MAGIC : Z := 107.

Definition SCULL_IOCRESET : Z := _IO SCULL_IOC_MAGIC 0.
Definition SCULL_IOCSQUANTUM : Z := _IOW SCULL_IOC_MAGIC 1 sizeof_int.
Definition SCULL_IOCSQSET : Z := _IOW SCULL_IOC_MAGIC 2 sizeof_int.
Definition SCULL_IOCTQUANTUM : Z := _IO SCULL_IOC_MAGIC 3.
Definition SCULL_IOCTQSET : Z := _IO SCULL_IOC_MAGIC 4.
Definition SCULL_IOCGQUANTUM : Z := _IOR SCULL_IOC_MAGIC 5 sizeof_int.
Definition SCULL_IOCGQSET : Z := _IOR SCULL_IOC_MAGIC 6 sizeof_int.
Definition SCULL_IOCQQUANTUM : Z := _IO SCULL_IOC_MAGIC 7.
Definition SCULL_IOCQQSET : Z := _IO SCULL_IOC_MAGIC 8.
Definition SCULL_IOCXQUANTUM : Z := _IOWR SCULL_IOC_MAGIC 9 sizeof_int.
Definition SCULL_IOCXQSET : Z := _IOWR SCULL_IOC_MAGIC 10 sizeof_int.
Definition SCULL_IOCHQUANTUM : Z := _IO SCULL_IOC_MAGIC 11.
Definition SCULL_IOCHQSET : Z := _IO SCULL_IOC_MAGIC 12.
Definition SCULL_P_IOCTSIZE : Z := _IO SCULL_IOC_MAGIC 13.
Definition SCULL_P_IOCQSIZE : Z := _IO SCULL_IOC_MAGIC 14.

Definition SCULL_IOC_MAXNR : Z := 14.

(** ** State *)

(** The parameters, and the [int] the user's argument points to. *)
Record ioctl_st := IoSt { iopar : params; ucell : Z }.

Definition set_par (f : params -> params) (s : ioctl_st) : ioctl_st :=
  IoSt (f (iopar s)) (ucell s).

(** [access_ok]: whether the address range is in user space. *)
Definition access_ok : M ioctl_st bool := a ← ask; mret (a =? 0).

(** [__get_user(x, p)]: the error code and the value given to [x], which is 0
    when the access faults. *)
Definition __get_user : M ioctl_st (Z * Z) :=
  a ← ask;
  if a =? 0 then v ← gets ucell; mret (0, v) else mret (- EFAULT, 0).

(** [__put_user(v, p)] for a pointer to [int]. *)
Definition __put_user (v : Z) : M ioctl_st Z :=
  a ← ask;
  if a =? 0 then modify (fun s => IoSt (iopar s) (s32 v));; mret 0
  else mret (- EFAULT).

(** ** The handler *)

(** [cap]: the caller has CAP_SYS_ADMIN. *)
Definition scull_ioctl (cap : bool) (cmd arg : Z) : M ioctl_st Z :=
  if negb (_IOC_TYPE cmd =? SCULL_IOC_MAGIC) then mret (- ENOTTY)
  else if SCULL_IOC_MAXNR <? _IOC_NR cmd then mret (- ENOTTY)
  else
    ok ← access_ok;
    if negb ok then mret (- EFAULT)
    else if cmd =? SCULL_IOCRESET then
      modify (set_par (set_quantum SCULL_QUANTUM));;
      modify (set_par (set_qset_param SCULL_QSET));;
      mret 0
    else if cmd =? SCULL_IOCSQUANTUM then
      if negb cap then mret (- EPERM)
      else
        '(ret, v) ← __get_user;
        modify (set_par (set_quantum (wrap64 v)));;
        mret ret
    else if cmd =? SCULL_IOCTQUANTUM then
      if negb cap then mret (- EPERM)
      else modify (set_par (set_quantum arg));; mret 0
    else if cmd =? SCULL_IOCGQUANTUM then
      p ← gets iopar; __put_user (scull_quantum p)
    else if cmd =? SCULL_IOCQQUANTUM then
      p ← gets iopar; mret (s64 (scull_quantum p))
    else if cmd =? SCULL_IOCXQUANTUM then
      if negb cap then mret (- EPERM)
      else
        p ← gets iopar;
        let tmp := s32 (scull_quantum p) in
        '(ret, v) ← __get_user;
        modify (set_par (set_quantum (wrap64 v)));;
        if ret =? 0 then __put_user tmp else mret ret
    else if cmd =? SCULL_IOCHQUANTUM then
      if negb cap then mret (- EPERM)
      else
        p ← gets iopar;
        let tmp := s32 (scull_quantum p) in
        modify (set_par (set_quantum arg));;
        mret tmp
    else if cmd =? SCULL_P_IOCTSIZE then
      modify (set_par (set_p_len arg));; mret 0
    else if cmd =? SCULL_P_IOCQSIZE then
      p ← gets iopar; mret (s64 (scull_p_len p))
    else mret (- ENOTTY).

(** The commands the handler knows. *)
Definition handled : list Z :=
  [SCULL_IOCRESET; SCULL_IOCSQUANTUM; SCULL_IOCTQUANTUM; SCULL_IOCGQUANTUM;
   SCULL_IOCQQUANTUM; SCULL_IOCXQUANTUM; SCULL_IOCHQUANTUM;
   SCULL_P_IOCTSIZE; SCULL_P_IOCQSIZE].

(** The six commands scull.h declares for the size of a quantum set. *)
Definition qset_commands : list Z :=
  [SCULL_IOCSQSET; SCULL_IOCTQSET; SCULL_IOCGQSET; SCULL_IOCQQSET;
   SCULL_IOCXQSET; SCULL_IOCHQSET].

(** ** Lemmas *)

Lemma wp_access_ok (Q : bool -> kern -> ioctl_st -> Prop) k s :
  (forall f b, Q b (Kern f (held k) (kobjs k) (lockdep k)) s) -> wp access_ok Q k s.
Proof. intros HQ. unfold access_ok. wp_steps. apply HQ. Qed.

Lemma wp_get_user (Q : Z * Z -> kern -> ioctl_st -> Prop) k s :
  (forall f, Q (0, ucell s) (Kern f (held k) (kobjs k) (lockdep k)) s) ->
  (forall f, Q (- EFAULT, 0) (Kern f (held k) (kobjs k) (lockdep k)) s) ->
  wp __get_user Q k s.
Proof. intros H0 HF. unfold __get_user. wp_steps; auto. Qed.

Lemma wp_put_user v (Q : Z -> kern -> ioctl_st -> Prop) k s :
  (forall f, Q 0 (Kern f (held k) (kobjs k) (lockdep k)) (IoSt (iopar s) (s32 v))) ->
  (forall f, Q (- EFAULT) (Kern f (held k) (kobjs k) (lockdep k)) s) ->
  wp (__put_user v) Q k s.
Proof. intros H0 HF. unfold __put_user. wp_steps; auto. Qed.

(** Step through the handler, all commands at once. *)
Ltac ioctl_step :=
  lazymatch goal with
  | |- wpc _ access_ok _ _ _ => apply wp_access_ok; intros
  | |- wpc _ __get_user _ _ _ => apply wp_get_user; intros
  | |- wpc _ (__put_user _) _ _ _ => apply wp_put_user; intros
  | |- wpc _ _ _ _ _ => wp_step; cbn [held kobjs ans lockdep]
  end.

Ltac ioctl_steps := unfold scull_ioctl; repeat ioctl_step.

(** Decide the tests on a given command. *)
Ltac ioctl_cmd :=
  repeat match goal with
  | |- context [?a =? ?b] =>
      let v := eval vm_compute in (a =? b) in
      lazymatch v with true => idtac | false => idtac end;
      change (a =? b) with v
  | |- context [SCULL_IOC_MAXNR <? ?b] =>
      let v := eval vm_compute in (SCULL_IOC_MAXNR <? b) in
      lazymatch v with true => idtac | false => idtac end;
      change (SCULL_IOC_MAXNR <? b) with v
  end; cbn [negb].

Lemma s32_idem z : s32 (s32 z) = s32 z.
Proof. unfold s32. word_lia. Qed.

Lemma wrap64_0 : wrap64 0 = 0.
Proof. reflexivity. Qed.

(** ** Properties *)

(** A command that is not one of the nine the handler knows is refused: it
    returns a negative error and changes neither the parameters nor the
    user's memory. *)
Theorem ioctl_unknown cap cmd arg k s :
  cmd ∉ handled ->
  wp (scull_ioctl cap cmd arg) (fun r _ s' =>
    (r = - ENOTTY \/ r = - EFAULT) /\ s' = s) k s.
Proof.
  intros Hcmd.
  assert (forall c, c ∈ handled -> (cmd =? c) = false) as Hne.
  { intros c Hc. apply Z.eqb_neq. by intros ->. }
  unfold scull_ioctl.
  rewrite !Hne by (eapply bool_decide_eq_true_1; vm_compute; reflexivity).
  ioctl_steps; auto.
Qed.

(** Without CAP_SYS_ADMIN the sizes of the devices change only to the
    defaults, through the reset command. *)
Theorem ioctl_unprivileged cmd arg k s :
  wp (scull_ioctl false cmd arg) (fun r _ s' =>
    (scull_quantum (iopar s') = scull_quantum (iopar s) /\
     scull_qset (iopar s') = scull_qset (iopar s)) \/
    (cmd = SCULL_IOCRESET /\ r = 0 /\
     scull_quantum (iopar s') = SCULL_QUANTUM /\ scull_qset (iopar s') = SCULL_QSET)) k s.
Proof.
  ioctl_steps; try discriminate; auto.
  right. split_and!; auto. by apply Z.eqb_eq.
Qed.

(** "set" stores the user's integer, which "query" and "get" then return;
    the only failure is a fault. *)
Theorem ioctl_set_get v arg k s :
  0 <= v < 2 ^ 31 -> ucell s = v ->
  wp (r1 ← scull_ioctl true SCULL_IOCSQUANTUM arg;
      r2 ← scull_ioctl true SCULL_IOCQQUANTUM arg;
      r3 ← scull_ioctl true SCULL_IOCGQUANTUM arg;
      mret (r1, r2, r3))
    (fun '(r1, r2, r3) _ s' =>
       (r1 = 0 \/ r1 = - EFAULT) /\ (r3 = 0 \/ r3 = - EFAULT) /\
       (r1 = 0 -> (r2 = v \/ r2 = - EFAULT) /\ scull_quantum (iopar s') = v /\
                  ucell s' = v)) k s.
Proof.
  intros Hv Hc. unfold scull_ioctl. ioctl_cmd. ioctl_steps; try discriminate.
  all: cbn [iopar set_par set_quantum scull_quantum ucell] in *.
  all: rewrite ?Hc, ?(wrap64_small v), ?(s32_small v), ?(s64_small v) by lia.
  all: split_and!; auto; try (intros; discriminate).
Qed.

(** "exchange" swaps the size and the user's integer; when the user's memory
    cannot be read the size is lost: it becomes 0 and the call returns
    -EFAULT. *)
Theorem ioctl_exchange arg k s :
  wp (scull_ioctl true SCULL_IOCXQUANTUM arg) (fun r _ s' =>
    (r = 0 /\ scull_quantum (iopar s') = wrap64 (ucell s) /\
     ucell s' = s32 (scull_quantum (iopar s))) \/
    (r = - EFAULT /\ ucell s' = ucell s /\
     scull_quantum (iopar s') ∈ [scull_quantum (iopar s); 0; wrap64 (ucell s)])) k s.
Proof.
  unfold scull_ioctl. ioctl_cmd. ioctl_steps; try discriminate.
  all: cbn [iopar set_par set_quantum scull_quantum ucell] in *.
  all: try rewrite s32_idem; rewrite ?wrap64_0; first [by left | right].
  all: split_and!; auto; rewrite ?list_elem_of_In; cbn; auto.
Qed.

(** A "set" whose argument faults stores 0, the value [__get_user] gives on
    a fault, although it reports -EFAULT. *)
Theorem ioctl_set_fault arg k s :
  ans k 0%nat = 0 -> ans k 1%nat <> 0 ->
  run_value (scull_ioctl true SCULL_IOCSQUANTUM arg) k s = Some (- EFAULT) /\
  scull_quantum ∘ iopar <$> run_state (scull_ioctl true SCULL_IOCSQUANTUM arg) k s = Some 0.
Proof.
  intros H0 H1. apply Z.eqb_neq in H1. unfold run_value, run_state, scull_ioctl.
  ioctl_cmd. unfold access_ok, __get_user. mred. rewrite H0. cbn. by rewrite H1.
Qed.

(** The six commands that scull.h declares for the size of the quantum sets
    are all refused. *)
Theorem ioctl_qset_refused cap cmd arg k s :
  cmd ∈ qset_commands ->
  wp (scull_ioctl cap cmd arg) (fun r _ s' => r <> 0 /\ s' = s) k s.
Proof.
  rewrite list_elem_of_In. cbn [In qset_commands]. intros Hcmd.
  repeat destruct Hcmd as [<- | Hcmd]; [.. | done];
    unfold scull_ioctl; ioctl_cmd; ioctl_steps; try discriminate; auto.
Qed.

(** ** Witnesses *)

Lemma ioctl_unknown_witness :
  wp (scull_ioctl true SCULL_IOCSQSET 8) (fun r _ s' =>
    (r = - ENOTTY \/ r = - EFAULT) /\ s' = IoSt default_params 7) all_ok
    (IoSt default_params 7).
Proof.
  apply ioctl_unknown. eapply bool_decide_eq_true_1. vm_compute. reflexivity.
Defined.

Lemma ioctl_set_get_witness :
  wp (r1 ← scull_ioctl true SCULL_IOCSQUANTUM 8;
      r2 ← scull_ioctl true SCULL_IOCQQUANTUM 8;
      r3 ← scull_ioctl true SCULL_IOCGQUANTUM 8;
      mret (r1, r2, r3))
    (fun '(r1, r2, r3) _ s' =>
       (r1 = 0 \/ r1 = - EFAULT) /\ (r3 = 0 \/ r3 = - EFAULT) /\
       (r1 = 0 -> (r2 = 7 \/ r2 = - EFAULT) /\ scull_quantum (iopar s') = 7 /\
                  ucell s' = 7)) all_ok (IoSt default_params 7).
Proof. apply (ioctl_set_get 7 8); [lia | reflexivity]. Defined.

Lemma ioctl_set_fault_witness :
  scull_quantum ∘ iopar <$>
    run_state (scull_ioctl true SCULL_IOCSQUANTUM 8)
      (Kern (fun i => if (i =? 1)%nat then 1 else 0) false 0 true) (IoSt default_params 7)
  = Some 0.
Proof. apply ioctl_set_fault; cbn; lia. Defined.

Lemma ioctl_qset_refused_witness :
  wp (scull_ioctl true SCULL_IOCSQSET 8) (fun r _ s' => r <> 0 /\ s' = IoSt default_params 7)
    all_ok (IoSt default_params 7).
Proof.
  apply ioctl_qset_refused. eapply bool_decide_eq_true_1. vm_compute. reflexivity.
Defined.
