(* ===== verification/Fifo.v ===== *)
(** * What a queue promises

    The interface between a queue and those who use it through interleaved
    steps: what a step that puts bytes in, takes bytes out or does neither
    does to the queue's items.  [fifo_order] is proved against the interface
    alone; PipeSys.v shows that a pipe used by any number of threads is an
    instance. *)

From S2P Require Import Prelude.

(** ** Definitions *)

(** What a step does: puts bytes in, takes bytes out, throws the contents
    away, or none of these. *)
Inductive event :=
  | EvPut (bs : list Byte.byte)
  | EvGet (bs : list Byte.byte)
  | EvReset
  | EvTau.

#[export] Instance event_eq_dec : EqDecision event.
Proof. solve_decision. Defined.

(** The bytes put and taken over a run. *)
Fixpoint puts (es : list event) : list Byte.byte :=
  match es with
  | [] => []
  | EvPut bs :: es => bs ++ puts es
  | _ :: es => puts es
  end.

Fixpoint takes (es : list event) : list Byte.byte :=
  match es with
  | [] => []
  | EvGet bs :: es => bs ++ takes es
  | _ :: es => takes es
  end.

(** A run of labelled steps. *)
Inductive run {S : Type} (step : S -> event -> S -> Prop) : S -> list event -> S -> Prop :=
  | run_nil s : run step s [] s
  | run_cons s e s' es s'' :
      step s e s' -> run step s' es s'' -> run step s (e :: es) s''.

(** [items] is the queue seen as a list, [ok] an invariant of the steps and
    [capacity] a bound on the list. *)
Class Fifo (S : Type) (step : S -> event -> S -> Prop) := {
  ok : S -> Prop;
  items : S -> list Byte.byte;
  capacity : S -> Z;
  fifo_ok s e s' : ok s -> step s e s' -> ok s';
  fifo_put s bs s' : ok s -> step s (EvPut bs) s' -> items s' = items s ++ bs;
  fifo_get s bs s' : ok s -> step s (EvGet bs) s' -> items s = bs ++ items s';
  fifo_tau s s' : ok s -> step s EvTau s' -> items s' = items s;
  fifo_bound s : ok s -> zlen (items s) <= capacity s
}.

(** ** Order *)

Section Order.
Context {S : Type} {step : S -> event -> S -> Prop} `{!Fifo S step}.

Lemma fifo_run_ok s es s' : ok s -> run step s es s' -> ok s'.
Proof. intros Hok Hr. induction Hr; eauto using fifo_ok. Qed.

(** Whatever was in the queue and was put since has been taken, in order, or
    is still there, in order. *)
Lemma fifo_order s es s' :
  ok s -> run step s es s' -> EvReset ∉ es ->
  items s ++ puts es = takes es ++ items s'.
Proof.
  intros Hok Hr. induction Hr as [s | s e s1 es s2 Hs Hr IH]; intros Hne; cbn.
  - by rewrite app_nil_r.
  - apply not_elem_of_cons in Hne as [He Hne].
    specialize (IH (fifo_ok _ _ _ Hok Hs) Hne). destruct e; cbn.
    + rewrite app_assoc, <- IH. f_equal. symmetry. by apply fifo_put.
    + rewrite <- app_assoc, <- IH, app_assoc. f_equal. by apply fifo_get.
    + done.
    + rewrite <- IH. f_equal. symmetry. by apply fifo_tau.
Qed.

(** The bytes taken are a prefix of what was there and what was put. *)
Lemma fifo_prefix s es s' :
  ok s -> run step s es s' -> EvReset ∉ es ->
  takes es `prefix_of` items s ++ puts es.
Proof. intros. eexists. by apply fifo_order. Qed.
End Order.
