(* ===== verification/Pipe.v ===== *)
(** * The scull pipe (src/scull/pipe.c, src/scull/pipe.h)

    A pipe is a circular buffer with a reader and a writer position.  A call
    that may sleep is cut at the points where it drops the lock: [enter] runs
    from the entry to the first such point, [again] from retaking the lock,
    [wait] tests the condition of the wait queue without the lock, and [wake]
    is the wake-up after the lock is dropped.  PipeSys.v puts them together
    into threads. *)

From S2P Require Import Prelude Kernel ScullParams.

(** ** Data *)

Definition PROPER_FIFO_BEH_IDX : Z := 3.

(** Pointers into the buffer are offsets from its start.  [buf] is what
    [kmalloc] returned: its length is the allocated size, [buf_len] what the
    driver takes it to be.  The wait queues hold the threads asleep on them. *)
Record scull_pipe := Pipe {
  idx : Z;
  inq : gset nat;
  outq : gset nat;
  openq : gset nat;
  buf : option (list Byte.byte);
  end_ : Z;
  buf_len : Z;
  rp : Z;
  wp_ : Z;
  readers : Z;
  writers : Z;
  async_q : gset nat
}.

(** The parameters and the pipe at hand. *)
Record pipe_st := PSt { ppar : params; pipe : scull_pipe }.

Definition upd (f : scull_pipe -> scull_pipe) (s : pipe_st) : pipe_st :=
  PSt (ppar s) (f (pipe s)).

Definition set_queues (i o q : gset nat) (p : scull_pipe) : scull_pipe :=
  Pipe (idx p) i o q (buf p) (end_ p) (buf_len p) (rp p) (wp_ p) (readers p)
    (writers p) (async_q p).

Definition set_buf (b : option (list Byte.byte)) (p : scull_pipe) : scull_pipe :=
  Pipe (idx p) (inq p) (outq p) (openq p) b (end_ p) (buf_len p) (rp p) (wp_ p)
    (readers p) (writers p) (async_q p).

Definition set_bounds (e l : Z) (p : scull_pipe) : scull_pipe :=
  Pipe (idx p) (inq p) (outq p) (openq p) (buf p) e l (rp p) (wp_ p) (readers p)
    (writers p) (async_q p).

Definition set_rp (z : Z) (p : scull_pipe) : scull_pipe :=
  Pipe (idx p) (inq p) (outq p) (openq p) (buf p) (end_ p) (buf_len p) z (wp_ p)
    (readers p) (writers p) (async_q p).

Definition set_wp (z : Z) (p : scull_pipe) : scull_pipe :=
  Pipe (idx p) (inq p) (outq p) (openq p) (buf p) (end_ p) (buf_len p) (rp p) z
    (readers p) (writers p) (async_q p).

Definition set_users (r w : Z) (p : scull_pipe) : scull_pipe :=
  Pipe (idx p) (inq p) (outq p) (openq p) (buf p) (end_ p) (buf_len p) (rp p)
    (wp_ p) r w (async_q p).

Definition set_async (a : gset nat) (p : scull_pipe) : scull_pipe :=
  Pipe (idx p) (inq p) (outq p) (openq p) (buf p) (end_ p) (buf_len p) (rp p)
    (wp_ p) (readers p) (writers p) a.

(** Where a call stands when it has dropped the lock: finished with a value
    (and the bytes a reader got), about to wait, or about to wake the other
    side before it returns. *)
Inductive sect :=
  | Return (r : Z) (bs : list Byte.byte)
  | Sleep
  | Wake (r : Z) (bs : list Byte.byte).

(** ** Wait queues *)

(** [wake_up_interruptible]: every thread on the queue runs again. *)
Definition wake_in : M pipe_st unit :=
  modify (upd (fun p => set_queues ∅ (outq p) (openq p) p)).
Definition wake_out : M pipe_st unit :=
  modify (upd (fun p => set_queues (inq p) ∅ (openq p) p)).
Definition wake_open : M pipe_st unit :=
  modify (upd (fun p => set_queues (inq p) (outq p) ∅ p)).

(** ** Opening *)

(** Lines 51-60 and 85-94: the buffer, allocated when there is none, and both
    positions at its start.  [false]: no memory. *)
Definition reset_buffer : M pipe_st bool :=
  s ← gets id;
  ok ← (match buf (pipe s) with
        | Some _ => mret true
        | None =>
            ok ← kmalloc;
            if (ok : bool) then
              stale ← ask;
              modify (upd (set_buf (Some (stale_bytes
                (Z.to_nat (scull_p_len (ppar s))) stale))));;
              mret true
            else mret false
        end);
  if (ok : bool) then
    modify (upd (set_bounds (scull_p_len (ppar s)) (scull_p_len (ppar s))));;
    modify (upd (set_wp 0));;
    modify (upd (set_rp 0));;
    mret true
  else mret false.

Definition nonseekable_open : M pipe_st Z := mret 0.

(** The [while (dev->writers == 0)] test of a reader, with the lock held. *)
Definition proper_open_check : M pipe_st sect :=
  p ← gets pipe;
  if writers p =? 0 then __mutex_unlock_sparse;; mret Sleep
  else
    __mutex_unlock_sparse;;
    r ← nonseekable_open;
    mret (Return r []).

Definition scull_p_proper_open (filp : file) : M pipe_st sect :=
  i ← __mutex_lock_interruptible_sparse;
  if negb (i =? 0) then mret (Return (- ERESTARTSYS) [])
  else if flag_set (f_mode filp) FMODE_READ then
    p ← gets pipe;
    if flag_set (f_flags filp) O_NONBLOCK && (writers p =? 0) then
      __mutex_unlock_sparse;;
      mret (Return (- EAGAIN) [])
    else
      modify (upd (fun p => set_users (wrap64 (readers p + 1)) (writers p) p));;
      proper_open_check
  else
    modify (upd (fun p => set_users (readers p) (wrap64 (writers p + 1)) p));;
    ok ← reset_buffer;
    if negb ok then
      __mutex_unlock_sparse;;
      mret (Return (- ENOMEM) [])
    else
      p ← gets pipe;
      (if negb (readers p =? 0) then wake_open else mret tt);;
      __mutex_unlock_sparse;;
      r ← nonseekable_open;
      mret (Return r []).

Definition proper_open_again : M pipe_st sect :=
  i ← __mutex_lock_interruptible_sparse;
  if negb (i =? 0) then mret (Return (- ERESTARTSYS) [])
  else proper_open_check.

Definition scull_p_open (filp : file) : M pipe_st sect :=
  p ← gets pipe;
  if idx p =? PROPER_FIFO_BEH_IDX then scull_p_proper_open filp
  else
    i ← __mutex_lock_interruptible_sparse;
    if negb (i =? 0) then mret (Return (- ERESTARTSYS) [])
    else
      ok ← reset_buffer;
      if negb ok then
        __mutex_unlock_sparse;;
        mret (Return (- ENOMEM) [])
      else
        (if flag_set (f_mode filp) FMODE_READ then
           modify (upd (fun p => set_users (wrap64 (readers p + 1)) (writers p) p))
         else mret tt);;
        (if flag_set (f_mode filp) FMODE_WRITE then
           modify (upd (fun p => set_users (readers p) (wrap64 (writers p + 1)) p))
         else mret tt);;
        __mutex_unlock_sparse;;
        r ← nonseekable_open;
        mret (Return r []).

(** ** Closing *)

(** [fasync_helper]: with mode 0 the file leaves the queue, otherwise it
    joins, when there is memory. *)
Definition scull_p_fasync (filp : file) (mode : Z) : M pipe_st Z :=
  if mode =? 0 then
    modify (upd (fun p => set_async (async_q p ∖ {[f_id filp]}) p));; mret 0
  else
    a ← ask;
    if a =? 0 then
      modify (upd (fun p => set_async ({[f_id filp]} ∪ async_q p) p));; mret 1
    else mret (- ENOMEM).

Definition scull_p_release (filp : file) : M pipe_st sect :=
  scull_p_fasync filp 0;;
  i ← __mutex_lock_interruptible_sparse;
  if negb (i =? 0) then mret (Return (- ERESTARTSYS) [])
  else
    (if flag_set (f_mode filp) FMODE_READ then
       modify (upd (fun p => set_users (wrap64 (readers p - 1)) (writers p) p))
     else mret tt);;
    (if flag_set (f_mode filp) FMODE_WRITE then
       modify (upd (fun p => set_users (readers p) (wrap64 (writers p - 1)) p))
     else mret tt);;
    p ← gets pipe;
    (if wrap64 (readers p + writers p) =? 0 then
       match buf p with None => mret tt | Some _ => kfree end;;
       modify (upd (set_buf None))
     else mret tt);;
    __mutex_unlock_sparse;;
    mret (Return 0 []).

(** ** Space *)

Definition spacefree : M pipe_st Z :=
  lockdep_assert_held;;
  p ← gets pipe;
  if rp p =? wp_ p then mret (wrap64 (buf_len p - 1))
  else
    check (negb (buf_len p =? 0)) DivideError;;
    mret (wrap64 (wrap64 (rp p + buf_len p - wp_ p) mod buf_len p - 1)).

(** ** Buffer memory *)

(** The [n] bytes at pointer [off]. *)
Definition buf_read (off n : Z) : M pipe_st (list Byte.byte) :=
  p ← gets pipe;
  match buf p with
  | None => check (n =? 0) UseAfterFree;; mret []
  | Some b =>
      check ((n =? 0) || (off + n <=? zlen b)) OobRead;;
      mret (slice off n b)
  end.

Definition buf_write (off : Z) (bs : list Byte.byte) : M pipe_st unit :=
  p ← gets pipe;
  match buf p with
  | None => check (zlen bs =? 0) UseAfterFree
  | Some b =>
      check ((zlen bs =? 0) || (off + zlen bs <=? zlen b)) OobWrite;;
      modify (upd (set_buf (Some (splice off bs b))))
  end.

(** ** Reading *)

(** Lines 172-192, with the lock held and the buffer not empty. *)
Definition read_transfer (count : Z) : M pipe_st sect :=
  p ← gets pipe;
  let count := if rp p <? wp_ p then Z.min count (wrap64 (wp_ p - rp p))
               else Z.min count (wrap64 (end_ p - rp p)) in
  src ← buf_read (rp p) count;
  '(r, bs) ← copy_to_user src;
  if negb (r =? 0) then
    __mutex_unlock_sparse;;
    mret (Return (- EFAULT) bs)
  else
    modify (upd (fun p => set_rp (rp p + count) p));;
    p ← gets pipe;
    (if rp p =? end_ p then modify (upd (set_rp 0)) else mret tt);;
    __mutex_unlock_sparse;;
    mret (Wake (s64 count) bs).

(** The test of the [while (dev->rp == dev->wp)] loop, with the lock held. *)
Definition read_check (filp : file) (count : Z) : M pipe_st sect :=
  p ← gets pipe;
  if rp p =? wp_ p then
    __mutex_unlock_sparse;;
    if flag_set (f_flags filp) O_NONBLOCK then mret (Return (- EAGAIN) [])
    else mret Sleep
  else read_transfer count.

Definition scull_p_read (filp : file) (count : Z) : M pipe_st sect :=
  i ← __mutex_lock_interruptible_sparse;
  if negb (i =? 0) then mret (Return (- ERESTARTSYS) [])
  else
    p ← gets pipe;
    if (idx p =? PROPER_FIFO_BEH_IDX) && (rp p =? wp_ p) && (writers p =? 0) then
      __mutex_unlock_sparse;;
      mret (Return 0 [])
    else read_check filp count.

Definition read_again (filp : file) (count : Z) : M pipe_st sect :=
  i ← __mutex_lock_interruptible_sparse;
  if negb (i =? 0) then mret (Return (- ERESTARTSYS) [])
  else read_check filp count.

(** ** Writing *)

(** Lines 244-257, with the lock held and space in the buffer.  What follows is
    the wake-up, [Wake]; the signal that [kill_fasync] sends to the files of
    [async_q] after it (lines 261-262) is none of the driver's state, and is not
    modelled. *)
Definition write_transfer (ubuf : list Byte.byte) : M pipe_st sect :=
  n ← spacefree;
  p ← gets pipe;
  let count := Z.min (zlen ubuf) n in
  let count := if rp p <=? wp_ p then Z.min count (wrap64 (end_ p - wp_ p))
               else Z.min count (wrap64 (rp p - wp_ p - 1)) in
  '(r, bs) ← copy_from_user (take (Z.to_nat count) ubuf);
  buf_write (wp_ p) bs;;
  if negb (r =? 0) then
    __mutex_unlock_sparse;;
    mret (Return (- EFAULT) [])
  else
    modify (upd (fun p => set_wp (wp_ p + count) p));;
    p ← gets pipe;
    (if wp_ p =? end_ p then modify (upd (set_wp 0)) else mret tt);;
    __mutex_unlock_sparse;;
    mret (Wake (s64 count) []).

(** The test of the loop of [scull_getwritespace], with the lock held. *)
Definition write_check (filp : file) (ubuf : list Byte.byte) : M pipe_st sect :=
  lockdep_assert_held;;
  n ← spacefree;
  if n =? 0 then
    __mutex_unlock_sparse;;
    if flag_set (f_flags filp) O_NONBLOCK then mret (Return (- EAGAIN) [])
    else mret Sleep
  else write_transfer ubuf.

Definition scull_p_write (filp : file) (ubuf : list Byte.byte) : M pipe_st sect :=
  i ← __mutex_lock_interruptible_sparse;
  if negb (i =? 0) then mret (Return (- ERESTARTSYS) [])
  else write_check filp ubuf.

(** ** Waiting, without the lock *)

(** [true]: the condition holds and the thread goes on; otherwise thread [t]
    is asleep on the queue. *)
Definition read_wait (t : nat) : M pipe_st bool :=
  p ← gets pipe;
  if negb (rp p =? wp_ p) then mret true
  else modify (upd (fun p => set_queues ({[t]} ∪ inq p) (outq p) (openq p) p));; mret false.

Definition open_wait (t : nat) : M pipe_st bool :=
  p ← gets pipe;
  if 0 <? writers p then mret true
  else modify (upd (fun p => set_queues (inq p) (outq p) ({[t]} ∪ openq p) p));; mret false.

Definition write_wait (t : nat) : M pipe_st bool :=
  n ← spacefree;
  if negb (n =? 0) then mret true
  else modify (upd (fun p => set_queues (inq p) ({[t]} ∪ outq p) (openq p) p));; mret false.

(** ** Polling *)

(** asm-generic/poll.h *)
Definition POLLIN : Z := 1.
Definition POLLOUT : Z := 4.
Definition POLLERR : Z := 8.
Definition POLLHUP : Z := 16.
Definition POLLRDNORM : Z := 64.
Definition POLLWRNORM : Z := 256.

(** [poll_wait] only registers the caller, it never sleeps. *)
Definition scull_p_poll : M pipe_st Z :=
  __mutex_lock_sparse;;
  p ← gets pipe;
  if (idx p =? PROPER_FIFO_BEH_IDX) && (writers p =? 0) then
    __mutex_unlock_sparse;;
    mret (Z.lor POLLERR POLLHUP)
  else
    let mask := if negb (rp p =? wp_ p) then Z.lor POLLIN POLLRDNORM else 0 in
    n ← spacefree;
    let mask := if negb (n =? 0) then Z.lor mask (Z.lor POLLOUT POLLWRNORM) else mask in
    __mutex_unlock_sparse;;
    mret mask.

(** ** A pipe to run *)

(** A pipe as [scull_p_init] leaves it. *)
Definition new_pipe (i : Z) : scull_pipe :=
  Pipe i ∅ ∅ ∅ None 0 0 0 0 0 0 ∅.

Definition rfile : file := File 0 0 FMODE_READ.
Definition wfile : file := File 1 0 FMODE_WRITE.
Definition rwfile : file := File 2 0 3.
