(* ===== verification/PipeFifo.v ===== *)
(** * The scull pipe as a bounded queue

    [contents] is the queue the circular buffer holds.  [pipe_inv] is kept by
    every section of code that runs with the lock; with it a read takes the
    front of the queue, a write appends to it, and [spacefree] is the room
    left. *)

From S2P Require Import Prelude Kernel ScullParams Pipe.

Implicit Types (k : kern) (s : pipe_st) (p : scull_pipe).

(** ** Definitions *)

Definition contents (p : scull_pipe) : list Byte.byte :=
  match buf p with
  | None => []
  | Some b =>
      if rp p <=? wp_ p then slice (rp p) (wp_ p - rp p) b
      else slice (rp p) (buf_len p - rp p) b ++ slice 0 (wp_ p) b
  end.

(** The buffer has the size the driver takes it to have and both positions are
    inside. *)
Definition buf_ok (len : Z) (p : scull_pipe) (b : list Byte.byte) : Prop :=
  zlen b = len /\ buf_len p = len /\ end_ p = len /\
  0 <= rp p < len /\ 0 <= wp_ p < len.

Definition pipe_inv (s : pipe_st) : Prop :=
  0 < scull_p_len (ppar s) < 2 ^ 63 /\
  forall b, buf (pipe s) = Some b -> buf_ok (scull_p_len (ppar s)) (pipe s) b.

(** The bytes up to the end of the buffer, and the room up to it. *)
Definition readable (p : scull_pipe) : Z :=
  if rp p <? wp_ p then wp_ p - rp p else buf_len p - rp p.

Definition writable (p : scull_pipe) : Z :=
  if rp p <=? wp_ p then buf_len p - wp_ p else rp p - wp_ p - 1.

(** The room in the queue: one byte of the buffer stays unused. *)
Definition room (p : scull_pipe) : Z := buf_len p - 1 - zlen (contents p).

(** Nothing but the positions and the memory differs. *)
Definition same_users (s s' : pipe_st) : Prop :=
  ppar s' = ppar s /\ idx (pipe s') = idx (pipe s) /\
  inq (pipe s') = inq (pipe s) /\ outq (pipe s') = outq (pipe s) /\
  openq (pipe s') = openq (pipe s) /\ readers (pipe s') = readers (pipe s) /\
  writers (pipe s') = writers (pipe s) /\ async_q (pipe s') = async_q (pipe s).

(** What a finished section means for the queue: [get] for a reader. *)
Definition read_result (count : Z) (s : pipe_st) (r : sect) (s' : pipe_st) : Prop :=
  match r with
  | Wake n bs =>
      n = zlen bs /\ n = Z.min count (readable (pipe s)) /\
      contents (pipe s) = bs ++ contents (pipe s')
  | Return r bs => s' = s /\ r < 0
  | Sleep => False
  end.

Definition write_result (ubuf : list Byte.byte) (s : pipe_st) (r : sect) (s' : pipe_st) : Prop :=
  match r with
  | Wake n bs =>
      bs = [] /\ n = Z.min (zlen ubuf) (Z.min (room (pipe s)) (writable (pipe s))) /\
      contents (pipe s') = contents (pipe s) ++ take (Z.to_nat n) ubuf
  | Return r bs => contents (pipe s') = contents (pipe s) /\ r < 0
  | Sleep => False
  end.

(** ** The queue *)

Lemma slice_cut {A} (l : list A) off n m :
  0 <= off -> 0 <= n <= m -> slice off m l = slice off n l ++ slice (off + n) (m - n) l.
Proof. intros. rewrite slice_app by lia. f_equal. lia. Qed.

Lemma contents_length p b :
  buf p = Some b -> buf_ok (buf_len p) p b ->
  zlen (contents p) =
    if rp p <=? wp_ p then wp_ p - rp p else buf_len p - rp p + wp_ p.
Proof.
  intros Hb (Hl & _ & _ & Hr & Hw). unfold contents. rewrite Hb.
  destruct (rp p <=? wp_ p) eqn:E.
  - rewrite length_slice; lia.
  - rewrite length_app, Nat2Z.inj_add, !length_slice; lia.
Qed.

(** A queue of a buffer is empty exactly when the positions meet, and never
    fills the buffer. *)
Lemma contents_nil p b :
  buf p = Some b -> buf_ok (buf_len p) p b -> contents p = [] <-> rp p = wp_ p.
Proof.
  intros Hb Hok. pose proof (contents_length p b Hb Hok) as Hl.
  destruct Hok as (? & _ & _ & ? & ?).
  rewrite <- length_zero_iff_nil. destruct (_ <=? _) eqn:E in Hl; lia.
Qed.

Lemma contents_bound p b :
  buf p = Some b -> buf_ok (buf_len p) p b -> zlen (contents p) <= buf_len p - 1.
Proof.
  intros Hb Hok. pose proof (contents_length p b Hb Hok) as Hl.
  destruct Hok as (? & _ & _ & ? & ?). destruct (_ <=? _) eqn:E in Hl; lia.
Qed.

(** Moving the reader forward by [n] takes [n] bytes off the front. *)
Lemma contents_advance_rp p b n :
  buf p = Some b -> buf_ok (buf_len p) p b -> rp p <> wp_ p -> 0 <= n <= readable p ->
  let q := set_rp (if rp p + n =? buf_len p then 0 else rp p + n) p in
  contents p = slice (rp p) n b ++ contents q /\ buf_ok (buf_len p) q b.
Proof.
  intros Hb (Hl & Hbl & He & Hr & Hw) Hne Hn. unfold readable in Hn. cbn zeta. split.
  - unfold contents. cbn. rewrite Hb.
    destruct (rp p <? wp_ p) eqn:E1, (rp p <=? wp_ p) eqn:E2; try lia.
    + destruct (_ =? _) eqn:E3; [lia |]. replace (_ <=? _) with true by lia.
      rewrite (slice_cut b (rp p) n) by lia. do 2 f_equal. lia.
    + rewrite (slice_cut b (rp p) n), <- app_assoc by lia. f_equal.
      destruct (_ =? _) eqn:E3.
      * replace (0 <=? wp_ p) with true by lia.
        replace (buf_len p - rp p - n) with 0 by lia. rewrite slice_nil. cbn.
        by rewrite Z.sub_0_r.
      * replace (_ <=? _) with false by lia. do 2 f_equal. lia.
  - unfold buf_ok. cbn. destruct (_ <? _) eqn:E1, (_ =? _) eqn:E3; lia.
Qed.

(** Storing [bs] at the writer and moving it forward appends [bs]. *)
Lemma contents_advance_wp p b bs :
  buf p = Some b -> buf_ok (buf_len p) p b ->
  zlen bs <= room p -> zlen bs <= writable p ->
  let q := set_wp (if wp_ p + zlen bs =? buf_len p then 0 else wp_ p + zlen bs)
             (set_buf (Some (splice (wp_ p) bs b)) p) in
  contents q = contents p ++ bs /\ buf_ok (buf_len p) q (splice (wp_ p) bs b).
Proof.
  intros Hb Hok Hroom Hwr. pose proof (contents_length p b Hb Hok) as Hcl.
  destruct Hok as (Hl & Hbl & He & Hr & Hw).
  unfold room, writable in *. cbn zeta. split.
  - unfold contents. cbn. rewrite Hb.
    destruct (rp p <=? wp_ p) eqn:E1.
    + assert (slice (rp p) (wp_ p + zlen bs - rp p) (splice (wp_ p) bs b)
        = slice (rp p) (wp_ p - rp p) b ++ bs) as Happ.
      { rewrite (slice_cut _ (rp p) (wp_ p - rp p)) by lia. f_equal.
        - rewrite slice_splice_before; [done | lia..].
        - replace (rp p + (wp_ p - rp p)) with (wp_ p) by lia.
          replace (_ - _ - _) with (zlen bs) by lia. apply slice_splice_same; lia. }
      destruct (_ =? _) eqn:E2.
      * replace (rp p <=? 0) with (rp p =? 0) by lia. destruct (rp p =? 0) eqn:E3; [lia |].
        rewrite slice_nil, app_nil_r. rewrite <- Happ. f_equal. lia.
      * by replace (rp p <=? _) with true by lia.
    + destruct (_ =? _) eqn:E2; [lia |].
      replace (rp p <=? _) with false by lia. rewrite <- app_assoc. f_equal.
      * rewrite slice_splice_after; [done | lia..].
      * rewrite (slice_cut _ 0 (wp_ p)) by lia. f_equal.
        -- rewrite slice_splice_before; [done | lia..].
        -- replace (0 + wp_ p) with (wp_ p) by lia.
           replace (_ - _) with (zlen bs) by lia. apply slice_splice_same; lia.
  - unfold buf_ok. cbn. rewrite length_splice by (destruct (_ <=? _); lia).
    destruct (rp p <=? wp_ p) eqn:E1, (_ =? _) eqn:E3; lia.
Qed.

(** Storing bytes in the room at the writer does not touch the queue. *)
Lemma contents_store p b bs :
  buf p = Some b -> buf_ok (buf_len p) p b ->
  zlen bs <= room p -> zlen bs <= writable p ->
  let q := set_buf (Some (splice (wp_ p) bs b)) p in
  contents q = contents p /\ buf_ok (buf_len p) q (splice (wp_ p) bs b).
Proof.
  intros Hb Hok Hroom Hwr. pose proof (contents_length p b Hb Hok) as Hcl.
  destruct Hok as (Hl & Hbl & He & Hr & Hw). unfold room, writable in *.
  assert (wp_ p + zlen bs <= zlen b) as Hin by (destruct (_ <=? _); lia).
  cbn zeta. split.
  - unfold contents. cbn. rewrite Hb. destruct (rp p <=? wp_ p) eqn:E1.
    + rewrite slice_splice_before; [done | lia..].
    + rewrite slice_splice_after, slice_splice_before; [done | lia..].
  - unfold buf_ok. cbn. rewrite length_splice; lia.
Qed.

(** ** The sections *)

Section Sections.
Context {c : Prop}.

(** [spacefree] is the room of the queue; [write_wait] calls it without the
    lock, which only CONFIG_LOCKDEP notices. *)
Lemma wp_spacefree_gen b (Q : Z -> kern -> pipe_st -> Prop) k s :
  pipe_inv s -> buf (pipe s) = Some b -> lockdep k && negb (held k) = false ->
  Q (room (pipe s)) k s -> wpc c spacefree Q k s.
Proof.
  intros [Hlen Hinv] Hb Hh HQ. pose proof (Hinv b Hb) as Hok.
  assert (buf_ok (buf_len (pipe s)) (pipe s) b) as Hok'.
  { destruct Hok as (? & E & ? & ?). unfold buf_ok. rewrite E. auto. }
  pose proof (contents_length _ b Hb Hok') as Hcl.
  destruct Hok' as (_ & _ & _ & Hr & Hw). destruct Hok as (_ & Hbl & _).
  unfold spacefree. wp_step. unfold lockdep_assert_held, wpc at 1. rewrite Hh. do 2 wp_step. unfold room in HQ. rewrite Hcl in HQ.
  destruct (rp (pipe s) =? wp_ (pipe s)) eqn:E; wp_step.
  - replace (_ <=? _) with true in HQ by lia. rewrite wrap64_small by lia.
    replace (buf_len (pipe s) - 1) with
      (buf_len (pipe s) - 1 - (wp_ (pipe s) - rp (pipe s))) by lia. done.
  - assert (wrap64 (wrap64 (rp (pipe s) + buf_len (pipe s) - wp_ (pipe s))
      mod buf_len (pipe s) - 1) =
      buf_len (pipe s) - 1 - (if rp (pipe s) <=? wp_ (pipe s) then
        wp_ (pipe s) - rp (pipe s) else buf_len (pipe s) - rp (pipe s) + wp_ (pipe s))) as Hv.
    { rewrite (wrap64_small (_ - wp_ _)) by lia. destruct (_ <=? _) eqn:E1.
      - rewrite Z.mod_small, wrap64_small by lia. lia.
      - rewrite <- (Z.mod_unique _ (buf_len (pipe s)) 1 (rp (pipe s) - wp_ (pipe s))) by lia.
        rewrite wrap64_small by lia. lia. }
    wp_step; [lia |]. wp_step. by rewrite Hv.
Qed.

Lemma wp_spacefree b (Q : Z -> kern -> pipe_st -> Prop) k s :
  pipe_inv s -> buf (pipe s) = Some b -> held k = true ->
  Q (room (pipe s)) k s -> wpc c spacefree Q k s.
Proof. intros HI Hb Hh HQ. apply (wp_spacefree_gen b); auto. by rewrite Hh, andb_false_r. Qed.

Lemma same_users_upd s f :
  (idx (f (pipe s)) = idx (pipe s)) -> inq (f (pipe s)) = inq (pipe s) ->
  outq (f (pipe s)) = outq (pipe s) -> openq (f (pipe s)) = openq (pipe s) ->
  readers (f (pipe s)) = readers (pipe s) -> writers (f (pipe s)) = writers (pipe s) ->
  async_q (f (pipe s)) = async_q (pipe s) -> same_users s (upd f s).
Proof. by intros; repeat split. Qed.

Lemma wp_read_transfer b count k s :
  pipe_inv s -> buf (pipe s) = Some b -> rp (pipe s) <> wp_ (pipe s) ->
  0 <= count < 2 ^ 63 -> held k = true ->
  wpc c (read_transfer count) (fun r k' s' =>
    held k' = false /\ kobjs k' = kobjs k /\ pipe_inv s' /\ same_users s s' /\
    is_Some (buf (pipe s')) /\ read_result count s r s') k s.
Proof.
  intros HI Hb Hne Hc Hh. pose proof HI as [Hlen Hinv].
  pose proof (Hinv b Hb) as (Hl & Hbl & He & Hr & Hw).
  assert (buf_ok (buf_len (pipe s)) (pipe s) b) as Hok by (unfold buf_ok; lia).
  unfold read_transfer. do 2 wp_step. cbv zeta.
  set (n := if rp (pipe s) <? wp_ (pipe s) then _ else _).
  assert (n = Z.min count (readable (pipe s))) as Hn.
  { unfold n, readable. destruct (_ <? _) eqn:E; rewrite wrap64_small by lia; lia. }
  assert (0 <= n <= readable (pipe s)) as Hnr.
  { unfold readable in *. destruct (_ <? _) eqn:E; lia. }
  clearbody n.
  assert (rp (pipe s) + n <= zlen b) as Hin.
  { unfold readable in *. destruct (_ <? _) eqn:E; lia. }
  assert (slice (rp (pipe s)) n b ++
    contents (set_rp (if rp (pipe s) + n =? buf_len (pipe s) then 0
      else rp (pipe s) + n) (pipe s)) = contents (pipe s) /\
    buf_ok (buf_len (pipe s)) (set_rp (if rp (pipe s) + n =? buf_len (pipe s) then 0
      else rp (pipe s) + n) (pipe s)) b) as [Hcon Hok'].
  { destruct (contents_advance_rp (pipe s) b n) as [-> ?]; auto. }
  pose proof (length_slice (rp (pipe s)) n b) as Hsl.
  wp_step. unfold buf_read. do 2 wp_step. rewrite Hb.
  wp_step. wp_step; [apply orb_true_iff; right; lia |]. do 2 wp_step.
  wp_step; [| wp_steps; [split_and!; eauto; [done | split; [done | unfold EFAULT; lia]] | lia..]].
  assert (pipe_inv (upd (set_rp (if rp (pipe s) + n =? buf_len (pipe s) then 0
    else rp (pipe s) + n)) s)) as HI'.
  { split; [done |]. cbn. intros b' Hb'. replace b' with b by congruence.
    by rewrite <- Hbl. }
  wp_steps; try discriminate; cbn [pipe upd set_rp rp end_] in *;
    rewrite He, <- Hbl in *;
    match goal with H : (_ =? _) = _ |- _ => rewrite H in * end;
    (split_and!; [done | done | exact HI' | done | by exists b |]);
    rewrite s64_small by lia; cbn [read_result pipe upd]; split_and!; auto; lia.
Qed.

Lemma wp_write_transfer b ubuf k s :
  pipe_inv s -> buf (pipe s) = Some b -> room (pipe s) <> 0 ->
  zlen ubuf < 2 ^ 63 -> held k = true ->
  wpc c (write_transfer ubuf) (fun r k' s' =>
    held k' = false /\ kobjs k' = kobjs k /\ pipe_inv s' /\ same_users s s' /\
    is_Some (buf (pipe s')) /\ write_result ubuf s r s') k s.
Proof.
  intros HI Hb Hne Hc Hh. pose proof HI as [Hlen Hinv].
  pose proof (Hinv b Hb) as (Hl & Hbl & He & Hr & Hw).
  assert (buf_ok (buf_len (pipe s)) (pipe s) b) as Hok by (unfold buf_ok; lia).
  pose proof (contents_bound (pipe s) b Hb Hok) as Hbd.
  pose proof (contents_length (pipe s) b Hb Hok) as Hcl.
  assert (0 < room (pipe s)) as Hroom by (unfold room in *; lia).
  assert (0 <= writable (pipe s)) as Hwr.
  { unfold writable, room in *. destruct (_ <=? _) eqn:E; lia. }
  unfold write_transfer. wp_step. apply (wp_spacefree b); auto. do 2 wp_step.
  set (n := if rp (pipe s) <=? wp_ (pipe s) then _ else _).
  assert (n = Z.min (zlen ubuf) (Z.min (room (pipe s)) (writable (pipe s)))) as Hn.
  { unfold n, writable. destruct (_ <=? _) eqn:E; rewrite wrap64_small; lia. }
  clearbody n.
  assert (zlen (take (Z.to_nat n) ubuf) = n) as Htake by (rewrite length_take; lia).
  assert (wp_ (pipe s) + n <= zlen b) as Hin.
  { unfold writable in *. destruct (_ <=? _) eqn:E; lia. }
  assert (forall q b', buf q = Some b' -> buf_ok (buf_len (pipe s)) q b' ->
    pipe_inv (upd (fun _ => q) s)) as Hinv'.
  { intros q b' Hq Hqok. split; [done |]. cbn. intros b'' E.
    replace b'' with b' by congruence. by rewrite <- Hbl. }
  wp_step. wp_step; [| rename bs into bs']; wp_step; unfold buf_write;
    do 2 wp_step; rewrite Hb; wp_step;
    (wp_step; [apply orb_true_iff; right; lia |]); wp_step.
  - destruct (contents_advance_wp (pipe s) b (take (Z.to_nat n) ubuf)) as [Hcon Hok'];
      [done | done | lia | lia |].
    rewrite Htake in Hcon, Hok'.
    wp_steps; try discriminate; cbn [pipe upd set_wp set_buf wp_ end_] in *;
      rewrite He, <- Hbl in *;
      match goal with H : (_ =? _) = _ |- _ => rewrite H in * end;
      (split_and!; [done | done | by eapply (Hinv' (set_wp _ (set_buf _ (pipe s)))) | done | by eexists |]);
      rewrite s64_small by lia; cbn [write_result pipe upd]; split_and!; auto; lia.
  - destruct (contents_store (pipe s) b bs') as [Hcon Hok']; [done | done | lia | lia |].
    wp_steps; [| lia..].
    split_and!; [done | done | by eapply (Hinv' (set_buf _ (pipe s))) | done | by eexists |].
    cbn. split; [done | unfold EFAULT; lia].
Qed.
End Sections.

(** ** Without a buffer *)

(** A pipe without a buffer can only be read or written by calls that move no
    byte. *)
Lemma wlp_read_transfer_none count k s :
  buf (pipe s) = None -> held k = true ->
  wlp (read_transfer count) (fun r k' s' =>
    held k' = false /\ ppar s' = ppar s /\ buf (pipe s') = None /\
    match r with Wake _ bs => bs = [] | Return _ _ => True | Sleep => False end) k s.
Proof.
  intros Hb Hh. unfold read_transfer. do 2 wp_step. wp_step. unfold buf_read.
  do 2 wp_step. rewrite Hb. do 3 wp_step. wp_step.
  wp_steps; cbn in *; try lia; auto.
Qed.

Lemma wlp_spacefree (Q : Z -> kern -> pipe_st -> Prop) k s :
  held k = true -> (forall n, 0 <= n -> Q n k s) -> wlp spacefree Q k s.
Proof.
  intros Hh HQ. unfold spacefree. wp_steps; apply HQ, wrap64_range.
Qed.

Lemma wlp_write_transfer_none ubuf k s :
  buf (pipe s) = None -> held k = true -> zlen ubuf < 2 ^ 63 ->
  wlp (write_transfer ubuf) (fun r k' s' =>
    held k' = false /\ ppar s' = ppar s /\ buf (pipe s') = None /\
    match r with
    | Wake n bs => take (Z.to_nat n) ubuf = []
    | Return _ _ => True
    | Sleep => False
    end) k s.
Proof.
  intros Hb Hh Hu. unfold write_transfer. wp_step. apply wlp_spacefree; [done |].
  intros n Hn. do 2 wp_step.
  set (m := if rp (pipe s) <=? wp_ (pipe s) then _ else _).
  assert (0 <= m <= zlen ubuf) as Hm.
  { unfold m. pose proof (wrap64_range (end_ (pipe s) - wp_ (pipe s))).
    pose proof (wrap64_range (rp (pipe s) - wp_ (pipe s) - 1)).
    destruct (_ <=? _); lia. }
  clearbody m. wp_step. wp_step; wp_step; unfold buf_write; do 2 wp_step; rewrite Hb; wp_step.
  all: match goal with H : (zlen _ =? 0) = true |- _ => rename H into Hz end.
  - apply Z.eqb_eq in Hz. rewrite length_take in Hz.
    assert (m = 0) as -> by lia.
    wp_steps; try discriminate; cbn; rewrite ?Hb; auto.
  - wp_steps; try lia; cbn; rewrite ?Hb; auto.
Qed.

(** ** Reading, writing, polling *)

(** What [scull_p_read] does up to the first point where it drops the lock. *)
Definition read_spec (filp : file) (count : Z) (s : pipe_st) (r : sect) (s' : pipe_st) : Prop :=
  let p := pipe s in
  (r = Return (- ERESTARTSYS) [] /\ s' = s) \/
  (contents p = [] /\ s' = s /\
   r = if (idx p =? PROPER_FIFO_BEH_IDX) && (writers p =? 0) then Return 0 []
       else if flag_set (f_flags filp) O_NONBLOCK then Return (- EAGAIN) []
       else Sleep) \/
  (contents p <> [] /\ read_result count s r s').

Definition write_spec (filp : file) (ubuf : list Byte.byte) (s : pipe_st) (r : sect)
    (s' : pipe_st) : Prop :=
  (r = Return (- ERESTARTSYS) [] /\ s' = s) \/
  (room (pipe s) = 0 /\ s' = s /\
   r = if flag_set (f_flags filp) O_NONBLOCK then Return (- EAGAIN) [] else Sleep) \/
  (room (pipe s) <> 0 /\ write_result ubuf s r s').

(** A section on a pipe with a buffer gave the lock back and kept the
    invariant, the buffer, the counts and the wait queues. *)
Definition kept (s : pipe_st) (k' : kern) (s' : pipe_st) : Prop :=
  held k' = false /\ pipe_inv s' /\ same_users s s' /\ is_Some (buf (pipe s')).

Lemma kept_refl b k s :
  held k = false -> pipe_inv s -> buf (pipe s) = Some b -> kept s k s.
Proof. intros. split; [done |]. split; [done |]. split; [by repeat split | by eexists]. Qed.

(** From the test of the loop of [scull_p_read] on, with the lock held. *)
Lemma wp_read_check {c : Prop} filp count b k s :
  held k = true -> pipe_inv s -> buf (pipe s) = Some b -> 0 <= count < 2 ^ 63 ->
  wpc c (read_check filp count) (fun r k' s' =>
    kept s k' s' /\
    ((contents (pipe s) = [] /\ s' = s /\
      r = if flag_set (f_flags filp) O_NONBLOCK then Return (- EAGAIN) [] else Sleep) \/
     (contents (pipe s) <> [] /\ read_result count s r s'))) k s.
Proof.
  intros Hh HI Hb Hc. pose proof HI as [Hlen Hinv].
  pose proof (Hinv b Hb) as (Hl & Hbl & He & Hr & Hw).
  assert (contents (pipe s) = [] <-> rp (pipe s) = wp_ (pipe s)) as Hnil.
  { apply (contents_nil _ b Hb). unfold buf_ok. lia. }
  unfold read_check. do 2 wp_step. destruct (rp (pipe s) =? wp_ (pipe s)) eqn:E.
  - wp_steps; (split; [by eapply kept_refl |]); left; rewrite Hnil;
      split_and!; (done || lia).
  - eapply wp_mono; [eapply (wp_read_transfer b); auto; lia |].
    intros r k' s' (? & ? & ? & ? & ? & ?). split; [unfold kept; auto |]. right.
    rewrite Hnil. split; [lia | done].
Qed.

Lemma wp_scull_p_read {c : Prop} filp count b k s :
  held k = false -> pipe_inv s -> buf (pipe s) = Some b -> 0 <= count < 2 ^ 63 ->
  wpc c (scull_p_read filp count) (fun r k' s' =>
    kept s k' s' /\ read_spec filp count s r s') k s.
Proof.
  intros Hh HI Hb Hc. pose proof HI as [Hlen Hinv].
  pose proof (Hinv b Hb) as (Hl & Hbl & He & Hr & Hw).
  assert (contents (pipe s) = [] <-> rp (pipe s) = wp_ (pipe s)) as Hnil.
  { apply (contents_nil _ b Hb). unfold buf_ok. lia. }
  unfold scull_p_read, read_spec.
  do 2 wp_step; wp_step; try done; [do 2 wp_step; wp_step |].
  - apply andb_true_iff in Heqb1 as [[HA HB]%andb_true_iff HC]. wp_steps.
    split; [by eapply kept_refl |]. right. left. rewrite HA, HC, Hnil.
    split; [lia | done].
  - eapply wp_mono; [by eapply (wp_read_check filp count b) |].
    intros r k' s' [Hk [(H1 & -> & ->) | H1]]; (split; [done |]); right; [left | by right].
    split_and!; [done | done |]. apply Hnil in H1.
    rewrite (proj2 (Z.eqb_eq _ _) H1), andb_true_r in Heqb1. by rewrite Heqb1.
  - wp_step. split; [by eapply kept_refl | by left].
Qed.

Lemma wp_read_again {c : Prop} filp count b k s :
  held k = false -> pipe_inv s -> buf (pipe s) = Some b -> 0 <= count < 2 ^ 63 ->
  wpc c (read_again filp count) (fun r k' s' =>
    kept s k' s' /\
    ((r = Return (- ERESTARTSYS) [] /\ s' = s) \/
     (contents (pipe s) = [] /\ s' = s /\
      r = if flag_set (f_flags filp) O_NONBLOCK then Return (- EAGAIN) [] else Sleep) \/
     (contents (pipe s) <> [] /\ read_result count s r s'))) k s.
Proof.
  intros Hh HI Hb Hc. unfold read_again. do 2 wp_step; wp_step; try done.
  - eapply wp_mono; [by eapply (wp_read_check filp count b) |].
    intros r k' s' [Hk H]. split; [done | by right].
  - wp_step. split; [by eapply kept_refl | by left].
Qed.

(** C27: a read of an open pipe takes the front of the queue, in order, as much
    as is asked for and is contiguous; an empty queue gives end of file when
    the pipe is the proper FIFO and has no writer, -EAGAIN to a non-blocking
    reader, and puts the others to sleep. *)
Theorem scull_p_read_ok filp count b k s :
  held k = false -> pipe_inv s -> buf (pipe s) = Some b -> 0 <= count < 2 ^ 63 ->
  wp (scull_p_read filp count) (fun r k' s' =>
    kept s k' s' /\ read_spec filp count s r s') k s.
Proof. apply wp_scull_p_read. Qed.

Lemma wp_scull_p_write {c : Prop} filp ubuf b k s :
  held k = false -> pipe_inv s -> buf (pipe s) = Some b -> zlen ubuf < 2 ^ 63 ->
  wpc c (scull_p_write filp ubuf) (fun r k' s' =>
    kept s k' s' /\ write_spec filp ubuf s r s') k s.
Proof.
  intros Hh HI Hb Hc. unfold scull_p_write, write_spec, write_check.
  wp_steps; try discriminate; [| split; [by eapply kept_refl | by left]].
  apply (wp_spacefree b); [done.. |].
  destruct (room (pipe s) =? 0) eqn:E; wp_steps.
  - split; [by eapply kept_refl |]. right. left. split_and!; auto. lia.
  - split; [by eapply kept_refl |]. right. left. split_and!; auto. lia.
  - eapply wp_mono; [eapply (wp_write_transfer b); auto; lia |].
    intros r k' s' (? & ? & ? & ? & ? & ?). split; [unfold kept; auto |]. right. right.
    split; [lia | done].
Qed.

(** C28: a write to an open pipe appends to the queue a prefix of the user's
    bytes, as long as the room and the contiguous space allow; a full queue
    gives -EAGAIN to a non-blocking writer and puts the others to sleep; a
    fault appends nothing. *)
Theorem scull_p_write_ok filp ubuf b k s :
  held k = false -> pipe_inv s -> buf (pipe s) = Some b -> zlen ubuf < 2 ^ 63 ->
  wp (scull_p_write filp ubuf) (fun r k' s' =>
    kept s k' s' /\ write_spec filp ubuf s r s') k s.
Proof. apply wp_scull_p_write. Qed.

Lemma wp_scull_p_poll {c : Prop} b k s :
  held k = false -> pipe_inv s -> buf (pipe s) = Some b ->
  wpc c scull_p_poll (fun mask k' s' =>
    held k' = false /\ s' = s /\
    if (idx (pipe s) =? PROPER_FIFO_BEH_IDX) && (writers (pipe s) =? 0)
    then mask = Z.lor POLLERR POLLHUP
    else (flag_set mask POLLIN = true <-> contents (pipe s) <> []) /\
         (flag_set mask POLLOUT = true <-> 0 < room (pipe s)) /\
         flag_set mask POLLHUP = false) k s.
Proof.
  intros Hh HI Hb. pose proof HI as [Hlen Hinv].
  pose proof (Hinv b Hb) as (Hl & Hbl & He & Hr & Hw).
  assert (buf_ok (buf_len (pipe s)) (pipe s) b) as Hok by (unfold buf_ok; lia).
  assert (contents (pipe s) = [] <-> rp (pipe s) = wp_ (pipe s)) as Hnil.
  { by apply (contents_nil _ b Hb). }
  pose proof (contents_bound (pipe s) b Hb Hok) as Hbd.
  assert (0 <= room (pipe s)) as Hroom by (unfold room; lia).
  unfold scull_p_poll. do 4 wp_step. wp_step; wp_step.
  - wp_steps. auto.
  - apply (wp_spacefree b); [done.. |]. wp_steps. split_and!; [done | done | ..];
      destruct (rp (pipe s) =? wp_ (pipe s)) eqn:E, (room (pipe s) =? 0) eqn:E';
      cbn; rewrite ?Hnil; try split; intros; try done; try lia.
Qed.

(** C29: [poll] reports a pipe readable exactly when its queue is not empty and
    writable exactly when there is room, except for the proper FIFO without
    writers, which it reports as an error and hung up; it changes nothing. *)
Theorem scull_p_poll_ok b k s :
  held k = false -> pipe_inv s -> buf (pipe s) = Some b ->
  wp scull_p_poll (fun mask k' s' =>
    held k' = false /\ s' = s /\
    if (idx (pipe s) =? PROPER_FIFO_BEH_IDX) && (writers (pipe s) =? 0)
    then mask = Z.lor POLLERR POLLHUP
    else (flag_set mask POLLIN = true <-> contents (pipe s) <> []) /\
         (flag_set mask POLLOUT = true <-> 0 < room (pipe s)) /\
         flag_set mask POLLHUP = false) k s.
Proof. apply wp_scull_p_poll. Qed.

(** ** Witnesses *)

(** A wrapped pipe of four bytes that holds three. *)
Definition sample_pipe : pipe_st :=
  PSt (Params 4 2 4)
    (Pipe 0 ∅ ∅ ∅ (Some [Byte.x61; Byte.x62; Byte.x63; Byte.x64]) 4 4 2 1 1 1 ∅).

Lemma sample_inv : pipe_inv sample_pipe.
Proof.
  split; [cbn; lia |]. intros b [= <-]. unfold buf_ok. cbn. lia.
Qed.

Lemma scull_p_read_ok_witness :
  wp (scull_p_read rfile 3) (fun r k' s' => read_spec rfile 3 sample_pipe r s')
    all_ok sample_pipe.
Proof.
  eapply wp_mono;
    [by eapply scull_p_read_ok; [| apply sample_inv | | lia] |].
  cbv beta. intros r k' s' (_ & H). exact H.
Defined.

Lemma scull_p_write_ok_witness :
  wp (scull_p_write wfile [Byte.x65]) (fun r k' s' =>
    write_spec wfile [Byte.x65] sample_pipe r s') all_ok sample_pipe.
Proof.
  eapply wp_mono;
    [by eapply scull_p_write_ok; [| apply sample_inv | | cbn; lia] |].
  cbv beta. intros r k' s' (_ & H). exact H.
Defined.

Lemma scull_p_poll_ok_witness :
  wp scull_p_poll (fun mask k' s' => held k' = false /\ s' = sample_pipe)
    all_ok sample_pipe.
Proof.
  eapply wp_mono; [by eapply scull_p_poll_ok; [| apply sample_inv |] |].
  cbv beta. intros mask k' s' (H & H' & _). exact (conj H H').
Defined.
