(* ===== verification/PipeOpen.v ===== *)
(** * Opening and closing a scull pipe

    What [scull_p_open] and [scull_p_release] do to the queue and to the user
    counts, for the ordinary pipes and for the one with the behaviour of a
    proper FIFO; and runs in which the counts, the buffer and the parameter
    [scull_p_len] part ways. *)

From S2P Require Import Prelude Kernel ScullParams Pipe PipeFifo.

Implicit Types (k : kern) (s : pipe_st) (p : scull_pipe).

(** ** Definitions *)

(** A count after a file of mode [m] has been opened or closed; [bit] is
    FMODE_READ for the readers and FMODE_WRITE for the writers. *)
Definition counted (m bit n : Z) : Z :=
  if flag_set m bit then wrap64 (n + 1) else n.

Definition uncounted (m bit n : Z) : Z :=
  if flag_set m bit then wrap64 (n - 1) else n.

(** Everything but the buffer, the positions and the counts is unchanged. *)
Definition same_queues (s s' : pipe_st) : Prop :=
  ppar s' = ppar s /\ idx (pipe s') = idx (pipe s) /\ inq (pipe s') = inq (pipe s) /\
  outq (pipe s') = outq (pipe s).

(** The buffer is there, of the size the parameter gives, and empty. *)
Definition emptied (s' : pipe_st) : Prop :=
  is_Some (buf (pipe s')) /\ contents (pipe s') = [] /\
  room (pipe s') = scull_p_len (ppar s') - 1 /\ rp (pipe s') = wp_ (pipe s').

(** An open of an ordinary pipe that succeeded. *)
Definition opened (filp : file) (s s' : pipe_st) : Prop :=
  emptied s' /\ same_queues s s' /\ openq (pipe s') = openq (pipe s) /\
  readers (pipe s') = counted (f_mode filp) FMODE_READ (readers (pipe s)) /\
  writers (pipe s') = counted (f_mode filp) FMODE_WRITE (writers (pipe s)).

(** A release that got the lock. *)
Definition closed (filp : file) (s s' : pipe_st) : Prop :=
  same_queues s s' /\
  readers (pipe s') = uncounted (f_mode filp) FMODE_READ (readers (pipe s)) /\
  writers (pipe s') = uncounted (f_mode filp) FMODE_WRITE (writers (pipe s)) /\
  buf (pipe s') = (if wrap64 (readers (pipe s') + writers (pipe s')) =? 0 then None
                   else buf (pipe s)) /\
  rp (pipe s') = rp (pipe s) /\ wp_ (pipe s') = wp_ (pipe s) /\
  buf_len (pipe s') = buf_len (pipe s) /\ end_ (pipe s') = end_ (pipe s) /\ f_id filp ∉ async_q (pipe s').

(** The objects from [kmalloc] the pipe owns. *)
Definition owned (s : pipe_st) : Z := match buf (pipe s) with None => 0 | Some _ => 1 end.

(** Nothing is leaked and nothing freed twice. *)
Definition balanced k s k' s' : Prop := kobjs k' - owned s' = kobjs k - owned s.

(** ** Lemmas *)

Lemma emptied_of s b r w i o q a n :
  0 < scull_p_len (ppar s) < 2 ^ 63 -> zlen b = scull_p_len (ppar s) ->
  let s' := PSt (ppar s) (Pipe n i o q (Some b) (scull_p_len (ppar s))
              (scull_p_len (ppar s)) 0 0 r w a) in
  pipe_inv s' /\ emptied s'.
Proof.
  intros Hl Hb. cbn zeta. unfold pipe_inv, emptied, room, contents, buf_ok. cbn.
  rewrite slice_nil. cbn. split_and!; try lia; try done; try by eexists.
  intros b' [= <-]. lia.
Qed.

Lemma wp_when {c : Prop} (b : bool) (f : pipe_st -> pipe_st)
    (Q : unit -> kern -> pipe_st -> Prop) k s :
  Q tt k (if b then f s else s) -> wpc c (if b then modify f else mret tt) Q k s.
Proof. by destruct b. Qed.

(** The buffer after [reset_buffer]: there, empty, and of the right size. *)
Lemma wp_reset_buffer {c : Prop} (Q : bool -> kern -> pipe_st -> Prop) k s :
  pipe_inv s ->
  (forall k' b, held k' = held k ->
     kobjs k' = kobjs k + (1 - owned s) -> zlen b = scull_p_len (ppar s) ->
     Q true k' (PSt (ppar s) (Pipe (idx (pipe s)) (inq (pipe s)) (outq (pipe s))
       (openq (pipe s)) (Some b) (scull_p_len (ppar s)) (scull_p_len (ppar s)) 0 0
       (readers (pipe s)) (writers (pipe s)) (async_q (pipe s))))) ->
  (buf (pipe s) = None -> forall k', held k' = held k -> kobjs k' = kobjs k ->
     Q false k' s) ->
  wpc c reset_buffer Q k s.
Proof.
  intros [Hl HI] HT HF. unfold reset_buffer. do 2 wp_step. unfold owned in HT.
  change (id s) with s.
  destruct (buf (pipe s)) as [b |] eqn:Hb; wp_steps; try discriminate.
  - destruct (HI b eq_refl) as (Hz & _).
    specialize (HT k b eq_refl ltac:(lia) Hz). rewrite <- Hb in HT. exact HT.
  - apply HT; [done | done |]. rewrite length_stale_bytes. lia.
  - by apply HF.
Qed.

(** ** Properties *)

Lemma wp_scull_p_open {c : Prop} filp k s :
  held k = false -> pipe_inv s -> idx (pipe s) <> PROPER_FIFO_BEH_IDX ->
  wpc c (scull_p_open filp) (fun r k' s' =>
    held k' = false /\ pipe_inv s' /\ balanced k s k' s' /\
    ((r = Return (- ERESTARTSYS) [] /\ s' = s) \/
     (r = Return (- ENOMEM) [] /\ s' = s /\ buf (pipe s) = None) \/
     (r = Return 0 [] /\ opened filp s s'))) k s.
Proof.
  intros Hh HI Hidx. unfold scull_p_open, balanced. do 2 wp_step.
  rewrite (proj2 (Z.eqb_neq _ _) Hidx). wp_steps; try done; [| by auto 7].
  apply wp_reset_buffer; [done | |].
  - intros k' b Hk Ho Hb. cbn [held kobjs] in *. destruct HI as [Hl _].
    pose proof (fun r w => emptied_of s b r w (inq (pipe s)) (outq (pipe s))
      (openq (pipe s)) (async_q (pipe s)) (idx (pipe s)) Hl Hb) as He. cbn zeta in He.
    unfold opened, counted.
    cbn [negb]. wp_steps; try done; (split; [done |]);
      match goal with |- pipe_inv ?s' /\ _ =>
        destruct (He (readers (pipe s')) (writers (pipe s'))) end;
      (split; [done |]); (split; [cbn; lia |]); right; right; by split_and!.
  - intros Hb k' Hk Ho. cbn [held kobjs] in *. wp_steps; try done.
    split; [done |]. split; [done |]. split; [cbn; lia |]. right. left. auto.
Qed.

(** C30: an open of an ordinary pipe either changes nothing (interrupted, or out
    of memory, which only the first open can be) or counts the file and leaves
    an empty buffer of the size the parameter gives: bytes in flight that
    nobody has read are thrown away, although other files are open. *)
Theorem scull_p_open_ok filp k s :
  held k = false -> pipe_inv s -> idx (pipe s) <> PROPER_FIFO_BEH_IDX ->
  wp (scull_p_open filp) (fun r k' s' =>
    held k' = false /\ pipe_inv s' /\ balanced k s k' s' /\
    ((r = Return (- ERESTARTSYS) [] /\ s' = s) \/
     (r = Return (- ENOMEM) [] /\ s' = s /\ buf (pipe s) = None) \/
     (r = Return 0 [] /\ opened filp s s'))) k s.
Proof. apply wp_scull_p_open. Qed.

Lemma wp_scull_p_proper_open {c : Prop} filp k s :
  held k = false -> pipe_inv s -> idx (pipe s) = PROPER_FIFO_BEH_IDX ->
  wpc c (scull_p_open filp) (fun r k' s' =>
    held k' = false /\ pipe_inv s' /\ balanced k s k' s' /\
    ((r = Return (- ERESTARTSYS) [] /\ s' = s) \/
     if flag_set (f_mode filp) FMODE_READ then
       if flag_set (f_flags filp) O_NONBLOCK && (writers (pipe s) =? 0)
       then r = Return (- EAGAIN) [] /\ s' = s
       else r = (if writers (pipe s) =? 0 then Sleep else Return 0 []) /\
            s' = upd (set_users (wrap64 (readers (pipe s) + 1)) (writers (pipe s))) s
     else
       same_queues s s' /\ readers (pipe s') = readers (pipe s) /\
       writers (pipe s') = wrap64 (writers (pipe s) + 1) /\
       ((r = Return (- ENOMEM) [] /\ buf (pipe s') = None) \/
        (r = Return 0 [] /\ emptied s' /\
         openq (pipe s') = if readers (pipe s) =? 0 then openq (pipe s) else ∅)))) k s.
Proof.
  intros Hh HI Hidx. unfold scull_p_open, scull_p_proper_open, proper_open_check, balanced.
  do 2 wp_step. rewrite (proj2 (Z.eqb_eq _ _) Hidx).
  assert (forall r w, pipe_inv (upd (set_users r w) s)) as HI'
    by (intros r w; apply HI).
  wp_step. wp_step; wp_step; try done; cbn [held kobjs]; [| wp_step; by auto 7].
  wp_step; [do 2 wp_step; wp_step |].
  - do 3 wp_step. split; [done |]. by auto 7.
  - wp_steps; (split; [done |]); (split; [apply HI' |]); (split; [done |]); right;
      cbn [pipe upd set_users writers] in *; by destruct (writers (pipe s) =? 0).
  - do 3 wp_step. apply wp_reset_buffer; [apply (HI' (readers (pipe s))) | |].
    + intros k' b Hk Ho Hb. cbn [held kobjs] in *.
      pose proof (fun q => emptied_of s b (readers (pipe s)) (wrap64 (writers (pipe s) + 1))
        (inq (pipe s)) (outq (pipe s)) q (async_q (pipe s)) (idx (pipe s))
        (proj1 HI) Hb) as He. cbn zeta in He.
      cbn [upd ppar pipe set_users idx inq outq openq readers writers async_q] in *.
      unfold wake_open. cbn [negb]. wp_steps; try done; (split; [done |]);
        match goal with |- pipe_inv ?s' /\ _ => destruct (He (openq (pipe s'))) end;
        (split; [done |]); (split; [unfold owned in *; cbn in *; lia |]); right;
        (split; [done |]); (split; [done |]); (split; [done |]); right;
        cbn in *; by destruct (readers (pipe s) =? 0).
    + intros Hb k' Hk Ho. cbn [held kobjs] in *. wp_steps; try done.
      split; [done |]. split; [apply (HI' (readers (pipe s))) |].
      split; [unfold owned in *; cbn in *; lia |]. right.
      split; [by repeat split | by auto 7].
Qed.

(** C31: an open of the proper FIFO for reading counts a reader, and only that:
    the queue is untouched, the call returns when there is a writer and waits
    for one otherwise; a non-blocking reader without a writer gets -EAGAIN and
    is not counted.  An open for writing only counts a writer and empties the
    queue, and is counted even when it fails for lack of memory; with a reader
    present it leaves nobody on the queue of those who wait for a writer. *)
Theorem scull_p_proper_open_ok filp k s :
  held k = false -> pipe_inv s -> idx (pipe s) = PROPER_FIFO_BEH_IDX ->
  wp (scull_p_open filp) (fun r k' s' =>
    held k' = false /\ pipe_inv s' /\ balanced k s k' s' /\
    ((r = Return (- ERESTARTSYS) [] /\ s' = s) \/
     if flag_set (f_mode filp) FMODE_READ then
       if flag_set (f_flags filp) O_NONBLOCK && (writers (pipe s) =? 0)
       then r = Return (- EAGAIN) [] /\ s' = s
       else r = (if writers (pipe s) =? 0 then Sleep else Return 0 []) /\
            s' = upd (set_users (wrap64 (readers (pipe s) + 1)) (writers (pipe s))) s
     else
       same_queues s s' /\ readers (pipe s') = readers (pipe s) /\
       writers (pipe s') = wrap64 (writers (pipe s) + 1) /\
       ((r = Return (- ENOMEM) [] /\ buf (pipe s') = None) \/
        (r = Return 0 [] /\ emptied s' /\
         openq (pipe s') = if readers (pipe s) =? 0 then openq (pipe s) else ∅)))) k s.
Proof. apply wp_scull_p_proper_open. Qed.

Lemma wp_scull_p_release {c : Prop} filp k s :
  held k = false -> pipe_inv s ->
  wpc c (scull_p_release filp) (fun r k' s' =>
    held k' = false /\ pipe_inv s' /\ balanced k s k' s' /\
    openq (pipe s') = openq (pipe s) /\
    ((r = Return (- ERESTARTSYS) [] /\
      s' = upd (set_async (async_q (pipe s) ∖ {[f_id filp]})) s) \/
     (r = Return 0 [] /\ closed filp s s'))) k s.
Proof.
  intros Hh HI. unfold scull_p_release, scull_p_fasync, balanced. cbn [Z.eqb].
  set (a := async_q (pipe s) ∖ {[f_id filp]}).
  set (r := uncounted (f_mode filp) FMODE_READ (readers (pipe s))).
  set (w := uncounted (f_mode filp) FMODE_WRITE (writers (pipe s))).
  do 6 wp_step; wp_step; try done; cbn [held kobjs];
    [| wp_step; split_all; auto; apply HI].
  wp_step. apply wp_when. wp_step. apply wp_when.
  match goal with |- wpc _ _ _ _ ?S =>
    replace S with (upd (set_users r w) (upd (set_async a) s)) end.
  2:{ unfold r, w, uncounted. destruct s as [? []].
      by destruct (flag_set _ FMODE_READ), (flag_set _ FMODE_WRITE). }
  unfold closed, owned. do 3 wp_step. cbn [readers writers pipe upd set_users buf set_async].
  assert (f_id filp ∉ a) as Hq by (unfold a; rewrite elem_of_difference, elem_of_singleton; tauto).
  destruct (wrap64 (r + w) =? 0) eqn:E; [wp_step; destruct (buf (pipe s)) eqn:Hb |];
    wp_steps; (split; [done |]);
    (split; [split; [apply HI | by cbn; try apply HI] |]); cbn [kobjs pipe upd set_buf buf];
    (split; [try change (buf (pipe (upd (set_users r w) (upd (set_async a) s))))
      with (buf (pipe s)); cbn; lia |]); (split; [done |]); right;
    (split; [done |]); fold r w; cbn [readers writers pipe upd set_buf set_users];
    rewrite E; by repeat split.
Qed.

(** C32: a release that gets the lock uncounts the file and frees the buffer
    exactly when no reader and no writer is left; the bytes in the queue go
    with it, otherwise they stay.  A release that a signal interrupts leaves
    the counts as they are, for good, since a file is released once; either
    way the file gets no more signals. *)
Theorem scull_p_release_ok filp k s :
  held k = false -> pipe_inv s ->
  wp (scull_p_release filp) (fun r k' s' =>
    held k' = false /\ pipe_inv s' /\ balanced k s k' s' /\
    openq (pipe s') = openq (pipe s) /\
    ((r = Return (- ERESTARTSYS) [] /\
      s' = upd (set_async (async_q (pipe s) ∖ {[f_id filp]})) s) \/
     (r = Return 0 [] /\ closed filp s s'))) k s.
Proof. apply wp_scull_p_release. Qed.

(** ** Witnesses *)

(** Three bytes in flight are gone after another open. *)
Lemma scull_p_open_ok_witness :
  zlen (contents (pipe sample_pipe)) = 3 /\
  wp (scull_p_open rfile) (fun r _ s' =>
    r = Return 0 [] -> contents (pipe s') = []) all_ok sample_pipe.
Proof.
  split; [reflexivity |].
  eapply wp_mono; [apply (scull_p_open_ok rfile all_ok sample_pipe);
    [reflexivity | apply sample_inv | discriminate] |].
  cbv beta. intros r k' s' (_ & _ & _ & [[-> _] | [(-> & _) | (_ & H)]]) Hr;
    [discriminate.. | apply H].
Defined.

Lemma scull_p_proper_open_ok_witness :
  wp (scull_p_open wfile) (fun r _ s' => r = Return (- ENOMEM) [] -> writers (pipe s') = 1)
    all_ok (PSt (Params 4 2 4) (new_pipe PROPER_FIFO_BEH_IDX)).
Proof.
  eapply wp_mono; [apply (scull_p_proper_open_ok wfile);
    [reflexivity | split; [cbn; lia | discriminate] | reflexivity] |].
  cbv beta. intros r k' s' (_ & _ & _ & [[-> _] | (_ & _ & H & _)]) Hr;
    [discriminate | exact H].
Defined.

Lemma scull_p_release_ok_witness :
  wp (scull_p_release rfile) (fun r _ s' =>
    r = Return 0 [] -> readers (pipe s') = 0 /\ writers (pipe s') = 1) all_ok sample_pipe.
Proof.
  eapply wp_mono; [apply scull_p_release_ok; [reflexivity | apply sample_inv] |].
  cbv beta. intros r k' s' (_ & _ & _ & _ & [[-> _] | (_ & H)]) Hr; [discriminate |].
  destruct H as (_ & Hr' & Hw' & _). exact (conj Hr' Hw').
Defined.
