(* ===== verification/PipeRuns.v ===== *)
(** * Sequences of calls on a scull pipe that oops

    Each run is a short program of entry points, after which the next write of a
    file that is open oopses, whatever the kernel answers, unless one of the calls
    failed.  The conditions they violate are those of the theorems of PipeFifo.v:
    the buffer has the size the driver takes it to have, and it is there as long
    as a file is open. *)

From S2P Require Import Prelude Kernel ScullParams ScullIoctl Pipe PipeFifo PipeOpen.

Implicit Types (k : kern) (s : pipe_st) (p : scull_pipe).

(** ** Definitions *)

(** [scull_ioctl] on a pipe; the pipes share it with the devices. *)
Definition pipe_ioctl (cap : bool) (cmd arg : Z) : M pipe_st sect := fun k s =>
  match scull_ioctl cap cmd arg k (IoSt (ppar s) 0) with
  | Done (r, k', io) => Done (Return r [], k', PSt (iopar io) (pipe s))
  | Crash o => Crash o
  end.

(** The value a finished call returns to user space is an error. *)
Definition failed (r : sect) : Prop :=
  match r with Return v _ => v < 0 | Sleep => False | Wake v _ => v < 0 end.

(** Anyone raises the parameter, and a second file opens the pipe. *)
Definition resize_run (m : Z) (filp : file) : M pipe_st (list sect) :=
  r1 ← pipe_ioctl false SCULL_P_IOCTSIZE m;
  r2 ← scull_p_open filp;
  mret [r1; r2].

(** A writer opens the proper FIFO, and a second file opens it for reading and
    writing and closes it again. *)
Definition rdwr_run (wfilp rwfilp : file) : M pipe_st (list sect) :=
  r1 ← scull_p_open wfilp;
  r2 ← scull_p_open rwfilp;
  r3 ← scull_p_release rwfilp;
  mret [r1; r2; r3].

(** A write that no signal keeps from the lock ends in the oops [o]. *)
Definition write_oopses (o : oops) (filp : file) (ubuf : list Byte.byte) (s : pipe_st) : Prop :=
  forall k, held k = false -> ans k 0%nat = 0 -> run_oops (scull_p_write filp ubuf) k s = Some o.

(** ** Lemmas *)

Lemma wp_pipe_tsize {c : Prop} m (Q : sect -> kern -> pipe_st -> Prop) k s :
  (forall k', held k' = held k -> Q (Return 0 []) k' (PSt (set_p_len m (ppar s)) (pipe s))) ->
  (forall k', held k' = held k -> Q (Return (- EFAULT) []) k' s) ->
  wpc c (pipe_ioctl false SCULL_P_IOCTSIZE m) Q k s.
Proof.
  intros H0 HF. unfold wpc, pipe_ioctl, scull_ioctl. ioctl_cmd. unfold access_ok. mred.
  destruct (ans k 0 =? 0); cbn; [by apply H0 |].
  destruct s as [par p]. by apply (HF (Kern _ _ _ _)).
Qed.

(** On an empty queue a write gets to copying, at once. *)
Lemma oopses_write_copies o filp ubuf k s :
  held k = false -> ans k 0%nat = 0 -> rp (pipe s) = wp_ (pipe s) ->
  0 <= wp_ (pipe s) < end_ (pipe s) -> end_ (pipe s) < 2 ^ 63 -> 2 <= buf_len (pipe s) < 2 ^ 63 ->
  (forall bs k', zlen bs = Z.min (Z.min (zlen ubuf) (buf_len (pipe s) - 1)) (end_ (pipe s) - wp_ (pipe s)) ->
     oopses o (buf_write (wp_ (pipe s)) bs) k' s) ->
  oopses o (scull_p_write filp ubuf) k s.
Proof.
  intros Hh Ha Hr Hw He Hl Ho.
  assert (forall (Q : Z -> kern -> pipe_st -> Prop) k', held k' = true ->
    Q (buf_len (pipe s) - 1) k' s -> wp spacefree Q k' s) as Hsp.
  { intros Q k' Hk HQ. unfold spacefree. do 4 wp_step. rewrite (proj2 (Z.eqb_eq _ _) Hr).
    wp_steps; try done. by rewrite wrap64_small by lia. }
  unfold scull_p_write. apply oopses_bind, wp_lock_taken; [done | done |]. cbn [Z.eqb negb].
  unfold write_check. apply oopses_bind. wp_step. apply oopses_bind, Hsp; [done |].
  replace (buf_len (pipe s) - 1 =? 0) with false by lia.
  unfold write_transfer. apply oopses_bind, Hsp; [done |]. apply oopses_bind. wp_step.
  rewrite Hr, Z.leb_refl, (wrap64_small (end_ _ - _)) by lia.
  set (n := Z.min _ (_ - wp_ _)) in *.
  assert (zlen (take (Z.to_nat n) ubuf) = n) as Hn by (rewrite length_take; lia).
  apply oopses_bind. wp_step; apply oopses_first, Ho; lia.
Qed.

(** A write that the driver's sizes admit and the memory does not. *)
Lemma write_oopses_beyond filp ubuf b m s :
  buf (pipe s) = Some b -> rp (pipe s) = 0 -> wp_ (pipe s) = 0 ->
  buf_len (pipe s) = m -> end_ (pipe s) = m -> m < 2 ^ 63 -> zlen b < zlen ubuf < m ->
  write_oopses OobWrite filp ubuf s.
Proof.
  intros Hb Hr Hw Hl He Hm Hu k Hk Ha. apply oopses_run, oopses_write_copies; try done; try lia.
  rewrite Hw, Hl, He. intros bs k' Hbs. unfold buf_write. apply oopses_bind. wp_step.
  rewrite Hb. apply oopses_first, oopses_check. apply orb_false_iff. split; lia.
Qed.

(** A write of at least one byte to an empty queue whose buffer was freed. *)
Lemma write_oopses_freed filp ubuf s :
  buf (pipe s) = None -> rp (pipe s) = wp_ (pipe s) ->
  0 <= wp_ (pipe s) < end_ (pipe s) -> end_ (pipe s) < 2 ^ 63 ->
  2 <= buf_len (pipe s) < 2 ^ 63 -> ubuf <> [] ->
  write_oopses UseAfterFree filp ubuf s.
Proof.
  intros Hb Hr Hw He Hl Hu k Hk Ha. assert (0 < zlen ubuf) by (destruct ubuf; done || cbn; lia).
  apply oopses_run, oopses_write_copies; try done; try lia.
  intros bs k' Hbs. unfold buf_write. apply oopses_bind. wp_step. rewrite Hb.
  apply oopses_check. lia.
Qed.

(** ** Properties *)

(** C33: raising [scull_p_len] needs no privilege, and the next open of a pipe
    takes the new value as the size of the buffer it already has: unless one of
    the two calls failed, the buffer is still the old one, the pipe takes it to
    have the new size, and a write that fits the new size and not the old one
    runs past the allocation. *)
Theorem resize_overflows m filp wfilp ubuf b k s :
  held k = false -> pipe_inv s -> idx (pipe s) <> PROPER_FIFO_BEH_IDX ->
  buf (pipe s) = Some b -> m < 2 ^ 63 -> zlen b < zlen ubuf < m ->
  wp (resize_run m filp) (fun rs k' s' => held k' = false /\
    (Exists failed rs \/
     rs = [Return 0 []; Return 0 []] /\ buf (pipe s') = Some b /\ buf_len (pipe s') = m /\
     write_oopses OobWrite wfilp ubuf s')) k s.
Proof.
  intros Hh HI Hidx Hb Hm Hu. unfold resize_run. wp_step. apply wp_pipe_tsize.
  - intros k1 Hk1. rewrite Hh in Hk1. wp_step. unfold scull_p_open, reset_buffer, nonseekable_open.
    do 2 wp_step. wp_step; [by apply Z.eqb_eq in Heqb0 |]. do 2 wp_step; wp_step; try done.
    + do 3 wp_step. cbn [id pipe ppar]. rewrite Hb. wp_steps; try done.
      all: split; [done |]; right; split_and!; try done.
      all: eapply (write_oopses_beyond _ _ b m); done.
    + wp_steps. split; [done |]. left.
      apply Exists_cons_tl, Exists_cons_hd. cbn. unfold ERESTARTSYS. lia.
  - intros k1 Hk1. rewrite Hh in Hk1. wp_step.
    eapply wp_mono; [by apply wp_scull_p_open |]. intros r2 k2 s2 [Hk2 _]. wp_step.
    split; [done |]. left. apply Exists_cons_hd. cbn. unfold EFAULT. lia.
Qed.

(** C34: a file open for reading and writing is counted by the proper FIFO as a
    reader only, but uncounted as both: after it is opened and closed, unless one
    of the calls failed, no file is counted and the buffer is freed although a
    writer still has the FIFO open, and that writer's next byte goes to freed
    memory. *)
Theorem rdwr_use_after_free par wfilp rwfilp ubuf k :
  held k = false -> 2 <= scull_p_len par < 2 ^ 63 -> ubuf <> [] ->
  flag_set (f_mode wfilp) FMODE_READ = false ->
  flag_set (f_mode rwfilp) FMODE_READ = true ->
  flag_set (f_mode rwfilp) FMODE_WRITE = true ->
  wp (rdwr_run wfilp rwfilp) (fun rs k' s' => held k' = false /\
    (Exists failed rs \/
     rs = replicate 3 (Return 0 []) /\ readers (pipe s') = 0 /\ writers (pipe s') = 0 /\
     buf (pipe s') = None /\ write_oopses UseAfterFree wfilp ubuf s')) k
    (PSt par (new_pipe PROPER_FIFO_BEH_IDX)).
Proof.
  intros Hh Hl Hu Hw Hr Hrw. unfold rdwr_run. wp_step.
  eapply wp_mono; [apply wp_scull_p_proper_open; [done | split; [cbn; lia | done] | done] |].
  intros r1 k1 s1 (Hh1 & HI1 & _ & H1). wp_step. rewrite Hw in H1.
  assert (idx (pipe s1) = PROPER_FIFO_BEH_IDX) as Hx1.
  { destruct H1 as [[_ ->] | [(_ & Hx & _) _]]; done. }
  eapply wp_mono; [by apply wp_scull_p_proper_open |].
  intros r2 k2 s2 (Hh2 & HI2 & _ & H2). wp_step.
  eapply wp_mono; [by apply wp_scull_p_release |].
  intros r3 k3 s3 (Hh3 & HI3 & _ & _ & H3). wp_step. split; [done |].
  destruct H1 as [[-> _] | (Hq1 & Hr1 & Hw1 & [[-> _] | (-> & He1 & _)])];
    [left; by apply Exists_cons_hd .. |].
  destruct Hq1 as (Hp1 & Hi1 & _). cbn in Hr1, Hw1, Hp1, Hi1.
  change (wrap64 1) with 1 in Hw1. rewrite Hr, Hw1, andb_false_r in H2.
  destruct H2 as [[-> _] | [-> ->]]; [left; by apply Exists_cons_tl, Exists_cons_hd |].
  destruct H3 as [[-> _] | (-> & _ & Hr3 & Hw3 & Hb3 & Hrp & Hwp & Hbl & Hend & _)].
  { left; by apply Exists_cons_tl, Exists_cons_tl, Exists_cons_hd. }
  right. destruct He1 as ([b Hb] & _ & _ & Heq).
  destruct HI1 as [_ HI1]. destruct (HI1 b Hb) as (_ & E1 & E2 & _ & E3).
  unfold uncounted in Hr3, Hw3. rewrite Hr, Hrw in *.
  cbn [pipe upd set_users readers writers rp wp_ buf_len end_] in *.
  rewrite Hr1 in Hr3. change (readers (pipe s3) = 0) in Hr3. change (writers (pipe s3) = 0) in Hw3.
  rewrite Hr3, Hw3 in Hb3.
  change (buf (pipe s3) = None) in Hb3. rewrite <- Hp1 in Hl.
  split_and!; [done | exact Hr3 | exact Hw3 | exact Hb3 |].
  apply write_oopses_freed; auto; first [congruence | lia].
Qed.

(** ** Witnesses *)

Lemma resize_overflows_witness :
  run_value (resize_run 16 rfile) all_ok sample_pipe = Some [Return 0 []; Return 0 []] /\
  wp (resize_run 16 rfile) (fun rs k' s' =>
    Exists failed rs \/ write_oopses OobWrite wfile (replicate 5 Byte.x61) s') all_ok sample_pipe.
Proof.
  split; [vm_compute; reflexivity |].
  eapply wp_mono; [eapply (resize_overflows 16 rfile wfile (replicate 5 Byte.x61));
    [reflexivity | apply sample_inv | discriminate | reflexivity | lia | cbn; lia] |].
  cbv beta. intros rs k' s' [_ [H | H]]; [by left | right]. apply H.
Defined.

Lemma rdwr_use_after_free_witness :
  run_value (rdwr_run wfile rwfile) all_ok
    (PSt (Params 4 2 4) (new_pipe PROPER_FIFO_BEH_IDX)) = Some (replicate 3 (Return 0 [])) /\
  wp (rdwr_run wfile rwfile) (fun rs k' s' =>
    Exists failed rs \/ write_oopses UseAfterFree wfile [Byte.x61] s') all_ok
    (PSt (Params 4 2 4) (new_pipe PROPER_FIFO_BEH_IDX)).
Proof.
  split; [vm_compute; reflexivity |].
  eapply wp_mono; [apply (rdwr_use_after_free (Params 4 2 4) wfile rwfile [Byte.x61]);
    [reflexivity | cbn; lia | discriminate | reflexivity..] |].
  cbv beta. intros rs k' s' [_ [H | H]]; [by left | right]. apply H.
Defined.
