(* ===== verification/PipeSys.v ===== *)
(** * A scull pipe used by many threads

    Threads call the entry points of one pipe in any interleaving; a call is
    cut where the code gives up the lock, and every cut section is one step.
    The kernel answers every step as it likes.  The first part shows that the
    pipe is an instance of the queue interface of Fifo.v: nothing is lost,
    duplicated or reordered between resets.  The second part counts open files
    and shows that an ordinary pipe never oopses; the third is about threads
    asleep on the wait queues. *)

From S2P Require Import Prelude Kernel ScullParams Fifo Pipe PipeFifo PipeOpen.

Implicit Types (k : kern) (s : pipe_st) (p : scull_pipe).

(** ** Threads *)

(** The system calls on a pipe. *)
Inductive call :=
  | COpen (filp : file)
  | CRelease (filp : file)
  | CRead (filp : file) (count : Z)
  | CWrite (filp : file) (ubuf : list Byte.byte)
  | CPoll (filp : file).

(** Where a thread is in its call: about to take the lock again, about to test
    the wait condition, asleep, or about to wake the other side. *)
Inductive pc := PAgain | PWait | PAsleep | PWake.

Definition call_file (c : call) : file :=
  match c with
  | COpen f | CRelease f | CRead f _ | CWrite f _ | CPoll f => f
  end.

(** From the entry to the first point without the lock. *)
Definition enter (c : call) : M pipe_st sect :=
  match c with
  | COpen f => scull_p_open f
  | CRelease f => scull_p_release f
  | CRead f n => scull_p_read f n
  | CWrite f u => scull_p_write f u
  | CPoll _ => m ← scull_p_poll; mret (Return m [])
  end.

(** From retaking the lock to the next such point; the loop of
    [scull_getwritespace] retakes the lock as its caller took it. *)
Definition again (c : call) : M pipe_st sect :=
  match c with
  | COpen f => proper_open_again
  | CRead f n => read_again f n
  | CWrite f u => scull_p_write f u
  | CRelease _ | CPoll _ => mret (Return 0 [])
  end.

(** The test of the wait condition by thread [t]. *)
Definition wait (t : nat) (c : call) : M pipe_st bool :=
  match c with
  | COpen _ => open_wait t
  | CRead _ _ => read_wait t
  | CWrite _ _ => write_wait t
  | CRelease _ | CPoll _ => mret true
  end.

(** The wake-up after the lock is given up. *)
Definition wake (c : call) : M pipe_st unit :=
  match c with
  | CRead _ _ => wake_out
  | CWrite _ _ => wake_in
  | _ => mret tt
  end.

(** The threads a signal or a wake-up takes from the queues. *)
Definition dequeue (t : nat) (s : pipe_st) : pipe_st :=
  upd (fun p => set_queues (inq p ∖ {[t]}) (outq p ∖ {[t]}) (openq p ∖ {[t]}) p) s.

Definition queued (t : nat) (s : pipe_st) : Prop :=
  t ∈ inq (pipe s) ∪ outq (pipe s) ∪ openq (pipe s).

(** ** The system *)

(** The pipe, the threads inside a call, and the open files. *)
Record sys := Sys {
  s_pipe : pipe_st;
  s_threads : gmap nat (call * pc);
  s_files : gmap nat file
}.

(** What the file layer above the driver guarantees: a call is made on an open
    file of the right mode, a file is released when no call on it is in
    progress, and a transfer has less than 2^63 bytes. *)
Definition unused (S : sys) (i : nat) : Prop :=
  map_Forall (fun _ x => f_id (call_file (fst x)) <> i) (s_threads S).

Definition may_call (S : sys) (c : call) : Prop :=
  match c with
  | COpen f => s_files S !! f_id f = None /\ unused S (f_id f)
  | CRelease f => s_files S !! f_id f = Some f /\ unused S (f_id f)
  | CRead f n => s_files S !! f_id f = Some f /\ flag_set (f_mode f) FMODE_READ = true /\
                 0 <= n < 2 ^ 63
  | CWrite f u => s_files S !! f_id f = Some f /\ flag_set (f_mode f) FMODE_WRITE = true /\
                  zlen u < 2 ^ 63
  | CPoll f => s_files S !! f_id f = Some f
  end.

(** The open files after a section: an open that returned 0 adds its file, a
    release removes it whatever it returned. *)
Definition files_after (c : call) (r : sect) (fs : gmap nat file) : gmap nat file :=
  match c, r with
  | COpen f, Return v _ => if v =? 0 then <[f_id f := f]> fs else fs
  | CRelease f, _ => delete (f_id f) fs
  | _, _ => fs
  end.

Definition threads_after (t : nat) (c : call) (r : sect) (ts : gmap nat (call * pc))
    : gmap nat (call * pc) :=
  match r with
  | Return _ _ => delete t ts
  | Sleep => <[t := (c, PWait)]> ts
  | Wake _ _ => <[t := (c, PWake)]> ts
  end.

Definition after (t : nat) (c : call) (r : sect) (s' : pipe_st) (S : sys) : sys :=
  Sys s' (threads_after t c r (s_threads S)) (files_after c r (s_files S)).

(** What a section did to the queue: the bytes a reader got, the bytes of the
    user a writer stored, or the loss of the contents. *)
Definition label (c : call) (r : sect) (s s' : pipe_st) : event :=
  match c, r with
  | CRead _ _, Wake _ bs => EvGet bs
  | CWrite _ u, Wake n _ => EvPut (take (Z.to_nat n) u)
  | (COpen _ | CRelease _), _ =>
      if bool_decide (contents (pipe s') = contents (pipe s)) then EvTau else EvReset
  | _, _ => EvTau
  end.

(** A step starts without the lock, on a kernel with or without CONFIG_LOCKDEP.
    A wait of a writer with it is no step: [write_wait] then fails the assertion
    of [spacefree] ([write_wait_unlocked]). *)
Definition idle (k : kern) : Prop := held k = false.

Definition is_write (c : call) : bool := match c with CWrite _ _ => true | _ => false end.

(** CONFIG_LOCKDEP is on, and the call is a write. *)
Definition asserts (c : call) (k : kern) : Prop := lockdep k = true /\ is_write c = true.

Inductive step : sys -> event -> sys -> Prop :=
  | step_enter S t c k r k' s' :
      s_threads S !! t = None -> may_call S c -> idle k ->
      enter c k (s_pipe S) = Done (r, k', s') ->
      step S (label c r (s_pipe S) s') (after t c r s' S)
  | step_again S t c k r k' s' :
      s_threads S !! t = Some (c, PAgain) -> idle k ->
      again c k (s_pipe S) = Done (r, k', s') ->
      step S (label c r (s_pipe S) s') (after t c r s' S)
  | step_wait S t c k b k' s' :
      s_threads S !! t = Some (c, PWait) -> idle k ->
      wait t c k (s_pipe S) = Done (b, k', s') ->
      step S EvTau (Sys s' (<[t := (c, if b then PAgain else PAsleep)]> (s_threads S))
                      (s_files S))
  | step_woken S t c :
      s_threads S !! t = Some (c, PAsleep) -> ~ queued t (s_pipe S) ->
      step S EvTau (Sys (s_pipe S)
        (<[t := (c, match c with CWrite _ _ => PAgain | _ => PWait end)]> (s_threads S))
        (s_files S))
  | step_signal S t c :
      s_threads S !! t = Some (c, PAsleep) ->
      step S EvTau (Sys (dequeue t (s_pipe S)) (delete t (s_threads S)) (s_files S))
  | step_wake S t c k k' s' :
      s_threads S !! t = Some (c, PWake) -> idle k ->
      wake c k (s_pipe S) = Done (tt, k', s') ->
      step S EvTau (Sys s' (delete t (s_threads S)) (s_files S)).

(** ** Running the system *)

#[export] Instance may_call_dec S c : Decision (may_call S c).
Proof. destruct c; cbn; unfold unused; apply _. Defined.

#[export] Instance queued_dec t s : Decision (queued t s).
Proof. unfold queued. apply _. Defined.

(** What the scheduler lets a thread do next. *)
Inductive move := MEnter (c : call) | MAgain | MWait | MWoken | MSignal | MWake.

(** The kernel that grants everything, without CONFIG_LOCKDEP. *)
Definition quiet : kern := Kern (fun _ => 0) false 0 false.

(** One move of thread [t] under [quiet]. *)
Definition exec1 (t : nat) (m : move) (S : sys) : option (event * sys) :=
  match m, s_threads S !! t with
  | MEnter c, None =>
      if decide (may_call S c) then
        match enter c quiet (s_pipe S) with
        | Done (r, _, s') => Some (label c r (s_pipe S) s', after t c r s' S)
        | Crash _ => None
        end
      else None
  | MAgain, Some (c, PAgain) =>
      match again c quiet (s_pipe S) with
      | Done (r, _, s') => Some (label c r (s_pipe S) s', after t c r s' S)
      | Crash _ => None
      end
  | MWait, Some (c, PWait) =>
      match wait t c quiet (s_pipe S) with
      | Done (b, _, s') =>
          Some (EvTau, Sys s' (<[t := (c, if (b : bool) then PAgain else PAsleep)]> (s_threads S))
                         (s_files S))
      | Crash _ => None
      end
  | MWoken, Some (c, PAsleep) =>
      if decide (queued t (s_pipe S)) then None
      else Some (EvTau, Sys (s_pipe S)
             (<[t := (c, match c with CWrite _ _ => PAgain | _ => PWait end)]> (s_threads S))
             (s_files S))
  | MSignal, Some (c, PAsleep) =>
      Some (EvTau, Sys (dequeue t (s_pipe S)) (delete t (s_threads S)) (s_files S))
  | MWake, Some (c, PWake) =>
      match wake c quiet (s_pipe S) with
      | Done (_, _, s') => Some (EvTau, Sys s' (delete t (s_threads S)) (s_files S))
      | Crash _ => None
      end
  | _, _ => None
  end.

Fixpoint exec (ms : list (nat * move)) (S : sys) : option (list event * sys) :=
  match ms with
  | [] => Some ([], S)
  | (t, m) :: ms =>
      '(e, S1) ← exec1 t m S;
      '(es, S2) ← exec ms S1;
      Some (e :: es, S2)
  end.

Lemma exec1_step t m S e S' : exec1 t m S = Some (e, S') -> step S e S'.
Proof.
  assert (idle quiet) as Hq by done.
  destruct S as [s ts fs]. unfold exec1. cbn. intros H.
  destruct m; destruct (ts !! t) as [[c' []] |] eqn:Ht; try done.
  - destruct (decide _) as [Hm |]; [| done].
    destruct (enter c quiet s) as [[[r k'] s'] |] eqn:He; [| done].
    injection H as <- <-. exact (step_enter (Sys s ts fs) t c quiet r k' s' Ht Hm Hq He).
  - destruct (again c' quiet s) as [[[r k'] s'] |] eqn:He; [| done].
    injection H as <- <-. exact (step_again (Sys s ts fs) t c' quiet r k' s' Ht Hq He).
  - destruct (wait t c' quiet s) as [[[b k'] s'] |] eqn:He; [| done].
    injection H as <- <-. exact (step_wait (Sys s ts fs) t c' quiet b k' s' Ht Hq He).
  - destruct (decide _) as [| Hn]; [done |].
    injection H as <- <-. exact (step_woken (Sys s ts fs) t c' Ht Hn).
  - injection H as <- <-. exact (step_signal (Sys s ts fs) t c' Ht).
  - destruct (wake c' quiet s) as [[[[] k'] s'] |] eqn:He; [| done].
    injection H as <- <-. exact (step_wake (Sys s ts fs) t c' quiet k' s' Ht Hq He).
Qed.

(** What [exec] computes is a run of the system. *)
Lemma exec_run ms S es S' : exec ms S = Some (es, S') -> run step S es S'.
Proof.
  revert S es. induction ms as [| [t m] ms IH]; intros S es; cbn.
  - intros [= <- <-]. constructor.
  - destruct (exec1 t m S) as [[e S1] |] eqn:E1; [| done]. simpl.
    destruct (exec ms S1) as [[es2 S2] |] eqn:E2; [| done]. simpl.
    intros [= <- <-]. econstructor; [by eapply exec1_step | by apply IH].
Qed.

(** A pipe nobody uses yet. *)
Definition new_sys (par : params) (i : Z) : sys := Sys (PSt par (new_pipe i)) ∅ ∅.

(** ** Invariants *)

(** The arguments of a call in progress are what the file layer let through. *)
Definition args_ok (c : call) : Prop :=
  match c with
  | CRead _ n => 0 <= n < 2 ^ 63
  | CWrite _ u => zlen u < 2 ^ 63
  | _ => True
  end.

Definition sys_ok (S : sys) : Prop :=
  pipe_inv (s_pipe S) /\
  forall t c q, s_threads S !! t = Some (c, q) -> args_ok c.

(** What an event says about the queue before and after it. *)
Definition event_ok (e : event) (s s' : pipe_st) : Prop :=
  match e with
  | EvPut bs => contents (pipe s') = contents (pipe s) ++ bs
  | EvGet bs => contents (pipe s) = bs ++ contents (pipe s')
  | EvTau => contents (pipe s') = contents (pipe s)
  | EvReset => True
  end.

(** ** The pipe as an instance of the queue interface *)

Lemma contents_none p : buf p = None -> contents p = [].
Proof. intros H. unfold contents. by rewrite H. Qed.

Lemma inv_none s s' : pipe_inv s -> ppar s' = ppar s -> buf (pipe s') = None -> pipe_inv s'.
Proof. intros [Hl _] Hp Hb. split; [by rewrite Hp |]. intros b E. congruence. Qed.

(** Opens and releases are labelled by what they did. *)
Lemma event_ok_openclose c r s s' :
  match c with COpen _ | CRelease _ => True | _ => False end ->
  event_ok (label c r s s') s s'.
Proof. destruct c; try done; intros _; cbn; by case_bool_decide; destruct r. Qed.

Lemma read_event_ok filp count s r s' :
  read_result count s r s' -> event_ok (label (CRead filp count) r s s') s s'.
Proof. destruct r; cbn; [by intros [-> _] | done | by intros (_ & _ & ->)]. Qed.

Lemma write_event_ok filp ubuf s r s' :
  write_result ubuf s r s' -> event_ok (label (CWrite filp ubuf) r s s') s s'.
Proof. destruct r; cbn; [by intros [-> _] | done | by intros (_ & _ & ->)]. Qed.

(** A section that changed nothing did nothing to the queue. *)
Lemma event_ok_return c v bs s : event_ok (label c (Return v bs) s s) s s.
Proof. destruct c; cbn; try done; by case_bool_decide. Qed.

Lemma event_ok_sleep c s : event_ok (label c Sleep s s) s s.
Proof. destruct c; cbn; try done; by case_bool_decide. Qed.

(** A section of a call keeps the invariant and does to the queue what its
    label says. *)
Definition section_ok (c : call) (s : pipe_st) (r : sect) (s' : pipe_st) : Prop :=
  pipe_inv s' /\ event_ok (label c r s s') s s'.

Lemma section_ok_return c v bs s : pipe_inv s -> section_ok c s (Return v bs) s.
Proof. intros. split; [done | apply event_ok_return]. Qed.

Lemma wlp_read_check_any filp count k s :
  held k = true -> pipe_inv s -> 0 <= count < 2 ^ 63 ->
  wlp (read_check filp count) (fun r _ s' => section_ok (CRead filp count) s r s') k s.
Proof.
  intros Hh HI Hc. destruct (buf (pipe s)) as [b |] eqn:Hb.
  - eapply wp_mono; [by eapply (wp_read_check filp count b) |].
    intros r k' s' [(_ & HI' & _) [(_ & -> & ->) | [_ H]]].
    + by destruct (flag_set _ _).
    + split; [done | by apply read_event_ok].
  - unfold read_check. wp_steps; [by apply section_ok_return | done |].
    eapply wp_mono; [by apply wlp_read_transfer_none |].
    intros r k' s' (_ & Hp & Hb' & Hr). split; [by eapply inv_none |].
    destruct r; cbn; [| done |]; rewrite !contents_none by done; by subst.
Qed.

Lemma wlp_write_any filp ubuf k s :
  held k = false -> pipe_inv s -> zlen ubuf < 2 ^ 63 ->
  wlp (scull_p_write filp ubuf) (fun r _ s' => section_ok (CWrite filp ubuf) s r s') k s.
Proof.
  intros Hh HI Hc. destruct (buf (pipe s)) as [b |] eqn:Hb.
  - eapply wp_mono; [by eapply (wp_scull_p_write filp ubuf b) |].
    intros r k' s' [(_ & HI' & _) [[-> ->] | [(_ & -> & ->) | [_ H]]]].
    + by apply section_ok_return.
    + by destruct (flag_set _ _).
    + split; [done | by apply write_event_ok].
  - unfold scull_p_write, write_check. do 2 wp_step; wp_step; try done. do 3 wp_step.
    apply wlp_spacefree; [done |]. intros n Hn. wp_steps; try done; try (by apply section_ok_return).
    eapply wp_mono; [by apply wlp_write_transfer_none |].
    intros r k' s' (_ & Hp & Hb' & Hr). split; [by eapply inv_none |].
    destruct r; cbn; [| done |]; rewrite ?Hr, !contents_none by done; done.
Qed.

Lemma wlp_poll_any k s :
  held k = false -> wlp scull_p_poll (fun _ _ s' => s' = s) k s.
Proof.
  intros Hh. unfold scull_p_poll. do 4 wp_step. wp_step; [by wp_steps |]. wp_step.
  apply wlp_spacefree; [done |]. intros n Hn. by wp_steps.
Qed.

Lemma wlp_open_any filp k s :
  held k = false -> pipe_inv s -> wlp (scull_p_open filp) (fun _ _ s' => pipe_inv s') k s.
Proof.
  intros Hh HI. destruct (decide (idx (pipe s) = PROPER_FIFO_BEH_IDX)) as [E | E].
  - eapply wp_mono; [by apply wp_scull_p_proper_open |]. by intros r k' s' (_ & ? & _).
  - eapply wp_mono; [by apply wp_scull_p_open |]. by intros r k' s' (_ & ? & _).
Qed.

Lemma wlp_enter c k s :
  idle k -> pipe_inv s -> args_ok c ->
  wlp (enter c) (fun r _ s' => section_ok c s r s') k s.
Proof.
  intros Hh HI Ha. destruct c as [f | f | f n | f u | f]; cbn [enter].
  - eapply wp_mono; [by apply wlp_open_any |].
    intros r k' s' H. split; [done | by apply event_ok_openclose].
  - eapply wp_mono; [by apply wp_scull_p_release |].
    intros r k' s' (_ & H & _). split; [done | by apply event_ok_openclose].
  - unfold scull_p_read. wp_steps; try done; try (by apply section_ok_return).
    by apply wlp_read_check_any.
  - by apply wlp_write_any.
  - wp_step. eapply wp_mono; [by apply wlp_poll_any |].
    intros m k' s' ->. wp_step. by apply section_ok_return.
Qed.

Lemma wlp_again c k s :
  idle k -> pipe_inv s -> args_ok c ->
  wlp (again c) (fun r _ s' => section_ok c s r s') k s.
Proof.
  intros Hh HI Ha. destruct c as [f | f | f n | f u | f]; cbn [again].
  - unfold proper_open_again, proper_open_check, nonseekable_open.
    wp_steps; split; (done || by apply event_ok_openclose).
  - wp_step. by apply section_ok_return.
  - unfold read_again. wp_steps; try done; try (by apply section_ok_return).
    by apply wlp_read_check_any.
  - by apply wlp_write_any.
  - wp_step. by apply section_ok_return.
Qed.

(** Waiting and waking touch nothing but the wait queues. *)
Definition queues_only (s s' : pipe_st) : Prop :=
  exists i o q, s' = upd (set_queues i o q) s.

Lemma queues_only_refl s : queues_only s s.
Proof. exists (inq (pipe s)), (outq (pipe s)), (openq (pipe s)). by destruct s as [? []]. Qed.

Lemma queues_only_inv s s' :
  queues_only s s' -> pipe_inv s ->
  pipe_inv s' /\ contents (pipe s') = contents (pipe s) /\ room (pipe s') = room (pipe s) /\
  ppar s' = ppar s.
Proof. by intros (i & o & q & ->). Qed.

(** The space of a queue, whoever asks for it. *)
Lemma wlp_spacefree_unlocked (Q : Z -> kern -> pipe_st -> Prop) k s :
  (forall n, Q n k s) -> wlp spacefree Q k s.
Proof.
  intros HQ. unfold spacefree. wp_step. unfold lockdep_assert_held, wpc at 1.
  destruct (_ && _); [done |]. wp_steps; apply HQ.
Qed.

Lemma wlp_wait t c k s :
  idle k -> wlp (wait t c) (fun _ _ s' => queues_only s s') k s.
Proof.
  intros Hh. destruct c; cbn [wait]; unfold open_wait, read_wait, write_wait;
    try (wp_step; apply wlp_spacefree_unlocked; intros);
    wp_steps; try apply queues_only_refl; by do 3 eexists.
Qed.

Lemma wlp_wake c k s : wlp (wake c) (fun _ _ s' => queues_only s s') k s.
Proof.
  destruct c; cbn [wake]; unfold wake_in, wake_out; wp_step;
    try apply queues_only_refl; by do 3 eexists.
Qed.

Lemma may_call_args S c : may_call S c -> args_ok c.
Proof. destruct c; cbn; tauto. Qed.

(** The threads keep their arguments. *)
Lemma args_after t c r S s' :
  args_ok c -> (forall t' c' q, s_threads S !! t' = Some (c', q) -> args_ok c') ->
  forall t' c' q, s_threads (after t c r s' S) !! t' = Some (c', q) -> args_ok c'.
Proof.
  intros Hc Hall t' c' q. cbn. destruct r; cbn.
  - rewrite lookup_delete_Some. intros [_ ?]. by eapply Hall.
  - rewrite lookup_insert_Some. intros [[_ [= <- _]] | [_ ?]]; [done | by eapply Hall].
  - rewrite lookup_insert_Some. intros [[_ [= <- _]] | [_ ?]]; [done | by eapply Hall].
Qed.

Lemma args_insert t c q q' S :
  s_threads S !! t = Some (c, q) ->
  (forall t' c' q, s_threads S !! t' = Some (c', q) -> args_ok c') ->
  forall t' c' q'', <[t := (c, q')]> (s_threads S) !! t' = Some (c', q'') -> args_ok c'.
Proof.
  intros Ht Hall t' c' q''. rewrite lookup_insert_Some.
  intros [[_ [= <- _]] | [_ ?]]; by eapply Hall.
Qed.

Lemma args_delete t S :
  (forall t' c' q, s_threads S !! t' = Some (c', q) -> args_ok c') ->
  forall t' c' q'', delete t (s_threads S) !! t' = Some (c', q'') -> args_ok c'.
Proof. intros Hall t' c' q''. rewrite lookup_delete_Some. intros [_ ?]. by eapply Hall. Qed.

(** Every step keeps the invariant and does to the queue what its label
    says. *)
Lemma step_ok S e S' :
  sys_ok S -> step S e S' -> sys_ok S' /\ event_ok e (s_pipe S) (s_pipe S').
Proof.
  intros [HI Ha] Hs.
  destruct Hs as [S t c k r k' s' Ht Hm Hk He | S t c k r k' s' Ht Hk He
    | S t c k b k' s' Ht Hk He | S t c Ht Hq | S t c Ht | S t c k k' s' Ht Hk He]; cbn.
  - apply may_call_args in Hm as Hc.
    destruct (wpc_done _ _ _ _ _ _ _ (wlp_enter c k _ Hk HI Hc) He) as [HI' Hev].
    split; [| done]. split; [done |]. by apply args_after.
  - pose proof (Ha _ _ _ Ht) as Hc.
    destruct (wpc_done _ _ _ _ _ _ _ (wlp_again c k _ Hk HI Hc) He) as [HI' Hev].
    split; [| done]. split; [done |]. by apply args_after.
  - pose proof (wpc_done _ _ _ _ _ _ _ (wlp_wait t c k _ Hk) He) as Hq.
    apply queues_only_inv in Hq as (HI' & Hc & _); [| done].
    split; [| done]. split; [done |]. by eapply args_insert.
  - split; [| done]. split; [done |]. by eapply args_insert.
  - split; [| done]. split; [apply HI |]. by apply args_delete.
  - pose proof (wpc_done _ _ _ _ _ _ _ (wlp_wake c k (s_pipe S)) He) as Hq.
    apply queues_only_inv in Hq as (HI' & Hc & _); [| done].
    split; [| done]. split; [done |]. by apply args_delete.
Qed.

Lemma contents_room s :
  pipe_inv s -> zlen (contents (pipe s)) <= scull_p_len (ppar s) - 1.
Proof.
  intros [Hl HI]. destruct (buf (pipe s)) as [b |] eqn:Hb.
  - destruct (HI b eq_refl) as (H1 & H2 & H3 & H4 & H5).
    rewrite <- H2. apply (contents_bound _ b Hb). unfold buf_ok. lia.
  - rewrite contents_none by done. cbn. lia.
Qed.

#[export] Program Instance pipe_fifo : Fifo sys step := {|
  ok := sys_ok;
  items S := contents (pipe (s_pipe S));
  capacity S := scull_p_len (ppar (s_pipe S)) - 1
|}.
Next Obligation. intros S e S' H Hs. by apply (step_ok S e S'). Qed.
Next Obligation. intros S bs S' H Hs. by apply (step_ok S _ S') in Hs as [_ ?]. Qed.
Next Obligation. intros S bs S' H Hs. by apply (step_ok S _ S') in Hs as [_ ?]. Qed.
Next Obligation. intros S S' H Hs. by apply (step_ok S _ S') in Hs as [_ ?]. Qed.
Next Obligation. intros S [H _]. by apply contents_room. Qed.

(** ** Open files *)

(** The open files whose mode has [bit]. *)
Definition users (bit : Z) (fs : gmap nat file) : Z :=
  Z.of_nat (size (filter (fun x => flag_set (f_mode x.2) bit = true) fs)).

(** The counts cover the open files, the buffer is there while anybody is
    counted, and the positions make sense. *)
Record users_ok (n : Z) (s : pipe_st) (fs : gmap nat file) : Prop := UsersOk {
  uo_inv : pipe_inv s;
  uo_idx : idx (pipe s) <> PROPER_FIFO_BEH_IDX;
  uo_readers : users FMODE_READ fs <= readers (pipe s) <= n;
  uo_writers : users FMODE_WRITE fs <= writers (pipe s) <= n;
  uo_buf : 0 < readers (pipe s) + writers (pipe s) -> is_Some (buf (pipe s));
  uo_len : rp (pipe s) = wp_ (pipe s) \/ 0 < buf_len (pipe s)
}.

(** A call that can sleep is a read or a write of an open file. *)
Definition busy (fs : gmap nat file) (c : call) : Prop :=
  args_ok c /\
  match c with
  | CRead f _ => fs !! f_id f = Some f /\ flag_set (f_mode f) FMODE_READ = true
  | CWrite f _ => fs !! f_id f = Some f /\ flag_set (f_mode f) FMODE_WRITE = true
  | _ => False
  end.

(** After at most [n] opens. *)
Definition accounted (n : Z) (S : sys) : Prop :=
  users_ok n (s_pipe S) (s_files S) /\
  map_Forall (fun _ x => busy (s_files S) (fst x)) (s_threads S).

Lemma users_insert bit i f fs :
  fs !! i = None ->
  users bit (<[i := f]> fs) = users bit fs + (if flag_set (f_mode f) bit then 1 else 0).
Proof.
  intros Hi. unfold users. destruct (flag_set (f_mode f) bit) eqn:E.
  - rewrite map_filter_insert_True, map_size_insert_None; [lia | | done].
    apply map_lookup_filter_None. by left.
  - rewrite map_filter_insert_False, delete_id by (done || (cbn; congruence)). lia.
Qed.

Lemma users_delete bit i f fs :
  fs !! i = Some f ->
  users bit (delete i fs) = users bit fs - (if flag_set (f_mode f) bit then 1 else 0).
Proof.
  intros Hi. pose proof (users_insert bit i f (delete i fs) (lookup_delete_eq _ _)) as H.
  rewrite insert_delete_id in H by done. lia.
Qed.

Lemma users_nonneg bit fs : 0 <= users bit fs.
Proof. unfold users. lia. Qed.

Lemma users_open bit i f fs :
  fs !! i = Some f -> flag_set (f_mode f) bit = true -> 1 <= users bit fs.
Proof.
  intros Hi Hf. pose proof (users_delete bit i f fs Hi). pose proof (users_nonneg bit (delete i fs)).
  rewrite Hf in *. lia.
Qed.

Lemma users_ok_mono n s fs : users_ok n s fs -> users_ok (n + 1) s fs.
Proof. intros []. by split; try lia. Qed.

Lemma users_ok_queues n s fs s' :
  users_ok n s fs -> queues_only s s' -> users_ok n s' fs.
Proof. intros [] (i & o & q & ->). by split. Qed.

Lemma users_ok_kept n s fs k' s' : users_ok n s fs -> kept s k' s' -> users_ok n s' fs.
Proof.
  intros [] (_ & HI & (_ & E1 & _ & _ & _ & E2 & E3 & _) & [b Hb]).
  split; rewrite ?E1, ?E2, ?E3; try done. right.
  destruct HI as [Hl HI]. destruct (HI b Hb) as (_ & -> & _). lia.
Qed.

Lemma users_ok_open n s fs f s' :
  users_ok n s fs -> opened f s s' -> pipe_inv s' -> fs !! f_id f = None -> n < 2 ^ 62 ->
  users_ok (n + 1) s' (<[f_id f := f]> fs).
Proof.
  intros [HI Hi Hr Hw Hb Hl] ((Hb' & _ & _ & Hrp) & (_ & Ei & _) & _ & Er & Ew) HI' Hf Hn.
  pose proof (users_nonneg FMODE_READ fs). pose proof (users_nonneg FMODE_WRITE fs).
  split; [done | by rewrite Ei | | | by intros _ | by left];
    rewrite users_insert by done; rewrite ?Er, ?Ew; unfold counted;
    destruct (flag_set _ _); rewrite ?wrap64_small by lia; lia.
Qed.

Lemma users_ok_close n s fs f s' :
  users_ok n s fs -> closed f s s' -> pipe_inv s' -> fs !! f_id f = Some f -> n < 2 ^ 62 ->
  users_ok n s' (delete (f_id f) fs).
Proof.
  intros [HI Hi Hr Hw Hb Hl] ((_ & Ei & _) & Er & Ew & Eb & Erp & Ewp & El & _) HI' Hf Hn.
  pose proof (users_delete FMODE_READ _ _ _ Hf) as Dr.
  pose proof (users_delete FMODE_WRITE _ _ _ Hf) as Dw.
  pose proof (users_nonneg FMODE_READ (delete (f_id f) fs)).
  pose proof (users_nonneg FMODE_WRITE (delete (f_id f) fs)).
  assert (readers (pipe s') = readers (pipe s) - if flag_set (f_mode f) FMODE_READ then 1 else 0) as Er'.
  { rewrite Er. unfold uncounted. destruct (flag_set _ FMODE_READ); [apply wrap64_small |]; lia. }
  assert (writers (pipe s') = writers (pipe s) - if flag_set (f_mode f) FMODE_WRITE then 1 else 0) as Ew'.
  { rewrite Ew. unfold uncounted. destruct (flag_set _ FMODE_WRITE); [apply wrap64_small |]; lia. }
  split; [done | by rewrite Ei | | | | by rewrite Erp, Ewp, El].
  - destruct (flag_set _ FMODE_READ); lia.
  - destruct (flag_set _ FMODE_WRITE); lia.
  - intros Hpos. rewrite Eb, wrap64_small
      by (destruct (flag_set _ FMODE_READ), (flag_set _ FMODE_WRITE); lia).
    replace (_ =? 0) with false by lia. apply Hb.
    destruct (flag_set _ FMODE_READ), (flag_set _ FMODE_WRITE); lia.
Qed.

Lemma busy_buf n S c :
  users_ok n (s_pipe S) (s_files S) -> busy (s_files S) c ->
  exists b, buf (pipe (s_pipe S)) = Some b.
Proof.
  intros [HI Hi Hr Hw Hb Hl] [_ Hc]. apply Hb.
  pose proof (users_nonneg FMODE_READ (s_files S)).
  pose proof (users_nonneg FMODE_WRITE (s_files S)).
  destruct c as [| | f n' | f u |]; try done; destruct Hc as [Hf Hm];
    pose proof (users_open _ _ _ _ Hf Hm); lia.
Qed.

Lemma busy_open i f fs c : fs !! i = None -> busy fs c -> busy (<[i := f]> fs) c.
Proof.
  intros Hi [Ha Hc]. split; [done |]. destruct c as [| | g n | g u |]; try done;
    destruct Hc as [Hf Hm]; (split; [| done]); rewrite lookup_insert_ne; congruence.
Qed.

Lemma busy_close i fs c :
  f_id (call_file c) <> i -> busy fs c -> busy (delete i fs) c.
Proof.
  intros Hi [Ha Hc]. split; [done |]. destruct c as [| | g n | g u |]; try done;
    destruct Hc as [Hf Hm]; (split; [| done]); by rewrite lookup_delete_ne.
Qed.

(** The threads after a section of a busy call. *)
Lemma busy_threads t c r fs ts :
  busy fs c -> map_Forall (fun _ x => busy fs (fst x)) ts ->
  map_Forall (fun _ x => busy fs (fst x)) (threads_after t c r ts).
Proof.
  intros Hc Hts. destruct r; cbn; [by apply map_Forall_delete | by apply map_Forall_insert_2..].
Qed.

Lemma busy_files c r fs : busy fs c -> files_after c r fs = fs.
Proof. by destruct c as [| | g n | g u |], r; intros [_ H]. Qed.

(** A section of a read or a write. *)
Lemma accounted_kept n t c r k' s' S :
  accounted n S -> busy (s_files S) c -> kept (s_pipe S) k' s' ->
  accounted (n + 1) (after t c r s' S).
Proof.
  intros [Hu Ht] Hc Hk. split; cbn; rewrite busy_files by done.
  - apply users_ok_mono. by eapply users_ok_kept.
  - by apply busy_threads.
Qed.

Lemma wp_spacefree_total (Q : Z -> kern -> pipe_st -> Prop) k s :
  lockdep k && negb (held k) = false ->
  rp (pipe s) = wp_ (pipe s) \/ 0 < buf_len (pipe s) ->
  (forall n, Q n k s) -> wp spacefree Q k s.
Proof.
  intros Hd Hl HQ. unfold spacefree. wp_step. unfold lockdep_assert_held, wpc at 1.
  rewrite Hd. do 3 wp_step; [by wp_step |].
  wp_step. wp_step; [destruct (buf_len (pipe s) =? 0) eqn:E'; [lia | done] |]. by wp_step.
Qed.

(** The wait of a writer calls [spacefree] without the lock (pipe.c:215), which
    asserts that it is held (pipe.c:130). *)
Lemma write_wait_unlocked t k s :
  held k = false -> lockdep k = true -> run_oops (write_wait t) k s = Some LockNotHeld.
Proof.
  intros Hh Hd. unfold run_oops, write_wait, spacefree, mbind, M_bind, lockdep_assert_held.
  by rewrite Hh, Hd.
Qed.

Lemma wp_poll_total k s :
  held k = false -> rp (pipe s) = wp_ (pipe s) \/ 0 < buf_len (pipe s) ->
  wp scull_p_poll (fun _ _ s' => s' = s) k s.
Proof.
  intros Hh Hl. unfold scull_p_poll. do 4 wp_step. wp_step; [by wp_steps |].
  wp_step. apply wp_spacefree_total; [by rewrite andb_false_r | done |]. intros n. by wp_steps.
Qed.

Lemma wp_enter_total n t c k S :
  accounted n S -> idle k -> s_threads S !! t = None -> may_call S c -> n < 2 ^ 62 ->
  wp (enter c) (fun r _ s' => accounted (n + 1) (after t c r s' S)) k (s_pipe S).
Proof.
  intros HA Hh Ht Hm Hn. pose proof HA as [Hu Hts]. pose proof Hu as [HI Hi _ _ _ Hl].
  assert (forall v bs, threads_after t c (Return v bs) (s_threads S) = s_threads S) as Hts'.
  { intros v bs. cbn. by apply delete_id. }
  destruct c as [f | f | f m | f u | f]; cbn [enter may_call] in *.
  - destruct Hm as [Hf Hun]. eapply wp_mono; [by apply wp_scull_p_open |].
    intros r k' s' (_ & HI' & _ & [[-> ->] | [(-> & -> & _) | [-> Ho]]]);
      (split; cbn -[threads_after]; [| rewrite Hts']); cbn.
    1, 3: by apply users_ok_mono. 1, 2: done.
    + by apply (users_ok_open n (s_pipe S)).
    + eapply map_Forall_impl; [done |]. intros t' x Hx. by apply busy_open.
  - destruct Hm as [Hf Hun]. eapply wp_mono; [by apply wp_scull_p_release |].
    intros r k' s' (_ & HI' & _ & _ & Hr).
    assert (map_Forall (fun _ x => busy (delete (f_id f) (s_files S)) (fst x)) (s_threads S)) as Hb.
    { intros t' [c' q] Ht'. apply busy_close; [by apply (Hun t' (c', q)) | by apply (Hts t' (c', q))]. }
    destruct Hr as [[-> ->] | [-> Hc]]; (split; cbn -[threads_after]; [| by rewrite Hts']);
      apply users_ok_mono; [| by eapply users_ok_close].
    pose proof (users_delete FMODE_READ _ _ _ Hf). pose proof (users_delete FMODE_WRITE _ _ _ Hf).
    destruct Hu as [? ? Hr Hw Hbuf ?]. split; cbn; try done;
      [destruct (flag_set _ FMODE_READ) | destruct (flag_set _ FMODE_WRITE)]; lia.
  - assert (busy (s_files S) (CRead f m)) as Hb by (unfold busy; cbn; tauto).
    destruct (busy_buf n S _ Hu Hb) as [b Hbuf].
    eapply wp_mono; [eapply (wp_scull_p_read f m b); tauto |].
    intros r k' s' [Hk _]. by eapply accounted_kept.
  - assert (busy (s_files S) (CWrite f u)) as Hb by (unfold busy; cbn; tauto).
    destruct (busy_buf n S _ Hu Hb) as [b Hbuf].
    eapply wp_mono; [eapply (wp_scull_p_write f u b); tauto |].
    intros r k' s' [Hk _]. by eapply accounted_kept.
  - wp_step. eapply wp_mono; [by apply wp_poll_total |].
    intros v k' s' ->. wp_step. split; cbn -[threads_after]; [by apply users_ok_mono |].
    by rewrite Hts'.
Qed.

Lemma wp_again_total n t c q k S :
  accounted n S -> idle k -> s_threads S !! t = Some (c, q) ->
  wp (again c) (fun r _ s' => accounted (n + 1) (after t c r s' S)) k (s_pipe S).
Proof.
  intros HA Hh Ht. pose proof HA as [Hu Hts]. pose proof Hu as [HI _ _ _ _ _].
  pose proof (Hts t (c, q) Ht) as Hb. destruct (busy_buf n S _ Hu Hb) as [b Hbuf].
  destruct c as [| | f m | f u |]; try (by destruct Hb); cbn [again].
  - eapply wp_mono; [eapply (wp_read_again f m b); [done.. | apply Hb] |].
    intros r k' s' [Hk _]. by eapply accounted_kept.
  - eapply wp_mono; [eapply (wp_scull_p_write f u b); [done.. | apply Hb] |].
    intros r k' s' [Hk _]. by eapply accounted_kept.
Qed.

Lemma wp_wait_total n t c q k S :
  accounted n S -> idle k -> s_threads S !! t = Some (c, q) ->
  wpc (asserts c k) (wait t c) (fun _ _ s' => queues_only (s_pipe S) s') k (s_pipe S).
Proof.
  intros HA Hh Ht. pose proof HA as [[HI _ _ _ _ Hl] Hts].
  pose proof (Hts t (c, q) Ht) as Hb.
  destruct c as [| | f m | f u |]; try (by destruct Hb); cbn [wait].
  - unfold read_wait. wp_steps; [apply queues_only_refl | by do 3 eexists].
  - destruct (lockdep k) eqn:Hd.
    { pose proof (write_wait_unlocked t k (s_pipe S) Hh Hd) as E. unfold run_oops in E.
      unfold wpc. by destruct (write_wait t k (s_pipe S)). }
    eapply (wpc_weaken False); [done |]. unfold write_wait. wp_step.
    apply wp_spacefree_total; [by rewrite Hd | done |].
    intros n'. wp_steps; [apply queues_only_refl | by do 3 eexists].
Qed.

Lemma accounted_threads n S ts s' :
  accounted n S -> queues_only (s_pipe S) s' ->
  map_Forall (fun _ x => busy (s_files S) (fst x)) ts ->
  accounted (n + 1) (Sys s' ts (s_files S)).
Proof.
  intros [Hu _] Hq Hts. split; [| done]. apply users_ok_mono. by eapply users_ok_queues.
Qed.

Lemma step_accounted n S e S' :
  accounted n S -> n < 2 ^ 62 -> step S e S' -> accounted (n + 1) S'.
Proof.
  intros HA Hn Hs. pose proof (proj2 HA) as Hts.
  destruct Hs as [S t c k r k' s' Ht Hm Hk He | S t c k r k' s' Ht Hk He
    | S t c k b k' s' Ht Hk He | S t c Ht Hq | S t c Ht | S t c k k' s' Ht Hk He].
  - exact (wpc_done _ _ _ _ _ _ _ (wp_enter_total n t c k S HA Hk Ht Hm Hn) He).
  - exact (wpc_done _ _ _ _ _ _ _ (wp_again_total n t c _ k S HA Hk Ht) He).
  - apply (accounted_threads n S); [done | |].
    + exact (wpc_done _ _ _ _ _ _ _ (wlp_wait t c k _ Hk) He).
    + apply map_Forall_insert_2; [exact (Hts t _ Ht) | done].
  - apply (accounted_threads n S); [done | apply queues_only_refl |].
    apply map_Forall_insert_2; [exact (Hts t _ Ht) | done].
  - apply (accounted_threads n S); [done | by do 3 eexists | by apply map_Forall_delete].
  - apply (accounted_threads n S); [done | | by apply map_Forall_delete].
    exact (wpc_done _ _ _ _ _ _ _ (wlp_wake c k _) He).
Qed.

Lemma run_accounted n S es S' :
  accounted n S -> n + zlen es <= 2 ^ 62 -> run step S es S' ->
  accounted (n + zlen es) S'.
Proof.
  intros HA Hn Hr. revert n HA Hn. induction Hr as [S | S e S1 es S2 Hs _ IH]; intros n HA Hn.
  - by rewrite Z.add_0_r.
  - cbn [length] in *. rewrite Nat2Z.inj_succ in *. replace (n + Z.succ (zlen es)) with (n + 1 + zlen es) by lia.
    apply IH; [| lia]. eapply step_accounted; [done | lia | done].
Qed.

Lemma new_sys_ok par i : 0 < scull_p_len par < 2 ^ 63 -> sys_ok (new_sys par i).
Proof. intros Hl. split; [split; [done |] |]; done. Qed.

Lemma new_sys_accounted par i :
  0 < scull_p_len par < 2 ^ 63 -> i <> PROPER_FIFO_BEH_IDX -> accounted 0 (new_sys par i).
Proof.
  intros Hl Hi. split; [| by intros t x].
  assert (forall bit, users bit ∅ = 0) as Hu by reflexivity.
  split; cbn; rewrite ?Hu; first [done | lia | by left | by apply (new_sys_ok par i)].
Qed.

(** ** Properties *)

(** C1: any number of threads using a pipe in any interleaving, whatever the
    kernel answers: as long as nothing empties the pipe, the bytes readers got
    are, in order, the bytes it held and the bytes writers stored since, less
    those it still holds, of which there are never more than the buffer has
    room for. *)
Theorem pipe_threads_fifo S es S' :
  sys_ok S -> run step S es S' -> EvReset ∉ es ->
  contents (pipe (s_pipe S)) ++ puts es = takes es ++ contents (pipe (s_pipe S')) /\
  zlen (contents (pipe (s_pipe S'))) <= scull_p_len (ppar (s_pipe S')) - 1.
Proof.
  intros Hok Hr Hne. split; [exact (fifo_order S es S' Hok Hr Hne) |].
  exact (fifo_bound S' (fifo_run_ok S es S' Hok Hr)).
Qed.

(** C2: an ordinary pipe on which files are opened, released, read, written and
    polled (and the size of the buffers is left alone, see [resize_overflows]) by
    any number of threads in any interleaving, on a kernel with or without
    CONFIG_LOCKDEP: in every state reached by fewer than 2^62 steps every call a
    thread may make and every call it may go on with ends without a memory
    error, a divide error, a violated lock assertion, or a lock taken twice or
    given back without being held; and so does every wait, except that with
    CONFIG_LOCKDEP every wait of a writer violates the assertion of
    [spacefree], which is evaluated there without the lock. *)
Theorem pipe_never_oopses par i es S t c k :
  0 < scull_p_len par < 2 ^ 63 -> i <> PROPER_FIFO_BEH_IDX ->
  run step (new_sys par i) es S -> zlen es < 2 ^ 62 -> held k = false ->
  (s_threads S !! t = None -> may_call S c ->
   wp (enter c) (fun _ _ _ => True) k (s_pipe S)) /\
  (forall q, s_threads S !! t = Some (c, q) ->
   wp (again c) (fun _ _ _ => True) k (s_pipe S) /\
   (lockdep k && is_write c = false -> wp (wait t c) (fun _ _ _ => True) k (s_pipe S)) /\
   (lockdep k && is_write c = true -> run_oops (wait t c) k (s_pipe S) = Some LockNotHeld)).
Proof.
  intros Hl Hi Hr Hn Hk.
  assert (accounted (0 + zlen es) S) as HA
    by (eapply run_accounted; [by apply new_sys_accounted | lia | done]).
  split.
  - intros Ht Hm. eapply wp_mono; [by eapply (wp_enter_total _ t c) |]. done.
  - intros q Ht. split_and!.
    + eapply wp_mono; [by eapply wp_again_total | done].
    + intros Hd. eapply wp_mono; [| done]. eapply wpc_weaken; [| by eapply wp_wait_total].
      intros [E1 E2]. by rewrite E1, E2 in Hd.
    + intros [Hd Hw]%andb_true_iff. destruct c; try done. by apply write_wait_unlocked.
Qed.

(** ** Witnesses *)

(** A reader and a writer share a pipe of four bytes. *)
Definition sample_moves : list (nat * move) :=
  [(1%nat, MEnter (COpen wfile)); (0%nat, MEnter (COpen rfile));
   (0%nat, MEnter (CRead rfile 9)); (0%nat, MWait);
   (1%nat, MEnter (CWrite wfile [Byte.x61; Byte.x62; Byte.x63; Byte.x64])); (1%nat, MWake);
   (0%nat, MWoken); (0%nat, MWait); (0%nat, MAgain); (0%nat, MWake)].

Definition sample_sys : sys := new_sys (Params 4 2 4) 0.

Definition sample_events : list event :=
  Eval vm_compute in default [] (fst <$> exec sample_moves sample_sys).

Definition sample_end : sys :=
  Eval vm_compute in default sample_sys (snd <$> exec sample_moves sample_sys).

Lemma sample_run : run step sample_sys sample_events sample_end.
Proof. apply (exec_run sample_moves). vm_compute. reflexivity. Qed.

(** The reader slept, and then got the three bytes that fit. *)
Lemma pipe_threads_fifo_witness :
  takes sample_events = [Byte.x61; Byte.x62; Byte.x63] /\
  contents (pipe (s_pipe sample_sys)) ++ puts sample_events =
    takes sample_events ++ contents (pipe (s_pipe sample_end)).
Proof.
  split; [reflexivity |]. apply pipe_threads_fifo.
  - apply new_sys_ok. cbn. lia.
  - apply sample_run.
  - eapply bool_decide_eq_true_1. vm_compute. reflexivity.
Defined.

Lemma pipe_never_oopses_witness :
  wp (enter (CRead rfile 3)) (fun _ _ _ => True) quiet (s_pipe sample_end).
Proof.
  apply (pipe_never_oopses (Params 4 2 4) 0 sample_events sample_end 0 (CRead rfile 3) quiet).
  - cbn. lia.
  - discriminate.
  - apply sample_run.
  - cbn. lia.
  - reflexivity.
  - reflexivity.
  - split_and!; [reflexivity | reflexivity | lia | lia].
Defined.
