(* ===== verification/PipeWake.v ===== *)
(** * Threads asleep on a scull pipe

    A reader sleeps while the queue is empty and a writer while it is full;
    the wake-up comes after the lock is dropped.  As long as no open or release
    throws bytes away, no thread stays asleep with nothing on its way to wake
    it ([served]).  An open that throws bytes away strands the writers, and the
    last close of the proper FIFO its readers. *)

From S2P Require Import Prelude Kernel ScullParams Fifo Pipe PipeFifo PipeOpen PipeSys.

Implicit Types (k : kern) (s : pipe_st) (p : scull_pipe).

(** ** Definitions *)

(** Some writer ([w]) or reader is about to wake the other side. *)
Definition waking (w : bool) (S : sys) : Prop :=
  exists t c, s_threads S !! t = Some (c, PWake) /\ is_write c = w.

(** Sleeping readers have nothing to read or a wake-up on its way, and sleeping
    writers likewise; those on the writers' queue are asleep in a call. *)
Record served (S : sys) : Prop := Served {
  sv_asleep : forall t, t ∈ outq (pipe (s_pipe S)) ->
    exists c, s_threads S !! t = Some (c, PAsleep);
  sv_readers : inq (pipe (s_pipe S)) = ∅ \/ contents (pipe (s_pipe S)) = [] \/ waking true S;
  sv_writers : outq (pipe (s_pipe S)) = ∅ \/ room (pipe (s_pipe S)) <= 0 \/ waking false S
}.

(** What a section does to the wait queues, the queue and the room. *)
Definition section_effect (c : call) (s : pipe_st) (r : sect) (s' : pipe_st) : Prop :=
  inq (pipe s') = inq (pipe s) /\ outq (pipe s') = outq (pipe s) /\
  match r, c with
  | Wake _ bs, CRead _ _ => contents (pipe s) = bs ++ contents (pipe s')
  | Wake _ _, CWrite _ _ => room (pipe s') <= room (pipe s)
  | Wake _ _, _ => False
  | _, _ =>
      contents (pipe s') = contents (pipe s) ->
      is_Some (buf (pipe s)) -> room (pipe s') = room (pipe s)
  end.

(** ** Sections *)

Lemma room_eq s b :
  pipe_inv s -> buf (pipe s) = Some b ->
  room (pipe s) = scull_p_len (ppar s) - 1 - zlen (contents (pipe s)).
Proof. intros [_ HI] Hb. destruct (HI b Hb) as (_ & E & _). unfold room. by rewrite E. Qed.

Lemma effect_same c v bs s : section_effect c s (Return v bs) s.
Proof. by destruct c. Qed.

Lemma room_kept s b s' b' :
  pipe_inv s -> buf (pipe s) = Some b -> pipe_inv s' -> buf (pipe s') = Some b' ->
  ppar s' = ppar s -> contents (pipe s') = contents (pipe s) ->
  room (pipe s') = room (pipe s).
Proof.
  intros HI Hb HI' Hb' Hp Hc.
  rewrite (room_eq s b HI Hb), (room_eq s' b' HI' Hb'), Hp, Hc. done.
Qed.

Lemma effect_read f m s k' r s' b :
  pipe_inv s -> buf (pipe s) = Some b -> kept s k' s' -> read_result m s r s' ->
  section_effect (CRead f m) s r s'.
Proof.
  intros HI Hb (_ & HI' & (Hp & _ & Ei & Eo & _) & [b' Hb']) Hr.
  split; [done |]. split; [done |]. destruct r; cbn in Hr; [| done |].
  - intros Hc _. by eapply room_kept.
  - by destruct Hr as (_ & _ & ->).
Qed.

Lemma effect_write f u s k' r s' b :
  pipe_inv s -> buf (pipe s) = Some b -> kept s k' s' -> write_result u s r s' ->
  section_effect (CWrite f u) s r s'.
Proof.
  intros HI Hb (_ & HI' & (Hp & _ & Ei & Eo & _) & [b' Hb']) Hr.
  split; [done |]. split; [done |]. destruct r; cbn in Hr; [| done |].
  - intros Hc _. by eapply room_kept.
  - destruct Hr as (_ & _ & Hc).
    rewrite (room_eq s b HI Hb), (room_eq s' b' HI' Hb'), Hp, Hc, length_app. lia.
Qed.

Lemma effect_open f s s' : pipe_inv s -> pipe_inv s' -> opened f s s' ->
  section_effect (COpen f) s (Return 0 []) s'.
Proof.
  intros HI HI' (([b' Hb'] & _ & _) & (Hp & _ & Ei & Eo) & _).
  split; [done |]. split; [done |]. intros Hc [b Hb]. by eapply room_kept.
Qed.

Lemma effect_close f s s' : closed f s s' -> section_effect (CRelease f) s (Return 0 []) s'.
Proof.
  intros ((Hp & _ & Ei & Eo) & _ & _ & _ & _ & _ & El & _).
  split; [done |]. split; [done |]. intros Hc _. unfold room. by rewrite El, Hc.
Qed.

Lemma wp_enter_effect n t c k S :
  accounted n S -> idle k -> s_threads S !! t = None -> may_call S c ->
  wp (enter c) (fun r _ s' => section_effect c (s_pipe S) r s') k (s_pipe S).
Proof.
  intros [Hu Hts] Hh Ht Hm. pose proof Hu as [HI Hi _ _ _ Hl].
  destruct c as [f | f | f m | f u | f]; cbn [enter may_call] in *.
  - eapply wp_mono; [by apply wp_scull_p_open |].
    intros r k' s' (_ & HI' & _ & [[-> ->] | [(-> & -> & _) | [-> Ho]]]);
      [apply effect_same.. |]. by apply effect_open.
  - eapply wp_mono; [by apply wp_scull_p_release |].
    intros r k' s' (_ & _ & _ & _ & [[-> ->] | [-> Hc]]); [| by apply effect_close].
    by repeat split.
  - assert (busy (s_files S) (CRead f m)) as Hb by (unfold busy; cbn; tauto).
    destruct (busy_buf n S _ Hu Hb) as [b Hbuf].
    eapply wp_mono; [eapply (wp_scull_p_read f m b); tauto |].
    intros r k' s' [Hk [[-> ->] | [(_ & -> & ->) | [_ Hr]]]];
      [apply effect_same | | by eapply effect_read].
    destruct (_ && _); [| destruct (flag_set (f_flags f) _)]; by repeat split.
  - assert (busy (s_files S) (CWrite f u)) as Hb by (unfold busy; cbn; tauto).
    destruct (busy_buf n S _ Hu Hb) as [b Hbuf].
    eapply wp_mono; [eapply (wp_scull_p_write f u b); tauto |].
    intros r k' s' [Hk [[-> ->] | [(_ & -> & ->) | [_ Hr]]]];
      [apply effect_same | | by eapply effect_write].
    destruct (flag_set (f_flags f) _); by repeat split.
  - wp_step. eapply wp_mono; [by apply wp_poll_total |].
    intros v k' s' ->. wp_step. apply effect_same.
Qed.

Lemma wp_again_effect n t c q k S :
  accounted n S -> idle k -> s_threads S !! t = Some (c, q) ->
  wp (again c) (fun r _ s' => section_effect c (s_pipe S) r s') k (s_pipe S).
Proof.
  intros HA Hh Ht. pose proof HA as [Hu Hts]. pose proof Hu as [HI _ _ _ _ _].
  pose proof (Hts t (c, q) Ht) as Hb. destruct (busy_buf n S _ Hu Hb) as [b Hbuf].
  destruct c as [| | f m | f u |]; try (by destruct Hb); cbn [again].
  - eapply wp_mono; [eapply (wp_read_again f m b); [done.. | apply Hb] |].
    intros r k' s' [Hk [[-> ->] | [(_ & -> & ->) | [_ Hr]]]];
      [apply effect_same | | by eapply effect_read].
    destruct (flag_set (f_flags f) _); by repeat split.
  - eapply wp_mono; [eapply (wp_scull_p_write f u b); [done.. | apply Hb] |].
    intros r k' s' [Hk [[-> ->] | [(_ & -> & ->) | [_ Hr]]]];
      [apply effect_same | | by eapply effect_write].
    destruct (flag_set (f_flags f) _); by repeat split.
Qed.

(** The waits put the thread on its queue only when there is nothing to do. *)
Definition wait_effect (t : nat) (c : call) (s : pipe_st) (b : bool) (s' : pipe_st) : Prop :=
  if b then s' = s
  else
    match c with
    | CRead _ _ => contents (pipe s) = [] /\
        s' = upd (fun p => set_queues ({[t]} ∪ inq p) (outq p) (openq p) p) s
    | CWrite _ _ => room (pipe s) = 0 /\
        s' = upd (fun p => set_queues (inq p) ({[t]} ∪ outq p) (openq p) p) s
    | _ => False
    end.

Lemma wp_wait_effect n t c q k S :
  accounted n S -> idle k -> s_threads S !! t = Some (c, q) ->
  wlp (wait t c) (fun b _ s' => wait_effect t c (s_pipe S) b s') k (s_pipe S).
Proof.
  intros HA Hh Ht. pose proof HA as [Hu Hts]. pose proof Hu as [HI _ _ _ _ _].
  pose proof (Hts t (c, q) Ht) as Hb. destruct (busy_buf n S _ Hu Hb) as [b Hbuf].
  destruct c as [| | f m | f u |]; try (by destruct Hb); cbn [wait].
  - unfold read_wait. wp_steps; [done |]. split; [| done].
    destruct HI as [Hl HI]. destruct (HI b Hbuf) as (? & ? & ? & ? & ?).
    apply (contents_nil _ b Hbuf); [unfold buf_ok |]; lia.
  - destruct (lockdep k) eqn:Hd.
    { pose proof (write_wait_unlocked t k (s_pipe S) Hh Hd) as E. unfold run_oops in E.
      unfold wpc. by destruct (write_wait t k (s_pipe S)). }
    unfold write_wait. wp_step. apply (wp_spacefree_gen b); [done | done | by rewrite Hd |].
    wp_steps; [done |]. split; [lia | done].
Qed.

(** ** Steps *)

(** A wake-up that is on its way stays on its way while another thread moves. *)
Lemma waking_insert w S t c q q' s fs :
  waking w S -> s_threads S !! t = Some (c, q) -> q <> PWake ->
  waking w (Sys s (<[t := (c, q')]> (s_threads S)) fs).
Proof.
  intros (t' & c' & Ht' & Hw) Ht Hq. exists t', c'. cbn.
  rewrite lookup_insert_ne by congruence. done.
Qed.

Lemma waking_delete w S t c q s fs :
  waking w S -> s_threads S !! t = Some (c, q) -> q <> PWake \/ is_write c <> w ->
  waking w (Sys s (delete t (s_threads S)) fs).
Proof.
  intros (t' & c' & Ht' & Hw) Ht Hq. exists t', c'. cbn.
  rewrite lookup_delete_ne; [done |]. intros <-. rewrite Ht in Ht'.
  injection Ht' as -> ->. by destruct Hq.
Qed.

Lemma waking_after w S t c r s' :
  waking w S -> (forall c' q, s_threads S !! t = Some (c', q) -> q = PAgain) ->
  waking w (after t c r s' S).
Proof.
  intros (t' & c' & Ht' & Hw) Ht. exists t', c'. split; [| done]. cbn.
  assert (t' <> t) by (intros ->; by specialize (Ht _ _ Ht')).
  destruct r; cbn; by rewrite ?lookup_delete_ne, ?lookup_insert_ne.
Qed.

Lemma waking_self w S t c v bs s' :
  is_write c = w -> waking w (after t c (Wake v bs) s' S).
Proof. intros Hw. exists t, c. cbn. by rewrite lookup_insert_eq. Qed.

(** A section by a thread that is on no queue. *)
Lemma served_after S t c r s' :
  served S -> (forall c' q, s_threads S !! t = Some (c', q) -> q = PAgain) ->
  section_effect c (s_pipe S) r s' -> label c r (s_pipe S) s' <> EvReset ->
  event_ok (label c r (s_pipe S) s') (s_pipe S) s' ->
  (outq (pipe (s_pipe S)) <> ∅ -> is_Some (buf (pipe (s_pipe S)))) ->
  served (after t c r s' S).
Proof.
  intros [HA HR HW] Ht (Ei & Eo & He) Hl Hev Hb. split; cbn [s_pipe after].
  - rewrite Eo. intros t' [c' Hc']%HA. exists c'. cbn.
    assert (t' <> t) by (intros ->; by specialize (Ht _ _ Hc')).
    destruct r; cbn; by rewrite ?lookup_delete_ne, ?lookup_insert_ne.
  - rewrite Ei. destruct HR as [? | [HR | HR]]; [by left | right | right; right; by apply waking_after].
    destruct c, r; cbn in Hl, Hev, He; try (by rewrite ?Hev; left); try done.
    1-4: case_bool_decide; cbn in Hev; [left; congruence | done].
    + left. rewrite HR in He. symmetry in He. by apply app_nil in He as [_ ?].
    + right. by apply waking_self.
  - rewrite Eo. destruct HW as [? | [HW | HW]]; [by left | | right; right; by apply waking_after].
    destruct (decide (outq (pipe (s_pipe S)) = ∅)) as [? | Ho]; [by left | right].
    specialize (Hb Ho).
    destruct c, r; cbn in Hl, Hev, He; try done; try (left; rewrite He by done; done);
      try (left; lia); try (right; by apply waking_self).
    all: case_bool_decide; [left; rewrite He by done; lia | done].
Qed.

(** A thread that leaves its wait, with the pipe as it was. *)
Lemma served_move S t c q q' :
  served S -> s_threads S !! t = Some (c, q) -> q <> PWake ->
  (q = PAsleep -> t ∉ outq (pipe (s_pipe S))) ->
  served (Sys (s_pipe S) (<[t := (c, q')]> (s_threads S)) (s_files S)).
Proof.
  intros [HA HR HW] Ht Hq Hn. split; cbn.
  - intros t' Ht'. destruct (HA t' Ht') as [c' Hc']. exists c'.
    rewrite lookup_insert_ne; [done |]. intros <-. apply Hn; [congruence | done].
  - destruct HR as [? | [? | HR]]; [by left | by right; left |].
    right; right. by eapply waking_insert.
  - destruct HW as [? | [? | HW]]; [by left | by right; left |].
    right; right. by eapply waking_insert.
Qed.

(** A thread that goes to sleep. *)
Lemma served_wait S t c s' b :
  served S -> s_threads S !! t = Some (c, PWait) -> wait_effect t c (s_pipe S) b s' ->
  served (Sys s' (<[t := (c, if b then PAgain else PAsleep)]> (s_threads S)) (s_files S)).
Proof.
  intros HS Ht He. destruct b; cbn in He; [subst; by eapply served_move |].
  destruct HS as [HA HR HW].
  assert (forall t', t' ∈ outq (pipe (s_pipe S)) ->
    exists c', <[t := (c, PAsleep)]> (s_threads S) !! t' = Some (c', PAsleep)) as HA'.
  { intros t' Ht'. destruct (decide (t = t')) as [<- | Hne].
    - exists c. by rewrite lookup_insert_eq.
    - rewrite lookup_insert_ne by done. by apply HA. }
  destruct c as [| | f n | f u |]; try done; destruct He as [He ->]; split; cbn.
  - done.
  - by right; left.
  - destruct HW as [? | [? | HW]]; [by left | by right; left |].
    right; right. by eapply waking_insert.
  - intros t' [->%elem_of_singleton | Ht']%elem_of_union; [| by apply HA'].
    eexists. by rewrite lookup_insert_eq.
  - destruct HR as [? | [? | HR]]; [by left | by right; left |].
    right; right. by eapply waking_insert.
  - right; left. change (room (pipe (s_pipe S)) <= 0). lia.
Qed.

Lemma served_signal S t c :
  served S -> s_threads S !! t = Some (c, PAsleep) ->
  served (Sys (dequeue t (s_pipe S)) (delete t (s_threads S)) (s_files S)).
Proof.
  intros [HA HR HW] Ht. split; cbn.
  - intros t' [Ht' Hne]%elem_of_difference. destruct (HA t' Ht') as [c' Hc'].
    exists c'. rewrite lookup_delete_ne; set_solver.
  - destruct HR as [-> | [? | HR]]; [left; set_solver | by right; left |].
    right; right. eapply waking_delete; [done | done | by left].
  - destruct HW as [-> | [? | HW]]; [left; set_solver | by right; left |].
    right; right. eapply waking_delete; [done | done | by left].
Qed.

Lemma served_wake S t c k k' s' :
  busy (s_files S) c -> served S -> s_threads S !! t = Some (c, PWake) ->
  wake c k (s_pipe S) = Done (tt, k', s') ->
  served (Sys s' (delete t (s_threads S)) (s_files S)).
Proof.
  intros Hb [HA HR HW] Ht He.
  assert (forall t', t' ∈ outq (pipe (s_pipe S)) ->
    exists c', delete t (s_threads S) !! t' = Some (c', PAsleep)) as HA'.
  { intros t' [c' Hc']%HA. exists c'. rewrite lookup_delete_ne; congruence. }
  destruct c as [| | f n | f u |]; try (by destruct Hb);
    injection He as _ <-; split; cbn; try done.
  - destruct HR as [? | [? | HR]]; [by left | by right; left |].
    right; right. eapply waking_delete; [done | done | by right].
  - by left.
  - by left.
  - destruct HW as [? | [? | HW]]; [by left | by right; left |].
    right; right. eapply waking_delete; [done | done | by right].
Qed.

Lemma step_served n S e S' :
  accounted n S -> served S -> step S e S' -> e <> EvReset -> served S'.
Proof.
  intros HA HS Hs. pose proof HA as [Hu Hts]. pose proof Hu as [HI _ _ _ _ _].
  assert (outq (pipe (s_pipe S)) <> ∅ -> is_Some (buf (pipe (s_pipe S)))) as Hb.
  { intros [t Ht]%set_choose_L. destruct (sv_asleep S HS t Ht) as [c Hc].
    destruct (busy_buf n S c Hu (Hts t _ Hc)) as [b Hb]. by eexists. }
  destruct Hs as [S t c k r k' s' Ht Hm Hk He | S t c k r k' s' Ht Hk He
    | S t c k b k' s' Ht Hk He | S t c Ht Hq | S t c Ht | S t c k k' s' Ht Hk He]; intros Hne.
  - apply served_after; try done; [congruence | |].
    + exact (wpc_done _ _ _ _ _ _ _ (wp_enter_effect n t c k S HA Hk Ht Hm) He).
    + by destruct (wpc_done _ _ _ _ _ _ _ (wlp_enter c k _ Hk HI (may_call_args S c Hm)) He).
  - apply served_after; try done; [congruence | |].
    + exact (wpc_done _ _ _ _ _ _ _ (wp_again_effect n t c _ k S HA Hk Ht) He).
    + by destruct (wpc_done _ _ _ _ _ _ _
        (wlp_again c k _ Hk HI (proj1 (Hts t _ Ht))) He).
  - apply served_wait; try done.
    exact (wpc_done _ _ _ _ _ _ _ (wp_wait_effect n t c _ k S HA Hk Ht) He).
  - eapply served_move; [done | done | done |]. intros _ Hin. apply Hq. unfold queued. set_solver.
  - by eapply served_signal.
  - eapply served_wake; [exact (Hts t _ Ht) | done..].
Qed.

Lemma run_served n S es S' :
  accounted n S -> served S -> n + zlen es <= 2 ^ 62 -> run step S es S' -> EvReset ∉ es ->
  served S'.
Proof.
  intros HA HS Hn Hr. revert n HA HS Hn.
  induction Hr as [S | S e S1 es S2 Hs _ IH]; intros n HA HS Hn Hne; [done |].
  apply not_elem_of_cons in Hne as [He Hne]. cbn [length] in Hn.
  apply (IH (n + 1)); [| by eapply step_served | lia | done].
  eapply step_accounted; [done | lia | done].
Qed.

Lemma new_sys_served par i : served (new_sys par i).
Proof. split; cbn; [set_solver | by left | by left]. Qed.

(** ** Properties *)

(** C8: on an ordinary pipe, in a run in which no open or release throws bytes
    away, no wake-up is lost: a reader is asleep on the queue only while there
    is nothing to read or a writer is about to wake it, and a writer only while
    there is no room or a reader is about to wake it. *)
Theorem pipe_no_lost_wakeup par i es S :
  0 < scull_p_len par < 2 ^ 63 -> i <> PROPER_FIFO_BEH_IDX ->
  run step (new_sys par i) es S -> zlen es < 2 ^ 62 -> EvReset ∉ es ->
  (forall t, t ∈ inq (pipe (s_pipe S)) ->
     contents (pipe (s_pipe S)) = [] \/ waking true S) /\
  (forall t, t ∈ outq (pipe (s_pipe S)) ->
     room (pipe (s_pipe S)) <= 0 \/ waking false S).
Proof.
  intros Hl Hi Hr Hn Hne.
  assert (served S) as [_ HR HW].
  { eapply run_served; [by apply new_sys_accounted | apply new_sys_served | | done..]. lia. }
  split; intros t Ht; [destruct HR as [E | ?] | destruct HW as [E | ?]]; auto;
    rewrite E in Ht; by apply elem_of_empty in Ht.
Qed.

(** C35: an open of an ordinary pipe empties it and wakes nobody: after any run, a
    writer that was asleep on the queue when an open succeeds, with no reader about
    to wake it, is still asleep when the open is over, although the whole buffer
    is free then, and nothing is on its way to wake it. *)
Theorem open_strands_writer par i es S t u f k k' s' :
  0 < scull_p_len par < 2 ^ 63 -> i <> PROPER_FIFO_BEH_IDX ->
  run step (new_sys par i) es S -> zlen es < 2 ^ 62 ->
  t ∈ outq (pipe (s_pipe S)) -> ~ waking false S ->
  s_threads S !! u = None -> may_call S (COpen f) -> idle k ->
  scull_p_open f k (s_pipe S) = Done (Return 0 [], k', s') ->
  exists S', step S (label (COpen f) (Return 0 []) (s_pipe S) s') S' /\ s_pipe S' = s' /\
    t ∈ outq (pipe s') /\ s_threads S' !! t = s_threads S !! t /\
    contents (pipe s') = [] /\ room (pipe s') = scull_p_len (ppar s') - 1 /\ ~ waking false S'.
Proof.
  intros Hl Hi Hr Hn Ht Hw Hu Hm Hk He.
  assert (accounted (0 + zlen es) S) as [HU _]
    by (eapply run_accounted; [by apply new_sys_accounted | lia | done]).
  pose proof (wpc_done _ _ _ _ _ _ _ (wp_scull_p_open (c := True) f k (s_pipe S) Hk
    (uo_inv _ _ _ HU) (uo_idx _ _ _ HU)) He) as (_ & _ & _ & [[H _] | [(H & _) | [_ Ho]]]);
    [done | done |].
  destruct Ho as ((_ & Hc & Hroom & _) & (_ & _ & _ & Hq) & _).
  exists (after u (COpen f) (Return 0 []) s' S). split; [by eapply step_enter; [| | | exact He] |].
  cbn [after s_pipe s_threads threads_after]. rewrite delete_id by done.
  split_and!; try done; [by rewrite Hq |].
  intros (t' & c & Ht' & Hc'). apply Hw. exists t', c. split; [| done].
  revert Ht'. cbn [after s_threads threads_after]. by rewrite delete_id.
Qed.

(** A writer and a reader open the proper FIFO, the reader sleeps, and the
    writer closes it. *)
Definition eof_moves : list (nat * move) :=
  [(1%nat, MEnter (COpen wfile)); (0%nat, MEnter (COpen rfile));
   (0%nat, MEnter (CRead rfile 9)); (0%nat, MWait);
   (1%nat, MEnter (CRelease wfile))].

Definition eof_start : sys := new_sys (Params 4 2 4) PROPER_FIFO_BEH_IDX.

Definition eof_end : sys :=
  Eval vm_compute in default eof_start (snd <$> exec eof_moves eof_start).

(** When the last writer closes the proper FIFO, a read made now reports end
    of file, but a reader that was asleep is not woken to see it. *)
Theorem release_strands_reader :
  exists es S, run step eof_start es S /\ 0%nat ∈ inq (pipe (s_pipe S)) /\
    writers (pipe (s_pipe S)) = 0 /\ ~ waking true S /\
    run_value (scull_p_read rfile 9) quiet (s_pipe S) = Some (Return 0 []).
Proof.
  exists (default [] (fst <$> exec eof_moves eof_start)), eof_end. split_and!.
  - apply (exec_run eof_moves). vm_compute. reflexivity.
  - eapply bool_decide_eq_true_1. vm_compute. reflexivity.
  - reflexivity.
  - intros (t & c & Ht & _). revert Ht. cbn [s_threads eof_end].
    rewrite <- elem_of_map_to_list. vm_compute (map_to_list _).
    intros [[= _ _] | []%not_elem_of_nil]%elem_of_cons.
  - reflexivity.
Qed.

(** ** Witnesses *)

(** A writer fills the pipe and a second one goes to sleep. *)
Definition strand_moves : list (nat * move) :=
  [(1%nat, MEnter (COpen wfile));
   (1%nat, MEnter (CWrite wfile [Byte.x61; Byte.x62; Byte.x63])); (1%nat, MWake);
   (2%nat, MEnter (CWrite wfile [Byte.x64])); (2%nat, MWait)].

Definition strand_end : sys :=
  Eval vm_compute in default sample_sys (snd <$> exec strand_moves sample_sys).

Lemma strand_not_waking : ~ waking false strand_end.
Proof.
  intros (t & c & Ht & _). revert Ht. cbn [s_threads strand_end].
  rewrite <- elem_of_map_to_list. vm_compute (map_to_list _).
  intros [[= _ _] | []%not_elem_of_nil]%elem_of_cons.
Qed.

(** A reader opens the pipe then. *)
Lemma open_strands_writer_witness :
  room (pipe (s_pipe strand_end)) = 0 /\
  exists S' e, step strand_end e S' /\ 2%nat ∈ outq (pipe (s_pipe S')) /\
    room (pipe (s_pipe S')) = 3 /\ ~ waking false S'.
Proof.
  split; [reflexivity |].
  destruct (scull_p_open rfile quiet (s_pipe strand_end)) as [[[r k'] s'] | o] eqn:E;
    [| discriminate].
  assert (r = Return 0 []) as -> by (revert E; vm_compute; intros [= <- _ _]; reflexivity).
  destruct (open_strands_writer (Params 4 2 4) 0
    (default [] (fst <$> exec strand_moves sample_sys)) strand_end 2 0 rfile quiet k' s')
    as (S' & H1 & H2 & H3 & _ & _ & H4 & H5).
  - cbn. lia.
  - discriminate.
  - apply (exec_run strand_moves). vm_compute. reflexivity.
  - vm_compute. reflexivity.
  - eapply bool_decide_eq_true_1. vm_compute. reflexivity.
  - apply strand_not_waking.
  - reflexivity.
  - eapply bool_decide_eq_true_1. vm_compute. reflexivity.
  - reflexivity.
  - exact E.
  - exists S', (label (COpen rfile) (Return 0 []) (s_pipe strand_end) s').
    rewrite H2. split_and!; [exact H1 | exact H3 | | exact H5].
    rewrite H4. revert E. vm_compute. by intros [= _ <-].
Defined.

Definition asleep_moves : list (nat * move) := take 4 sample_moves.

Definition asleep_end : sys :=
  Eval vm_compute in default sample_sys (snd <$> exec asleep_moves sample_sys).

(** A reader asleep on an empty pipe. *)
Lemma pipe_no_lost_wakeup_witness :
  0%nat ∈ inq (pipe (s_pipe asleep_end)) /\
  (contents (pipe (s_pipe asleep_end)) = [] \/ waking true asleep_end).
Proof.
  assert (0%nat ∈ inq (pipe (s_pipe asleep_end))) as Hin.
  { eapply bool_decide_eq_true_1. vm_compute. reflexivity. }
  split; [exact Hin |].
  refine (proj1 (pipe_no_lost_wakeup (Params 4 2 4) 0
    (default [] (fst <$> exec asleep_moves sample_sys)) asleep_end _ _ _ _ _) _ Hin).
  - cbn. lia.
  - discriminate.
  - apply (exec_run asleep_moves). vm_compute. reflexivity.
  - vm_compute. reflexivity.
  - eapply bool_decide_eq_true_1. vm_compute. reflexivity.
Defined.
