(* ===== verification/ScullProc.v ===== *)
(** * The proc file of scull (src/scull/proc.c)

    A read of /proc/scullmem visits the devices and prints what each one holds,
    with the first bytes of the quanta of its last node as text.  The text of a
    visit is the result of [scull_seq_show]; pointers are printed by a
    parameter, for the kernel hashes them. *)

From Stdlib Require Import Ascii Strings.Byte.
From S2P Require Import Prelude Text Kernel ScullParams Scull ScullInv ScullFile.

Implicit Types (k : kern) (s : scull_st) (l : loc).

(** ** Visiting the devices *)

(** [*pos >= scull_nr_devs] compares as [unsigned long]; the result is the index
    of the device. *)
Definition scull_seq_start (nr pos : Z) : option Z :=
  if nr <=? wrap64 pos then None else Some (wrap64 pos).

(** The new position too. *)
Definition scull_seq_next (nr pos : Z) : Z * option Z :=
  let pos := s64 (pos + 1) in
  (pos, if nr <=? wrap64 pos then None else Some (wrap64 pos)).

(** ** Printing bytes *)

(** linux/ctype.h: the control characters are 0 to 31 and 127. *)
Definition iscntrl (b : Byte.byte) : bool :=
  let n := Z.of_N (Byte.to_N b) in (n <? 32) || (n =? 127).

Definition cell (b : Byte.byte) : string :=
  String (ascii_of_byte (if iscntrl b then Byte.x2e else b)) "".

(** The loop of [__scull_print_ascii]: [n] bytes of the object at [l] from byte
    [i] on. *)
Fixpoint print_loop (n : nat) l (i : Z) : M scull_st string :=
  match n with
  | O => mret ""
  | S n =>
      bs ← slab_read l i 1;
      let t := cell (hd Byte.x00 bs) +:+ (if (i + 1) mod 64 =? 0 then newline else "") in
      rest ← print_loop n l (i + 1);
      mret (t +:+ rest)
  end.

Definition __scull_print_ascii l (data_len : Z) : M scull_st string :=
  let max_loop := Z.min data_len 500 in
  t ← print_loop (Z.to_nat max_loop) l 0;
  mret (t +:+ newline).

(** ** Printing a device *)

(** The addresses that are printed. *)
Inductive ptr := PNull | PNode (i : nat) | PArray (i : nat) | PQuantum (l : loc).

Section Show.
Variable fmt_p : ptr -> string.

(** The inner loop: the cells [i] to [i + n - 1] of an array. *)
Fixpoint show_quanta (n : nat) (p : list (option loc)) (i : Z) : M scull_st string :=
  match n with
  | O => mret ""
  | S n =>
      q ← data_at p i;
      t ← (match q with
           | None => mret ""
           | Some l =>
               d ← gets dev;
               t ← __scull_print_ascii l (len d);
               mret ("    " +:+ pad 4 (fmt_d i) +:+ ": " +:+ pad 8 (fmt_p (PQuantum l)) +:+
                     newline +:+ t)
           end);
      rest ← show_quanta n p (i + 1);
      mret (t +:+ rest)
  end.

(** The outer loop, from node [i] on. *)
Fixpoint show_nodes (qs : list qset_node) (i : nat) : M scull_st string :=
  match qs with
  | [] => mret ""
  | q :: next =>
      let t := "  item at " +:+ fmt_p (PNode i) +:+ ", qset at " +:+
               fmt_p (match data q with None => PNull | Some _ => PArray i end) +:+ newline in
      u ← (match data q, next with
           | Some p, [] =>
               d ← gets dev; show_quanta (Z.to_nat (qset_len d)) p 0
           | _, _ => mret ""
           end);
      rest ← show_nodes next (S i);
      mret (t +:+ u +:+ rest)
  end.

(** The device of index [i]. *)
Definition scull_seq_show (i : Z) : M scull_st (Z * string) :=
  r ← __mutex_lock_interruptible_sparse;
  if negb (r =? 0) then mret (- ERESTARTSYS, "")
  else
    d ← gets dev;
    let t := newline +:+ "device " +:+ fmt_zu i +:+ ": qset " +:+ fmt_zu (qset_len d) +:+ ", q " +:+
             fmt_zu (quantum_len d) +:+ ", sz " +:+ fmt_zu (len d) +:+ newline in
    rest ← show_nodes (qset d) 0;
    __mutex_unlock_sparse;;
    mret (0, t +:+ rest).

(** ** The report of a device *)

(** The bytes as characters, in lines of 64. *)
Definition chars (bs : list Byte.byte) : string := foldr (fun b t => cell b +:+ t) "" bs.

Fixpoint ascii_lines (n : nat) (bs : list Byte.byte) : string :=
  match n with
  | O => chars bs +:+ newline
  | S n => chars (take 64 bs) +:+ newline +:+ ascii_lines n (drop 64 bs)
  end.

Definition ascii_dump (bs : list Byte.byte) : string := ascii_lines (length bs / 64) bs.

(** What is printed of the cell [i] of the last array. *)
Definition cell_report s (i : Z) (q : option loc) : string :=
  match q with
  | None => ""
  | Some l =>
      "    " +:+ pad 4 (fmt_d i) +:+ ": " +:+ pad 8 (fmt_p (PQuantum l)) +:+ newline +:+
      ascii_dump (slice 0 (Z.min (len (dev s)) 500) (default [] (slab s !! l)))
  end.

Fixpoint cells_report s (i : Z) (p : list (option loc)) : string :=
  match p with
  | [] => ""
  | q :: p => cell_report s i q +:+ cells_report s (i + 1) p
  end.

Fixpoint nodes_report s (i : nat) (qs : list qset_node) : string :=
  match qs with
  | [] => ""
  | q :: next =>
      ("  item at " +:+ fmt_p (PNode i) +:+ ", qset at " +:+
       fmt_p (match data q with None => PNull | Some _ => PArray i end) +:+ newline) +:+
      (match data q, next with Some p, [] => cells_report s 0 p | _, _ => "" end) +:+
      nodes_report s (S i) next
  end.

Definition device_report s (i : Z) : string :=
  (newline +:+ "device " +:+ fmt_zu i +:+ ": qset " +:+ fmt_zu (qset_len (dev s)) +:+ ", q " +:+
   fmt_zu (quantum_len (dev s)) +:+ ", sz " +:+ fmt_zu (len (dev s)) +:+ newline) +:+
  nodes_report s 0 (qset (dev s)).
End Show.

(** ** Lines of text *)

(** What the loop prints of the bytes [bs], the first of them at [i]. *)
Fixpoint loop_text (i : Z) (bs : list Byte.byte) : string :=
  match bs with
  | [] => ""
  | b :: bs =>
      (cell b +:+ (if (i + 1) mod 64 =? 0 then newline else "")) +:+ loop_text (i + 1) bs
  end.

Lemma chars_cons b bs : chars (b :: bs) = cell b +:+ chars bs.
Proof. done. Qed.

Lemma mod64_succ i : 0 <= i -> i mod 64 < 63 -> (i + 1) mod 64 = i mod 64 + 1.
Proof. intros. Z.to_euclidean_division_equations. lia. Qed.

Lemma mod64_wrap i : 0 <= i -> i mod 64 = 63 -> (i + 1) mod 64 = 0.
Proof. intros. Z.to_euclidean_division_equations. lia. Qed.

Lemma loop_text_short i bs :
  0 <= i -> i mod 64 + zlen bs < 64 -> loop_text i bs = chars bs.
Proof.
  revert i. induction bs as [| b bs IH]; intros i Hi Hl; [done |].
  pose proof (Z.mod_pos_bound i 64 ltac:(lia)). cbn [loop_text length] in *.
  rewrite mod64_succ by lia.
  replace (i mod 64 + 1 =? 0) with false by lia.
  rewrite sapp_nil_r, chars_cons, IH; [done | lia |]. rewrite mod64_succ by lia. lia.
Qed.

Lemma loop_text_line i bs :
  0 <= i -> i mod 64 + zlen bs = 64 -> (0 < length bs)%nat ->
  loop_text i bs = chars bs +:+ newline.
Proof.
  revert i. induction bs as [| b bs IH]; intros i Hi Hl Hn; cbn [length] in *; [lia |].
  cbn [loop_text]. rewrite chars_cons. destruct bs as [| c bs].
  - cbn [length] in *. rewrite mod64_wrap by lia. cbn [loop_text Z.eqb chars foldr].
    by rewrite !sapp_nil_r.
  - pose proof (Z.mod_pos_bound i 64 ltac:(lia)). cbn [length] in *.
    rewrite mod64_succ by lia.
    replace (i mod 64 + 1 =? 0) with false by lia.
    rewrite sapp_nil_r, IH; [by rewrite sapp_assoc | lia | | cbn [length]; lia].
    rewrite mod64_succ by lia. cbn [length]. lia.
Qed.

Lemma loop_text_app i bs cs :
  loop_text i (bs ++ cs) = loop_text i bs +:+ loop_text (i + zlen bs) cs.
Proof.
  revert i. induction bs as [| b bs IH]; intros i; cbn [app loop_text length].
  - by rewrite Z.add_0_r.
  - replace (i + Z.of_nat (S (length bs))) with (i + 1 + zlen bs) by lia.
    by rewrite IH, (sapp_assoc _ (loop_text _ _)).
Qed.

(** The loop and the final newline print the bytes in lines of 64. *)
Lemma loop_text_lines n bs i :
  0 <= i -> i mod 64 = 0 -> (length bs / 64)%nat = n ->
  loop_text i bs +:+ newline = ascii_lines n bs.
Proof.
  revert bs i. induction n as [| n IH]; intros bs i Hi Hm Hn; cbn [ascii_lines].
  - rewrite loop_text_short; [done | done |]. rewrite Hm.
    destruct (decide (length bs < 64)%nat); [lia |].
    pose proof (Nat.div_str_pos (length bs) 64 ltac:(lia)). lia.
  - assert (64 <= length bs)%nat as Hl.
    { destruct (decide (64 <= length bs)%nat); [done |].
      rewrite Nat.div_small in Hn by lia. lia. }
    rewrite <- (take_drop 64 bs) at 1. rewrite loop_text_app.
    rewrite loop_text_line; [| done | rewrite length_take; lia | rewrite length_take; lia].
    rewrite !sapp_assoc. do 2 f_equal. apply IH.
    + lia.
    + rewrite length_take. replace (Nat.min 64 (length bs)) with 64%nat by lia.
      rewrite Z.add_mod, Hm by lia. reflexivity.
    + rewrite length_drop. replace (length bs) with ((length bs - 64) + 1 * 64)%nat in Hn by lia.
      rewrite Nat.div_add in Hn by lia. lia.
Qed.

(** ** Printing *)

Lemma wp_print_loop {c : Prop} n l i blk (Q : string -> kern -> scull_st -> Prop) k s :
  slab s !! l = Some blk -> 0 <= i -> i + Z.of_nat n <= zlen blk ->
  Q (loop_text i (slice i (Z.of_nat n) blk)) k s -> wpc c (print_loop n l i) Q k s.
Proof.
  intros Hl. revert i Q. induction n as [| n IH]; intros i Q Hi Hn HQ.
  - cbn [print_loop]. wp_step. by rewrite slice_nil in HQ.
  - cbn [print_loop]. wp_step. unfold slab_read. do 2 wp_step. rewrite Hl. wp_step.
    apply wp_check; [lia |]. wp_step.
    assert (exists b, slice i 1 blk = [b] /\
      slice i (Z.of_nat (S n)) blk = b :: slice (i + 1) (Z.of_nat n) blk) as (b & Hb & Hs).
    { destruct (lookup_lt_is_Some_2 blk (Z.to_nat i)) as [b Hb]; [lia |]. exists b.
      assert (slice i 1 blk = [b]) as E.
      { unfold slice. rewrite (drop_S _ _ _ Hb). reflexivity. }
      split; [done |]. replace (Z.of_nat (S n)) with (1 + Z.of_nat n) by lia.
      by rewrite <- slice_app, E by lia. }
    rewrite Hb. cbn [hd]. wp_step. apply IH; [lia | lia |]. wp_step. by rewrite Hs in HQ.
Qed.

Lemma wp_print_ascii {c : Prop} l n blk (Q : string -> kern -> scull_st -> Prop) k s :
  slab s !! l = Some blk -> 0 <= n -> Z.min n 500 <= zlen blk ->
  Q (ascii_dump (slice 0 (Z.min n 500) blk)) k s -> wpc c (__scull_print_ascii l n) Q k s.
Proof.
  intros Hl Hn Hb HQ. unfold __scull_print_ascii. wp_step.
  eapply wp_print_loop; [done | done | lia |]. rewrite Z2Nat.id by lia. wp_step.
  unfold ascii_dump in HQ. by rewrite <- (loop_text_lines _ _ 0) in HQ.
Qed.

(** The cells from [i] on of an array whose quanta are long enough. *)
Lemma wp_show_quanta {c : Prop} fmt_p n p i (Q : string -> kern -> scull_st -> Prop) k s :
  0 <= i -> i + Z.of_nat n = zlen p -> 0 <= len (dev s) ->
  (forall a l, mjoin (p !! a) = Some l ->
     exists blk, slab s !! l = Some blk /\ Z.min (len (dev s)) 500 <= zlen blk) ->
  Q (cells_report fmt_p s i (drop (Z.to_nat i) p)) k s ->
  wpc c (show_quanta fmt_p n p i) Q k s.
Proof.
  intros Hi Hn Hlen Hp. revert i Q Hi Hn. induction n as [| n IH]; intros i Q Hi Hn HQ.
  - cbn [show_quanta]. wp_step. by rewrite drop_ge in HQ by lia.
  - destruct (lookup_lt_is_Some_2 p (Z.to_nat i)) as [q Hq]; [lia |].
    rewrite (drop_S _ _ _ Hq) in HQ. cbn [show_quanta]. wp_step. unfold data_at. rewrite Hq.
    do 2 wp_step. cbn [cells_report] in HQ.
    replace (S (Z.to_nat i)) with (Z.to_nat (i + 1)) in HQ by lia.
    destruct q as [l |].
    + destruct (Hp (Z.to_nat i) l) as (blk & Hl & Hb); [by rewrite Hq |].
      do 3 wp_step. eapply wp_print_ascii; [done | done | done |]. wp_step. wp_step.
      apply IH; [lia | lia |]. wp_step. unfold cell_report in HQ. by rewrite Hl in HQ.
    + do 2 wp_step. apply IH; [lia | lia |]. by wp_step.
Qed.

(** The quanta of the last node. *)
Definition last_cells (qs : list qset_node) : list (option loc) :=
  match list.last qs with Some q => default [] (data q) | None => [] end.

Lemma wp_show_nodes {c : Prop} fmt_p qs i (Q : string -> kern -> scull_st -> Prop) k s :
  0 <= len (dev s) -> 0 <= qset_len (dev s) ->
  (forall q p, q ∈ qs -> data q = Some p -> zlen p = qset_len (dev s)) ->
  (forall a l, mjoin (last_cells qs !! a) = Some l ->
     exists blk, slab s !! l = Some blk /\ Z.min (len (dev s)) 500 <= zlen blk) ->
  Q (nodes_report fmt_p s i qs) k s -> wpc c (show_nodes fmt_p qs i) Q k s.
Proof.
  intros Hlen Hq. revert i Q. induction qs as [| q qs IH]; intros i Q Hw Hp HQ; [apply wp_ret, HQ |].
  cbn [show_nodes nodes_report] in *. cbv zeta. wp_step.
  assert (forall u, (forall q p, q ∈ qs -> data q = Some p -> zlen p = qset_len (dev s)) ->
    (forall a l, mjoin (last_cells qs !! a) = Some l ->
       exists blk, slab s !! l = Some blk /\ Z.min (len (dev s)) 500 <= zlen blk) ->
    u = (match data q, qs with Some p, [] => cells_report fmt_p s 0 p | _, _ => "" end) ->
    wpc c (rest ← show_nodes fmt_p qs (S i);
           mret (("  item at " +:+ fmt_p (PNode i) +:+ ", qset at " +:+
             fmt_p (match data q with None => PNull | Some _ => PArray i end) +:+ newline)
             +:+ u +:+ rest)) Q k s) as Hrest.
  { intros u Hw' Hp' ->. wp_step. apply IH; [done | done |]. by wp_step. }
  assert (forall q p, q ∈ qs -> data q = Some p -> zlen p = qset_len (dev s)) as Hw'.
  { intros q' p' Hq'. apply Hw. by right. }
  destruct qs as [| q2 qs].
  - assert (forall a l, mjoin (last_cells [] !! a) = Some l ->
      exists blk, slab s !! l = Some blk /\ Z.min (len (dev s)) 500 <= zlen blk) as Hp'.
    { intros a l H. by destruct a. }
    destruct (data q) as [p |] eqn:Hd; [| wp_step; by apply Hrest].
    do 2 wp_step. assert (zlen p = qset_len (dev s)) by (apply (Hw q); [by left | done]).
    apply wp_show_quanta; [done | lia | done | | by apply Hrest].
    intros a l Ha. apply (Hp a). unfold last_cells. cbn. by rewrite Hd.
  - assert (forall a l, mjoin (last_cells (q2 :: qs) !! a) = Some l ->
      exists blk, slab s !! l = Some blk /\ Z.min (len (dev s)) 500 <= zlen blk) as Hp'.
    { intros a l Ha. apply (Hp a). by unfold last_cells in *; rewrite last_cons_cons. }
    destruct (data q); wp_step; by apply Hrest.
Qed.

(** Which quantum a cell of the last node is. *)
Lemma last_cells_ptr qs a l :
  mjoin (last_cells qs !! a) = Some l -> exists i, ptr_at qs i a = Some l.
Proof.
  unfold last_cells, ptr_at. intros H. exists (pred (length qs)).
  rewrite <- last_lookup. destruct (list.last qs) as [q |]; [| by destruct a].
  cbn. destruct (data q) as [p |]; [exact H | by destruct a].
Qed.

Lemma wp_show_device {c : Prop} fmt_p s (Q : string -> kern -> scull_st -> Prop) k :
  dev_wf s -> Z.min (len (dev s)) 500 <= kmc_size s ->
  Q (nodes_report fmt_p s 0 (qset (dev s))) k s ->
  wpc c (show_nodes fmt_p (qset (dev s)) 0) Q k s.
Proof.
  intros W Hb HQ. apply wp_show_nodes; [apply (wf_len s W) | by apply Z.lt_le_incl, W | | | done].
  - intros q p [j Hj]%list_elem_of_lookup Hp. by eapply wf_arr.
  - intros a l [j Hl]%last_cells_ptr. destruct (wf_live s W _ _ _ Hl) as (blk & ? & E).
    exists blk. rewrite E. done.
Qed.

Lemma wp_seq_show fmt_p i k s :
  held k = false -> dev_wf s -> Z.min (len (dev s)) 500 <= kmc_size s ->
  wp (scull_seq_show fmt_p i) (fun x k' s' =>
    held k' = false /\ kobjs k' = kobjs k /\ s' = s /\
    (x = (- ERESTARTSYS, "") \/ x = (0, device_report fmt_p s i))) k s.
Proof.
  intros Hh W Hb. unfold scull_seq_show. wp_steps; try done.
  - apply wp_show_device; [done | done |]. wp_steps; try done. by split_and!; auto.
  - by split_and!; auto.
Qed.

(** C17: while the quanta hold all that is printed of them, a visit prints the
    report of the device: the geometry, every node, and of the last one every
    quantum with its first bytes in lines of 64 characters, control characters
    as dots.  It changes nothing and gives the lock back; a signal before the
    lock leaves the file without text. *)
Theorem scull_seq_show_ok fmt_p i k s :
  held k = false -> dev_wf s -> Z.min (len (dev s)) 500 <= kmc_size s ->
  wp (scull_seq_show fmt_p i) (fun x k' s' =>
    held k' = false /\ kobjs k' = kobjs k /\ s' = s /\
    (x = (- ERESTARTSYS, "") \/ x = (0, device_report fmt_p s i))) k s.
Proof. apply wp_seq_show. Qed.

(** ** Reading past a quantum *)

Lemma oopses_print_loop n l i blk k s :
  slab s !! l = Some blk -> 0 <= i -> zlen blk < i + Z.of_nat n -> i <= zlen blk ->
  oopses OobRead (print_loop n l i) k s.
Proof.
  intros Hl. revert i. induction n as [| n IH]; intros i Hi Hn Hb; [lia |]. cbn [print_loop].
  destruct (decide (i = zlen blk)) as [-> | Hne].
  - apply oopses_first. unfold slab_read. apply oopses_bind. wp_step. rewrite Hl.
    apply oopses_first, oopses_check. lia.
  - apply oopses_bind. unfold slab_read. do 2 wp_step. rewrite Hl. wp_step.
    apply wp_check; [lia |]. wp_step. apply oopses_first, IH; lia.
Qed.

Lemma oopses_print_ascii l n blk k s :
  slab s !! l = Some blk -> zlen blk < Z.min n 500 ->
  oopses OobRead (__scull_print_ascii l n) k s.
Proof.
  intros Hl Hn. unfold __scull_print_ascii. apply oopses_first.
  by apply (oopses_print_loop _ _ _ blk); [| lia..].
Qed.

(** The first quantum of the array from cell [i] on is too short. *)
Lemma oopses_show_quanta fmt_p n p i k s :
  0 <= i -> i + Z.of_nat n = zlen p ->
  (forall a l, mjoin (p !! a) = Some l ->
     exists blk, slab s !! l = Some blk /\ zlen blk < Z.min (len (dev s)) 500) ->
  (exists a l, (Z.to_nat i <= a)%nat /\ mjoin (p !! a) = Some l) ->
  oopses OobRead (show_quanta fmt_p n p i) k s.
Proof.
  intros Hi Hn Hp. revert i Hi Hn. induction n as [| n IH]; intros i Hi Hn (a & l & Ha & Hl).
  - rewrite lookup_ge_None_2 in Hl by lia. done.
  - destruct (lookup_lt_is_Some_2 p (Z.to_nat i)) as [q Hq]; [lia |].
    cbn [show_quanta]. apply oopses_bind. unfold data_at. rewrite Hq. wp_step.
    destruct q as [l' |].
    + apply oopses_first, oopses_bind. wp_step. apply oopses_first.
      destruct (Hp (Z.to_nat i) l') as (blk & ? & ?); [by rewrite Hq |].
      by eapply oopses_print_ascii.
    + apply oopses_bind. wp_step. apply oopses_first, IH; [lia | lia |]. exists a, l.
      split; [| done]. destruct (decide (a = Z.to_nat i)) as [-> |]; [| lia].
      by rewrite Hq in Hl.
Qed.

Lemma oopses_show_nodes fmt_p qs i a l k s :
  (forall q p, q ∈ qs -> data q = Some p -> zlen p = qset_len (dev s)) ->
  (forall a l, mjoin (last_cells qs !! a) = Some l ->
     exists blk, slab s !! l = Some blk /\ zlen blk < Z.min (len (dev s)) 500) ->
  mjoin (last_cells qs !! a) = Some l ->
  oopses OobRead (show_nodes fmt_p qs i) k s.
Proof.
  revert i. induction qs as [| q qs IH]; intros i Hw Hp Ha; [by destruct a |].
  cbn [show_nodes]. cbv zeta. destruct qs as [| q2 qs].
  - unfold last_cells in *. cbn in Hp, Ha. destruct (data q) as [p |] eqn:Hd; [| by destruct a].
    cbn in Hp, Ha. apply oopses_first, oopses_bind. wp_step.
    pose proof (Hw q p ltac:(by left) Hd). apply oopses_show_quanta; [lia | lia | done |].
    exists a, l. split; [lia | done].
  - apply oopses_bind.
    assert (oopses OobRead (show_nodes fmt_p (q2 :: qs) (S i)) k s) as H.
    { apply IH; [| by unfold last_cells in *; rewrite last_cons_cons in *..].
      intros q' p' Hq'. apply Hw. by right. }
    destruct (data q); wp_step; by apply oopses_first.
Qed.

(** Of every quantum of the last node the first min(len, 500) bytes are
    printed, [len] being the length of the whole device: when a quantum is
    shorter and the last node has one, the visit reads past its end. *)
Theorem seq_show_overread fmt_p i a l k s :
  held k = false -> ans k 0%nat = 0 -> dev_wf s -> kmc_size s < Z.min (len (dev s)) 500 ->
  mjoin (last_cells (qset (dev s)) !! a) = Some l ->
  run_oops (scull_seq_show fmt_p i) k s = Some OobRead.
Proof.
  intros Hh Ha W Hb Hl. apply oopses_run. unfold scull_seq_show. apply oopses_bind.
  apply wp_lock_taken; [done | done |]. cbn [Z.eqb negb]. apply oopses_bind. wp_step. cbv zeta.
  apply oopses_first. apply (oopses_show_nodes _ _ _ a l); [| | done].
  - intros q p [j Hj]%list_elem_of_lookup Hp. by eapply wf_arr.
  - intros b l' [j Hl']%last_cells_ptr. destruct (wf_live s W _ _ _ Hl') as (blk & ? & E).
    exists blk. rewrite E. done.
Qed.

(** ** Witnesses *)

Definition no_ptr (p : ptr) : string := "(p)".

Definition sample_report : string := device_report no_ptr (set_len 4 sample_dev) 0.

Lemma sample_short_wf : dev_wf (set_len 4 sample_dev).
Proof. destruct sample_wf. by split; cbn in *; try lia. Qed.

Lemma scull_seq_show_ok_witness :
  wp (scull_seq_show no_ptr 0) (fun x k' s' =>
    held k' = false /\ (x = (- ERESTARTSYS, "") \/ x = (0, sample_report))) all_ok
    (set_len 4 sample_dev).
Proof.
  eapply wp_mono;
    [apply (scull_seq_show_ok no_ptr 0); [reflexivity | apply sample_short_wf | vm_compute; done] |].
  cbv beta. intros x k' s' (H1 & _ & _ & H2). exact (conj H1 H2).
Defined.

Lemma seq_show_overread_witness :
  run_oops (scull_seq_show no_ptr 0) all_ok sample_dev = Some OobRead.
Proof.
  apply (seq_show_overread no_ptr 0 0 1%positive);
    [reflexivity | reflexivity | apply sample_wf | vm_compute; reflexivity | reflexivity].
Defined.
