(* ===== verification/ScullRuns.v ===== *)
(** * Sequences of calls on a scull device

    The entry points one after the other, in any order, by callers with and
    without privileges: [scull_ioctl] changes the parameters that the next open
    for writing gives to the device.  The lock makes each call atomic, so a
    list of calls is a run of any number of threads. *)

From S2P Require Import Prelude Kernel ScullParams Scull ScullInv ScullFile ScullIoctl ScullProc.

Implicit Types (k : kern) (s : scull_st).

(** ** Definitions *)

(** A call of the file operations, or a visit of the proc file.  [cell] is the
    integer the argument of the ioctl points to. *)
Inductive dcall :=
  | DOpen (filp : file)
  | DRead (count f_pos : Z)
  | DWrite (ubuf : list Byte.byte) (f_pos : Z)
  | DIoctl (cap : bool) (cmd arg cell : Z)
  | DShow (i : Z).

(** [scull_ioctl] on the parameters the devices share. *)
Definition dev_ioctl (cap : bool) (cmd arg cell : Z) : M scull_st Z := fun k s =>
  match scull_ioctl cap cmd arg k (IoSt (par s) cell) with
  | Done (r, k', io) => Done (r, k', St (iopar io) (kmc_size s) (slab s) (dev s))
  | Crash o => Crash o
  end.

(** The value a call returns. *)
Definition dcall_run (c : dcall) : M scull_st Z :=
  match c with
  | DOpen filp => scull_open filp
  | DRead count f_pos => x ← scull_read count f_pos; mret (ret x)
  | DWrite ubuf f_pos => x ← scull_write ubuf f_pos; mret (ret x)
  | DIoctl cap cmd arg cell => dev_ioctl cap cmd arg cell
  | DShow i => x ← scull_seq_show no_ptr i; mret (fst x)
  end.

Fixpoint dcalls_run (cs : list dcall) : M scull_st (list Z) :=
  match cs with
  | [] => mret []
  | c :: cs => r ← dcall_run c; rs ← dcalls_run cs; mret (r :: rs)
  end.

(** What the kernel checks before it calls the driver ([rw_verify_area]), and
    that an ioctl comes from a caller without CAP_SYS_ADMIN. *)
Definition dcall_ok (c : dcall) : Prop :=
  match c with
  | DRead count f_pos => 0 <= f_pos /\ 0 <= count /\ f_pos + count < 2 ^ 63
  | DWrite ubuf f_pos => 0 <= f_pos /\ f_pos + zlen ubuf < 2 ^ 63
  | DIoctl cap _ _ _ => cap = false
  | _ => True
  end.

(** The invariant between two calls: the device is well formed, and the
    parameters would do for it, those a reset installs too. *)
Definition dev_safe s : Prop := dev_wf s /\ params_ok s /\ SCULL_QUANTUM <= kmc_size s.

(** ** Every call keeps the invariant *)

(** The default sizes fit a cache of large enough objects. *)
Lemma default_params_ok s :
  kmc_size s < 2 ^ 63 -> SCULL_QUANTUM <= kmc_size s ->
  scull_quantum (par s) = SCULL_QUANTUM -> scull_qset (par s) = SCULL_QSET -> params_ok s.
Proof. intros ? ? E1 E2. unfold params_ok. rewrite E1, E2. unfold SCULL_QUANTUM, SCULL_QSET in *. lia. Qed.

Lemma wp_unprivileged cmd arg k (io : ioctl_st) :
  wp (scull_ioctl false cmd arg) (fun r k' io' =>
    held k' = held k /\ kobjs k' = kobjs k /\
    ((scull_quantum (iopar io') = scull_quantum (iopar io) /\
      scull_qset (iopar io') = scull_qset (iopar io)) \/
     (scull_quantum (iopar io') = SCULL_QUANTUM /\ scull_qset (iopar io') = SCULL_QSET))) k io.
Proof. ioctl_steps; try discriminate; auto. Qed.

Lemma dev_safe_ioctl cmd arg cell k s :
  held k = false -> dev_safe s ->
  wp (dev_ioctl false cmd arg cell) (fun _ k' s' => held k' = false /\ dev_safe s') k s.
Proof.
  intros Hh (W & P & D). pose proof (wp_unprivileged cmd arg k (IoSt (par s) cell)) as H.
  unfold wpc, dev_ioctl in *.
  destruct (scull_ioctl false cmd arg k (IoSt (par s) cell)) as [[[r k'] io] | o]; [| done].
  destruct H as (-> & _ & H). split; [done |]. split_and!; [destruct W; by split | | done].
  destruct H as [[E1 E2] | [E1 E2]]; cbn in E1, E2.
  - unfold params_ok in *. cbn. by rewrite E1, E2.
  - apply default_params_ok; cbn; [apply W | done..].
Qed.

(** A call that keeps the parameters and the size of the cache's objects. *)
Lemma dev_safe_same s s' :
  dev_safe s -> dev_wf s' -> par s' = par s -> kmc_size s' = kmc_size s -> dev_safe s'.
Proof. unfold dev_safe, params_ok. intros (_ & P & D) W -> ->. done. Qed.

Lemma dev_safe_open filp k s :
  held k = false -> dev_safe s ->
  wp (scull_open filp) (fun _ k' s' => held k' = false /\ dev_safe s') k s.
Proof.
  intros Hh HS. destruct (HS) as (W & P & D). unfold scull_open. wp_steps; try done.
  eapply wp_mono; [by apply wp_trim |]. intros _ k' s' (-> & m & -> & _). wp_steps; try done.
  split; [done |]. apply (dev_safe_same s); [done | | done..].
  by apply (dev_wf_empty (set_slab m s)).
Qed.

Lemma dev_safe_show i k s :
  held k = false -> dev_safe s ->
  wp (scull_seq_show no_ptr i) (fun _ k' s' => held k' = false /\ dev_safe s') k s.
Proof.
  intros Hh HS. destruct (HS) as (W & P & D).
  eapply wp_mono; [apply wp_seq_show; [done | done | unfold SCULL_QUANTUM in *; lia] |].
  by intros x k' s' (? & _ & -> & _).
Qed.

Lemma dev_safe_call c k s :
  held k = false -> dev_safe s -> dcall_ok c ->
  wp (dcall_run c) (fun _ k' s' => held k' = false /\ dev_safe s') k s.
Proof.
  intros Hh HS Hc. destruct (HS) as (W & P & D).
  destruct c as [filp | count p | ubuf p | cap cmd arg cell | i]; cbn [dcall_run dcall_ok] in *.
  - by apply dev_safe_open.
  - wp_step. eapply wp_mono; [apply wp_scull_read; [done | done | lia..] |].
    intros x k' s' (Hh' & W' & ((? & ? & _) & _) & _). wp_step. split; [done |].
    by apply (dev_safe_same s).
  - wp_step. eapply wp_mono; [apply wp_scull_write; [done | done | lia..] |].
    intros x k' s' (Hh' & W' & (? & ? & _) & _). wp_step. split; [done |].
    by apply (dev_safe_same s).
  - subst cap. by apply dev_safe_ioctl.
  - wp_step. eapply wp_mono; [by apply dev_safe_show |]. intros x k' s' H. by wp_step.
Qed.

(** ** Properties *)

(** C7: on a device whose cache was created with objects of at least the default
    size, no sequence of opens, reads, writes, proc visits and unprivileged
    ioctls makes the kernel oops, whatever the kernel answers: every call
    returns, gives the lock back and keeps the device well formed and the
    parameters fit for the next open. *)
Theorem scull_runs_safe cs k s :
  held k = false -> dev_safe s -> Forall dcall_ok cs ->
  wp (dcalls_run cs) (fun rs k' s' =>
    length rs = length cs /\ held k' = false /\ dev_safe s') k s.
Proof.
  intros Hh HS Hcs. revert k s Hh HS. induction Hcs as [| c cs Hc _ IH]; intros k s Hh HS;
    cbn [dcalls_run]; wp_step; [done |].
  eapply wp_mono; [by apply dev_safe_call |]. intros r k1 s1 [Hh1 HS1]. wp_step.
  eapply wp_mono; [by apply IH |]. intros rs k2 s2 (El & ? & ?). wp_step. cbn. auto.
Qed.

(** ** What a change of the quantum can break *)

(** The kernel answers 0 to everything. *)
Definition kind_kern (n : Z) (ld : bool) : kern := Kern (fun _ => 0) false n ld.

(** The quantum is changed by an ioctl, the device opened for writing and [ubuf]
    written to its start. *)
Definition resize_calls (cap : bool) (cmd v : Z) (ubuf : list Byte.byte) : list dcall :=
  [DIoctl cap cmd v 0; DOpen (File 0 O_WRONLY FMODE_WRITE); DWrite ubuf 0].

Lemma dev_ioctl_tquantum v cell n ld s :
  dev_ioctl true SCULL_IOCTQUANTUM v cell (kind_kern n ld) s =
  Done (0, kind_kern n ld, St (set_quantum v (par s)) (kmc_size s) (slab s) (dev s)).
Proof. by unfold dev_ioctl, scull_ioctl; ioctl_cmd. Qed.

Lemma dev_ioctl_reset v cell n ld s :
  dev_ioctl false SCULL_IOCRESET v cell (kind_kern n ld) s =
  Done (0, kind_kern n ld,
    St (set_qset_param SCULL_QSET (set_quantum SCULL_QUANTUM (par s))) (kmc_size s) (slab s) (dev s)).
Proof. by unfold dev_ioctl, scull_ioctl; ioctl_cmd. Qed.

(** The calls of [kind_kern] have one outcome. *)
Section Kind.
Context {S : Type} {c : Prop} (h ld : bool) (n : Z) (s : S).
Abbreviation kind := (Kern (fun _ => 0)).

Lemma wp_ask_kind (Q : Z -> kern -> S -> Prop) :
  Q 0 (kind h n ld) s -> wpc c ask Q (kind h n ld) s.
Proof. done. Qed.

Lemma wp_kmalloc_kind (Q : bool -> kern -> S -> Prop) :
  Q true (kind h (n + 1) ld) s -> wpc c kmalloc Q (kind h n ld) s.
Proof. done. Qed.

Lemma wp_lock_kind (Q : Z -> kern -> S -> Prop) :
  Q 0 (kind true n ld) s ->
  wpc c __mutex_lock_interruptible_sparse Q (kind false n ld) s.
Proof. done. Qed.

Lemma wp_copy_from_user_kind src (Q : Z * list Byte.byte -> kern -> S -> Prop) :
  Q (0, src) (kind h n ld) s -> wpc c (copy_from_user src) Q (kind h n ld) s.
Proof.
  intros HQ. mred. unfold uncopied. rewrite Z.min_r, Z.max_l by lia.
  by rewrite Z.sub_0_r, slice_all, app_nil_r.
Qed.
End Kind.

Ltac kind_step :=
  lazymatch goal with
  | |- wpc _ ask _ _ _ => apply wp_ask_kind
  | |- wpc _ kmalloc _ _ _ => apply wp_kmalloc_kind
  | |- wpc _ __mutex_lock_interruptible_sparse _ _ _ => apply wp_lock_kind
  | |- wpc _ (copy_from_user _) _ _ _ => apply wp_copy_from_user_kind
  | |- wpc _ _ _ _ _ => wp_step
  | |- oopses _ (mbind _ _) _ _ => apply oopses_bind
  end; cbv beta iota; cbn [Z.eqb negb].

(** After the first two calls the device is empty and has the new quantum. *)
Lemma oopses_resize cap cmd v p ubuf o n ld s :
  dev_wf s ->
  dev_ioctl cap cmd v 0 (kind_kern n ld) s =
    Done (0, kind_kern n ld, St p (kmc_size s) (slab s) (dev s)) ->
  (forall m n, oopses o (scull_write ubuf 0) (kind_kern n ld)
     (St p (kmc_size s) m (Dev [] (scull_quantum p) (scull_qset p) 0))) ->
  oopses o (dcalls_run (resize_calls cap cmd v ubuf)) (kind_kern n ld) s.
Proof.
  intros W E H. cbn [resize_calls dcalls_run dcall_run]. apply oopses_bind.
  unfold wpc. rewrite E. apply oopses_first. apply oopses_bind.
  set (s1 := St _ _ _ _). assert (dev_wf s1) as W1 by (destruct W; by split).
  unfold scull_open. cbn [f_flags]. change (Z.land O_WRONLY O_ACCMODE =? O_WRONLY) with true.
  cbv iota. unfold kind_kern. do 3 kind_step. eapply wp_mono; [by apply wp_trim |].
  intros _ k' s' (-> & m & -> & _). cbn [ans kobjs lockdep].
  do 3 kind_step. apply oopses_first, oopses_first, oopses_first, H.
Qed.

(** The start of an empty device. *)
Lemma wp_follow_empty {c : Prop} (Q : option nat * scull_follow -> kern -> scull_st -> Prop) n ld s :
  qset (dev s) = [] -> 0 < quantum_len (dev s) -> 0 < qset_len (dev s) ->
  quantum_len (dev s) * qset_len (dev s) < 2 ^ 64 ->
  Q (Some 0%nat, Follow 0 0 0) (Kern (fun _ => 0) true (n + 1) ld) (set_qset [Qset None] s) ->
  wpc c (__scull_follow 0) Q (Kern (fun _ => 0) true n ld) s.
Proof.
  intros He Hq Hl Ht HQ. unfold __scull_follow. do 2 kind_step. cbv zeta.
  rewrite (wrap64_small (_ * _)), (wrap64_small 0) by nia.
  rewrite (Z.mod_small 0), (Z.div_small 0), (Z.div_small 0), (Z.mod_small 0) by nia.
  kind_step. apply wp_check; [apply negb_true_iff, Z.eqb_neq; nia |].
  do 3 kind_step. apply wp_check; [apply negb_true_iff, Z.eqb_neq; nia |].
  kind_step. rewrite (bool_decide_eq_true_2 (qset (dev s) = [])) by done. do 5 kind_step.
  cbn [qset_p]. change (Z.to_nat 0) with 0%nat. cbn [follow_next]. by do 3 kind_step.
Qed.

Lemma oopses_write_short l ubuf blk h n ld s :
  slab s !! l = Some blk -> zlen blk < zlen ubuf <= quantum_len (dev s) ->
  quantum_len (dev s) < 2 ^ 64 ->
  oopses OobWrite (write_to_quantum l (Follow 0 0 0) ubuf 0) (Kern (fun _ => 0) h n ld) s.
Proof.
  intros Hl Hu Hq. unfold write_to_quantum. do 2 kind_step. cbv zeta. cbn [offset_p].
  rewrite Z.sub_0_r, wrap64_small by lia.
  replace (quantum_len (dev s) <? zlen ubuf) with false by lia.
  rewrite Nat2Z.id, firstn_all. do 2 kind_step. apply oopses_first.
  unfold slab_write. do 2 kind_step. rewrite Hl. apply oopses_first, oopses_check. lia.
Qed.

(** A write to an empty device whose quantum the cache's objects do not hold. *)
Lemma oopses_write_beyond p size m ubuf n ld :
  0 < scull_quantum p -> 0 < scull_qset p -> scull_quantum p * scull_qset p < 2 ^ 64 ->
  0 <= size < zlen ubuf -> zlen ubuf <= scull_quantum p ->
  oopses OobWrite (scull_write ubuf 0) (kind_kern n ld)
    (St p size m (Dev [] (scull_quantum p) (scull_qset p) 0)).
Proof.
  intros Hp Hq Ht Hs Hu. unfold scull_write, kind_kern. do 2 kind_step. apply oopses_first.
  unfold scull_write_locked. kind_step. apply wp_follow_empty; cbn; [done.. |].
  apply oopses_bind. unfold get_data. do 2 kind_step. cbn [node_data set_qset set_dev qset dev lookup
    list_lookup mbind option_bind data]. do 6 kind_step. cbn [dev set_dev set_qset qset_len].
  apply oopses_bind. unfold get_quantum. kind_step.
  eapply wp_data_at; [by apply lookup_replicate_2; lia |]. cbv beta iota. kind_step.
  unfold kmem_cache_alloc. do 6 kind_step. set (l := fresh _). do 4 kind_step.
  eapply oopses_write_short; [apply lookup_insert_eq | | cbn; nia].
  rewrite length_stale_bytes. cbn. lia.
Qed.

(** A privileged caller may set any quantum, also one that the cache's
    objects do not hold.  The next open for writing gives it to the device, and
    a write of more bytes than an object has runs past its end. *)
Theorem enlarged_quantum_overflows v ubuf n ld s :
  dev_wf s -> 0 < scull_qset (par s) -> v * scull_qset (par s) < 2 ^ 64 ->
  kmc_size s < zlen ubuf <= v ->
  run_oops (dcalls_run (resize_calls true SCULL_IOCTQUANTUM v ubuf)) (kind_kern n ld) s
    = Some OobWrite.
Proof.
  intros W Hq Ht Hu. pose proof (wf_quantum s W). pose proof (wf_fits s W).
  eapply oopses_run, oopses_resize; [done | apply dev_ioctl_tquantum |]. intros m n'.
  apply oopses_write_beyond; cbn; lia || done.
Qed.

(** C36: with a cache of objects smaller than the default quantum, which loading with
    a smaller [scull_quantum] creates, no privilege is needed: the reset command
    sets the default, an open for writing gives it to the device, and a write of
    more bytes than an object has runs past its end. *)
Theorem reset_overflows ubuf n ld s :
  dev_wf s -> kmc_size s < zlen ubuf <= SCULL_QUANTUM ->
  run_oops (dcalls_run (resize_calls false SCULL_IOCRESET 0 ubuf)) (kind_kern n ld) s
    = Some OobWrite.
Proof.
  intros W Hu. pose proof (wf_quantum s W). pose proof (wf_fits s W).
  eapply oopses_run, oopses_resize; [done | apply dev_ioctl_reset |]. intros m n'.
  apply oopses_write_beyond; cbn; unfold SCULL_QUANTUM, SCULL_QSET in *; lia.
Qed.

(** A quantum of 0 is accepted too: the next write divides by it. *)
Theorem zero_quantum_divides ubuf n ld s :
  dev_wf s ->
  run_oops (dcalls_run (resize_calls true SCULL_IOCTQUANTUM 0 ubuf)) (kind_kern n ld) s
    = Some DivideError.
Proof.
  intros W. eapply oopses_run, oopses_resize; [done | apply dev_ioctl_tquantum |]. intros m n'.
  unfold scull_write, kind_kern. do 2 kind_step. apply oopses_first.
  unfold scull_write_locked. apply oopses_first.
  unfold __scull_follow. kind_step. kind_step. by apply oopses_first, oopses_check.
Qed.

(** ** Witnesses *)

(** A device as it is after loading with the default parameters. *)
Definition loaded_dev : scull_st := fresh_dev SCULL_QUANTUM SCULL_QSET SCULL_QUANTUM.

Lemma loaded_safe : dev_safe loaded_dev.
Proof.
  assert (params_ok loaded_dev) as P by (eapply bool_decide_eq_true_1; vm_compute; reflexivity).
  split_and!; [| done | done]. by apply (dev_wf_empty loaded_dev).
Qed.

(** A write and a read of it, an unprivileged reset, an attempt to set the
    quantum, a visit and an open that empties the device. *)
Definition sample_calls : list dcall :=
  [DWrite abc 3998; DRead 3 3998; DIoctl false SCULL_IOCRESET 0 0;
   DIoctl false SCULL_IOCSQUANTUM 0 7; DShow 0; DOpen (File 0 O_WRONLY FMODE_WRITE)].

Example sample_calls_run :
  run_value (dcalls_run sample_calls) all_ok loaded_dev = Some [2; 2; 0; - EPERM; 0; 0].
Proof. vm_compute. reflexivity. Qed.

Lemma scull_runs_safe_witness :
  wp (dcalls_run sample_calls) (fun rs k' s' =>
    length rs = 6%nat /\ held k' = false /\ dev_safe s') all_ok loaded_dev.
Proof.
  apply scull_runs_safe; [reflexivity | apply loaded_safe |].
  repeat constructor; cbn; lia.
Defined.

Lemma enlarged_quantum_overflows_witness :
  run_oops (dcalls_run (resize_calls true SCULL_IOCTQUANTUM 8 (abc ++ abc))) (kind_kern 0 true) sample_dev
    = Some OobWrite.
Proof. apply enlarged_quantum_overflows; [apply sample_wf | cbn; lia..]. Defined.

Lemma zero_quantum_divides_witness :
  run_oops (dcalls_run (resize_calls true SCULL_IOCTQUANTUM 0 abc)) (kind_kern 0 true) sample_dev = Some DivideError.
Proof. apply zero_quantum_divides, sample_wf. Defined.

Lemma reset_overflows_witness :
  run_oops (dcalls_run (resize_calls false SCULL_IOCRESET 0 (abc ++ abc))) (kind_kern 0 true)
    sample_dev = Some OobWrite.
Proof. apply reset_overflows; [apply sample_wf | vm_compute; done]. Defined.
