(* ===== verification/ScullFrame.v ===== *)
(** * What a call on one scull device leaves alone

    The devices share the slab cache.  [framed] says of a piece of code that
    runs on one device that the objects it does not own stay as they were and
    stay foreign to it, and that what it takes from [kmalloc] is exactly what
    its list of quantum sets grows by. *)

From S2P Require Import Prelude Kernel ScullParams Scull ScullInv ScullFile ScullIoctl ScullProc ScullRuns.

Implicit Types (k : kern) (s : scull_st) (l : loc) (qs : list qset_node).

(** ** Definitions *)

(** The object at [l] is in use and not of this device. *)
Definition stranger s l : Prop :=
  is_Some (slab s !! l) /\ forall i a, ptr_at (qset (dev s)) i a <> Some l.

Record framed k s k' s' : Prop := Framed {
  fr_slab : forall l, stranger s l -> stranger s' l /\ slab s' !! l = slab s !! l;
  fr_objs : kobjs k' - owned_objs (qset (dev s')) = kobjs k - owned_objs (qset (dev s));
  fr_size : kmc_size s' = kmc_size s
}.

(** ** Lemmas *)

Lemma framed_refl k s k' : kobjs k' = kobjs k -> framed k s k' s.
Proof. intros E. split; [done | lia | done]. Qed.

Lemma framed_trans k1 s1 k2 s2 k3 s3 :
  framed k1 s1 k2 s2 -> framed k2 s2 k3 s3 -> framed k1 s1 k3 s3.
Proof.
  intros [A1 A2 A3] [B1 B2 B3]. split; [| lia | congruence].
  intros l Hl. destruct (A1 l Hl) as [H1 E1]. destruct (B1 l H1) as [H2 E2].
  split; [done | congruence].
Qed.

(** The same device and cache. *)
Lemma framed_same k s k' s' :
  slab s' = slab s -> qset (dev s') = qset (dev s) -> kmc_size s' = kmc_size s ->
  kobjs k' = kobjs k -> framed k s k' s'.
Proof.
  intros E1 E2 E3 E4. split; [| rewrite E2; lia | done].
  intros l [H1 H2]. unfold stranger. by rewrite E1, E2.
Qed.

Lemma owned_objs_app qs1 qs2 : owned_objs (qs1 ++ qs2) = owned_objs qs1 + owned_objs qs2.
Proof.
  induction qs1 as [| q qs1 IH]; [done |].
  change ((q :: qs1) ++ qs2) with (q :: (qs1 ++ qs2)). rewrite !owned_objs_cons. lia.
Qed.

Lemma owned_objs_empty m : owned_objs (replicate m (Qset None)) = Z.of_nat m.
Proof. induction m as [| m IH]; [done |]. cbn [replicate]. rewrite owned_objs_cons. cbn. lia. Qed.

(** A node that gets an array. *)
Lemma owned_objs_set qs i n p :
  qs !! i = Some n ->
  owned_objs (<[i := Qset (Some p)]> qs) =
    owned_objs qs + match data n with None => 1 | Some _ => 0 end.
Proof.
  intros Hi. rewrite (insert_take_drop _ _ _ ltac:(by eapply lookup_lt_Some)).
  rewrite <- (take_drop_middle qs i n Hi) at 3.
  rewrite !owned_objs_app, !owned_objs_cons. cbn [data]. destruct (data n); lia.
Qed.

Lemma framed_grown m k s k' s' :
  grown m s s' -> kobjs k' = kobjs k + Z.of_nat m -> framed k s k' s'.
Proof.
  intros -> Hk. split; [| | done].
  - intros l [H1 H2]. split; [split; [done |] | done]. intros i a. cbn. by rewrite ptr_at_app.
  - cbn. rewrite owned_objs_app, owned_objs_empty. lia.
Qed.

Lemma framed_trim k s :
  held k = true -> dev_wf s -> wp __scull_trim (fun _ k' s' => framed k s k' s') k s.
Proof.
  intros Hh W. eapply wp_mono; [by apply wp_trim |]. intros _ k' s' (-> & m & -> & Hm).
  split; cbn; [| change (owned_objs []) with 0; lia | done].
  intros l [H1 H2]. unfold stranger. cbn. rewrite (Hm l), decide_False; [done |].
  intros (i & a & _ & Ha)%elem_of_list_ptrs. by destruct (H2 i a).
Qed.

Lemma framed_get_data i k s :
  (i < length (qset (dev s)))%nat ->
  wp (get_data i) (fun _ k' s' => framed k s k' s') k s.
Proof.
  intros Hi. destruct (lookup_lt_is_Some_2 _ _ Hi) as [n Hn].
  unfold get_data. wp_steps. unfold node_data at 1. rewrite Hn. cbn [mbind option_bind].
  destruct (data n) as [p |] eqn:Hd; wp_steps; [by apply framed_refl | | by apply framed_refl].
  split; cbn; [| rewrite (owned_objs_set _ _ _ _ Hn), Hd; lia | done].
  intros l [H1 H2]. split; [split; [done |] | done]. intros j a. cbn. rewrite ptr_at_set by done.
  case_decide; [| done]. destruct (replicate _ _ !! a) eqn:E; [| done].
  by apply lookup_replicate in E as [-> _].
Qed.

Lemma framed_get_quantum i p j k s :
  node_data i s = Some p -> 0 <= j < zlen p -> 0 <= kmc_size s ->
  wp (get_quantum i p j) (fun _ k' s' => framed k s k' s') k s.
Proof.
  intros Hn Hj Hsz. pose proof (node_data_lt s i p Hn) as Hi.
  destruct (lookup_lt_is_Some_2 _ _ Hi) as [n En].
  assert (data n = Some p) as Hd by (unfold node_data in Hn; by rewrite En in Hn).
  unfold get_quantum. wp_step. destruct (lookup_lt_is_Some_2 p (Z.to_nat j)) as [x Hx]; [lia |].
  eapply wp_data_at; [done |]. destruct x as [l |]; wp_steps; [by apply framed_refl |].
  apply wp_kmem_cache_alloc; [done | |]; intros; wp_steps; [by apply framed_refl |].
  split; cbn; [| rewrite (owned_objs_set _ _ _ _ En), Hd; lia | done].
  intros l' [H1 H2]. assert (l <> l') as Hne by (intros ->; destruct H1; congruence).
  unfold stranger. cbn. rewrite lookup_insert_ne by done. split; [split; [done |] | done].
  intros i' a. rewrite ptr_at_set by done. case_decide as E; [subst i' | done].
  destruct (decide (a = Z.to_nat j)) as [-> | Ha].
  - rewrite list_lookup_insert_eq by lia. cbn. congruence.
  - rewrite list_lookup_insert_ne by done. rewrite <- (node_data_ptr s i p) by done. apply H2.
Qed.

(** Writing into an object of the device. *)
Lemma framed_slab_write l off bs i a k s :
  ptr_at (qset (dev s)) i a = Some l ->
  wlp (slab_write l off bs) (fun _ k' s' => framed k s k' s') k s.
Proof.
  intros Hl. unfold slab_write. wp_steps. destruct (slab s !! l) eqn:E; [| done].
  wp_steps. split; cbn; [| lia | done]. intros l' [H1 H2].
  assert (l <> l') as Hne by (intros ->; by destruct (H2 i a)).
  unfold stranger. cbn. by rewrite lookup_insert_ne.
Qed.

Lemma framed_set_len n k s k' s' : framed k s k' s' -> framed k s k' (set_len n s').
Proof. intros H. by eapply framed_trans; [| apply framed_same]. Qed.

Lemma framed_write_to_quantum l flw ubuf f_pos i a k s :
  ptr_at (qset (dev s)) i a = Some l ->
  wlp (write_to_quantum l flw ubuf f_pos) (fun _ k' s' => framed k s k' s') k s.
Proof.
  intros Hl. unfold write_to_quantum. wp_steps;
    (eapply wp_mono; [by eapply framed_slab_write |]; cbv beta; intros _ k' s' Hf; wp_steps);
    try apply framed_set_len; eapply framed_trans; eauto; by apply framed_refl.
Qed.

(** What a piece of code does and what it leaves alone. *)
Lemma wp_framed {A} (m : M scull_st A) (Q : A -> kern -> scull_st -> Prop) k s :
  wp m Q k s -> wlp m (fun _ k' s' => framed k s k' s') k s ->
  wp m (fun x k' s' => Q x k' s' /\ framed k s k' s') k s.
Proof. unfold wpc. destruct (m k s) as [[[a k'] s'] | o]; auto. Qed.

Lemma framed_write_locked ubuf f_pos k s :
  held k = true -> dev_wf s -> 0 <= f_pos -> f_pos + zlen ubuf < 2 ^ 63 ->
  wlp (scull_write_locked ubuf f_pos) (fun _ k' s' => framed k s k' s') k s.
Proof.
  intros Hh W Hf Hfu. pose proof (wf_quantum s W). pose proof (wf_qset s W).
  destruct (locate_located (dev s) f_pos) as (_ & Hsp & _); [lia.. |].
  unfold scull_write_locked. wp_step.
  eapply wp_mono; [apply wp_wlp, wp_follow; auto; lia |].
  intros [q flw] k1 s1 (_ & Hflw & m & Hg & Hk & Hq). cbn [fst snd] in *. subst flw.
  pose proof (framed_grown m k s k1 s1 Hg Hk) as F1.
  pose proof (grown_wf m s s1 Hg W) as W1. pose proof (grown_same_dims m s s1 Hg) as D1.
  destruct q as [i |]; wp_step; [| done]. destruct Hq as [-> Hi].
  eapply wp_mono; [apply wp_wlp, wp_conj; [by apply wp_get_data | by apply framed_get_data] |].
  intros p k2 s2 ((_ & W2 & D2 & _ & _ & Hp) & F2).
  pose proof (framed_trans _ _ _ _ _ _ F1 F2) as F12.
  destruct p as [p |]; wp_step; [| done]. destruct Hp as [Hp Hpl].
  assert (qset_len (dev s1) = qset_len (dev s)) as E1 by apply (proj1 D1).
  assert (qset_len (dev s2) = qset_len (dev s1)) as E2 by apply (proj1 D2).
  pose proof (wf_quantum s2 W2). pose proof (wf_fits s2 W2).
  eapply wp_mono; [apply wp_wlp, wp_conj;
    [apply wp_get_quantum; auto; lia | apply framed_get_quantum; [done | lia | lia]] |].
  intros l k3 s3 ((_ & _ & _ & _ & Hl) & F3).
  pose proof (framed_trans _ _ _ _ _ _ F12 F3) as F123.
  destruct l as [l |]; [| by wp_step].
  eapply wp_mono; [by eapply framed_write_to_quantum |].
  cbv beta. intros _ k4 s4 F4. by eapply framed_trans.
Qed.

(** ** The entry points *)

Lemma framed_read count f_pos k s :
  held k = false -> dev_wf s -> 0 <= f_pos -> 0 <= count -> f_pos + count < 2 ^ 63 ->
  wp (scull_read count f_pos) (fun _ k' s' => framed k s k' s') k s.
Proof.
  intros Hh W Hf Hc Hfc. unfold scull_read. wp_steps; try done; try by apply framed_refl.
  eapply wp_mono; [by apply scull_read_locked_spec |].
  intros x k' s' (Hh' & W' & (m & Hg & Hk) & _). wp_step. apply wp_meminfo; [done |]. intros _.
  wp_steps. by apply (framed_grown m).
Qed.

Lemma framed_write ubuf f_pos k s :
  held k = false -> dev_wf s -> 0 <= f_pos -> f_pos + zlen ubuf < 2 ^ 63 ->
  wp (scull_write ubuf f_pos) (fun _ k' s' => framed k s k' s') k s.
Proof.
  intros Hh W Hf Hfu. unfold scull_write. wp_steps; try done; try by apply framed_refl.
  eapply wp_mono; [apply wp_framed; [by apply scull_write_locked_spec |] |].
  - by apply framed_write_locked.
  - intros x k' s' [(Hh' & W' & _) F]. wp_step. apply wp_meminfo; [done |]. intros _.
    wp_steps. destruct F as [F1 F2 F3]. by split.
Qed.

Lemma framed_open filp k s :
  held k = false -> dev_wf s -> wp (scull_open filp) (fun _ k' s' => framed k s k' s') k s.
Proof.
  intros Hh W. unfold scull_open. wp_steps; try done; try by apply framed_refl.
  eapply wp_mono; [apply wp_conj; [by apply wp_trim | by apply framed_trim] |].
  intros _ k' s' [(-> & _) [F1 F2 F3]]. wp_steps. by split.
Qed.

(** The calls whose arguments the kernel lets through. *)
Lemma framed_call c k s :
  held k = false -> dev_safe s -> dcall_ok c ->
  wp (dcall_run c) (fun _ k' s' => framed k s k' s') k s.
Proof.
  intros Hh HS Hc. destruct (HS) as (W & P & D).
  destruct c as [filp | count p | ubuf p | cap cmd arg cell | i]; cbn [dcall_run dcall_ok] in *.
  - by apply framed_open.
  - wp_step. eapply wp_mono; [by apply framed_read; try lia |].
    cbv beta. intros x k' s' F. by wp_step.
  - wp_step. eapply wp_mono; [by apply framed_write; try lia |].
    cbv beta. intros x k' s' F. by wp_step.
  - subst cap. pose proof (wp_unprivileged cmd arg k (IoSt (par s) cell)) as H.
    unfold wpc, dev_ioctl in *.
    destruct (scull_ioctl false cmd arg k (IoSt (par s) cell)) as [[[r k'] io] | o]; [| done].
    destruct H as (_ & Hk & _). by apply framed_same.
  - wp_step. eapply wp_mono; [apply wp_seq_show; [done | done | unfold SCULL_QUANTUM in *; lia] |].
    intros x k' s' (_ & Hk & -> & _). wp_step. by apply framed_refl.
Qed.
