(* ===== verification/ScullModule.v ===== *)
(** * Loading and unloading scull (src/scull/main.c, pipe.c)

    What the module acquires when it is loaded, in the order of the code, and
    gives back when it is unloaded or when loading fails: device numbers, the
    arrays of devices and pipes, the slab cache, the character devices and the
    proc entry.  The contents of the devices are those of Scull.v; they share
    the cache. *)

From S2P Require Import Prelude Kernel ScullParams Scull Pipe.

(** ** Data *)

(** A [struct cdev]: zeroed memory, initialised, or added to the system. *)
Inductive cdev := CdevZero | CdevInit | CdevAdded.

#[export] Instance cdev_eq_dec : EqDecision cdev.
Proof. solve_decision. Defined.

(** Complaints of the kernel that are no oopses: [cdev_del] on a [kobject] that
    was never initialised, [remove_proc_entry] without an entry, and
    [kmem_cache_destroy] with objects in use, which then stay allocated. *)
Inductive warning := WarnKobject | WarnProc | WarnCacheBusy.

#[export] Instance warning_eq_dec : EqDecision warning.
Proof. solve_decision. Defined.

(** The globals.  [None] is a NULL pointer, or one that is not used any more
    once its memory is freed; [cache] is the cache [kmc]: the size of its
    objects and the objects in use; [regions] are the ranges of device numbers
    that are held. *)
Record mod_st := ModSt {
  scull_major : Z;
  scull_minor : Z;
  scull_nr_devs : nat;
  scull_p_nr_devs : nat;
  mpar : params;
  scull_devices : option (list (cdev * scull_dev));
  cache : option (Z * gmap loc (list Byte.byte));
  regions : list (Z * nat);
  scull_p_dev : Z;
  scull_p_devices : option (list (cdev * scull_pipe));
  proc_entry : bool;
  warnings : list warning
}.

Definition set_major (z : Z) (s : mod_st) : mod_st :=
  ModSt z (scull_minor s) (scull_nr_devs s) (scull_p_nr_devs s) (mpar s) (scull_devices s)
    (cache s) (regions s) (scull_p_dev s) (scull_p_devices s) (proc_entry s) (warnings s).
Definition set_devices (d : option (list (cdev * scull_dev))) (s : mod_st) : mod_st :=
  ModSt (scull_major s) (scull_minor s) (scull_nr_devs s) (scull_p_nr_devs s) (mpar s) d
    (cache s) (regions s) (scull_p_dev s) (scull_p_devices s) (proc_entry s) (warnings s).
Definition set_cache (c : option (Z * gmap loc (list Byte.byte))) (s : mod_st) : mod_st :=
  ModSt (scull_major s) (scull_minor s) (scull_nr_devs s) (scull_p_nr_devs s) (mpar s)
    (scull_devices s) c (regions s) (scull_p_dev s) (scull_p_devices s) (proc_entry s)
    (warnings s).
Definition set_regions (r : list (Z * nat)) (s : mod_st) : mod_st :=
  ModSt (scull_major s) (scull_minor s) (scull_nr_devs s) (scull_p_nr_devs s) (mpar s)
    (scull_devices s) (cache s) r (scull_p_dev s) (scull_p_devices s) (proc_entry s)
    (warnings s).
Definition set_p (z : Z) (p : option (list (cdev * scull_pipe))) (s : mod_st) : mod_st :=
  ModSt (scull_major s) (scull_minor s) (scull_nr_devs s) (scull_p_nr_devs s) (mpar s)
    (scull_devices s) (cache s) (regions s) z p (proc_entry s) (warnings s).
Definition set_proc (b : bool) (w : list warning) (s : mod_st) : mod_st :=
  ModSt (scull_major s) (scull_minor s) (scull_nr_devs s) (scull_p_nr_devs s) (mpar s)
    (scull_devices s) (cache s) (regions s) (scull_p_dev s) (scull_p_devices s) b w.

Definition warn (w : warning) : M mod_st unit :=
  modify (fun s => set_proc (proc_entry s) (warnings s ++ [w]) s).

(** ** Kernel services *)

(** linux/kdev_t.h: a device number has twenty bits of minor. *)
Definition MKDEV (major minor : Z) : Z := wrap32 (Z.lor (Z.shiftl major 20) minor).
Definition MAJOR (dev : Z) : Z := Z.shiftr dev 20.

(** 0, or a negative error. *)
Definition status : M mod_st Z :=
  a ← ask; mret (if a =? 0 then 0 else - Z.max 1 (Z.abs a)).

Definition register_chrdev_region (dev : Z) (count : nat) : M mod_st Z :=
  ret ← status;
  (if ret =? 0 then modify (fun s => set_regions ((dev, count) :: regions s) s) else mret tt);;
  mret ret.

(** The range starts at [minor] of a major number that the kernel chose; after a
    failure [dev] is not initialised. *)
Definition alloc_chrdev_region (minor : Z) (count : nat) : M mod_st (Z * Z) :=
  a ← ask;
  stale ← ask;
  let dev := MKDEV (a mod 4096) minor in
  ret ← register_chrdev_region dev count;
  mret (ret, if ret =? 0 then dev else wrap32 stale).

Definition unregister_chrdev_region (dev : Z) (count : nat) : M mod_st unit :=
  modify (fun s => set_regions (filter (fun r => r <> (dev, count)) (regions s)) s).

Definition kmem_cache_create (size : Z) : M mod_st bool :=
  a ← ask;
  if a =? 0 then modify (set_cache (Some (size, ∅)));; mret true else mret false.

Definition kmem_cache_destroy : M mod_st unit :=
  s ← gets (fun s => s);
  (match cache s with
   | Some (_, m) => if bool_decide (m = ∅) then mret tt else warn WarnCacheBusy
   | None => mret tt
   end);;
  modify (set_cache None).

(** The new state of a [cdev], and whether [cdev_del] complained. *)
Definition cdev_add (c : cdev) : M mod_st cdev :=
  a ← ask; mret (if a =? 0 then CdevAdded else c).

Definition cdev_del (c : cdev) : M mod_st unit :=
  if bool_decide (c = CdevZero) then warn WarnKobject else mret tt.

(** [proc_create] can fail; nobody looks. *)
Definition scull_create_proc : M mod_st unit :=
  a ← ask; modify (fun s => set_proc (a =? 0) (warnings s) s).

Definition scull_remove_proc : M mod_st unit :=
  s ← gets (fun s => s);
  (if proc_entry s then mret tt else warn WarnProc);;
  modify (fun s => set_proc false (warnings s) s).

(** ** Devices *)

(** The fields of entry [i] of the array. *)
Definition get_dev (i : nat) : M mod_st (cdev * scull_dev) := fun k s =>
  match scull_devices s with
  | None => Crash NullDeref
  | Some ds =>
      match ds !! i with
      | None => Crash OobRead
      | Some d => Done (d, k, s)
      end
  end.

Definition put_dev (i : nat) (d : cdev * scull_dev) : M mod_st unit :=
  modify (fun s => set_devices ((fun ds => <[i := d]> ds) <$> scull_devices s) s).

(** An operation on the contents [d] of device [i], in the shared cache. *)
Definition run_in {A} (i : nat) (c : cdev) (d : scull_dev) (m : M scull_st A) : M mod_st A :=
  fun k s =>
    let '(size, mem) := default (0, ∅) (cache s) in
    match m k (St (mpar s) size mem d) with
    | Done (a, k', s') =>
        Done (a, k', set_cache ((fun _ => (size, slab s')) <$> cache s)
          (set_devices ((fun ds => <[i := (c, dev s')]> ds) <$> scull_devices s) s))
    | Crash o => Crash o
    end.

Definition on_dev {A} (i : nat) (m : M scull_st A) : M mod_st A :=
  '(c, d) ← get_dev i; run_in i c d m.

Definition scull_setup_cdev (i : nat) : M mod_st unit :=
  '(c, d) ← get_dev i;
  c ← cdev_add CdevInit;
  put_dev i (c, d).

(** ** Pipes *)

Definition get_pipe (i : nat) : M mod_st (cdev * scull_pipe) := fun k s =>
  match scull_p_devices s with
  | None => Crash NullDeref
  | Some ps =>
      match ps !! i with
      | None => Crash OobRead
      | Some p => Done (p, k, s)
      end
  end.

Definition put_pipe (i : nat) (p : cdev * scull_pipe) : M mod_st unit :=
  modify (fun s => set_p (scull_p_dev s) ((fun ps => <[i := p]> ps) <$> scull_p_devices s) s).

Definition scull_p_setup_cdev (i : nat) : M mod_st unit :=
  '(c, p) ← get_pipe i;
  c ← cdev_add CdevInit;
  put_pipe i (c, p).

(** The loop of [scull_p_init], [n] pipes from number [i] on. *)
Fixpoint p_init_loop (n i : nat) : M mod_st unit :=
  match n with
  | O => mret tt
  | S n =>
      '(c, _) ← get_pipe i;
      put_pipe i (c, new_pipe (Z.of_nat i));;
      scull_p_setup_cdev i;;
      p_init_loop n (S i)
  end.

(** How many device numbers the pipes took. *)
Definition scull_p_init (firstdev : Z) : M mod_st Z :=
  s ← gets (fun s => s);
  ret ← register_chrdev_region firstdev (scull_p_nr_devs s);
  if ret <? 0 then mret 0
  else
    modify (fun s => set_p firstdev (scull_p_devices s) s);;
    ok ← kmalloc;
    if negb ok then
      modify (fun s => set_p (scull_p_dev s) None s);;
      unregister_chrdev_region firstdev (scull_p_nr_devs s);;
      mret 0
    else
      modify (fun s => set_p (scull_p_dev s)
        (Some (replicate (scull_p_nr_devs s) (CdevZero, new_pipe 0))) s);;
      p_init_loop (scull_p_nr_devs s) 0;;
      mret (Z.of_nat (scull_p_nr_devs s)).

Fixpoint p_cleanup_loop (n i : nat) : M mod_st unit :=
  match n with
  | O => mret tt
  | S n =>
      '(c, p) ← get_pipe i;
      cdev_del c;;
      match buf p with None => mret tt | Some _ => kfree end;;
      p_cleanup_loop n (S i)
  end.

Definition scull_p_cleanup : M mod_st unit :=
  s ← gets (fun s => s);
  match scull_p_devices s with
  | None => mret tt
  | Some _ =>
      p_cleanup_loop (scull_p_nr_devs s) 0;;
      kfree;;
      unregister_chrdev_region (scull_p_dev s) (scull_p_nr_devs s);;
      modify (fun s => set_p (scull_p_dev s) None s)
  end.

(** ** The module *)

Fixpoint cleanup_loop (n i : nat) : M mod_st unit :=
  match n with
  | O => mret tt
  | S n =>
      __mutex_lock_sparse;;
      on_dev i __scull_trim;;
      __mutex_unlock_sparse;;
      '(c, _) ← get_dev i;
      cdev_del c;;
      cleanup_loop n (S i)
  end.

Definition scull_cleanup_module : M mod_st unit :=
  s ← gets (fun s => s);
  let devno := MKDEV (scull_major s) (scull_minor s) in
  (match scull_devices s with
   | None => mret tt
   | Some _ =>
       cleanup_loop (scull_nr_devs s) 0;;
       kfree;;
       modify (set_devices None);;
       s ← gets (fun s => s);
       match cache s with None => mret tt | Some _ => kmem_cache_destroy end
   end);;
  scull_remove_proc;;
  unregister_chrdev_region devno (scull_nr_devs s);;
  scull_p_cleanup.

Fixpoint init_loop (n i : nat) : M mod_st unit :=
  match n with
  | O => mret tt
  | S n =>
      '(c, d) ← get_dev i;
      s ← gets (fun s => s);
      put_dev i (c, Dev (qset d) (scull_quantum (mpar s)) (scull_qset (mpar s)) (len d));;
      scull_setup_cdev i;;
      init_loop n (S i)
  end.

(** The label [fail]. *)
Definition init_fail (ret : Z) : M mod_st Z := scull_cleanup_module;; mret ret.

(** Lines 289-296. *)
Definition init_numbers : M mod_st Z :=
  s ← gets (fun s => s);
  if negb (scull_major s =? 0) then
    register_chrdev_region (MKDEV (scull_major s) (scull_minor s)) (scull_nr_devs s)
  else
    '(ret, dev) ← alloc_chrdev_region (scull_minor s) (scull_nr_devs s);
    modify (set_major (MAJOR dev));;
    mret ret.

Definition scull_init_module : M mod_st Z :=
  ret ← init_numbers;
  if ret <? 0 then mret ret
  else
    s ← gets (fun s => s);
    ok ← kmalloc;
    modify (set_devices (if (ok : bool) then
      Some (replicate (scull_nr_devs s) (CdevZero, Dev [] 0 0 0)) else None));;
    if negb ok then init_fail (- ENOMEM)
    else
      ok ← kmem_cache_create (scull_quantum (mpar s));
      if negb ok then init_fail (- ENOMEM)
      else
        init_loop (scull_nr_devs s) 0;;
        s ← gets (fun s => s);
        scull_p_init (MKDEV (scull_major s)
          (wrap64 (scull_minor s + Z.of_nat (scull_nr_devs s))));;
        scull_create_proc;;
        mret 0.

(** The module before it is loaded. *)
Definition unloaded (major minor : Z) (nr p_nr : nat) (p : params) : mod_st :=
  ModSt major minor nr p_nr p None None [] 0 None false [].
