(* ===== verification/ScullLoad.v ===== *)
(** * Loading and unloading scull: what is held and given back

    The devices share one slab cache, so emptying one of them must leave the
    quanta of the others alone: [devices_ok] says that no quantum belongs to
    two devices, and [devices_ok_minus] is the frame of one device. *)

From S2P Require Import Prelude Kernel ScullParams Scull ScullInv ScullFile Pipe ScullModule.

Implicit Types (k : kern) (d : scull_dev) (ds : list (cdev * scull_dev))
  (ps : list (cdev * scull_pipe)) (mem : gmap loc (list Byte.byte)).

(** ** Devices in a shared cache *)

(** A device is empty or well formed. *)
Definition device_ok (par : params) (size : Z) mem d : Prop :=
  qset d = [] \/ dev_wf (St par size mem d).

(** The quantum at [l] belongs to no device of [ds]. *)
Definition foreign (l : loc) ds : Prop :=
  Forall (fun x => forall a b, ptr_at (qset (snd x)) a b <> Some l) ds.

Fixpoint devices_ok (par : params) (size : Z) mem ds : Prop :=
  match ds with
  | [] => True
  | x :: ds =>
      device_ok par size mem (snd x) /\
      (forall l a b, ptr_at (qset (snd x)) a b = Some l -> foreign l ds) /\
      devices_ok par size mem ds
  end.

(** What [__scull_trim] frees of a device, and the memory that [kfree] gets
    back. *)
Definition trimmed d : list loc := list_ptrs (Z.to_nat (qset_len d - 1)) (qset d).
Definition all_trimmed ds : list loc := ds ≫= (fun x => trimmed (snd x)).
Definition all_owned ds : Z := foldr (fun x n => owned_objs (qset (snd x)) + n) 0 ds.

(** The complaints about devices that were never set up. *)
Definition zero_warning (c : cdev) : list warning :=
  if bool_decide (c = CdevZero) then [WarnKobject] else [].

Definition zero_warnings {A} (xs : list (cdev * A)) : list warning :=
  xs ≫= (fun x => zero_warning (fst x)).

(** The device as [__scull_trim] leaves it. *)
Definition emptied (par : params) (x : cdev * scull_dev) : cdev * scull_dev :=
  (fst x, Dev [] (scull_quantum par) (scull_qset par) 0).

Lemma device_ok_minus par size ls mem mem' d :
  device_ok par size mem d -> slab_minus ls mem mem' ->
  (forall l a b, ptr_at (qset d) a b = Some l -> l ∉ ls) -> device_ok par size mem' d.
Proof.
  intros [He | [W1 W2 W3 W4 W5 W6 W7 W8 W9]] Hm Hf; [by left | right].
  split; cbn in *; try done. intros i a l Ha. rewrite (Hm l). rewrite decide_False by eauto.
  eauto.
Qed.

Lemma devices_ok_minus par size ls mem mem' ds :
  devices_ok par size mem ds -> slab_minus ls mem mem' ->
  (forall l, l ∈ ls -> foreign l ds) -> devices_ok par size mem' ds.
Proof.
  intros H Hm. induction ds as [| [c d] ds IH]; intros Hf; [done |].
  destruct H as (H1 & H2 & H3). split_and!.
  - eapply device_ok_minus; [done | done |]. intros l a b Ha Hl.
    apply Hf, Forall_inv in Hl. by apply (Hl a b).
  - done.
  - apply IH; [done |]. intros l Hl. by apply Hf, Forall_inv_tail in Hl.
Qed.

(** Emptying a device that may be empty. *)
Lemma wp_trim_any par size mem d k :
  held k = true -> device_ok par size mem d ->
  wp __scull_trim (fun _ k' s' =>
    k' = Kern (ans k) true (kobjs k - owned_objs (qset d)) (lockdep k) /\
    exists mem', slab_minus (trimmed d) mem mem' /\
      s' = St par size mem' (Dev [] (scull_quantum par) (scull_qset par) 0))
    k (St par size mem d).
Proof.
  intros Hh [He | W].
  - destruct d as [qs ql sl n]. cbn in He. subst qs. unfold __scull_trim. wp_steps.
    cbn [trim_qsets dev qset]. wp_steps. split.
    + rewrite <- Hh. destruct k. cbn. f_equal. unfold owned_objs. cbn. lia.
    + exists mem. split; [apply slab_minus_nil | done].
  - eapply wp_mono; [by apply wp_trim |]. intros _ k' s' (-> & m & -> & Hm).
    split; [done |]. by exists m.
Qed.

(** ** Unloading the devices *)

Lemma wp_get_dev {c : Prop} (Q : cdev * scull_dev -> kern -> mod_st -> Prop) k s ds x ds' :
  scull_devices s = Some (ds ++ x :: ds') -> Q x k s -> wpc c (get_dev (length ds)) Q k s.
Proof. intros E. unfold wpc, get_dev. by rewrite E, list_lookup_middle. Qed.

Lemma wp_on_dev {A} {c : Prop} (m : M scull_st A) (Q : A -> kern -> mod_st -> Prop) k s ds x ds'
    size mem :
  scull_devices s = Some (ds ++ x :: ds') -> default (0, ∅) (cache s) = (size, mem) ->
  wpc c m (fun a k' s' => Q a k'
    (set_cache ((fun _ => (size, slab s')) <$> cache s)
       (set_devices (Some (ds ++ (fst x, dev s') :: ds')) s))) k (St (mpar s) size mem (snd x)) ->
  wpc c (on_dev (length ds) m) Q k s.
Proof.
  intros E Ec H. destruct x as [cd d]. unfold on_dev. apply wp_bind.
  eapply wp_get_dev; [done |]. unfold wpc, run_in in *. rewrite Ec, E. cbn in H.
  destruct (m k _) as [[[a k'] s'] | o]; [| done].
  cbn [fmap option_fmap option_map]. rewrite insert_app_r_alt by lia.
  rewrite Nat.sub_diag. done.
Qed.

Lemma wp_cdev_del {P : Prop} c (Q : unit -> kern -> mod_st -> Prop) k s :
  Q tt k (set_proc (proc_entry s) (warnings s ++ zero_warning c) s) ->
  wpc P (cdev_del c) Q k s.
Proof.
  unfold cdev_del, zero_warning, warn. intros H. case_bool_decide; wp_step; [done |].
  rewrite app_nil_r in H. by destruct s.
Qed.

(** The state after the loop over the devices. *)
Definition cleaned mem ds ds' s : mod_st :=
  set_proc (proc_entry s) (warnings s ++ zero_warnings ds')
    (set_cache ((fun c => (fst c, mem)) <$> cache s)
      (set_devices (Some (ds ++ map (emptied (mpar s)) ds')) s)).

Lemma wp_cleanup_loop ds' ds k s size mem :
  held k = false -> scull_devices s = Some (ds ++ ds') ->
  default (0, ∅) (cache s) = (size, mem) -> devices_ok (mpar s) size mem ds' ->
  wp (cleanup_loop (length ds') (length ds)) (fun _ k' s' =>
    k' = Kern (ans k) false (kobjs k - all_owned ds') (lockdep k) /\
    exists mem', slab_minus (all_trimmed ds') mem mem' /\ s' = cleaned mem' ds ds' s) k s.
Proof.
  revert ds k s mem. induction ds' as [| x ds' IH]; intros ds k s mem Hh Hd Hc Hok.
  - cbn [length cleanup_loop]. wp_step. split; [destruct k; cbn in *; f_equal; [done | lia] |].
    exists mem. split; [apply slab_minus_nil |].
    destruct s as [a b n p par dv ca r z pd pe w]. unfold cleaned. cbn in *. subst dv.
    rewrite !app_nil_r. destruct ca as [[? ?] |]; cbn in *; by simplify_eq.
  - destruct Hok as (H1 & H2 & H3). cbn [length cleanup_loop]. wp_steps.
    eapply wp_on_dev; [done | done |]. eapply wp_mono; [by apply wp_trim_any |].
    intros _ k' s' (-> & mem1 & Hm1 & ->). cbn [slab dev]. wp_steps.
    eapply wp_get_dev; [done |]. destruct x as [c d]. cbn [fst snd] in *. cbv beta iota.
    wp_step. apply wp_cdev_del.
    replace (S (length ds)) with (length (ds ++ [emptied (mpar s) (c, d)]))
      by (rewrite length_app; simpl; lia).
    eapply wp_mono; [apply (IH _ _ _ mem1) |].
    + done.
    + cbn. by rewrite <- app_assoc.
    + cbn. destruct (cache s) as [[? ?] |]; cbn in *; simplify_eq; [done |].
      f_equal. apply map_eq. intros l. rewrite (Hm1 l), lookup_empty. by case_decide.
    + cbn. eapply devices_ok_minus; [done | done |].
      intros l (a & b & _ & Hl)%elem_of_list_ptrs. by eapply H2.
    + intros _ k' s' (-> & mem2 & Hm2 & ->). cbn. split; [unfold all_owned; cbn; f_equal; lia |].
      exists mem2. split; [by eapply slab_minus_app |].
      unfold cleaned. destruct s as [? ? ? ? ? ? ca ? ? ? ? ?]. cbn.
      unfold zero_warnings. cbn. rewrite <- !app_assoc. cbn.
      destruct ca as [[? ?] |]; cbn in Hc; by simplify_eq.
Qed.

Lemma foreign_elem l ds x a b : foreign l ds -> x ∈ ds -> ptr_at (qset (snd x)) a b <> Some l.
Proof. intros H Hx. exact (proj1 (list.Forall_forall _ _) H x Hx a b). Qed.

(** The quanta in the last cell of an array stay allocated. *)
Lemma last_cell_not_trimmed par size mem ds x i l :
  devices_ok par size mem ds -> x ∈ ds ->
  ptr_at (qset (snd x)) i (Z.to_nat (qset_len (snd x) - 1)) = Some l ->
  (l ∉ all_trimmed ds) /\ is_Some (mem !! l).
Proof.
  induction ds as [| y ds IH]; intros Hok Hx Hl; [by apply not_elem_of_nil in Hx |].
  destruct Hok as (H1 & H2 & H3). unfold all_trimmed. cbn. rewrite elem_of_app.
  apply elem_of_cons in Hx as [-> | Hx].
  - destruct H1 as [E | W]; [by rewrite E in Hl |]. split.
    + intros [(j & b & Hb & Hlj)%elem_of_list_ptrs | Hin].
      * destruct (wf_inj _ W _ _ _ _ _ Hl Hlj) as [_ ?]. lia.
      * apply list_elem_of_bind in Hin as (z & Hz & Hin).
        apply elem_of_list_ptrs in Hz as (j & b & _ & Hlj).
        by apply (foreign_elem l ds z j b (H2 l _ _ Hl) Hin).
    + destruct (wf_live _ W _ _ _ Hl) as (blk & E & _). by exists blk.
  - destruct (IH H3 Hx Hl) as [Hn Hs]. split; [| done]. intros [Hin | Hin]; [| done].
    apply elem_of_list_ptrs in Hin as (j & b & _ & Hlj).
    by apply (foreign_elem l ds x _ _ (H2 l _ _ Hlj) Hx Hl).
Qed.

(** ** Unloading the pipes *)

Definition bufs ps : Z :=
  foldr (fun x n => (match buf (snd x) with Some _ => 1 | None => 0 end) + n) 0 ps.

Lemma wp_get_pipe {c : Prop} (Q : cdev * scull_pipe -> kern -> mod_st -> Prop) k s ps x ps' :
  scull_p_devices s = Some (ps ++ x :: ps') -> Q x k s -> wpc c (get_pipe (length ps)) Q k s.
Proof. intros E. unfold wpc, get_pipe. by rewrite E, list_lookup_middle. Qed.

Lemma wp_p_cleanup_loop {P : Prop} ps' ps k s (Q : unit -> kern -> mod_st -> Prop) :
  scull_p_devices s = Some (ps ++ ps') ->
  Q tt (Kern (ans k) (held k) (kobjs k - bufs ps') (lockdep k))
    (set_proc (proc_entry s) (warnings s ++ zero_warnings ps') s) ->
  wpc P (p_cleanup_loop (length ps') (length ps)) Q k s.
Proof.
  revert ps k s. induction ps' as [| x ps' IH]; intros ps k s Hp HQ.
  - cbn [length p_cleanup_loop]. wp_step. unfold zero_warnings in HQ. cbn in HQ.
    rewrite app_nil_r, Z.sub_0_r in HQ. by destruct k, s.
  - cbn [length p_cleanup_loop]. wp_step. eapply wp_get_pipe; [done |].
    destruct x as [c p]. wp_step. apply wp_cdev_del. cbv beta.
    assert (forall k1, k1 = Kern (ans k) (held k)
        (kobjs k - match buf p with Some _ => 1 | None => 0 end) (lockdep k) ->
      wpc P (p_cleanup_loop (length ps') (S (length ps))) Q k1
        (set_proc (proc_entry s) (warnings s ++ zero_warning c) s)) as Hrest.
    { intros k1 ->. replace (S (length ps)) with (length (ps ++ [(c, p)]))
        by (rewrite length_app; simpl; lia).
      apply IH; [cbn; by rewrite <- app_assoc |]. cbn. rewrite <- app_assoc.
      unfold bufs, zero_warnings in *. cbn in HQ. rewrite <- Z.sub_add_distr. done. }
    wp_step. destruct (buf p); wp_steps; apply Hrest; destruct k; cbn; f_equal; lia.
Qed.

(** ** The module *)

(** Nothing is held. *)
Definition nothing_held s : Prop :=
  scull_devices s = None /\ cache s = None /\ regions s = [] /\ scull_p_devices s = None /\
  proc_entry s = false.

Definition pipe_objs s : Z :=
  match scull_p_devices s with None => 0 | Some ps => bufs ps + 1 end.

(** The numbers the module has: its own, and those of the pipes. *)
Definition own_region s : Z * nat := (MKDEV (scull_major s) (scull_minor s), scull_nr_devs s).
Definition regions_ok s : Prop :=
  regions s = (match scull_p_devices s with
               | None => [] | Some _ => [(scull_p_dev s, scull_p_nr_devs s)] end) ++ [own_region s].

Definition cleanup_result (mem : gmap loc (list Byte.byte)) ds s : mod_st :=
  ModSt (scull_major s) (scull_minor s) (scull_nr_devs s) (scull_p_nr_devs s) (mpar s) None None []
    (scull_p_dev s) None false
    (warnings s ++ zero_warnings ds
     ++ (if bool_decide (mem = ∅) then [] else [WarnCacheBusy])
     ++ (if proc_entry s then [] else [WarnProc])
     ++ zero_warnings (default [] (scull_p_devices s))).

Lemma wp_remove_proc {P : Prop} k s (Q : unit -> kern -> mod_st -> Prop) :
  Q tt k (set_proc false (warnings s ++ (if proc_entry s then [] else [WarnProc])) s) ->
  wpc P scull_remove_proc Q k s.
Proof.
  unfold scull_remove_proc, warn. intros H. do 3 wp_step.
  destruct (proc_entry s); do 2 wp_step; [rewrite app_nil_r in H |]; by destruct s.
Qed.

Lemma wp_p_cleanup {P : Prop} k s (Q : unit -> kern -> mod_st -> Prop) :
  filter (fun r => r <> (scull_p_dev s, scull_p_nr_devs s)) (regions s) = [] ->
  (forall ps, scull_p_devices s = Some ps -> length ps = scull_p_nr_devs s) ->
  (scull_p_devices s = None -> regions s = []) ->
  Q tt (Kern (ans k) (held k) (kobjs k - pipe_objs s) (lockdep k))
    (set_regions [] (set_p (scull_p_dev s) None
      (set_proc (proc_entry s) (warnings s ++ zero_warnings (default [] (scull_p_devices s))) s))) ->
  wpc P scull_p_cleanup Q k s.
Proof.
  intros Hr Hl Hn HQ. unfold scull_p_cleanup, unregister_chrdev_region, pipe_objs in *.
  do 2 wp_step. destruct (scull_p_devices s) as [ps |] eqn:Ep.
  - specialize (Hl ps eq_refl). wp_step. rewrite <- Hl.
    apply (wp_p_cleanup_loop ps []); [done |]. wp_steps. cbn in HQ |- *.
    rewrite Hl, Hr. cbn [default] in HQ.
    replace (kobjs k - bufs ps + -1) with (kobjs k - (bufs ps + 1)) by lia. exact HQ.
  - wp_step. specialize (Hn eq_refl). rewrite Z.sub_0_r in HQ. cbn in HQ.
    destruct k, s. cbn in *. subst. by rewrite app_nil_r in HQ.
Qed.

Lemma wp_cleanup_tail {P : Prop} k s (Q : unit -> kern -> mod_st -> Prop) s0 ds mem :
  s = set_proc (proc_entry s0) (warnings s0 ++ zero_warnings ds
        ++ (if bool_decide (mem = ∅) then [] else [WarnCacheBusy]))
        (set_cache None (set_devices None s0)) ->
  (forall ps, scull_p_devices s0 = Some ps -> length ps = scull_p_nr_devs s0) ->
  regions_ok s0 ->
  Q tt (Kern (ans k) (held k) (kobjs k - pipe_objs s0) (lockdep k)) (cleanup_result mem ds s0) ->
  wpc P (scull_remove_proc;;
         unregister_chrdev_region (MKDEV (scull_major s0) (scull_minor s0)) (scull_nr_devs s0);;
         scull_p_cleanup) Q k s.
Proof.
  intros -> Hps Hr HQ. wp_step. apply wp_remove_proc. unfold unregister_chrdev_region.
  do 2 wp_step.
  assert (filter (fun r => r <> own_region s0) (regions s0)
          = filter (fun r => r <> own_region s0) (match scull_p_devices s0 with
               | None => [] | Some _ => [(scull_p_dev s0, scull_p_nr_devs s0)] end)) as Hf.
  { rewrite Hr, list.filter_app, (list.filter_cons_False _ (own_region s0)) by (by intros H).
    by rewrite list.filter_nil, app_nil_r. }
  unfold own_region in Hf. apply wp_p_cleanup; cbn; rewrite ?Hf; [| done | |].
  - destruct (scull_p_devices s0); [| done]. rewrite list.filter_cons. case_decide; [| done].
    rewrite list.filter_cons_False by (by intros H'). done.
  - by intros ->.
  - unfold cleanup_result in HQ. destruct s0. cbn in *. by rewrite <- !app_assoc.
Qed.

Lemma wp_cleanup k s (Q : unit -> kern -> mod_st -> Prop) ds size mem :
  held k = false -> scull_devices s = Some ds -> length ds = scull_nr_devs s ->
  default (0, ∅) (cache s) = (size, mem) -> devices_ok (mpar s) size mem ds ->
  (forall ps, scull_p_devices s = Some ps -> length ps = scull_p_nr_devs s) ->
  regions_ok s ->
  (forall mem', slab_minus (all_trimmed ds) mem mem' ->
     Q tt (Kern (ans k) false (kobjs k - all_owned ds - 1 - pipe_objs s) (lockdep k))
       (cleanup_result mem' ds s)) ->
  wp scull_cleanup_module Q k s.
Proof.
  intros Hh Hd Hl Hc Hok Hps Hr HQ. unfold scull_cleanup_module. do 2 wp_step. rewrite Hd.
  rewrite <- Hl at 1. do 2 wp_step.
  eapply wp_mono; [by apply (wp_cleanup_loop ds [] k s size mem) |].
  intros _ k' s' (-> & mem' & Hm & ->). specialize (HQ mem' Hm).
  assert (cache s = None -> mem' = ∅) as Hnone.
  { intros E. rewrite E in Hc. cbn in Hc. simplify_eq. apply map_eq. intros l.
    rewrite (Hm l), lookup_empty. by case_decide. }
  assert (forall k1 s1,
    k1 = Kern (ans k) false (kobjs k - all_owned ds - 1) (lockdep k) ->
    s1 = set_proc (proc_entry s) (warnings s ++ zero_warnings ds
        ++ (if bool_decide (mem' = ∅) then [] else [WarnCacheBusy]))
        (set_cache None (set_devices None s)) ->
    wp (scull_remove_proc;;
        unregister_chrdev_region (MKDEV (scull_major s) (scull_minor s)) (scull_nr_devs s);;
        scull_p_cleanup) Q k1 s1) as Htail.
  { intros k1 s1 -> ->. eapply (wp_cleanup_tail _ _ _ s ds mem'); [done | done | done |].
    exact HQ. }
  unfold kmem_cache_destroy, warn. destruct s as [ma mi n pn par dv ca rg pd pe pr w].
  cbn in *. subst dv. destruct ca as [[sz m0] |]; cbn.
  - do 6 wp_step. cbn. do 3 wp_step. cbn. case_bool_decide; do 2 wp_step; (apply Htail; [f_equal; lia |]);
      unfold cleaned; cbn; by rewrite ?app_nil_r, <- ?app_assoc.
  - do 6 wp_step. cbn. apply Htail; [f_equal; lia |]. rewrite bool_decide_true by auto.
    unfold cleaned. cbn. by rewrite !app_nil_r.
Qed.

(** ** Loading *)

Lemma wp_mod_status {c : Prop} (Q : Z -> kern -> mod_st -> Prop) k s :
  (forall f, Q 0 (Kern f (held k) (kobjs k) (lockdep k)) s) ->
  (forall f r, r < 0 -> Q r (Kern f (held k) (kobjs k) (lockdep k)) s) ->
  wpc c status Q k s.
Proof.
  intros H0 HF. unfold status. do 3 wp_step. destruct (a =? 0) eqn:E; [apply H0 | apply HF]. lia.
Qed.

Lemma wp_put_dev {P : Prop} (Q : unit -> kern -> mod_st -> Prop) k s ds x y ds' :
  scull_devices s = Some (ds ++ x :: ds') ->
  Q tt k (set_devices (Some (ds ++ y :: ds')) s) -> wpc P (put_dev (length ds) y) Q k s.
Proof.
  intros E H. unfold put_dev. wp_step. rewrite E. cbn [fmap option_fmap option_map].
  by rewrite insert_app_r_alt, Nat.sub_diag by lia.
Qed.

Lemma wp_put_pipe {P : Prop} (Q : unit -> kern -> mod_st -> Prop) k s ps x y ps' :
  scull_p_devices s = Some (ps ++ x :: ps') ->
  Q tt k (set_p (scull_p_dev s) (Some (ps ++ y :: ps')) s) ->
  wpc P (put_pipe (length ps) y) Q k s.
Proof.
  intros E H. unfold put_pipe. wp_step. rewrite E. cbn [fmap option_fmap option_map].
  by rewrite insert_app_r_alt, Nat.sub_diag by lia.
Qed.

(** The character device of an entry that was set up. *)
Definition set_up {A} (x : cdev * A) : Prop := fst x <> CdevZero.

(** A device as the module initialises it. *)
Definition fresh_device (par : params) (x : cdev * scull_dev) : Prop :=
  set_up x /\ snd x = Dev [] (scull_quantum par) (scull_qset par) 0.

Lemma wp_cdev_add {P : Prop} (Q : cdev -> kern -> mod_st -> Prop) k s :
  (forall f c, c <> CdevZero -> Q c (Kern f (held k) (kobjs k) (lockdep k)) s) ->
  wpc P (cdev_add CdevInit) Q k s.
Proof. intros H. unfold cdev_add. do 3 wp_step. apply H. by destruct (a =? 0). Qed.

Lemma wp_init_loop {P : Prop} n ds k s (Q : unit -> kern -> mod_st -> Prop) :
  scull_devices s = Some (ds ++ replicate n (CdevZero, Dev [] 0 0 0)) ->
  (forall f ds', length ds' = n -> Forall (fresh_device (mpar s)) ds' ->
     Q tt (Kern f (held k) (kobjs k) (lockdep k)) (set_devices (Some (ds ++ ds')) s)) ->
  wpc P (init_loop n (length ds)) Q k s.
Proof.
  revert ds k s. induction n as [| n IH]; intros ds k s Hd HQ.
  - cbn [init_loop]. wp_step. destruct k as [f h o l]. specialize (HQ f [] eq_refl).
    cbn in HQ, Hd. rewrite <- Hd in HQ. destruct s. by apply HQ.
  - cbn [init_loop]. cbn [replicate] in Hd. wp_step. eapply wp_get_dev; [done |].
    do 3 wp_step. eapply wp_put_dev; [done |]. unfold scull_setup_cdev. do 2 wp_step.
    eapply wp_get_dev; [done |]. cbv beta iota. wp_step. apply wp_cdev_add. intros f c Hc.
    eapply wp_put_dev; [done |].
    set (x := (c, Dev [] (scull_quantum (mpar s)) (scull_qset (mpar s)) 0)).
    replace (S (length ds)) with (length (ds ++ [x])) by (rewrite length_app; simpl; lia).
    apply IH; [cbn; by rewrite <- app_assoc |]. cbn. intros f2 ds' Hl Hf.
    rewrite <- app_assoc. apply (HQ f2 (x :: ds')); [cbn; lia |]. by constructor.
Qed.

(** The pipes as they are set up, the first of them with number [n]. *)
Definition pipes_new (n : nat) ps : Prop :=
  forall j x, ps !! j = Some x -> snd x = new_pipe (Z.of_nat (n + j)).

Lemma pipes_new_bufs n ps : pipes_new n ps -> bufs ps = 0.
Proof.
  revert n. induction ps as [| x ps IH]; intros n H; [done |].
  unfold bufs in *. cbn [foldr]. rewrite (H 0%nat x eq_refl), (IH (n + 1)%nat); [done |].
  intros j y Hy. rewrite (H (1 + j)%nat y Hy). f_equal. lia.
Qed.

Lemma wp_p_init_loop {P : Prop} n ps k s (Q : unit -> kern -> mod_st -> Prop) :
  scull_p_devices s = Some (ps ++ replicate n (CdevZero, new_pipe 0)) ->
  (forall f ps', length ps' = n -> Forall set_up ps' -> pipes_new (length ps) ps' ->
     Q tt (Kern f (held k) (kobjs k) (lockdep k)) (set_p (scull_p_dev s) (Some (ps ++ ps')) s)) ->
  wpc P (p_init_loop n (length ps)) Q k s.
Proof.
  revert ps k s. induction n as [| n IH]; intros ps k s Hp HQ.
  - cbn [p_init_loop]. wp_step. destruct k as [f h o l]. specialize (HQ f [] eq_refl).
    cbn in HQ, Hp. rewrite <- Hp in HQ. destruct s. by apply HQ.
  - cbn [p_init_loop]. cbn [replicate] in Hp. wp_step. eapply wp_get_pipe; [done |].
    cbv beta iota. wp_step. eapply wp_put_pipe; [done |]. unfold scull_p_setup_cdev.
    do 2 wp_step. eapply wp_get_pipe; [done |]. cbv beta iota. wp_step.
    apply wp_cdev_add. intros f c Hc. eapply wp_put_pipe; [done |].
    set (x := (c, new_pipe (Z.of_nat (length ps)))).
    replace (S (length ps)) with (length (ps ++ [x])) by (rewrite length_app; simpl; lia).
    apply IH; [cbn; by rewrite <- app_assoc |]. cbn. intros f2 ps' Hl Hf Hb.
    rewrite <- app_assoc. apply (HQ f2 (x :: ps')); [cbn; lia | by constructor |].
    intros [| j] y Hy; [injection Hy as <-; cbn; do 2 f_equal; lia |].
    rewrite (Hb j y Hy), length_app. f_equal. cbn. lia.
Qed.

(** The major number can be read back from a device number. *)
Lemma MAJOR_MKDEV m mi : 0 <= m < 4096 -> 0 <= mi < 2 ^ 20 -> MAJOR (MKDEV m mi) = m.
Proof.
  intros Hm Hi. unfold MAJOR, MKDEV, wrap32. rewrite <- Z.land_ones by lia.
  apply Z.bits_inj'. intros n Hn.
  rewrite Z.shiftr_spec, Z.land_spec, Z.lor_spec, Z.shiftl_spec, Z.testbit_ones_nonneg by lia.
  replace (n + 20 - 20) with n by lia.
  rewrite (proj1 (Z.bounded_iff_bits_nonneg 20 mi ltac:(lia) ltac:(lia)) ltac:(lia)) by lia.
  rewrite orb_false_r. destruct (n + 20 <? 32) eqn:E; [by rewrite andb_true_r |].
  rewrite andb_false_r. symmetry.
  apply (proj1 (Z.bounded_iff_bits_nonneg 12 m ltac:(lia) ltac:(lia))); lia.
Qed.

(** Symbolic steps where a service may fail. *)
Ltac mod_step :=
  cbv beta iota;
  lazymatch goal with
  | |- wpc _ status _ _ _ => apply wp_mod_status; intros
  | |- wpc _ (if ?r =? 0 then _ else _) _ _ _ => destruct (r =? 0) eqn:?; try lia
  | |- wpc _ (if ?r <? 0 then _ else _) _ _ _ => destruct (r <? 0) eqn:?; try lia
  | |- _ => wp_step
  end.

Ltac mod_steps := repeat (mod_step; cbn [held kobjs ans lockdep negb]).

(** The answer of the kernel to the request for device numbers. *)
Definition numbers_at (major : Z) : nat := if major =? 0 then 2 else 0.

Lemma wp_init_numbers {P : Prop} major minor nr p_nr p k (Q : Z -> kern -> mod_st -> Prop) :
  let n := numbers_at major in
  0 <= major < 4096 -> 0 <= minor < 2 ^ 20 ->
  (forall f m, ans k n = 0 -> (forall i, f i = ans k (n + 1 + i)%nat) -> 0 <= m < 4096 ->
     Q 0 (Kern f (held k) (kobjs k) (lockdep k))
       (set_regions [(MKDEV m minor, nr)] (unloaded m minor nr p_nr p))) ->
  (forall f m r, ans k n <> 0 -> r < 0 ->
     Q r (Kern f (held k) (kobjs k) (lockdep k)) (unloaded m minor nr p_nr p)) ->
  wpc P init_numbers Q k (unloaded major minor nr p_nr p).
Proof.
  cbv zeta. intros Hma Hmi H0 HF. unfold numbers_at, init_numbers, alloc_chrdev_region,
    register_chrdev_region, status in *.
  do 2 wp_step. cbn [scull_major unloaded]. destruct (major =? 0) eqn:E; cbn [negb].
  - do 2 wp_step. apply wp_ask_ans. wp_step. apply wp_ask_ans. wp_step. wp_step. wp_step.
    apply wp_ask_ans. cbn [ans held kobjs lockdep] in *. wp_step.
    change (0 + 1 + 1)%nat with 2%nat. destruct (ans k 2 =? 0) eqn:Ea.
    + change (0 =? 0) with true. cbv iota. mod_steps.
      pose proof (Z.mod_pos_bound (ans k 0) 4096 ltac:(lia)). cbn. rewrite MAJOR_MKDEV by done.
      apply H0; [lia | | done]. intros i. f_equal. lia.
    + replace (- Z.max 1 (Z.abs (ans k 2)) =? 0) with false by lia. mod_steps. apply HF; lia.
  - do 2 wp_step. apply wp_ask_ans. cbn [ans held kobjs lockdep] in *. wp_step.
    destruct (ans k 0 =? 0) eqn:Ea.
    + change (0 =? 0) with true. cbv iota. mod_steps. apply H0; [lia | | done].
      intros i. f_equal. lia.
    + replace (- Z.max 1 (Z.abs (ans k 0)) =? 0) with false by lia. mod_steps. apply HF; lia.
Qed.

(** What [scull_p_init] leaves: no pipes, or all of them set up. *)
Lemma wp_p_init {P : Prop} first k s (Q : Z -> kern -> mod_st -> Prop) :
  scull_p_devices s = None ->
  (forall f r rg z, (rg = regions s \/ rg = filter (fun x => x <> (first, scull_p_nr_devs s))
       ((first, scull_p_nr_devs s) :: regions s)) ->
     Q r (Kern f (held k) (kobjs k) (lockdep k)) (set_regions rg (set_p z None s))) ->
  (forall f r ps, length ps = scull_p_nr_devs s -> Forall set_up ps -> pipes_new 0 ps ->
     Q r (Kern f (held k) (kobjs k + 1) (lockdep k))
       (set_regions ((first, scull_p_nr_devs s) :: regions s) (set_p first (Some ps) s))) ->
  wpc P (scull_p_init first) Q k s.
Proof.
  intros Hp HN HS. unfold scull_p_init, register_chrdev_region, unregister_chrdev_region.
  mod_steps.
  - apply (wp_p_init_loop _ []); [done |]. intros f' ps Hl Hf Hb. wp_step. by apply HS.
  - apply (HN _ _ _ first). by right.
  - specialize (HN f 0 (regions s) (scull_p_dev s) (or_introl eq_refl)).
    destruct s. cbn in *. by subst.
Qed.

(** Different minors of one major give different numbers. *)
Lemma MKDEV_minor m mi : 0 <= mi < 2 ^ 20 -> MKDEV m mi mod 2 ^ 20 = mi.
Proof.
  intros Hi. unfold MKDEV, wrap32. rewrite <- !Z.land_ones by lia.
  apply Z.bits_inj'. intros n Hn.
  rewrite !Z.land_spec, Z.lor_spec, Z.shiftl_spec, !Z.testbit_ones_nonneg by lia.
  destruct (n <? 20) eqn:E.
  - replace (n <? 32) with true by lia. rewrite (Z.testbit_neg_r m) by lia.
    by rewrite !andb_true_r.
  - rewrite !andb_false_r. symmetry.
    apply (proj1 (Z.bounded_iff_bits_nonneg 20 mi ltac:(lia) ltac:(lia))); lia.
Qed.

(** The module as loading leaves it. *)
Record loaded (nr : nat) (p : params) s : Prop := Loaded {
  ld_params : mpar s = p /\ scull_nr_devs s = nr;
  ld_devices : exists ds, scull_devices s = Some ds /\ length ds = scull_nr_devs s /\
    Forall (fresh_device (mpar s)) ds;
  ld_cache : cache s = Some (scull_quantum (mpar s), ∅);
  ld_regions : regions_ok s;
  ld_warnings : warnings s = [];
  ld_pipes : forall ps, scull_p_devices s = Some ps ->
    length ps = scull_p_nr_devs s /\ Forall set_up ps /\ pipes_new 0 ps
}.

(** How loading ends: it succeeded, or failed with the warnings [w]. *)
Definition load_ok (n0 : Z) (nr : nat) (p : params) (r : Z) (k' : kern) (s' : mod_st) : Prop :=
  r = 0 /\ loaded nr p s' /\ kobjs k' = n0 + 1 + pipe_objs s'.

Definition load_failed (n0 : Z) (w : list warning) (r : Z) (k' : kern) (s' : mod_st) : Prop :=
  r < 0 /\ nothing_held s' /\ kobjs k' = n0 /\ warnings s' = w.

(** By whether the kernel had the numbers, the memory for the devices, and the
    cache. *)
Definition load_result (n0 : Z) (nr : nat) (p : params) (numbers memory slabs : bool)
    (r : Z) (k' : kern) (s' : mod_st) : Prop :=
  if negb numbers then load_failed n0 [] r k' s'
  else if negb memory then r = - ENOMEM /\ load_failed n0 [WarnProc] r k' s'
  else if negb slabs then
    r = - ENOMEM /\ load_failed n0 (replicate nr WarnKobject ++ [WarnProc]) r k' s'
  else load_ok n0 nr p r k' s'.

Lemma zero_warnings_replicate {A} n (a : A) :
  zero_warnings (replicate n (CdevZero, a)) = replicate n WarnKobject.
Proof. unfold zero_warnings. induction n as [| n IH]; cbn; [done |]. by rewrite IH. Qed.

Lemma devices_ok_fresh par size mem ds :
  Forall (fun x => qset (snd x) = []) ds -> devices_ok par size mem ds /\ all_owned ds = 0.
Proof.
  induction 1 as [| x ds Hx _ [IH1 IH2]]; [done |]. unfold all_owned in *. cbn. split_and!.
  - by left.
  - intros l a b H. by rewrite Hx in H.
  - done.
  - by rewrite Hx, IH2.
Qed.

(** Loading without memory for the devices, or without the cache. *)
Lemma wp_init_fail_devices major minor nr p_nr p k :
  held k = false ->
  wp (init_fail (- ENOMEM)) (fun r k' s' => held k' = false /\
    r = - ENOMEM /\ load_failed (kobjs k) [WarnProc] r k' s') k
    (set_devices None (set_regions [(MKDEV major minor, nr)] (unloaded major minor nr p_nr p))).
Proof.
  intros Hh. unfold init_fail, scull_cleanup_module. do 6 wp_step.
  - discriminate.
  - set (s0 := set_devices None _). apply (wp_cleanup_tail _ s0 _ s0 [] ∅); [done..|].
    wp_step. split; [done |]. split; [done |].
    split; [done |]. split; [done |]. split; [cbn; lia | done].
Qed.

Lemma wp_init_fail_cache major minor nr p_nr p k :
  held k = false ->
  wp (init_fail (- ENOMEM)) (fun r k' s' => held k' = false /\
    r = - ENOMEM /\ load_failed (kobjs k - 1) (replicate nr WarnKobject ++ [WarnProc]) r k' s') k
    (set_devices (Some (replicate nr (CdevZero, Dev [] 0 0 0)))
      (set_regions [(MKDEV major minor, nr)] (unloaded major minor nr p_nr p))).
Proof.
  intros Hh. unfold init_fail. wp_step.
  set (ds := replicate nr (CdevZero, Dev [] 0 0 0)).
  destruct (devices_ok_fresh p 0 ∅ ds) as [Hok Hown]; [by apply Forall_replicate |].
  eapply (wp_cleanup _ _ _ ds 0 ∅); [done | done | by apply length_replicate | done | done | done
    | done |].
  intros mem' Hm. wp_step. split; [done |]. split; [done |]. rewrite Hown.
  assert (mem' = ∅) as ->.
  { apply map_eq. intros l. rewrite (Hm l), lookup_empty. by case_decide. }
  split; [done |]. split; [done |]. split; [unfold pipe_objs; cbn; lia |].
  cbn. rewrite bool_decide_true by done. unfold ds. by rewrite zero_warnings_replicate.
Qed.

Lemma wp_init_rest major minor nr p_nr p k :
  held k = false -> (0 < nr)%nat -> 0 <= minor -> minor + Z.of_nat nr < 2 ^ 20 ->
  wp (init_loop nr 0;;
      s ← gets (fun s => s);
      scull_p_init (MKDEV (scull_major s) (wrap64 (scull_minor s + Z.of_nat (scull_nr_devs s))));;
      scull_create_proc;;
      mret 0)
    (fun r k' s' => held k' = false /\ load_ok (kobjs k - 1) nr p r k' s') k
    (set_cache (Some (scull_quantum p, ∅))
      (set_devices (Some (replicate nr (CdevZero, Dev [] 0 0 0)))
        (set_regions [(MKDEV major minor, nr)] (unloaded major minor nr p_nr p)))).
Proof.
  intros Hh Hn Hmi Hlim. wp_step. apply (wp_init_loop _ []); [done |]. intros f ds Hl Hf.
  do 3 wp_step. cbn [scull_major scull_minor scull_nr_devs set_devices set_cache set_regions unloaded app].
  rewrite wrap64_small by lia.
  assert (MKDEV major (minor + Z.of_nat nr) <> MKDEV major minor) as Hne.
  { intros E. apply (f_equal (fun z => z mod 2 ^ 20)) in E.
    rewrite !MKDEV_minor in E by lia. lia. }
  apply wp_p_init; [done | |].
  - intros f2 r rg z Hrg. unfold scull_create_proc. wp_steps. split; [done |].
    split; [done |]. split; [| unfold pipe_objs; cbn; lia].
    assert (rg = [(MKDEV major minor, nr)]) as ->.
    { destruct Hrg as [-> | ->]; [done |].
      rewrite list.filter_cons_False by (intros H; by apply H).
      change (regions _) with [(MKDEV major minor, nr)].
      rewrite list.filter_cons_True; [done |]. intros E. apply Hne. by injection E. }
    split; cbn; try done. by exists ds.
  - intros f2 r ps Hpl Hps Hb. pose proof (pipes_new_bufs 0 ps Hb) as Hb0. unfold scull_create_proc. wp_steps. split; [done |].
    split; [done |]. split; [| unfold pipe_objs; cbn; lia].
    split; cbn; try done; [by exists ds |]. intros ps' [= <-]. done.
Qed.

Lemma wp_scull_init_ans major minor nr p_nr p k :
  let n := numbers_at major in
  0 <= major < 4096 -> 0 <= minor -> (0 < nr)%nat -> minor + Z.of_nat nr < 2 ^ 20 ->
  held k = false ->
  wp scull_init_module (fun r k' s' => held k' = false /\
    load_result (kobjs k) nr p (ans k n =? 0) (ans k (n + 1)%nat =? 0) (ans k (n + 2)%nat =? 0)
      r k' s') k (unloaded major minor nr p_nr p).
Proof.
  cbv zeta. intros Hma Hmi Hn Hlim Hh. unfold scull_init_module. wp_step.
  apply wp_init_numbers; [done | lia | |].
  - intros f m -> Hf Hm. cbn [Z.ltb Z.compare]. do 3 wp_step.
    apply wp_kmalloc_ans; cbn [ans held kobjs lockdep]; rewrite Hf, Nat.add_0_r; intros Ha.
    + rewrite (proj2 (Z.eqb_eq _ _) Ha). wp_step. wp_step. cbn [negb]. cbv iota. wp_step.
      unfold kmem_cache_create. wp_step. apply wp_ask_ans. cbn [ans held kobjs lockdep].
      rewrite Hf. replace (numbers_at major + 1 + (0 + 1))%nat with (numbers_at major + 2)%nat by lia.
      destruct (ans k (numbers_at major + 2) =? 0) eqn:Ec; cbv beta iota.
      * do 3 wp_step. cbn [negb]. cbv iota.
        eapply wp_mono; [by apply (wp_init_rest m minor nr p_nr p) |]. cbv beta.
        cbn [kobjs]. by rewrite Z.add_simpl_r.
      * wp_step. cbn [negb]. cbv iota.
        eapply wp_mono; [by apply (wp_init_fail_cache m minor nr p_nr p) |]. cbv beta.
        cbn [kobjs]. by rewrite Z.add_simpl_r.
    + rewrite (proj2 (Z.eqb_neq _ _) Ha). wp_step. wp_step. cbn [negb]. cbv iota.
      by apply (wp_init_fail_devices m minor nr p_nr p (Kern _ (held k) (kobjs k) (lockdep k))).
  - intros f m r Ha Hr. replace (r <? 0) with true by lia. wp_step. split; [done |].
    rewrite (proj2 (Z.eqb_neq _ _) Ha). by split.
Qed.

(** Whatever the answers are. *)
Lemma wp_scull_init major minor nr p_nr p k :
  0 <= major < 4096 -> 0 <= minor -> (0 < nr)%nat -> minor + Z.of_nat nr < 2 ^ 20 ->
  held k = false ->
  wp scull_init_module (fun r k' s' => held k' = false /\
    (load_ok (kobjs k) nr p r k' s' \/ exists w, load_failed (kobjs k) w r k' s')) k
    (unloaded major minor nr p_nr p).
Proof.
  intros. eapply wp_mono; [by apply wp_scull_init_ans |]. cbv beta. intros r k' s' [Hh Hr].
  split; [done |]. unfold load_result in Hr.
  destruct (_ =? 0); [destruct (_ =? 0); [destruct (_ =? 0) |] |]; cbn [negb] in Hr;
    [by left | right; eexists; apply Hr..].
Qed.

(** ** Properties *)

(** C16: loading the module asks the kernel for device numbers, for memory for the
    devices and for the cache.  With all three it succeeds, and holds its device
    numbers, one array of initialised devices, a cache of quanta and all pipes or
    none; without one of them it returns an error and holds nothing.  Without the
    numbers it complains about nothing; without the memory about the proc entry,
    and without the cache about every character device too, for the cleanup
    deletes what was never set up. *)
Theorem scull_init_ok major minor nr p_nr p k :
  let n := numbers_at major in
  0 <= major < 4096 -> 0 <= minor -> (0 < nr)%nat -> minor + Z.of_nat nr < 2 ^ 20 ->
  held k = false ->
  wp scull_init_module (fun r k' s' => held k' = false /\
    load_result (kobjs k) nr p (ans k n =? 0) (ans k (n + 1)%nat =? 0) (ans k (n + 2)%nat =? 0)
      r k' s') k (unloaded major minor nr p_nr p).
Proof. apply wp_scull_init_ans. Qed.

(** The module in use: any devices and pipes. *)
Record in_use s (ds : list (cdev * scull_dev)) (size : Z) (mem : gmap loc (list Byte.byte)) : Prop := InUse {
  iu_devices : scull_devices s = Some ds;
  iu_count : length ds = scull_nr_devs s;
  iu_cache : cache s = Some (size, mem);
  iu_ok : devices_ok (mpar s) size mem ds;
  iu_pipes : forall ps, scull_p_devices s = Some ps -> length ps = scull_p_nr_devs s;
  iu_regions : regions_ok s
}.

(** C15: unloading the module in use never oopses, empties every device, frees
    every buffer and gives the numbers, the proc entry and the cache back.  But
    when some device has a quantum in the last cell of an array, trimming does
    not free it and the cache is destroyed with objects in use. *)
Theorem scull_cleanup_ok s ds size mem k :
  held k = false -> in_use s ds size mem ->
  wp scull_cleanup_module (fun _ k' s' =>
    held k' = false /\ nothing_held s' /\
    kobjs k' = kobjs k - all_owned ds - 1 - pipe_objs s /\
    (mem = ∅ -> WarnCacheBusy ∉ warnings s -> WarnCacheBusy ∉ warnings s') /\
    (forall x i l, x ∈ ds ->
       ptr_at (qset (snd x)) i (Z.to_nat (qset_len (snd x) - 1)) = Some l ->
       WarnCacheBusy ∈ warnings s')) k s.
Proof.
  intros Hh [H1 H2 H3 H4 H5 H6].
  eapply (wp_cleanup _ _ _ ds size mem); [done | done | done | by rewrite H3 | done..|].
  intros mem' Hm. cbn [held kobjs]. split_and!; [done | done | done | |].
  - intros -> Hw. unfold cleanup_result. cbn [warnings].
    assert (mem' = ∅) as ->.
    { apply map_eq. intros l. rewrite (Hm l), lookup_empty. by case_decide. }
    rewrite bool_decide_true by done.
    assert (forall A (xs : list (cdev * A)), WarnCacheBusy ∉ zero_warnings xs) as Hz.
    { intros A xs (x & Hx & _)%list_elem_of_bind. unfold zero_warning in Hx.
      case_bool_decide; [| by apply not_elem_of_nil in Hx].
      by apply list_elem_of_singleton in Hx. }
    rewrite !elem_of_app. intros [? | [? | [Hx | [Hx | ?]]]]; try done; try by eapply Hz.
    + by apply not_elem_of_nil in Hx.
    + destruct (proc_entry s); [by apply not_elem_of_nil in Hx | by apply list_elem_of_singleton in Hx].
  - intros x i l Hx Hl. destruct (last_cell_not_trimmed _ _ _ _ _ _ _ H4 Hx Hl) as [Hn Hs].
    unfold cleanup_result. cbn [warnings]. rewrite bool_decide_false.
    + rewrite !elem_of_app. right. right. left. by apply list_elem_of_singleton.
    + intros ->. specialize (Hm l). rewrite decide_False, lookup_empty in Hm by done.
      rewrite <- Hm in Hs. by destruct Hs.
Qed.

(** ** Witnesses *)

(** Four devices and four pipes, with a major number from the kernel. *)
Lemma scull_init_ok_witness :
  wp scull_init_module (fun r k' s' => held k' = false /\ load_ok 0 4 default_params r k' s') all_ok
    (unloaded 0 0 4 4 default_params).
Proof. apply (scull_init_ok 0 0 4 4 default_params all_ok); (reflexivity || lia). Defined.

(** One device with two quanta in its array of two. *)
Definition used_module : mod_st :=
  ModSt 240 0 1 0 (par sample_dev) (Some [(CdevAdded, dev sample_dev)])
    (Some (kmc_size sample_dev, slab sample_dev)) [(MKDEV 240 0, 1%nat)] 0 None true [].

Lemma used_module_in_use :
  in_use used_module [(CdevAdded, dev sample_dev)] (kmc_size sample_dev) (slab sample_dev).
Proof.
  split; try done. split; [right; exact sample_wf |]. split; [| done].
  intros l a b _. by constructor.
Qed.

Lemma scull_cleanup_ok_witness :
  wp scull_cleanup_module (fun _ _ s' => nothing_held s' /\ WarnCacheBusy ∈ warnings s')
    (Kern (fun _ => 0) false 3 true) used_module.
Proof.
  eapply wp_mono; [apply (scull_cleanup_ok used_module [(CdevAdded, dev sample_dev)]
    (kmc_size sample_dev) (slab sample_dev)); [reflexivity | exact used_module_in_use] |].
  cbv beta. intros _ k' s' (_ & H1 & _ & _ & H2). split; [exact H1 |].
  apply (H2 (CdevAdded, dev sample_dev) 0%nat 2%positive); [by left | reflexivity].
Defined.
