(* ===== verification/ScullSystem.v ===== *)
(** * The devices of scull in use together

    [mod_call] is a call on one of the devices of the loaded module.  They share
    the cache and the parameters and nothing else: a call on one leaves the
    contents of the others as they are, and from loading to unloading nothing
    oopses and no memory of [kmalloc] is lost. *)

From S2P Require Import Prelude Kernel ScullParams Scull ScullInv ScullFile ScullIoctl ScullProc ScullRuns.
From S2P Require Import ScullFrame Pipe ScullModule ScullLoad.

Implicit Types (k : kern) (s : mod_st) (d : scull_dev) (ds : list (cdev * scull_dev))
  (mem : gmap loc (list Byte.byte)).

(** ** Calls *)

Definition set_mpar (p : params) (s : mod_st) : mod_st :=
  ModSt (scull_major s) (scull_minor s) (scull_nr_devs s) (scull_p_nr_devs s) p (scull_devices s)
    (cache s) (regions s) (scull_p_dev s) (scull_p_devices s) (proc_entry s) (warnings s).

Definition mod_ioctl (cap : bool) (cmd arg cell : Z) : M mod_st Z := fun k s =>
  match scull_ioctl cap cmd arg k (IoSt (mpar s) cell) with
  | Done (r, k', io) => Done (r, k', set_mpar (iopar io) s)
  | Crash o => Crash o
  end.

(** A call on device [i]. *)
Definition mod_call (i : nat) (c : dcall) : M mod_st Z :=
  match c with
  | DIoctl cap cmd arg cell => mod_ioctl cap cmd arg cell
  | _ => on_dev i (dcall_run c)
  end.

Fixpoint mod_calls (cs : list (nat * dcall)) : M mod_st unit :=
  match cs with
  | [] => mret tt
  | (i, c) :: cs => mod_call i c;; mod_calls cs
  end.

(** From loading to unloading. *)
Definition scull_life (cs : list (nat * dcall)) : M mod_st Z :=
  r ← scull_init_module;
  if r <? 0 then mret r
  else
    mod_calls cs;;
    scull_cleanup_module;;
    mret r.

(** ** The invariant *)

Definition owns d (l : loc) : Prop := exists i a, ptr_at (qset d) i a = Some l.

Record mod_safe s ds (size : Z) mem : Prop := ModSafe {
  ms_use : in_use s ds size mem;
  ms_safe : Forall (fun x => dev_safe (St (mpar s) size mem (snd x))) ds
}.

Lemma foreign_lookup l ds :
  foreign l ds <-> forall j y, ds !! j = Some y -> ~ owns (snd y) l.
Proof.
  unfold foreign, owns. rewrite Forall_lookup. split.
  - intros H j y Hy (i & a & Ha). by apply (H j y Hy i a).
  - intros H j y Hy i a Ha. apply (H j y Hy). by exists i, a.
Qed.

(** No quantum belongs to two devices. *)
Lemma devices_ok_iff par size mem ds :
  devices_ok par size mem ds <->
  (forall i x, ds !! i = Some x -> device_ok par size mem (snd x)) /\
  (forall i j x y l, i <> j -> ds !! i = Some x -> ds !! j = Some y ->
     owns (snd x) l -> ~ owns (snd y) l).
Proof.
  induction ds as [| x ds IH]; [done |]. cbn [devices_ok]. rewrite IH. split.
  - intros (H1 & H2 & H3 & H4). split.
    + intros [| i] y Hy; [by injection Hy as <- | by eapply H3].
    + intros [| i] [| j] y z l Hne Hy Hz Hly Hlz; cbn in Hy, Hz; simplify_eq.
      * destruct Hly as (a & b & Hl). apply H2 in Hl. rewrite foreign_lookup in Hl.
        by apply (Hl j z Hz).
      * destruct Hlz as (a & b & Hl). apply H2 in Hl. rewrite foreign_lookup in Hl.
        by apply (Hl i y Hy).
      * by apply (H4 i j y z l); [congruence | ..].
  - intros (H1 & H2). split_and!.
    + by apply (H1 0%nat).
    + intros l a b Hl. apply foreign_lookup. intros j y Hy.
      apply (H2 0%nat (S j) x y l); [done | done | done | by exists a, b].
    + intros i y. apply (H1 (S i)).
    + intros i j y z l Hne. apply (H2 (S i) (S j)). congruence.
Qed.

Lemma dev_wf_par p p' size mem d : dev_wf (St p size mem d) -> dev_wf (St p' size mem d).
Proof. intros []. by split. Qed.

(** A device whose quanta are all as they were. *)
Lemma dev_wf_mem p size mem mem' d :
  dev_wf (St p size mem d) -> (forall l, owns d l -> mem' !! l = mem !! l) ->
  dev_wf (St p size mem' d).
Proof.
  intros [? ? ? ? ? ? ? Hlive ?] Hm. split; cbn in *; auto.
  intros i a l Ha. rewrite (Hm l) by (by exists i, a). eauto.
Qed.

Lemma contents_mem p p' size mem mem' d :
  (forall l, owns d l -> mem' !! l = mem !! l) ->
  contents (St p' size mem' d) ≡ contents (St p size mem d).
Proof.
  intros Hm. split; [done |]. intros q. cbn. unfold byte_at, cell_byte. cbn.
  destruct (ptr_at _ _ _) as [l |] eqn:E; [| done]. cbn. rewrite Hm; [done |]. by do 2 eexists.
Qed.

Lemma wp_on_dev_at {A} (m : M scull_st A) (Q : A -> kern -> mod_st -> Prop) k s ds i c d size mem :
  scull_devices s = Some ds -> ds !! i = Some (c, d) -> cache s = Some (size, mem) ->
  wp m (fun a k' (s1 : scull_st) => Q a k' (set_cache (Some (size, slab s1))
    (set_devices (Some (<[i := (c, dev s1)]> ds)) s))) k (St (mpar s) size mem d) ->
  wp (on_dev i m) Q k s.
Proof.
  intros E Hi Ec H. unfold on_dev. wp_step. unfold wpc, get_dev. rewrite E, Hi.
  unfold run_in. rewrite Ec. cbn [default id]. unfold wpc in H.
  destruct (m k _) as [[[a k'] s1] | o]; [| done]. by rewrite E.
Qed.

Lemma all_owned_app ds1 ds2 : all_owned (ds1 ++ ds2) = all_owned ds1 + all_owned ds2.
Proof.
  unfold all_owned. induction ds1 as [| x ds1 IH]; [done |].
  cbn [app foldr]. rewrite IH. lia.
Qed.

Lemma all_owned_insert ds i x y :
  ds !! i = Some x ->
  all_owned (<[i := y]> ds) =
    all_owned ds - owned_objs (qset (snd x)) + owned_objs (qset (snd y)).
Proof.
  intros Hi. rewrite (insert_take_drop _ _ _ ltac:(by eapply lookup_lt_Some)).
  rewrite <- (take_drop_middle ds i x Hi) at 3. rewrite !all_owned_app.
  unfold all_owned. cbn [foldr]. lia.
Qed.

(** The effect of a call on the other devices. *)
Definition others_kept (i : nat) ds mem ds' mem' : Prop :=
  length ds' = length ds /\
  forall j x, j <> i -> ds !! j = Some x -> ds' !! j = Some x /\
    forall l, owns (snd x) l -> mem' !! l = mem !! l.

Lemma framed_others s ds size mem i c d k k' (s1 : scull_st) :
  mod_safe s ds size mem -> ds !! i = Some (c, d) ->
  framed k (St (mpar s) size mem d) k' s1 ->
  forall j x l, j <> i -> ds !! j = Some x -> owns (snd x) l ->
    slab s1 !! l = mem !! l /\ ~ owns (dev s1) l.
Proof.
  intros [U S] Hi [F _ _] j x l Hne Hj Hl.
  pose proof (proj1 (devices_ok_iff _ _ _ _) (iu_ok _ _ _ _ U)) as [_ Hd].
  pose proof (proj1 (Forall_lookup _ _) S j x Hj) as (W & _).
  destruct (F l) as [[_ H2] E]; [| split; [done | by intros (a & b & Ha); apply (H2 a b)]].
  split.
  - destruct Hl as (a & b & Ha). destruct (wf_live _ W a b l Ha) as (blk & E & _). by exists blk.
  - intros a b Ha. apply (Hd j i x (c, d) l Hne Hj Hi Hl). by exists a, b.
Qed.

(** Storing back a device that ran alone. *)
Lemma mod_safe_update s ds size mem i c d k k' (s1 : scull_st) :
  mod_safe s ds size mem -> ds !! i = Some (c, d) ->
  framed k (St (mpar s) size mem d) k' s1 -> dev_safe s1 ->
  mod_safe (set_cache (Some (size, slab s1)) (set_devices (Some (<[i := (c, dev s1)]> ds)) s))
    (<[i := (c, dev s1)]> ds) size (slab s1).
Proof.
  intros MS Hi F HS1. pose proof (framed_others _ _ _ _ _ _ _ _ _ _ MS Hi F) as Ho.
  destruct MS as [U S]. pose proof (proj1 (Forall_lookup _ _) S i (c, d) Hi) as (_ & P & D).
  pose proof (proj1 (devices_ok_iff _ _ _ _) (iu_ok _ _ _ _ U)) as [_ Hd].
  destruct HS1 as (W1 & _). pose proof (fr_size _ _ _ _ F) as Esz. cbn in Esz.
  assert (Forall (fun x => dev_wf (St (mpar s) size (slab s1) (snd x))) (<[i := (c, dev s1)]> ds)) as HW.
  { apply Forall_lookup. intros j x Hj. destruct (decide (i = j)) as [<- | Hne].
    - rewrite list_lookup_insert_eq in Hj by (by eapply lookup_lt_Some). injection Hj as <-.
      cbn. apply (dev_wf_par (par s1)). destruct s1; cbn in *; by subst.
    - rewrite list_lookup_insert_ne in Hj by done.
      pose proof (proj1 (Forall_lookup _ _) S j x Hj) as (W & _).
      eapply dev_wf_mem; [exact W |]. intros l Hl. by apply (Ho j x l). }
  destruct U as [U1 U2 U3 U4 U5 U6]. split; [split |]; cbn; auto.
  - by rewrite length_insert.
  - apply devices_ok_iff. split.
    + intros j x Hj. right. exact (proj1 (Forall_lookup _ _) HW j x Hj).
    + intros j1 j2 x y l Hne Hx Hy Hlx Hly.
      destruct (decide (i = j1)) as [<- | H1], (decide (i = j2)) as [<- | H2]; [done | ..].
      * rewrite list_lookup_insert_eq in Hx by (by eapply lookup_lt_Some). injection Hx as <-.
        rewrite list_lookup_insert_ne in Hy by done. by destruct (Ho j2 y l ltac:(done) Hy Hly).
      * rewrite list_lookup_insert_eq in Hy by (by eapply lookup_lt_Some). injection Hy as <-.
        rewrite list_lookup_insert_ne in Hx by done. by destruct (Ho j1 x l ltac:(done) Hx Hlx).
      * rewrite !list_lookup_insert_ne in * by done. by apply (Hd j1 j2 x y l).
  - eapply Forall_impl; [| exact HW]. intros x W. split_and!; [done | | done].
    unfold params_ok in *. exact P.
Qed.

(** How a call leaves the module. *)
Definition call_result (i : nat) k s ds size mem k' s' : Prop :=
  held k' = false /\ scull_p_devices s' = scull_p_devices s /\
  exists ds' mem', mod_safe s' ds' size mem' /\ others_kept i ds mem ds' mem' /\
    kobjs k' - all_owned ds' = kobjs k - all_owned ds.

Lemma mod_ioctl_result i cmd arg cell k s ds size mem :
  held k = false -> mod_safe s ds size mem ->
  wp (mod_ioctl false cmd arg cell) (fun _ => call_result i k s ds size mem) k s.
Proof.
  intros Hh [U S]. pose proof (wp_unprivileged cmd arg k (IoSt (mpar s) cell)) as H.
  unfold wpc, mod_ioctl in *.
  destruct (scull_ioctl false cmd arg k (IoSt (mpar s) cell)) as [[[r k'] io] | o]; [| done].
  destruct H as (E1 & E2 & H). split; [congruence |]. split; [done |]. exists ds, mem.
  split; [| by split; [split | lia]]. destruct U as [U1 U2 U3 U4 U5 U6]. split.
  - split; cbn; auto. apply devices_ok_iff. apply devices_ok_iff in U4 as [V1 V2].
    split; [| done]. intros j x Hj. destruct (V1 j x Hj) as [? | W]; [by left | right].
    by eapply dev_wf_par.
  - eapply Forall_impl; [| exact S]. intros x (W & P & D).
    split_and!; [by eapply dev_wf_par | | done].
    destruct H as [[H1 H2] | [H1 H2]]; cbn in H1, H2.
    + unfold params_ok in *. cbn in *. by rewrite H1, H2.
    + apply default_params_ok; cbn; [apply W | done..].
Qed.

Lemma on_dev_result i c k s ds size mem :
  held k = false -> mod_safe s ds size mem -> (i < length ds)%nat -> dcall_ok c ->
  wp (on_dev i (dcall_run c)) (fun _ => call_result i k s ds size mem) k s.
Proof.
  intros Hh MS Hi Hc. destruct (lookup_lt_is_Some_2 _ _ Hi) as [[cd d] Hd].
  destruct (MS) as [U S]. pose proof (proj1 (Forall_lookup _ _) S i (cd, d) Hd) as HS. cbn in HS.
  eapply (wp_on_dev_at _ _ _ _ ds i cd d size mem); [apply U | done | apply U |].
  eapply wp_mono; [apply wp_conj; [by apply dev_safe_call | by apply framed_call] |].
  intros r k' s1 [[Hh' HS1] F]. split; [done |]. split; [done |]. do 2 eexists.
  split; [by eapply mod_safe_update |]. split.
  - split; [by rewrite length_insert |]. intros j x Hne Hj.
    split; [by rewrite list_lookup_insert_ne |]. intros l Hl.
    by destruct (framed_others _ _ _ _ _ _ _ _ _ _ MS Hd F j x l Hne Hj Hl).
  - rewrite (all_owned_insert _ _ _ _ Hd). cbn. pose proof (fr_objs _ _ _ _ F) as E.
    cbn in E. lia.
Qed.

Lemma wp_mod_call i c k s ds size mem :
  held k = false -> mod_safe s ds size mem -> (i < length ds)%nat -> dcall_ok c ->
  wp (mod_call i c) (fun _ => call_result i k s ds size mem) k s.
Proof.
  intros Hh MS Hi Hc. destruct c as [f | n p | b p | cap cmd arg cell | j]; cbn [mod_call].
  - by apply (on_dev_result i (DOpen f)).
  - by apply (on_dev_result i (DRead n p)).
  - by apply (on_dev_result i (DWrite b p)).
  - cbn in Hc. subst cap. by apply mod_ioctl_result.
  - by apply (on_dev_result i (DShow j)).
Qed.

Lemma wp_mod_calls cs k s ds size mem :
  held k = false -> mod_safe s ds size mem ->
  Forall (fun x => (fst x < length ds)%nat /\ dcall_ok (snd x)) cs ->
  wp (mod_calls cs) (fun _ k' s' => held k' = false /\ scull_p_devices s' = scull_p_devices s /\
    exists ds' mem', mod_safe s' ds' size mem' /\
      kobjs k' - all_owned ds' = kobjs k - all_owned ds) k s.
Proof.
  intros Hh MS Hcs. revert k s ds mem Hh MS Hcs. induction cs as [| [i c] cs IH];
    intros k s ds mem Hh MS Hcs; cbn [mod_calls].
  - wp_step. split; [done |]. split; [done |]. by exists ds, mem.
  - inversion Hcs as [| ? ? [Hi Hc] Hcs']; subst. wp_step.
    eapply wp_mono; [by apply wp_mod_call |].
    intros _ k1 s1 (Hh1 & Ep1 & ds1 & mem1 & MS1 & [Hl _] & Ek1).
    eapply wp_mono; [apply (IH _ _ ds1 mem1); [done | done | by rewrite Hl] |].
    intros _ k2 s2 (Hh2 & Ep2 & ds2 & mem2 & MS2 & Ek2).
    split; [done |]. split; [congruence |]. exists ds2, mem2. split; [done | lia].
Qed.

(** Parameters that do for the module: the devices they give are well formed, and
    the cache's objects have at least the default size. *)
Definition load_params_ok (p : params) : Prop :=
  SCULL_QUANTUM <= scull_quantum p < 2 ^ 63 /\ 0 < scull_qset p /\
  scull_quantum p * scull_qset p < 2 ^ 64.

Lemma just_loaded_safe nr p s :
  load_params_ok p -> ScullLoad.loaded nr p s ->
  exists ds, mod_safe s ds (scull_quantum p) ∅ /\ length ds = nr /\ all_owned ds = 0.
Proof.
  intros (Hq & Hs & Ht) [[E1 E2] (ds & Hd & Hl & Hf) Hc Hr _ Hp]. exists ds. rewrite E1 in *.
  assert (Forall (fun x => qset (snd x) = []) ds) as He.
  { eapply Forall_impl; [| exact Hf]. by intros x [_ ->]. }
  destruct (devices_ok_fresh p (scull_quantum p) ∅ ds He) as [Hok Hown].
  split_and!; [split | congruence | done].
  - split; auto; [by rewrite E1 | intros ps Hps; by destruct (Hp ps Hps)].
  - eapply Forall_impl; [| exact Hf]. intros x [_ E]. rewrite E1.
    assert (params_ok (St p (scull_quantum p) ∅ (snd x))) as P.
    { unfold params_ok, SCULL_QUANTUM in *. cbn. lia. }
    split_and!; [| done | cbn; lia]. rewrite E.
    exact (dev_wf_empty (St p (scull_quantum p) ∅ (snd x)) P).
Qed.

(** ** Properties *)


(** Loaded with parameters that fit, used by unprivileged callers through any
    sequence of calls on its devices, and unloaded, the module never oopses,
    whatever the kernel answers; it then holds nothing and has given back to
    [kfree] exactly what it took from [kmalloc]. *)
Theorem scull_life_ok major minor nr p_nr p cs k :
  0 <= major < 4096 -> 0 <= minor -> (0 < nr)%nat -> minor + Z.of_nat nr < 2 ^ 20 ->
  held k = false -> load_params_ok p ->
  Forall (fun x => (fst x < nr)%nat /\ dcall_ok (snd x)) cs ->
  wp (scull_life cs) (fun _ k' s' =>
    held k' = false /\ nothing_held s' /\ kobjs k' = kobjs k) k (unloaded major minor nr p_nr p).
Proof.
  intros Hma Hmi Hn Hlim Hh Hp Hcs. unfold scull_life. wp_step.
  eapply wp_mono; [by apply wp_scull_init |].
  intros r k1 s1 (Hh1 & [(-> & L & Ek1) | (w & Hr & Hno & Ek1 & _)]).
  - change (0 <? 0) with false. cbv iota.
    destruct (just_loaded_safe nr p s1 Hp L) as (ds & MS & Hl & Hown).
    wp_step. eapply wp_mono; [apply (wp_mod_calls _ _ _ ds (scull_quantum p) ∅); [done | done | by rewrite Hl] |].
    intros _ k2 s2 (Hh2 & Ep & ds2 & mem2 & [U _] & Ek2). wp_step.
    destruct U as [U1 U2 U3 U4 U5 U6].
    eapply (wp_cleanup _ _ _ ds2 (scull_quantum p) mem2); [done | done | done | by rewrite U3 | done.. |].
    intros mem3 _. wp_step. split; [done |]. split; [done |]. cbn [kobjs].
    assert (pipe_objs s2 = pipe_objs s1) as E by (unfold pipe_objs; by rewrite Ep). lia.
  - replace (r <? 0) with true by lia. wp_step. by split_and!.
Qed.

(** ** Witnesses *)

(** The default module, a write to each of two devices and an open that empties
    one of them. *)
Definition sample_life : list (nat * dcall) :=
  [(0%nat, DWrite abc 0); (1%nat, DWrite abc 3999); (0%nat, DRead 3 0);
   (0%nat, DOpen (File 0 O_WRONLY FMODE_WRITE)); (1%nat, DRead 3 3999)].

Lemma scull_life_ok_witness :
  wp (scull_life sample_life) (fun _ k' s' => nothing_held s' /\ kobjs k' = 0) all_ok
    (unloaded 240 0 4 4 default_params).
Proof.
  eapply wp_mono; [apply (scull_life_ok 240 0 4 4 default_params sample_life all_ok) |].
  - lia.
  - lia.
  - lia.
  - lia.
  - reflexivity.
  - unfold load_params_ok. cbn. unfold SCULL_QUANTUM, SCULL_QSET. lia.
  - repeat constructor; cbn; lia.
  - cbv beta. intros r k' s' (_ & H1 & H2). exact (conj H1 H2).
Defined.

(** Two devices, the second one with a byte in it. *)
Definition two_devices : list (cdev * scull_dev) :=
  [(CdevAdded, Dev [] SCULL_QUANTUM SCULL_QSET 0);
   (CdevAdded, Dev [Qset (Some (Some 1%positive :: replicate 999 None))] SCULL_QUANTUM SCULL_QSET 1)].

Definition two_mem : gmap loc (list Byte.byte) :=
  {[ 1%positive := replicate (Z.to_nat SCULL_QUANTUM) Byte.x61 ]}.

Definition two_module : mod_st :=
  ModSt 240 0 2 0 default_params (Some two_devices) (Some (SCULL_QUANTUM, two_mem))
    [(MKDEV 240 0, 2%nat)] 0 None true [].

Lemma second_ptr i a l :
  ptr_at [Qset (Some (Some 1%positive :: replicate 999 None))] i a = Some l ->
  i = 0%nat /\ a = 0%nat /\ l = 1%positive.
Proof.
  destruct i as [| [| i]]; [| done | done]. unfold ptr_at. cbn [lookup list_lookup mbind option_bind data].
  destruct a as [| a]; [by intros [= <-] |]. cbn [lookup list_lookup].
  destruct (replicate 999 None !! a) eqn:E; [| done].
  apply lookup_replicate in E as [-> _]. done.
Qed.

Lemma two_safe : mod_safe two_module two_devices SCULL_QUANTUM two_mem.
Proof.
  assert (params_ok (St default_params SCULL_QUANTUM two_mem (Dev [] 0 0 0))) as P
    by (eapply bool_decide_eq_true_1; vm_compute; reflexivity).
  assert (dev_wf (St default_params SCULL_QUANTUM two_mem (snd (CdevAdded, Dev [] SCULL_QUANTUM SCULL_QSET 0)))) as W1
    by exact (dev_wf_empty _ P).
  assert (dev_wf (St default_params SCULL_QUANTUM two_mem
    (Dev [Qset (Some (Some 1%positive :: replicate 999 None))] SCULL_QUANTUM SCULL_QSET 1))) as W2.
  { destruct W1. split; cbn -[two_mem replicate ptr_at] in *; try done.
    - intros [| [| i]] n q Hi Hq; [| done | done]. injection Hi as <-. injection Hq as <-. by vm_compute.
    - intros i a l Hl%second_ptr. destruct Hl as (-> & -> & ->).
      eexists. split; [apply lookup_singleton_eq | by rewrite length_replicate].
    - by intros i a j b l (-> & -> & _)%second_ptr (-> & -> & _)%second_ptr. }
  split; [split |]; try done.
  - split; [by left |]. split; [intros l a b H; by destruct a |]. split; [by right |].
    split; [intros; by constructor | done].
  - constructor; [| constructor; [| constructor]]; by split_and!.
Qed.

