(* ===== verification/ScullMem.v ===== *)
(** * Reading /proc/scullmem (src/scull/proc.c)

    A reader walks through the devices of the loaded module with the table of
    operations of proc.c.  The walk itself is the kernel's; what is proved holds
    for every walk that keeps to the contract of these operations
    (Documentation/filesystems/seq_file.rst).  Whatever the reader keeps of what
    was shown is the reports of the devices, in order. *)

From Stdlib Require Import Ascii.
From S2P Require Import Prelude Text Kernel ScullParams Scull ScullInv ScullFile ScullProc ScullRuns.
From S2P Require Import ScullFrame ScullModule ScullLoad ScullSystem.

Implicit Types (k : kern) (s : mod_st) (ds : list (cdev * scull_dev)).

(** ** The operations *)

(** An element is the index of a device. *)
Record seq_operations := SeqOps {
  start : Z -> Z -> option Z;
  next : Z -> Z -> Z * option Z;
  stop : M mod_st unit;
  show : Z -> M mod_st (Z * string)
}.

Section Read.
Variable fmt_p : ptr -> string.

Definition scull_seq_stop : M mod_st unit := mret tt.

Definition scull_seq_ops : seq_operations :=
  SeqOps scull_seq_start scull_seq_next scull_seq_stop
    (fun i => on_dev (Z.to_nat i) (scull_seq_show fmt_p i)).

(** ** A reader

    Its position, the element it stands at (none when it is between two walks,
    the end when the element is NULL) and the text it kept. *)
Record seq_reader := SeqReader {
  rd_pos : Z;
  rd_elem : option (option Z);
  rd_text : string
}.

(** What a reader may do, with [nr] devices: start at its position; show its
    element, keep the text unless the show failed and go on to the next one; or
    show it and keep nothing, for the show failed or its text did not fit, and
    stop there; or stop without showing anything.  Other calls may come in
    between, so that each one meets the kernel in a state of its own. *)
Inductive seq_call (ops : seq_operations) (nr : Z) :
    seq_reader * mod_st -> seq_reader * mod_st -> Prop :=
  | c_start p t s :
      seq_call ops nr (SeqReader p None t, s) (SeqReader p (Some (start ops nr p)) t, s)
  | c_show p i t s k r u k' s' :
      held k = false -> show ops i k s = Done ((r, u), k', s') -> 0 <= r ->
      seq_call ops nr (SeqReader p (Some (Some i)) t, s)
        (SeqReader (fst (next ops nr p)) (Some (snd (next ops nr p))) (t +:+ u), s')
  | c_again p i t s k r u k' s' k2 s2 :
      held k = false -> show ops i k s = Done ((r, u), k', s') ->
      stop ops k' s' = Done (tt, k2, s2) ->
      seq_call ops nr (SeqReader p (Some (Some i)) t, s) (SeqReader p None t, s2)
  | c_stop p v t s k k' s' :
      held k = false -> stop ops k s = Done (tt, k', s') ->
      seq_call ops nr (SeqReader p (Some v) t, s) (SeqReader p None t, s').

Definition seq_calls (ops : seq_operations) (nr : Z) := rtc (seq_call ops nr).

(** ** What it prints *)

(** The reports of the devices [ds], the first of them of index [i]. *)
Fixpoint reports (p : params) (size : Z) (mem : gmap loc (list Byte.byte)) (i : Z) ds : string :=
  match ds with
  | [] => ""
  | x :: ds => device_report fmt_p (St p size mem (snd x)) i +:+ reports p size mem (i + 1) ds
  end.

Lemma start_at nr i : 0 <= i <= nr -> nr < 2 ^ 63 ->
  scull_seq_start nr i = if decide (i < nr) then Some i else None.
Proof.
  intros Hi Hn. unfold scull_seq_start. rewrite wrap64_small by lia.
  case_decide; destruct (nr <=? i) eqn:E; done || lia.
Qed.

Lemma next_at nr i : 0 <= i < nr -> nr < 2 ^ 63 ->
  scull_seq_next nr i = (i + 1, scull_seq_start nr (i + 1)).
Proof. intros Hi Hn. unfold scull_seq_next, scull_seq_start. by rewrite s64_small by lia. Qed.

(** Storing back what was there. *)
Lemma set_same s ds size mem i x :
  scull_devices s = Some ds -> ds !! i = Some x -> cache s = Some (size, mem) ->
  set_cache (Some (size, mem)) (set_devices (Some (<[i := (fst x, snd x)]> ds)) s) = s.
Proof.
  intros Hd Hi Hc. destruct x as [c d]. cbn [fst snd]. rewrite list_insert_id by done.
  destruct s. cbn in *. by subst.
Qed.

Lemma wp_show_dev s ds size mem i x k :
  held k = false -> mod_safe s ds size mem -> ds !! i = Some x ->
  wp (on_dev i (scull_seq_show fmt_p (Z.of_nat i))) (fun y k' s' =>
    held k' = false /\ kobjs k' = kobjs k /\ s' = s /\
    (y = (- ERESTARTSYS, "") \/
     y = (0, device_report fmt_p (St (mpar s) size mem (snd x)) (Z.of_nat i)))) k s.
Proof.
  intros Hh [U S] Hi. destruct x as [c d]. pose proof (proj1 (Forall_lookup _ _) S i (c, d) Hi) as (W & P & D).
  eapply (wp_on_dev_at _ _ _ _ ds i c d size mem); [apply U | done | apply U |].
  eapply wp_mono; [apply wp_seq_show; [done | exact W |] |].
  { unfold SCULL_QUANTUM in D. cbn in D |- *. lia. }
  intros y k' s1 (Hh' & Hk & -> & Hy). split_and!; [done | done | | done].
  exact (set_same s ds size mem i (c, d) (iu_devices _ _ _ _ U) Hi (iu_cache _ _ _ _ U)).
Qed.

Lemma reports_snoc p size mem i ds x :
  reports p size mem i (ds ++ [x]) =
  reports p size mem i ds +:+ device_report fmt_p (St p size mem (snd x)) (i + Z.of_nat (length ds)).
Proof.
  revert i. induction ds as [| y ds IH]; intros i; cbn [reports app length].
  - rewrite Z.add_0_r. apply sapp_nil_r.
  - rewrite IH, sapp_assoc. do 3 f_equal. lia.
Qed.

Section Walk.
Variables (s : mod_st) (ds : list (cdev * scull_dev)) (size : Z) (mem : gmap loc (list Byte.byte)).
Hypothesis Hsafe : mod_safe s ds size mem.
Hypothesis Hlen : Z.of_nat (length ds) < 2 ^ 63.
Variable from : nat.
Hypothesis Hfrom : (from <= length ds)%nat.

(** The reports of [n] devices. *)
Definition first_reports (n : nat) : string :=
  reports (mpar s) size mem (Z.of_nat from) (take n (drop from ds)).

(** A reader that started at [from] has kept the reports of the [n] devices up
    to its position, where its element is. *)
Definition walked (x : seq_reader * mod_st) : Prop :=
  snd x = s /\ exists n, (from + n <= length ds)%nat /\
    rd_pos (fst x) = Z.of_nat (from + n) /\ rd_text (fst x) = first_reports n /\
    (rd_elem (fst x) = None \/
     rd_elem (fst x) = Some (scull_seq_start (Z.of_nat (length ds)) (rd_pos (fst x)))).

Lemma walked_at p i t s' :
  walked (SeqReader p (Some (Some i)) t, s') -> s' = s /\ exists n x,
    p = Z.of_nat (from + n) /\ i = Z.of_nat (from + n) /\ t = first_reports n /\
    ds !! (from + n)%nat = Some x.
Proof.
  intros (E & n & Hn & Hp & Ht & [He | He]); [done |]. cbn in E, Hp, Ht, He. subst.
  rewrite start_at in He by lia. injection He as He. case_decide; [| done]. injection He as ->.
  split; [done |]. destruct (lookup_lt_is_Some_2 ds (from + n)) as [x Hx]; [lia |].
  by exists n, x.
Qed.

Lemma walked_call x y :
  walked x -> seq_call scull_seq_ops (Z.of_nat (length ds)) x y -> walked y.
Proof.
  intros W C. destruct C as [p t s1 | p i t s1 k r u k' s2 Hh E Hr
    | p i t s1 k r u k' s2 k2 s3 Hh E E2 | p v t s1 k k' s2 Hh E].
  - destruct W as (Es & n & Hn & Hp & Ht & _). split; [done |].
    exists n. split_and!; [done | done | done | by right].
  - destruct (walked_at _ _ _ _ W) as (-> & n & x & -> & -> & -> & Hx).
    pose proof (wp_show_dev s ds size mem _ x k Hh Hsafe Hx) as S. unfold wpc in S.
    cbn [show scull_seq_ops] in E. rewrite Nat2Z.id in E. rewrite E in S.
    destruct S as (_ & _ & -> & [[= -> ->] | [= -> ->]]); [done |].
    pose proof (lookup_lt_Some _ _ _ Hx).
    cbn [next scull_seq_ops]. rewrite next_at by lia. cbn [fst snd].
    replace (Z.of_nat (from + n) + 1) with (Z.of_nat (from + S n)) by lia.
    split; [done |]. exists (S n). split_and!; [lia | done | | by right].
    unfold first_reports.
    rewrite (take_S_r _ _ x) by (by rewrite lookup_drop). rewrite reports_snoc.
    rewrite length_take, length_drop. cbn [fst rd_text]. do 3 f_equal. lia.
  - destruct (walked_at _ _ _ _ W) as (-> & n & x & -> & -> & -> & Hx).
    pose proof (wp_show_dev s ds size mem _ x k Hh Hsafe Hx) as S. unfold wpc in S.
    cbn [show scull_seq_ops] in E. rewrite Nat2Z.id in E. rewrite E in S.
    destruct S as (_ & _ & -> & _). injection E2 as _ <-.
    pose proof (lookup_lt_Some _ _ _ Hx).
    split; [done |]. exists n. split_and!; [lia | done | done | by left].
  - destruct W as (Es & n & Hn & Hp & Ht & _). injection E as _ <-. split; [done |].
    exists n. split_and!; [done | done | done | by left].
Qed.

Lemma walked_calls x y :
  walked x -> seq_calls scull_seq_ops (Z.of_nat (length ds)) x y -> walked y.
Proof. intros W C. revert W. induction C; eauto using walked_call. Qed.
End Walk.
End Read.

(** ** Properties *)


(** ** Witnesses *)

(** Two devices, the second one with a byte in it, read to the end. *)
Definition two_read : string := reports no_ptr (mpar two_module) SCULL_QUANTUM two_mem 0 two_devices.

Definition two_end : seq_reader := SeqReader 2 (Some None) two_read.

Lemma two_reads :
  seq_calls (scull_seq_ops no_ptr) 2 (SeqReader 0 None "", two_module) (two_end, two_module).
Proof.
  unfold seq_calls. eapply rtc_l; [apply c_start |].
  eapply rtc_l; [eapply (c_show _ _ _ _ _ _ all_ok); [reflexivity | vm_compute; reflexivity | lia] |].
  eapply rtc_l; [eapply (c_show _ _ _ _ _ _ all_ok); [reflexivity | vm_compute; reflexivity | lia] |].
  apply rtc_refl.
Qed.

