(* ===== verification/ScullWhole.v ===== *)
(** * The whole of scull in use

    The loaded module with its devices and its pipes: calls on the devices and
    the sections of the threads that use the pipes come in any order.  Every
    pipe then behaves as the pipe of PipeSys.v on its own, the devices as those
    of ScullSystem.v, and unloading gives back all that was allocated. *)

From S2P Require Import Prelude Kernel ScullParams Scull ScullInv ScullFile ScullIoctl ScullProc ScullRuns.
From S2P Require Import ScullFrame Fifo Pipe PipeFifo PipeOpen PipeSys.
From S2P Require Import ScullModule ScullLoad ScullSystem.

Implicit Types (k : kern).

(** ** A pipe and the memory it takes *)

(** The steps of PipeSys.v with the number of objects from [kmalloc] before and
    after. *)
Inductive pstep : Z -> sys -> Z -> sys -> Prop :=
  | p_enter S t c k r k' s' :
      s_threads S !! t = None -> may_call S c -> idle k ->
      enter c k (s_pipe S) = Done (r, k', s') ->
      pstep (kobjs k) S (kobjs k') (after t c r s' S)
  | p_again S t c k r k' s' :
      s_threads S !! t = Some (c, PAgain) -> idle k ->
      again c k (s_pipe S) = Done (r, k', s') ->
      pstep (kobjs k) S (kobjs k') (after t c r s' S)
  | p_wait S t c k b k' s' :
      s_threads S !! t = Some (c, PWait) -> idle k ->
      wait t c k (s_pipe S) = Done (b, k', s') ->
      pstep (kobjs k) S (kobjs k')
        (Sys s' (<[t := (c, if b then PAgain else PAsleep)]> (s_threads S)) (s_files S))
  | p_woken n S t c :
      s_threads S !! t = Some (c, PAsleep) -> ~ queued t (s_pipe S) ->
      pstep n S n (Sys (s_pipe S)
        (<[t := (c, match c with CWrite _ _ => PAgain | _ => PWait end)]> (s_threads S))
        (s_files S))
  | p_signal n S t c :
      s_threads S !! t = Some (c, PAsleep) ->
      pstep n S n (Sys (dequeue t (s_pipe S)) (delete t (s_threads S)) (s_files S))
  | p_wake S t c k k' s' :
      s_threads S !! t = Some (c, PWake) -> idle k ->
      wake c k (s_pipe S) = Done (tt, k', s') ->
      pstep (kobjs k) S (kobjs k') (Sys s' (delete t (s_threads S)) (s_files S)).

Lemma pstep_step n S n' S' : pstep n S n' S' -> exists e, step S e S'.
Proof. destruct 1; eexists; by econstructor. Qed.

(** Between an open and a release no section allocates or frees. *)
Definition unmoved k (s : pipe_st) k' (s' : pipe_st) : Prop :=
  kobjs k' = kobjs k /\ owned s' = owned s /\ ppar s' = ppar s.

(** Whatever a section allocates or frees is the buffer. *)
Definition paid k (s : pipe_st) k' (s' : pipe_st) : Prop :=
  balanced k s k' s' /\ ppar s' = ppar s.

Lemma wlp_buf_read off n (Q : list Byte.byte -> kern -> pipe_st -> Prop) k s :
  (forall bs, Q bs k s) -> wlp (buf_read off n) Q k s.
Proof.
  intros HQ. unfold buf_read. do 2 wp_step. destruct (buf (pipe s)); wp_step;
    apply wlp_check; intros _; wp_step; apply HQ.
Qed.

Lemma wlp_buf_write off bs (Q : unit -> kern -> pipe_st -> Prop) k s :
  (forall b, owned (upd (set_buf b) s) = owned s -> Q tt k (upd (set_buf b) s)) ->
  wlp (buf_write off bs) Q k s.
Proof.
  intros HQ. unfold buf_write. do 2 wp_step. unfold owned in HQ. destruct (buf (pipe s)) eqn:E.
  - wp_step. apply wlp_check. intros _. wp_step. by apply HQ.
  - apply wlp_check. intros _. specialize (HQ None eq_refl).
    replace (upd (set_buf None) s) with s in HQ; [done |]. destruct s as [? []]. cbn in E. by subst.
Qed.

Lemma wlp_spacefree_any (Q : Z -> kern -> pipe_st -> Prop) k s :
  (forall n, Q n k s) -> wlp spacefree Q k s.
Proof.
  intros HQ. unfold spacefree. wp_step. unfold wpc at 1, lockdep_assert_held.
  destruct (_ && _); [done |]. wp_steps; apply HQ.
Qed.

Lemma wlp_unlock_any (Q : unit -> kern -> pipe_st -> Prop) k s :
  Q tt (Kern (ans k) false (kobjs k) (lockdep k)) s -> wlp __mutex_unlock_sparse Q k s.
Proof. intros HQ. mred. by destruct (held k). Qed.

(** A section that allocates nothing. *)
Ltac pipe_frame :=
  repeat first
    [ progress cbv beta iota
    | apply wlp_buf_read; intros ?
    | apply wlp_buf_write; intros ? ?
    | apply wlp_spacefree_any; intros ?
    | apply wlp_unlock_any
    | wp_step ].

Lemma wlp_read_check_unmoved f n k k1 s :
  kobjs k1 = kobjs k -> wlp (read_check f n) (fun _ k' s' => unmoved k s k' s') k1 s.
Proof. unfold read_check, read_transfer, unmoved. intros <-. by pipe_frame. Qed.

Lemma wlp_write_unmoved f u k s :
  held k = false -> wlp (scull_p_write f u) (fun _ k' s' => unmoved k s k' s') k s.
Proof. intros Hh. unfold scull_p_write, write_check, write_transfer, unmoved. by pipe_frame. Qed.

Lemma wlp_unmoved {A} (m : M pipe_st A) k s :
  wlp m (fun _ k' s' => unmoved k s k' s') k s -> wlp m (fun _ k' s' => paid k s k' s') k s.
Proof.
  intros H. eapply wp_mono; [exact H |]. unfold paid, balanced. by intros a k' s' (-> & -> & ->).
Qed.

(** No section of a call loses memory or touches the parameters. *)
Lemma wlp_enter_paid c k s :
  idle k -> pipe_inv s -> wlp (enter c) (fun _ k' s' => paid k s k' s') k s.
Proof.
  intros Hh HI. destruct c as [f | f | f n | f u | f]; cbn [enter].
  - destruct (decide (idx (pipe s) = PROPER_FIFO_BEH_IDX)) as [E | E].
    + eapply wp_mono; [by apply wp_scull_p_proper_open |]. intros r k' s' (_ & _ & Hb & Hr).
      split; [done |]. destruct Hr as [[_ ->] | Hr]; [done |].
      destruct (flag_set _ FMODE_READ); [| apply Hr].
      destruct (_ && _); by destruct Hr as [_ ->].
    + eapply wp_mono; [by apply wp_scull_p_open |].
      intros r k' s' (_ & _ & Hb & [[_ ->] | [(_ & -> & _) | [_ Hr]]]); (split; [done |]);
        [done.. | apply Hr].
  - eapply wp_mono; [by apply wp_scull_p_release |].
    intros r k' s' (_ & _ & Hb & _ & [[_ ->] | [_ Hr]]); (split; [done |]); [done | apply Hr].
  - apply wlp_unmoved. unfold scull_p_read. pipe_frame; try done. by apply wlp_read_check_unmoved.
  - by apply wlp_unmoved, wlp_write_unmoved.
  - apply wlp_unmoved. unfold scull_p_poll, unmoved. by pipe_frame.
Qed.

Lemma wlp_again_paid c k s :
  idle k -> wlp (again c) (fun _ k' s' => paid k s k' s') k s.
Proof.
  intros Hh. apply wlp_unmoved. destruct c as [f | f | f n | f u | f]; cbn [again].
  - unfold proper_open_again, proper_open_check, nonseekable_open, unmoved. by pipe_frame.
  - by wp_step.
  - unfold read_again. pipe_frame; try done. by apply wlp_read_check_unmoved.
  - by apply wlp_write_unmoved.
  - by wp_step.
Qed.

Lemma wlp_wait_paid t c k s : wlp (wait t c) (fun _ k' s' => paid k s k' s') k s.
Proof.
  apply wlp_unmoved. unfold unmoved.
  destruct c; cbn [wait]; unfold open_wait, read_wait, write_wait; by pipe_frame.
Qed.

Lemma wlp_wake_paid c k s : wlp (wake c) (fun _ k' s' => paid k s k' s') k s.
Proof. apply wlp_unmoved. destruct c; cbn [wake]; unfold wake_in, wake_out; by wp_steps. Qed.

Lemma pstep_paid n S n' S' :
  pipe_inv (s_pipe S) -> pstep n S n' S' ->
  n' - owned (s_pipe S') = n - owned (s_pipe S) /\ ppar (s_pipe S') = ppar (s_pipe S).
Proof.
  intros HI Hs. destruct Hs as [S t c k r k' s' Ht Hm Hk He | S t c k r k' s' Ht Hk He
    | S t c k b k' s' Ht Hk He | n S t c Ht Hq | n S t c Ht | S t c k k' s' Ht Hk He].
  - exact (wpc_done _ _ _ _ _ _ _ (wlp_enter_paid c k _ Hk HI) He).
  - exact (wpc_done _ _ _ _ _ _ _ (wlp_again_paid c k _ Hk) He).
  - exact (wpc_done _ _ _ _ _ _ _ (wlp_wait_paid t c k _) He).
  - done.
  - done.
  - exact (wpc_done _ _ _ _ _ _ _ (wlp_wake_paid c k _) He).
Qed.

(** ** The system *)

(** The module, the objects from [kmalloc], and by pipe the threads inside a call
    and the open files. *)
Record whole := Whole {
  w_mod : mod_st;
  w_objs : Z;
  w_use : list (gmap nat (call * pc) * gmap nat file)
}.

(** pipe.c reads one of the parameters, the size of a buffer. *)
Definition pipe_par (s : mod_st) : params :=
  Params SCULL_QUANTUM SCULL_QSET (scull_p_len (mpar s)).

Definition pipes (W : whole) : list (cdev * scull_pipe) :=
  default [] (scull_p_devices (w_mod W)).

(** Pipe [i] on its own. *)
Definition pipe_at (W : whole) (i : nat) : option sys :=
  x ← pipes W !! i;
  u ← w_use W !! i;
  Some (Sys (PSt (pipe_par (w_mod W)) (snd x)) (fst u) (snd u)).

Definition put_sys (i : nat) (n : Z) (S : sys) (W : whole) : whole :=
  Whole (set_p (scull_p_dev (w_mod W))
      (alter (fun x => (fst x, pipe (s_pipe S))) i <$> scull_p_devices (w_mod W)) (w_mod W))
    n (<[i := (s_threads S, s_files S)]> (w_use W)).

(** A call on a device by an unprivileged caller; not the one that changes the
    size of the pipes' buffers.  The commands of ioctl.c do the same through the
    file of a pipe, so those are not calls of their own. *)
Definition call_ok (c : dcall) : Prop :=
  dcall_ok c /\
  match c with DIoctl _ cmd _ _ => cmd <> SCULL_P_IOCTSIZE | _ => True end.

Inductive wstep : whole -> whole -> Prop :=
  | w_call W i c k r k' s' :
      (i < scull_nr_devs (w_mod W))%nat -> call_ok c -> held k = false ->
      kobjs k = w_objs W -> mod_call i c k (w_mod W) = Done (r, k', s') ->
      wstep W (Whole s' (kobjs k') (w_use W))
  | w_pipe W i S n' S' :
      pipe_at W i = Some S -> pstep (w_objs W) S n' S' -> wstep W (put_sys i n' S' W).

(** [n] steps. *)
Inductive wsteps : nat -> whole -> whole -> Prop :=
  | wsteps_refl W : wsteps 0 W W
  | wsteps_step n W1 W2 W3 : wsteps n W1 W2 -> wstep W2 W3 -> wsteps (S n) W1 W3.

(** The module just loaded. *)
Definition fresh (s : mod_st) (n : Z) : whole :=
  Whole s n (replicate (scull_p_nr_devs s) (∅, ∅)).

(** ** The invariant *)

(** [n0] objects belong to nobody in the module; at most [n] steps were made. *)
Record whole_ok (n0 : Z) (plen : Z) (nr : nat) (size : Z) (n : nat) (W : whole) : Prop := WholeOk {
  wo_devices : exists ds mem, mod_safe (w_mod W) ds size mem /\ length ds = nr /\
    w_objs W = n0 + 1 + all_owned ds + pipe_objs (w_mod W);
  wo_len : scull_p_len (mpar (w_mod W)) = plen;
  wo_pipes : forall i S, pipe_at W i = Some S ->
    exists es, run step (new_sys (Params SCULL_QUANTUM SCULL_QSET plen) (Z.of_nat i)) es S /\
      (length es <= n)%nat
}.

Lemma bufs_alter ps i x p :
  ps !! i = Some x ->
  bufs (alter (fun x => (fst x, p)) i ps) =
    bufs ps - (match buf (snd x) with Some _ => 1 | None => 0 end)
            + (match buf p with Some _ => 1 | None => 0 end).
Proof.
  revert i. induction ps as [| y ps IH]; intros [| i] Hi; try done.
  - injection Hi as ->. unfold bufs. cbn. lia.
  - unfold bufs in *. cbn. rewrite (IH i Hi). lia.
Qed.

Lemma pipe_at_Some W i S :
  pipe_at W i = Some S ->
  exists ps x u, scull_p_devices (w_mod W) = Some ps /\ ps !! i = Some x /\ w_use W !! i = Some u /\
    S = Sys (PSt (pipe_par (w_mod W)) (snd x)) (fst u) (snd u).
Proof.
  unfold pipe_at, pipes. intros (x & Hx & (u & Hu & [= <-])%bind_Some)%bind_Some.
  destruct (scull_p_devices (w_mod W)) as [ps |]; [| done]. by exists ps, x, u.
Qed.

Lemma pipe_at_eq W i ps x u :
  scull_p_devices (w_mod W) = Some ps -> ps !! i = Some x -> w_use W !! i = Some u ->
  pipe_at W i = Some (Sys (PSt (pipe_par (w_mod W)) (snd x)) (fst u) (snd u)).
Proof.
  unfold pipe_at, pipes. intros Hp Hx Hu. rewrite Hp. cbn [default from_option id].
  rewrite Hx. cbn. by rewrite Hu.
Qed.

(** The next state of a pipe of the whole is the one its step gave, and the
    others stay. *)
Lemma pipe_at_put W i n S S' j T :
  pipe_at W i = Some S -> ppar (s_pipe S') = ppar (s_pipe S) ->
  pipe_at (put_sys i n S' W) j = Some T ->
  if decide (i = j) then T = S' else pipe_at W j = Some T.
Proof.
  intros (ps & x & u & Hp & Hx & Hu & ->)%pipe_at_Some HS'
    (ps' & x' & u' & Hp' & Hx' & Hu' & ->)%pipe_at_Some.
  cbn [put_sys w_mod set_p scull_p_devices w_use] in *. rewrite Hp in Hp'. injection Hp' as <-.
  case_decide as Hj; [subst j |].
  - rewrite list_lookup_alter_eq, Hx in Hx'. injection Hx' as <-.
    rewrite list_lookup_insert_eq in Hu' by (by eapply lookup_lt_Some). injection Hu' as <-.
    destruct S' as [[? ?] ? ?]. cbn in *. by subst.
  - rewrite list_lookup_alter_ne in Hx' by done. rewrite list_lookup_insert_ne in Hu' by done.
    by apply (pipe_at_eq W j ps).
Qed.

Lemma run_pipe_inv plen i es S :
  0 < plen < 2 ^ 63 -> run step (new_sys (Params SCULL_QUANTUM SCULL_QSET plen) i) es S ->
  pipe_inv (s_pipe S).
Proof.
  intros Hl Hr. apply (fifo_run_ok _ es S) in Hr; [apply Hr |]. by apply new_sys_ok.
Qed.

(** A pipe that is not the proper FIFO ([pipe_never_oopses]). *)
Lemma run_pipe_safe plen i es T t c k n :
  0 < plen < 2 ^ 63 -> i <> PROPER_FIFO_BEH_IDX -> Z.of_nat n < 2 ^ 62 -> (length es <= n)%nat ->
  run step (new_sys (Params SCULL_QUANTUM SCULL_QSET plen) i) es T -> idle k ->
  (s_threads T !! t = None -> may_call T c -> wp (enter c) (fun _ _ _ => True) k (s_pipe T)) /\
  (forall q, s_threads T !! t = Some (c, q) ->
     wp (again c) (fun _ _ _ => True) k (s_pipe T) /\
     wpc (asserts c k) (wait t c) (fun _ _ _ => True) k (s_pipe T)).
Proof.
  intros Hl Hi Hn Hle Hr Hk.
  assert (accounted (0 + zlen es) T) as HA.
  { eapply run_accounted; [| | exact Hr]; [by apply new_sys_accounted | lia]. }
  split.
  - intros Ht Hm. eapply wp_mono; [eapply (wp_enter_total _ t c); (done || lia) |]. done.
  - intros q Ht. split; (eapply wp_mono; [| done]).
    + by eapply wp_again_total.
    + by eapply wp_wait_total.
Qed.

Lemma run_snoc S es S1 e S2 : run step S es S1 -> step S1 e S2 -> run step S (es ++ [e]) S2.
Proof. induction 1; intros Hs; cbn; econstructor; eauto. constructor. Qed.

(** A call of [call_ok] leaves the size of the pipes' buffers. *)
Lemma wp_ioctl_len cmd arg k io :
  cmd <> SCULL_P_IOCTSIZE ->
  wp (scull_ioctl false cmd arg) (fun _ _ io' => scull_p_len (iopar io') = scull_p_len (iopar io)) k io.
Proof. intros Hne. ioctl_steps; try discriminate; auto. by destruct Hne; apply Z.eqb_eq. Qed.

Lemma on_dev_mpar {A} i (m : M scull_st A) k s :
  wlp (on_dev i m) (fun _ _ s' => mpar s' = mpar s) k s.
Proof.
  unfold on_dev. wp_step. unfold wpc at 1, get_dev. destruct (scull_devices s) as [ds |]; [| done].
  destruct (ds !! i) as [[c d] |]; [| done]. unfold wpc, run_in.
  destruct (cache s) as [[size mem] |]; cbn; by destruct (m k _) as [[[a k'] s1] |].
Qed.

Lemma mod_call_len i c k s :
  call_ok c -> wlp (mod_call i c) (fun _ _ s' => scull_p_len (mpar s') = scull_p_len (mpar s)) k s.
Proof.
  intros [Hc Hne]. destruct c as [f | n p | b p | cap cmd arg cell | j]; cbn [mod_call].
  4: { cbn in Hc. subst cap. pose proof (wp_ioctl_len cmd arg k (IoSt (mpar s) cell) Hne) as H.
    unfold wpc, mod_ioctl in *. destruct (scull_ioctl false cmd arg k _) as [[[r k'] io] |]; done. }
  all: eapply wp_mono; [apply on_dev_mpar |]; by intros a k' s' ->.
Qed.

Lemma whole_ok_call n0 plen nr size n W i c k r k' s' :
  whole_ok n0 plen nr size n W -> (i < scull_nr_devs (w_mod W))%nat -> call_ok c -> held k = false ->
  kobjs k = w_objs W -> mod_call i c k (w_mod W) = Done (r, k', s') ->
  whole_ok n0 plen nr size (S n) (Whole s' (kobjs k') (w_use W)).
Proof.
  intros [(ds & mem & MS & Hl & Ho) Hp Hr] Hi Hc Hh Hk He.
  assert (i < length ds)%nat as Hi' by (rewrite (iu_count _ _ _ _ (ms_use _ _ _ _ MS)); done).
  destruct (wpc_done _ _ _ _ _ _ _ (wp_mod_call i c k _ ds size mem Hh MS Hi' (proj1 Hc)) He)
    as (_ & Ep & ds' & mem' & MS' & [Hl' _] & Ek).
  pose proof (wpc_done _ _ _ _ _ _ _ (mod_call_len i c k _ Hc) He) as El.
  assert (pipes (Whole s' (kobjs k') (w_use W)) = pipes W) as Eps by (unfold pipes; cbn; by rewrite Ep).
  split; cbn [w_mod w_objs w_use]; [| by rewrite El |].
  - exists ds', mem'. split; [done |]. split; [by rewrite Hl' |].
    assert (pipe_objs s' = pipe_objs (w_mod W)) as -> by (unfold pipe_objs; by rewrite Ep). lia.
  - intros j S Hj. destruct (Hr j S) as (es & Hes & Hn); [| exists es; split; [done | lia]].
    revert Hj. unfold pipe_at. rewrite Eps. cbn [w_mod w_use]. unfold pipe_par. by rewrite El.
Qed.

(** The devices do not notice what happens to the pipes. *)
Lemma mod_safe_pipes s ds size mem ps ps' :
  mod_safe s ds size mem -> scull_p_devices s = Some ps -> length ps' = length ps ->
  mod_safe (set_p (scull_p_dev s) (Some ps') s) ds size mem.
Proof.
  intros [[U1 U2 U3 U4 U5 U6] S] Hp Hl. split; [split |]; cbn; try done.
  - intros ps0 [= <-]. rewrite Hl. by apply U5.
  - unfold regions_ok in *. cbn. by rewrite Hp in U6.
Qed.

Lemma whole_ok_pipe n0 plen nr size n W i T n' T' :
  0 < plen < 2 ^ 63 -> whole_ok n0 plen nr size n W -> pipe_at W i = Some T ->
  pstep (w_objs W) T n' T' -> whole_ok n0 plen nr size (S n) (put_sys i n' T' W).
Proof.
  intros Hpl [(ds & mem & MS & Hl & Ho) Hp Hr] HT Hs.
  destruct (Hr i T HT) as (es & Hes & Hn). pose proof (run_pipe_inv plen _ _ _ Hpl Hes) as HI.
  destruct (pstep_paid _ _ _ _ HI Hs) as [Hk Hpar].
  destruct (pipe_at_Some W i T HT) as (ps & x & u & Eps & Hx & Hux & ET).
  assert (scull_p_devices (w_mod (put_sys i n' T' W)) =
    Some (alter (fun y => (fst y, pipe (s_pipe T'))) i ps)) as Eps'.
  { cbn [put_sys w_mod set_p scull_p_devices]. by rewrite Eps. }
  split; [| done |].
  - exists ds, mem. split; [| split; [done |]].
    + cbn [put_sys w_mod]. rewrite Eps. eapply mod_safe_pipes; [done | done | apply length_alter].
    + unfold pipe_objs in *. rewrite Eps'. rewrite Eps in Ho. rewrite (bufs_alter ps i x _ Hx).
      subst T. unfold owned in Hk. cbn [s_pipe pipe] in Hk. cbn [put_sys w_objs].
      destruct (buf (snd x)), (buf (pipe (s_pipe T'))); lia.
  - intros j U HU. apply (pipe_at_put W i n' T T' j U HT Hpar) in HU. case_decide as Hj.
    + subst j U. destruct (pstep_step _ _ _ _ Hs) as [e He]. exists (es ++ [e]).
      split; [by eapply run_snoc |]. rewrite length_app. cbn. lia.
    + destruct (Hr j U HU) as (es' & ? & ?). exists es'. split; [done | lia].
Qed.

Lemma whole_ok_steps n0 plen nr size n W W' :
  0 < plen < 2 ^ 63 -> whole_ok n0 plen nr size 0 W -> wsteps n W W' ->
  whole_ok n0 plen nr size n W'.
Proof.
  intros Hpl H0 Hs. induction Hs as [| n W1 W2 W3 _ IH Hs]; [done |]. specialize (IH H0).
  destruct Hs; [by eapply whole_ok_call | by eapply whole_ok_pipe].
Qed.

(** The module as [loaded] leaves it. *)
Lemma whole_ok_fresh nr p s n n0 :
  load_params_ok p -> ScullLoad.loaded nr p s -> n = n0 + 1 + pipe_objs s ->
  whole_ok n0 (scull_p_len p) nr (scull_quantum p) 0 (fresh s n).
Proof.
  intros Hp L Hn. destruct (just_loaded_safe nr p s Hp L) as (ds & MS & Hl & Hown).
  destruct L as [[E1 E2] _ _ _ _ Lp]. split; cbn [fresh w_mod w_objs w_use].
  - exists ds, ∅. split_and!; [done | done | lia].
  - by rewrite E1.
  - intros i S (ps & x & u & Eps & Hx & Hu & ->)%pipe_at_Some. cbn [fresh w_mod w_use] in *.
    apply lookup_replicate in Hu as [-> _]. exists [].
    destruct (Lp ps Eps) as (_ & _ & Hnew). rewrite (Hnew i x Hx). unfold pipe_par. rewrite E1.
    split; [constructor | done].
Qed.

(** ** Properties *)

(** C5: the module, loaded with parameters that fit and used through its devices
    by unprivileged callers and through its pipes by any threads in any
    interleaving, as long as nobody changes the size of the pipes' buffers
    (SCULL_P_IOCTSIZE, which needs no privilege, see [resize_overflows]): every
    pipe has then gone through a run of its own from the state it was set up in,
    so that what holds for one pipe alone holds for each of them; no call on a
    device oopses, nor, in fewer than 2^62 steps, a call or a wait on a pipe that
    is not the proper FIFO, except for the lock assertion that CONFIG_LOCKDEP
    makes a waiting writer fail ([pipe_never_oopses]); and unloading gives back
    to [kfree] exactly as many objects as were taken from [kmalloc]: the arrays
    of devices and pipes, those of the quantum sets, and the buffers (the quanta
    come from the cache, for which see [scull_cleanup_ok]). *)
Theorem scull_whole_ok major minor nr p_nr p k :
  0 <= major < 4096 -> 0 <= minor -> (0 < nr)%nat -> minor + Z.of_nat nr < 2 ^ 20 ->
  held k = false -> load_params_ok p -> 0 < scull_p_len p < 2 ^ 63 ->
  wp scull_init_module (fun r k1 s1 =>
    (r < 0 /\ nothing_held s1 /\ kobjs k1 = kobjs k) \/
    (r = 0 /\ forall n W, wsteps n (fresh s1 (kobjs k1)) W ->
       (forall i T, pipe_at W i = Some T -> exists es,
          run step (new_sys (Params SCULL_QUANTUM SCULL_QSET (scull_p_len p)) (Z.of_nat i)) es T) /\
       (forall i c k2, (i < nr)%nat -> call_ok c -> held k2 = false ->
          wp (mod_call i c) (fun _ k3 _ => held k3 = false) k2 (w_mod W)) /\
       (forall i T t c k2, pipe_at W i = Some T -> Z.of_nat i <> PROPER_FIFO_BEH_IDX ->
          Z.of_nat n < 2 ^ 62 -> idle k2 ->
          (s_threads T !! t = None -> may_call T c ->
             wp (enter c) (fun _ _ _ => True) k2 (s_pipe T)) /\
          (forall q, s_threads T !! t = Some (c, q) ->
             wp (again c) (fun _ _ _ => True) k2 (s_pipe T) /\
             wpc (asserts c k2) (wait t c) (fun _ _ _ => True) k2 (s_pipe T))) /\
       (forall k2, held k2 = false -> kobjs k2 = w_objs W ->
          wp scull_cleanup_module (fun _ k3 s3 =>
            held k3 = false /\ nothing_held s3 /\ kobjs k3 = kobjs k) k2 (w_mod W))))
    k (unloaded major minor nr p_nr p).
Proof.
  intros Hma Hmi Hn Hlim Hh Hp Hpl.
  eapply wp_mono; [by apply wp_scull_init |].
  intros r k1 s1 (Hh1 & [(-> & L & Ek1) | (w & Hr & Hno & Ek1 & _)]); [right | by left].
  split; [done |]. intros n W HW.
  pose proof (whole_ok_fresh nr p s1 _ _ Hp L Ek1) as H0.
  pose proof (whole_ok_steps _ _ _ _ _ _ _ Hpl H0 HW) as [(ds & mem & MS & Hl & Ho) Hlen Hr].
  split_and!.
  - intros i T HT. destruct (Hr i T HT) as (es & Hes & _). by exists es.
  - intros i c k2 Hi Hc Hk2. eapply wp_mono;
      [apply (wp_mod_call i c k2 _ ds (scull_quantum p) mem); [done | done | by rewrite Hl | apply Hc] |].
    by intros a k3 s3 [? _].
  - intros i T t c k2 HT Hi Hn2 Hk2. destruct (Hr i T HT) as (es & Hes & Hle).
    by eapply run_pipe_safe.
  - intros k2 Hk2 Hko. destruct MS as [[U1 U2 U3 U4 U5 U6] _].
    eapply (wp_cleanup _ _ _ ds (scull_quantum p) mem); [done | done | done | by rewrite U3 | done.. |].
    intros mem3 _. split; [done |]. split; [done |]. cbn [kobjs]. lia.
Qed.

(** ** Witnesses *)

Definition loaded_module : mod_st :=
  default (unloaded 240 0 4 4 default_params)
    (run_state scull_init_module all_ok (unloaded 240 0 4 4 default_params)).

(** A reader opens the first pipe of the module: its buffer is one more object. *)
Lemma pipe_opened : exists W, wsteps 1 (fresh loaded_module 2) W /\ w_objs W = 3.
Proof.
  eexists. split.
  - eapply wsteps_step; [constructor |].
    eapply (w_pipe (fresh loaded_module 2) 0); [vm_compute; reflexivity |].
    apply (p_enter _ 0 (COpen rfile) (Kern (fun _ => 0) false 2 false));
      [reflexivity | split; [reflexivity | by intros t x Ht] | done | vm_compute; reflexivity].
  - reflexivity.
Qed.

Lemma scull_whole_ok_witness :
  wp scull_init_module (fun r k1 s1 =>
    r < 0 \/
    forall n W, wsteps n (fresh s1 (kobjs k1)) W ->
      forall k2, held k2 = false -> kobjs k2 = w_objs W ->
        wp scull_cleanup_module (fun _ k3 s3 => nothing_held s3 /\ kobjs k3 = 0) k2 (w_mod W))
    all_ok (unloaded 240 0 4 4 default_params).
Proof.
  eapply wp_mono; [apply (scull_whole_ok 240 0 4 4 default_params all_ok) |].
  - lia.
  - lia.
  - lia.
  - lia.
  - reflexivity.
  - unfold load_params_ok. cbn. unfold SCULL_QUANTUM, SCULL_QSET. lia.
  - split; reflexivity.
  - cbv beta. intros r k1 s1 [[Hr _] | (_ & H)]; [by left | right]. intros n W HW k2 Hk Ho.
    eapply wp_mono; [exact (proj2 (proj2 (proj2 (H n W HW))) k2 Hk Ho) |].
    cbv beta. intros a k3 s3 (_ & H1 & H2). exact (conj H1 H2).
Defined.
