(* ===== verification/Edu.v ===== *)
(** * The edu device: interrupts and attributes (src/edu/state.h, irq.c, sysfs.c)

    The state of one device and the code that runs on it: the interrupt handler
    and its thread, the timer, and the driver attributes.  A read of a device
    register is answered by the stream of the kernel, writes are logged in
    order.  [test_irq_show] is cut where it drops the spinlock; EduIrq.v puts
    the pieces together. *)

From Stdlib Require Import Ascii.
From S2P Require Import Prelude Kernel Text.

(** ** Data (src/edu/hw.h) *)

Definition QEDU_MMIO_ID_REG : Z := 0.
Definition QEDU_INVERSE_REG : Z := 4.
Definition QEDU_STATUS_REG : Z := 32.
Definition QEDU_INTR_STATUS_REG : Z := 36.
Definition QEDU_INTR_RAISE_REG : Z := 96.
Definition QEDU_INTR_ACK_REG : Z := 100.
Definition QEDU_DMA_CMD_REG : Z := 152.

Definition QEDU_STATUS_REG_BUSY : Z := 1.
Definition QEDU_STATUS_REG_IRQ_REQ : Z := 128.
Definition QEDU_DMA_CMD_IN_TRANSFER : Z := 1.
Definition QEDU_DMA_CMD_IRQ_REQ : Z := 4.

Definition QEDU_STATE_IRQ_WAIT : Z := 0.
Definition QEDU_STATE_IRQ_OK : Z := 1.
Definition QEDU_STATE_IRQ_TIMEDOUT : Z := 2.
Definition QEDU_STATE_SHUTDOWN : Z := 3.

Definition QEDU_MAJOR_VERSION (val : Z) : Z := Z.shiftr val 24.
Definition QEDU_MINOR_VERSION (val : Z) : Z := Z.shiftr (wrap32 (Z.shiftl val 8)) 24.
Definition QEDU_IS_ID (val : Z) : bool := Z.land val 1048575 =? 237.

(** The fields the code reads or writes after the probe; [timer] is the expiry
    of the timer when it is pending, [irq_q] the threads asleep on the queue. *)
Record qedu_device := Qedu {
  id : Z;
  timeout : Z;
  state : Z;
  timer : option Z;
  irq_q : gset nat
}.

(** The device, and the writes to its registers so far, oldest first. *)
Record edu_st := ESt { edu : qedu_device; bus : list (Z * Z) }.

Definition on_edu (f : qedu_device -> qedu_device) (s : edu_st) : edu_st :=
  ESt (f (edu s)) (bus s).

Definition set_state (z : Z) (e : qedu_device) : qedu_device :=
  Qedu (id e) (timeout e) z (timer e) (irq_q e).

Definition set_timer (t : option Z) (e : qedu_device) : qedu_device :=
  Qedu (id e) (timeout e) (state e) t (irq_q e).

Definition set_irq_q (q : gset nat) (e : qedu_device) : qedu_device :=
  Qedu (id e) (timeout e) (state e) (timer e) q.

(** ** Kernel services *)

(** The lock is a spinlock; [held] is the same field as for a mutex. *)
Definition spin_lock_irqsave : M edu_st unit := mutex_lock.
Definition spin_unlock_irqrestore : M edu_st unit := mutex_unlock.

(** [false]: another processor holds the lock. *)
Definition spin_trylock_irqsave : M edu_st bool :=
  a ← ask; if a =? 0 then spin_lock_irqsave;; mret true else mret false.

Definition readl (reg : Z) : M edu_st Z := a ← ask; mret (wrap32 a).

Definition writel (val reg : Z) : M edu_st unit :=
  modify (fun s => ESt (edu s) (bus s ++ [(reg, wrap32 val)])).

Definition set_bit (n : Z) : M edu_st unit :=
  modify (on_edu (fun e => set_state (Z.setbit (state e) n) e)).

Definition clear_bit (n : Z) : M edu_st unit :=
  modify (on_edu (fun e => set_state (Z.clearbit (state e) n) e)).

(** [add_timer] is a bug on a timer that is pending ([BUG_ON]). *)
Definition add_timer (expires : Z) : M edu_st unit :=
  e ← gets edu;
  check (match timer e with None => true | Some _ => false end) TimerPending;;
  modify (on_edu (set_timer (Some expires))).

Definition mod_timer (expires : Z) : M edu_st unit :=
  modify (on_edu (set_timer (Some expires))).

Definition del_timer : M edu_st unit := modify (on_edu (set_timer None)).

Definition wake_up_interruptible_sync : M edu_st unit :=
  modify (on_edu (set_irq_q ∅)).

(** The clock. *)
Definition jiffies : M edu_st Z := a ← ask; mret (wrap64 a).

(** ** The state bits (src/edu/state.h) *)

Definition __qedu_is_irq_done (e : qedu_device) : bool :=
  Z.testbit (state e) QEDU_STATE_IRQ_OK ||
  Z.testbit (state e) QEDU_STATE_IRQ_TIMEDOUT ||
  Z.testbit (state e) QEDU_STATE_SHUTDOWN.

Definition qedu_is_irq_done : M edu_st bool :=
  lockdep_assert_held;; e ← gets edu; mret (__qedu_is_irq_done e).

Definition qedu_is_shutting_down : M edu_st bool :=
  lockdep_assert_held;; e ← gets edu; mret (Z.testbit (state e) QEDU_STATE_SHUTDOWN).

Definition qedu_is_waiting_irq : M edu_st bool :=
  e ← gets edu; mret (Z.testbit (state e) QEDU_STATE_IRQ_WAIT).

Definition qedu_set_waiting_irq : M edu_st unit :=
  set_bit QEDU_STATE_IRQ_WAIT;;
  e ← gets edu;
  now ← jiffies;
  add_timer (wrap64 (now + timeout e)).

Definition qedu_clear_waiting_irq : M edu_st unit :=
  clear_bit QEDU_STATE_IRQ_WAIT;;
  clear_bit QEDU_STATE_IRQ_OK;;
  clear_bit QEDU_STATE_IRQ_TIMEDOUT.

(** ** Interrupts (src/edu/irq.c) *)

Inductive irqreturn := IRQ_NONE | IRQ_HANDLED | IRQ_WAKE_THREAD.

Definition __qedu_is_irq_raised (intr_status : Z) : bool :=
  negb (Z.land intr_status 7 =? 0).

Definition __qedu_handle_irq (intr_status : Z) : M edu_st unit :=
  del_timer;;
  set_bit QEDU_STATE_IRQ_OK;;
  writel intr_status QEDU_INTR_ACK_REG;;
  wake_up_interruptible_sync.

Definition qedu_handle_irq : M edu_st irqreturn :=
  intr_status ← readl QEDU_INTR_STATUS_REG;
  if negb (__qedu_is_irq_raised intr_status) then mret IRQ_NONE
  else
    b ← spin_trylock_irqsave;
    if (b : bool) then
      __qedu_handle_irq intr_status;;
      spin_unlock_irqrestore;;
      mret IRQ_HANDLED
    else mret IRQ_WAKE_THREAD.

Definition qedu_thr_handle_irq : M edu_st irqreturn :=
  intr_status ← readl QEDU_INTR_STATUS_REG;
  spin_lock_irqsave;;
  __qedu_handle_irq intr_status;;
  spin_unlock_irqrestore;;
  mret IRQ_HANDLED.

Definition __qedu_is_irq_set (status dma_status : Z) : bool :=
  flag_set status QEDU_STATUS_REG_IRQ_REQ || flag_set dma_status QEDU_DMA_CMD_IRQ_REQ.

Definition __qedu_is_busy_irq (status dma_status : Z) : bool :=
  flag_set status QEDU_STATUS_REG_BUSY || flag_set dma_status QEDU_DMA_CMD_IN_TRANSFER.

(** The way [qedu_timeout] ended. *)
Inductive timeout_exit := TimeoutRaised | TimeoutBusy | TimeoutSet.

Definition qedu_timeout : M edu_st timeout_exit :=
  spin_lock_irqsave;;
  intr_status ← readl QEDU_INTR_STATUS_REG;
  x ← (if __qedu_is_irq_raised intr_status then mret TimeoutRaised
       else
         status ← readl QEDU_STATUS_REG;
         dma_status ← readl QEDU_DMA_CMD_REG;
         if __qedu_is_irq_set status dma_status && __qedu_is_busy_irq status dma_status then
           e ← gets edu;
           now ← jiffies;
           mod_timer (wrap64 (now + timeout e));;
           mret TimeoutBusy
         else
           set_bit QEDU_STATE_IRQ_TIMEDOUT;;
           wake_up_interruptible_sync;;
           mret TimeoutSet);
  spin_unlock_irqrestore;;
  mret x.

(** ** The attributes (src/edu/sysfs.c) *)

(** What a call on an attribute gives back: the value and the page, which
    [scnprintf] never has to cut (PAGE_SIZE is 4096). *)
Inductive show := Show (size : Z) (page : string) | ShowSleep.

Definition printed (page : string) : show := Show (Z.of_nat (String.length page)) page.

Definition version_show : M edu_st show :=
  e ← gets edu;
  mret (printed ("major " +:+ fmt_u (QEDU_MAJOR_VERSION (id e)) +:+ " minor " +:+
                 fmt_u (QEDU_MINOR_VERSION (id e)) +:+ newline)).

Definition inverse_show : M edu_st show :=
  spin_lock_irqsave;;
  val ← readl QEDU_INVERSE_REG;
  spin_unlock_irqrestore;;
  mret (printed (fmt_x val +:+ newline)).

Definition UINT_MAX : Z := 4294967295.

Section Store.
(** [sscanf] with %llx: the number the text starts with, [None] when it starts
    with none; the caller's variable is then left uninitialised. *)
Variable sscanf_llx : string -> option Z.

Definition inverse_store (page : string) (count : Z) : M edu_st Z :=
  val ← (match sscanf_llx page with
         | Some v => mret v
         | None => a ← ask; mret (wrap64 a)
         end);
  if UINT_MAX <? val then mret (- EINVAL)
  else
    spin_lock_irqsave;;
    writel val QEDU_INVERSE_REG;;
    spin_unlock_irqrestore;;
    mret count.
End Store.

(** The test of the loop of [test_irq_show] and what follows it, with the lock
    held. *)
Definition test_irq_check : M edu_st show :=
  done ← qedu_is_irq_done;
  if negb done then
    spin_unlock_irqrestore;;
    mret ShowSleep
  else
    e ← gets edu;
    let page := if Z.testbit (state e) QEDU_STATE_IRQ_OK then "IRQ OK" +:+ newline
                else "IRQ FAIL " +:+ fmt_x (state e) +:+ newline in
    qedu_clear_waiting_irq;;
    spin_unlock_irqrestore;;
    mret (printed page).

Definition test_irq_show : M edu_st show :=
  spin_lock_irqsave;;
  shutdown ← qedu_is_shutting_down;
  if (shutdown : bool) then
    spin_unlock_irqrestore;;
    mret (Show (- ECANCELED) "")
  else
    waiting ← qedu_is_waiting_irq;
    if (waiting : bool) then
      spin_unlock_irqrestore;;
      mret (Show (- EBUSY) "")
    else
      writel (Z.shiftl 1 1) QEDU_INTR_RAISE_REG;;
      qedu_set_waiting_irq;;
      test_irq_check.

(** After [finish_wait], without a signal. *)
Definition test_irq_again : M edu_st show :=
  spin_lock_irqsave;;
  test_irq_check.

(** Lines 83-85: [true] when the thread goes on without sleeping. *)
Definition test_irq_wait (t : nat) : M edu_st bool :=
  e ← gets edu;
  if negb (__qedu_is_irq_done e) then
    modify (on_edu (fun e => set_irq_q ({[t]} ∪ irq_q e) e));;
    mret false
  else mret true.

(** A device after its probe. *)
Definition new_edu (id timeout : Z) : edu_st := ESt (Qedu id timeout 0 None ∅) [].
