(* ===== verification/EduIrq.v ===== *)
(** * The interrupt protocol of the edu device

    What the handlers, the timer and [test_irq_show] do, each on every branch;
    then the device as a system of threads in [test_irq_show], the interrupt,
    its thread, the timer and the removal, interleaved in any order. *)

From Stdlib Require Import Ascii.
From S2P Require Import Prelude Kernel Text Edu.

Implicit Types (k : kern) (s : edu_st) (e : qedu_device).

(** ** Stepping through the code *)

Ltac edu_step :=
  cbv beta iota;
  lazymatch goal with
  | |- wpc _ spin_lock_irqsave _ _ _ => apply wp_lock; [done |]
  | |- wpc _ spin_unlock_irqrestore _ _ _ => apply wp_unlock; [done |]
  | |- wpc _ (check _ _) _ _ _ => apply wpc_check; intros
  | |- wpc _ (readl _) _ _ _ => unfold readl
  | |- wpc _ jiffies _ _ _ => unfold jiffies
  | |- wpc _ (writel _ _) _ _ _ => apply wp_modify
  | |- wpc _ (set_bit _) _ _ _ => apply wp_modify
  | |- wpc _ (clear_bit _) _ _ _ => apply wp_modify
  | |- wpc _ (mod_timer _) _ _ _ => apply wp_modify
  | |- wpc _ del_timer _ _ _ => apply wp_modify
  | |- wpc _ wake_up_interruptible_sync _ _ _ => apply wp_modify
  | |- _ => wp_step
  end.

Ltac edu_steps := repeat (edu_step; cbn [held kobjs ans lockdep]).

(** ** Definitions *)

Definition bit (e : qedu_device) (n : Z) : bool := Z.testbit (state e) n.

(** The state of the device after an interrupt was handled. *)
Definition handled_irq (status : Z) (s : edu_st) : edu_st :=
  ESt (Qedu (id (edu s)) (timeout (edu s)) (Z.setbit (state (edu s)) QEDU_STATE_IRQ_OK) None ∅)
    (bus s ++ [(QEDU_INTR_ACK_REG, wrap32 status)]).

(** The state bits after a test has ended. *)
Definition cleared (z : Z) : Z :=
  Z.clearbit (Z.clearbit (Z.clearbit z QEDU_STATE_IRQ_WAIT) QEDU_STATE_IRQ_OK)
    QEDU_STATE_IRQ_TIMEDOUT.

(** A test is started: the interrupt is raised and the timer armed. *)
Definition started (expires : Z) (s : edu_st) : edu_st :=
  ESt (Qedu (id (edu s)) (timeout (edu s)) (Z.setbit (state (edu s)) QEDU_STATE_IRQ_WAIT)
         (Some expires) (irq_q (edu s)))
    (bus s ++ [(QEDU_INTR_RAISE_REG, 2)]).

(** A test is ended. *)
Definition ended (s : edu_st) : edu_st := on_edu (fun e => set_state (cleared (state e)) e) s.

Definition result_page (s : edu_st) : string :=
  if bit (edu s) QEDU_STATE_IRQ_OK then "IRQ OK" +:+ newline
  else "IRQ FAIL " +:+ fmt_x (state (edu s)) +:+ newline.

(** What the loop does with the lock: it ends the test or goes to sleep. *)
Definition checked (s : edu_st) (r : show) (s' : edu_st) : Prop :=
  if __qedu_is_irq_done (edu s) then r = printed (result_page s) /\ s' = ended s
  else r = ShowSleep /\ s' = s.

(** ** Lemmas *)

Section Code.
Context {c : Prop}.

Lemma wp_is_done (Q : bool -> kern -> edu_st -> Prop) k s :
  held k = true -> Q (__qedu_is_irq_done (edu s)) k s -> wpc c qedu_is_irq_done Q k s.
Proof. intros Hh HQ. unfold qedu_is_irq_done. by edu_steps. Qed.

Lemma wp_test_irq_check (Q : show -> kern -> edu_st -> Prop) k s :
  held k = true ->
  (forall r k' s', held k' = false -> checked s r s' -> Q r k' s') ->
  wpc c test_irq_check Q k s.
Proof.
  intros Hh HQ. unfold test_irq_check, checked, qedu_clear_waiting_irq in *. edu_step.
  apply wp_is_done; [done |]. destruct (__qedu_is_irq_done (edu s)) eqn:E; cbn [negb].
  - edu_steps; try done. apply HQ; [done |]. split; [done |]. by destruct s as [[] ?].
  - edu_steps; try done. by apply HQ.
Qed.

Lemma wp_handle status (Q : unit -> kern -> edu_st -> Prop) k s :
  Q tt k (handled_irq status s) -> wpc c (__qedu_handle_irq status) Q k s.
Proof. intros HQ. unfold __qedu_handle_irq. edu_steps. by destruct s as [[] ?]. Qed.
End Code.

(** What [qedu_handle_irq] does when it reads [status]: nothing when the device
    raised no interrupt, or when the lock is taken and the thread must handle
    it. *)
Definition irq_effect (status : Z) (s : edu_st) (r : irqreturn) (s' : edu_st) : Prop :=
  match r with
  | IRQ_NONE => __qedu_is_irq_raised status = false /\ s' = s
  | IRQ_WAKE_THREAD => __qedu_is_irq_raised status = true /\ s' = s
  | IRQ_HANDLED => __qedu_is_irq_raised status = true /\ s' = handled_irq status s
  end.

(** The register reads as the next answer of the stream. *)
Definition next_read (k : kern) : Z := wrap32 (ans k 0%nat).

Lemma wp_readl {c : Prop} reg (Q : Z -> kern -> edu_st -> Prop) k s :
  (forall f, Q (next_read k) (Kern f (held k) (kobjs k) (lockdep k)) s) ->
  wpc c (readl reg) Q k s.
Proof. intros HQ. apply HQ. Qed.

Lemma wp_irq {c : Prop} k s :
  held k = false ->
  wpc c qedu_handle_irq (fun r k' s' =>
    held k' = false /\ irq_effect (next_read k) s r s') k s.
Proof.
  intros Hh. unfold qedu_handle_irq, spin_trylock_irqsave. edu_step.
  apply wp_readl. intros f. destruct (__qedu_is_irq_raised (next_read k)) eqn:E; cbn [negb].
  - edu_steps; done.
  - by edu_steps.
Qed.

Lemma wp_thr {c : Prop} k s :
  held k = false ->
  wpc c qedu_thr_handle_irq (fun r k' s' =>
    held k' = false /\ r = IRQ_HANDLED /\ exists status, s' = handled_irq status s) k s.
Proof.
  intros Hh. unfold qedu_thr_handle_irq. edu_steps. apply wp_handle. edu_steps. eauto.
Qed.

(** The three ways out of [qedu_timeout]. *)
Definition timeout_effect (s : edu_st) (x : timeout_exit) (s' : edu_st) : Prop :=
  match x with
  | TimeoutRaised => s' = s
  | TimeoutBusy => exists expires, s' = on_edu (set_timer (Some expires)) s
  | TimeoutSet =>
      s' = on_edu (fun e => set_irq_q ∅
             (set_state (Z.setbit (state e) QEDU_STATE_IRQ_TIMEDOUT) e)) s
  end.

Lemma wp_timeout {c : Prop} k s :
  held k = false ->
  wpc c qedu_timeout (fun x k' s' => held k' = false /\ timeout_effect s x s') k s.
Proof.
  intros Hh. unfold qedu_timeout. edu_steps; (split; [done |]); by try eexists.
Qed.

(** What a call does up to the first point without the lock. *)
Definition test_irq_effect (s : edu_st) (r : show) (s' : edu_st) : Prop :=
  if bit (edu s) QEDU_STATE_SHUTDOWN then r = Show (- ECANCELED) "" /\ s' = s
  else if bit (edu s) QEDU_STATE_IRQ_WAIT then r = Show (- EBUSY) "" /\ s' = s
  else timer (edu s) = None /\ exists expires, checked (started expires s) r s'.

Lemma wp_test_irq_show {c : Prop} k s :
  held k = false ->
  (timer (edu s) <> None -> bit (edu s) QEDU_STATE_IRQ_WAIT = false ->
   bit (edu s) QEDU_STATE_SHUTDOWN = false -> c) ->
  wpc c test_irq_show (fun r k' s' => held k' = false /\ test_irq_effect s r s') k s.
Proof.
  intros Hh Hc. unfold test_irq_show, test_irq_effect, qedu_is_shutting_down,
    qedu_is_waiting_irq, qedu_set_waiting_irq, add_timer, bit in *.
  edu_steps; try done; cbn [timer edu on_edu set_state] in *;
    destruct (timer (edu s)) eqn:Ht; try done.
  - apply wp_test_irq_check; [done |]. intros r k' s' Hh' Hr. split; [done |].
    split; [done |]. eexists. by destruct s as [[] ?].
  - by apply Hc.
Qed.

(** ** The system *)

(** A caller of [test_irq_show] between two sections: about to test the bits
    before it sleeps, asleep, or about to take the lock again. *)
Inductive epc := EWait | EAsleep | EAgain.

(** What the kernel has under way for the driver.  [i_fired]: the timer has
    expired, which takes it off the list of pending ones, and its callback is
    running but has not got the lock yet; [i_irq], [i_thr]: the handler and its
    thread are running and have read this from the status register;
    [i_woken]: the thread has work; [i_line]: the timer's callback saw the
    interrupt up and left it to the handler. *)
Record irqs := Irqs {
  i_fired : bool;
  i_irq : option Z;
  i_woken : bool;
  i_thr : option Z;
  i_line : bool
}.

Definition set_fired (b : bool) (v : irqs) : irqs :=
  Irqs b (i_irq v) (i_woken v) (i_thr v) (i_line v).

Definition set_line (v : irqs) : irqs :=
  Irqs (i_fired v) (i_irq v) (i_woken v) (i_thr v) true.

Definition irq_reads (z : Z) (v : irqs) : irqs :=
  Irqs (i_fired v) (Some z) (i_woken v) (i_thr v) (i_line v).

(** The handler returns. *)
Definition irq_returns (r : irqreturn) (v : irqs) : irqs :=
  Irqs (i_fired v) None
    (match r with IRQ_WAKE_THREAD => true | _ => i_woken v end) (i_thr v)
    (match r with IRQ_HANDLED => false | _ => i_line v end).

(** The thread starts on its work; it can be woken again from now on. *)
Definition thr_reads (z : Z) (v : irqs) : irqs :=
  Irqs (i_fired v) (i_irq v) false (Some z) (i_line v).

Definition thr_returns (v : irqs) : irqs :=
  Irqs (i_fired v) (i_irq v) (i_woken v) None false.

Definition timeout_returns (x : timeout_exit) (v : irqs) : irqs :=
  set_fired false (match x with TimeoutRaised => set_line v | _ => v end).

(** [e_live]: the attribute is still there. *)
Record esys := ESys {
  e_st : edu_st;
  e_callers : gmap nat epc;
  e_irqs : irqs;
  e_live : bool
}.

Definition callers_after (t : nat) (r : show) (cs : gmap nat epc) : gmap nat epc :=
  match r with Show _ _ => delete t cs | ShowSleep => <[t := EWait]> cs end.

(** Code that holds the lock is one step.  The handler and its thread read the
    status register before they take it, so their reads are steps of their own;
    so is the expiry of the timer, after which [del_timer] no longer stops the
    callback.  [reads s z]: the status register can read as [z] in [s]. *)
Section Steps.
Variable reads : edu_st -> Z -> Prop.

Inductive estep : esys -> esys -> Prop :=
  | e_enter s cs v t k r k' s' :
      cs !! t = None -> held k = false -> test_irq_show k s = Done (r, k', s') ->
      estep (ESys s cs v true) (ESys s' (callers_after t r cs) v true)
  | e_again s cs v lv t k r k' s' :
      cs !! t = Some EAgain -> held k = false -> test_irq_again k s = Done (r, k', s') ->
      estep (ESys s cs v lv) (ESys s' (callers_after t r cs) v lv)
  | e_wait s cs v lv t k b k' s' :
      cs !! t = Some EWait -> test_irq_wait t k s = Done (b, k', s') ->
      estep (ESys s cs v lv) (ESys s' (<[t := if b then EAgain else EAsleep]> cs) v lv)
  | e_woken s cs v lv t :
      cs !! t = Some EAsleep -> t ∉ irq_q (edu s) ->
      estep (ESys s cs v lv) (ESys s (<[t := EAgain]> cs) v lv)
  | e_signal s cs v lv t q :
      cs !! t = Some q -> q <> EWait ->
      estep (ESys s cs v lv)
        (ESys (on_edu (fun e => set_irq_q (irq_q e ∖ {[t]}) e) s) (delete t cs) v lv)
  | e_irq_read s cs v lv z :
      i_irq v = None -> reads s z -> estep (ESys s cs v lv) (ESys s cs (irq_reads z v) lv)
  | e_irq s cs v lv z k r k' s' :
      i_irq v = Some z -> next_read k = z -> held k = false ->
      qedu_handle_irq k s = Done (r, k', s') ->
      estep (ESys s cs v lv) (ESys s' cs (irq_returns r v) lv)
  | e_thr_read s cs v lv z :
      i_woken v = true -> i_thr v = None -> reads s z ->
      estep (ESys s cs v lv) (ESys s cs (thr_reads z v) lv)
  | e_thr s cs v lv z k r k' s' :
      i_thr v = Some z -> next_read k = z -> held k = false ->
      qedu_thr_handle_irq k s = Done (r, k', s') ->
      estep (ESys s cs v lv) (ESys s' cs (thr_returns v) lv)
  | e_expire s cs v lv expires :
      timer (edu s) = Some expires -> i_fired v = false ->
      estep (ESys s cs v lv) (ESys (on_edu (set_timer None) s) cs (set_fired true v) lv)
  | e_timeout s cs v lv k x k' s' :
      i_fired v = true -> reads s (next_read k) -> held k = false ->
      qedu_timeout k s = Done (x, k', s') ->
      estep (ESys s cs v lv) (ESys s' cs (timeout_returns x v) lv)
  | e_shutdown s v :
      estep (ESys s ∅ v true)
        (ESys (on_edu (fun e => set_state (Z.setbit (state e) QEDU_STATE_SHUTDOWN) e) s) ∅ v false)
  | e_del_timer_sync s v :
      i_fired v = false ->
      estep (ESys s ∅ v false) (ESys (on_edu (set_timer None) s) ∅ v false).

Inductive esteps : esys -> esys -> Prop :=
  | esteps_refl S : esteps S S
  | esteps_step S1 S2 S3 : estep S1 S2 -> esteps S2 S3 -> esteps S1 S3.

Lemma esteps_trans S1 S2 S3 : esteps S1 S2 -> esteps S2 S3 -> esteps S1 S3.
Proof. induction 1; intros; [done |]. econstructor; eauto. Qed.
End Steps.

(** A register that reads as anything. *)
Definition any_read (s : edu_st) (z : Z) : Prop := True.

Definition no_irqs : irqs := Irqs false None false None false.

Definition new_esys (id timeout : Z) : esys := ESys (new_edu id timeout) ∅ no_irqs true.

(** The interrupt, its thread or the timer's callback is on its way. *)
Definition under_way (v : irqs) : Prop :=
  i_fired v = true \/ i_woken v = true \/ is_Some (i_thr v) \/ i_line v = true.

(** Somebody is going to set one of the bits a caller waits for, or has. *)
Definition coming (S : esys) : Prop :=
  __qedu_is_irq_done (edu (e_st S)) = true \/ timer (edu (e_st S)) <> None \/
  under_way (e_irqs S).

(** At most one caller is in the loop, it owns the WAIT bit, what it waits for
    is coming, and only callers that are asleep with nothing done are on the
    queue. *)
Record einv (S : esys) : Prop := EInv {
  ei_one : forall t t', is_Some (e_callers S !! t) -> is_Some (e_callers S !! t') -> t = t';
  ei_wait : e_callers S <> ∅ -> bit (edu (e_st S)) QEDU_STATE_IRQ_WAIT = true;
  ei_coming : e_callers S <> ∅ -> coming S;
  ei_queue : forall t, t ∈ irq_q (edu (e_st S)) ->
    e_callers S !! t = Some EAsleep /\ __qedu_is_irq_done (edu (e_st S)) = false
}.

(** ** Bits *)

Lemma setbit_bit z n m : 0 <= n -> Z.testbit (Z.setbit z n) m = (n =? m) || Z.testbit z m.
Proof. intros. by apply Z.setbit_eqb. Qed.

Lemma clearbit_bit z n m : Z.testbit (Z.clearbit z n) m = Z.testbit z m && negb (n =? m).
Proof. apply Z.clearbit_eqb. Qed.

Lemma done_handled status s : __qedu_is_irq_done (edu (handled_irq status s)) = true.
Proof. unfold __qedu_is_irq_done. cbn [edu handled_irq state]. by rewrite setbit_bit. Qed.

Lemma wait_handled status s :
  bit (edu (handled_irq status s)) QEDU_STATE_IRQ_WAIT = bit (edu s) QEDU_STATE_IRQ_WAIT.
Proof. unfold bit. cbn [edu handled_irq state]. by rewrite setbit_bit. Qed.

Lemma shutdown_handled status s :
  bit (edu (handled_irq status s)) QEDU_STATE_SHUTDOWN = bit (edu s) QEDU_STATE_SHUTDOWN.
Proof. unfold bit. cbn [edu handled_irq state]. by rewrite setbit_bit. Qed.

Lemma wait_cleared s : bit (edu (ended s)) QEDU_STATE_IRQ_WAIT = false.
Proof.
  unfold bit. cbn [edu ended on_edu set_state state]. unfold cleared.
  by rewrite !clearbit_bit, !andb_false_r.
Qed.

Lemma started_done x s : __qedu_is_irq_done (edu (started x s)) = __qedu_is_irq_done (edu s).
Proof. unfold __qedu_is_irq_done. cbn [edu started state]. by rewrite !setbit_bit. Qed.

Lemma started_wait x s : bit (edu (started x s)) QEDU_STATE_IRQ_WAIT = true.
Proof. unfold bit. cbn [edu started state]. by rewrite setbit_bit. Qed.

(** ** The invariant *)

Lemma einv_empty s v lv :
  irq_q (edu s) = ∅ -> einv (ESys s ∅ v lv).
Proof.
  intros Hq. split; cbn; try done.
  - intros t t' [? H]. by rewrite lookup_empty in H.
  - rewrite Hq. by intros t ?%elem_of_empty.
Qed.

Lemma new_einv i timeout : einv (new_esys i timeout).
Proof. by apply einv_empty. Qed.

(** Nobody waits: nobody is on the queue. *)
Lemma einv_no_queue S : einv S -> e_callers S = ∅ -> irq_q (edu (e_st S)) = ∅.
Proof.
  intros [_ _ _ Hq] Hc. apply set_eq. intros t. split; [| by intros ?%elem_of_empty].
  intros [Ht _]%Hq. by rewrite Hc, lookup_empty in Ht.
Qed.

(** With the invariant a caller in the loop is the only one. *)
Lemma einv_only S t q : einv S -> e_callers S !! t = Some q -> e_callers S = {[t := q]}.
Proof.
  intros [H1 _ _ _] Ht. apply map_eq. intros t'.
  destruct (decide (t = t')) as [<- | Hne]; [by rewrite lookup_singleton_eq |].
  rewrite lookup_singleton_ne by done. destruct (e_callers S !! t') eqn:E; [| done].
  exfalso. apply Hne. by apply H1; eexists.
Qed.

(** The single caller of a state. *)
Lemma einv_single s t q v lv :
  bit (edu s) QEDU_STATE_IRQ_WAIT = true ->
  coming (ESys s {[t := q]} v lv) ->
  (forall t', t' ∈ irq_q (edu s) ->
    t' = t /\ q = EAsleep /\ __qedu_is_irq_done (edu s) = false) ->
  einv (ESys s {[t := q]} v lv).
Proof.
  intros Hw Hc Hq. split; cbn; try done.
  - intros t1 t2 [? [<- _]%lookup_singleton_Some] [? [<- _]%lookup_singleton_Some]. done.
  - intros t' Ht'. destruct (Hq t' Ht') as (-> & -> & ?). by rewrite lookup_singleton_eq.
Qed.

(** The section after [test_irq_check]. *)
Lemma einv_checked s t v lv s' r :
  bit (edu s) QEDU_STATE_IRQ_WAIT = true -> irq_q (edu s) = ∅ ->
  coming (ESys s ∅ v lv) -> checked s r s' ->
  einv (ESys s' (callers_after t r ∅) v lv).
Proof.
  unfold checked. intros Hw Hq Hc Hr.
  destruct (__qedu_is_irq_done (edu s)) eqn:E; destruct Hr as [-> ->].
  - unfold printed. cbn [callers_after]. rewrite delete_empty. by apply einv_empty.
  - cbn [callers_after]. rewrite insert_empty. apply einv_single; [done | done |].
    rewrite Hq. by intros t' ?%elem_of_empty.
Qed.

Lemma einv_handled status S v' :
  einv S -> einv (ESys (handled_irq status (e_st S)) (e_callers S) v' (e_live S)).
Proof.
  intros [H1 H2 H3 H4]. split; cbn [e_st e_callers].
  - done.
  - intros Hc. rewrite wait_handled. by apply H2.
  - intros _. left. apply done_handled.
  - by intros t ?%elem_of_empty.
Qed.

Lemma einv_coming S v' lv :
  einv S -> (under_way (e_irqs S) -> under_way v') ->
  einv (ESys (e_st S) (e_callers S) v' lv).
Proof.
  intros [H1 H2 H3 H4] Hv. split; cbn; try done.
  intros Hc. destruct (H3 Hc) as [? | [? | ?]].
  - by left.
  - right. by left.
  - right. right. by apply Hv.
Qed.

Lemma wp_test_irq_wait {c : Prop} t k s :
  wpc c (test_irq_wait t) (fun b _ s' =>
    if b then s' = s
    else __qedu_is_irq_done (edu s) = false /\
         s' = on_edu (fun e => set_irq_q ({[t]} ∪ irq_q e) e) s) k s.
Proof.
  unfold test_irq_wait. do 2 edu_step.
  destruct (__qedu_is_irq_done (edu s)) eqn:E; cbn [negb]; edu_steps; try done.
Qed.

Lemma einv_queue s t q v lv t' :
  einv (ESys s {[t := q]} v lv) -> t' ∈ irq_q (edu s) ->
  t' = t /\ q = EAsleep /\ __qedu_is_irq_done (edu s) = false.
Proof.
  intros HI [H Hd]%(ei_queue _ HI). cbn [e_callers e_st] in *.
  by apply lookup_singleton_Some in H as [<- <-].
Qed.

Section Invariant.
Context (reads : edu_st -> Z -> Prop).

Lemma einv_step S S' : einv S -> estep reads S S' -> einv S'.
Proof.
  intros HI Hs. destruct Hs as [s cs v t k r k' s' Ht Hk He
    | s cs v lv t k r k' s' Ht Hk He | s cs v lv t k b k' s' Ht He
    | s cs v lv t Ht Hq | s cs v lv t q Ht Hq | s cs v lv z Hz Hd | s cs v lv z k r k' s' Hz Hd Hk He
    | s cs v lv z Hz Hn Hd | s cs v lv z k r k' s' Hz Hd Hk He | s cs v lv x Hx Hf
    | s cs v lv k x k' s' Hf Hd Hk He | s v | s v Hf].
  - (* enter *)
    destruct (wpc_done _ _ _ _ _ _ _ (wp_test_irq_show (c := True) k s Hk (fun _ _ _ => I)) He)
      as [_ Hr].
    unfold test_irq_effect in Hr.
    destruct (bit _ QEDU_STATE_SHUTDOWN); [| destruct (bit _ QEDU_STATE_IRQ_WAIT) eqn:Ew].
    1, 2: destruct Hr as [-> ->]; cbn [callers_after]; by rewrite delete_id.
    destruct Hr as (Htm & x & Hr).
    assert (cs = ∅) as ->.
    { destruct (decide (cs = ∅)) as [| Hne]; [done |].
      pose proof (ei_wait _ HI Hne) as E. cbn [e_st] in E. congruence. }
    pose proof (einv_no_queue _ HI eq_refl) as Hq.
    eapply einv_checked; [| | | exact Hr]; [apply started_wait | exact Hq |].
    right. by left.
  - (* again *)
    pose proof (einv_only _ _ _ HI Ht) as E. cbn [e_callers] in E. subst cs.
    assert (irq_q (edu s) = ∅) as Hq.
    { apply set_eq. intros t'. split; [| by intros ?%elem_of_empty].
      by intros (_ & ? & _)%(einv_queue _ _ _ _ _ _ HI). }
    assert (forall r, callers_after t r {[t := EAgain]} = callers_after t r ∅) as ->.
    { intros []; cbn; [by rewrite delete_singleton_eq, delete_empty |].
      by rewrite insert_singleton_eq, insert_empty. }
    assert (wpc True test_irq_again (fun r _ s' => checked s r s') k s) as Hr.
    { unfold test_irq_again. edu_steps. by apply wp_test_irq_check. }
    apply (wpc_done _ _ _ _ _ _ _ Hr) in He.
    eapply einv_checked; [| done | | done].
    + by apply (ei_wait _ HI (map_non_empty_singleton _ _)).
    + by apply (ei_coming _ HI (map_non_empty_singleton _ _)).
  - (* wait *)
    pose proof (einv_only _ _ _ HI Ht) as E. cbn [e_callers] in E. subst cs.
    pose proof (ei_wait _ HI (map_non_empty_singleton _ _)) as Hw.
    pose proof (ei_coming _ HI (map_non_empty_singleton _ _)) as Hc.
    rewrite insert_singleton_eq.
    apply (wpc_done _ _ _ _ _ _ _ (wp_test_irq_wait (c := True) t k s)) in He.
    destruct b; [subst | destruct He as [Ed ->]].
    + apply einv_single; [done | done |].
      by intros t' (_ & ? & _)%(einv_queue _ _ _ _ _ _ HI).
    + apply einv_single; [done | done |].
      intros t' [->%elem_of_singleton | Ht']%elem_of_union; [done |].
      by destruct (einv_queue _ _ _ _ _ _ HI Ht') as (_ & ? & _).
  - (* woken *)
    pose proof (einv_only _ _ _ HI Ht) as E. cbn [e_callers] in E. subst cs. rewrite insert_singleton_eq.
    apply einv_single.
    + apply (ei_wait _ HI (map_non_empty_singleton _ _)).
    + apply (ei_coming _ HI (map_non_empty_singleton _ _)).
    + intros t' Ht'. by destruct (einv_queue _ _ _ _ _ _ HI Ht') as (-> & _ & _).
  - (* signal *)
    pose proof (einv_only _ _ _ HI Ht) as E. cbn [e_callers] in E. subst cs. rewrite delete_singleton_eq.
    apply einv_empty. apply set_eq. intros t'. split; [| by intros ?%elem_of_empty].
    intros [Ht' Hne]%elem_of_difference.
    destruct (einv_queue _ _ _ _ _ _ HI Ht') as (-> & _ & _). set_solver.
  - (* the handler reads the register *)
    by apply (einv_coming _ (irq_reads z v) lv HI).
  - (* and goes on *)
    destruct (wpc_done _ _ _ _ _ _ _ (wp_irq (c := True) k s Hk) He) as [_ Hr].
    destruct r; cbn in Hr; destruct Hr as [_ ->].
    + by apply (einv_coming _ (irq_returns IRQ_NONE v) lv HI).
    + by apply (einv_handled _ _ (irq_returns IRQ_HANDLED v) HI).
    + apply (einv_coming _ (irq_returns IRQ_WAKE_THREAD v) lv HI). intros _. by right; left.
  - (* its thread reads the register *)
    apply (einv_coming _ (thr_reads z v) lv HI). intros _. right; right; left. by eexists.
  - (* and goes on *)
    destruct (wpc_done _ _ _ _ _ _ _ (wp_thr (c := True) k s Hk) He) as (_ & _ & status & ->).
    by apply (einv_handled status _ (thr_returns v) HI).
  - (* the timer expires *)
    destruct HI as [H1 H2 H3 H4]. split; cbn; try done. intros _. by right; right; left.
  - (* its callback *)
    destruct (wpc_done _ _ _ _ _ _ _ (wp_timeout (c := True) k _ Hk) He) as [_ Hr].
    destruct HI as [H1 H2 H3 H4]. destruct x; cbn in Hr; subst.
    + split; cbn; try done. intros _. by right; right; right; right; right.
    + destruct Hr as (z & ->). split; cbn; try done. intros _. by right; left.
    + split; cbn [e_st e_callers]; try done.
      * intros Hc. specialize (H2 Hc). revert H2. unfold bit. cbn [e_st edu on_edu set_irq_q set_state state set_timer].
        by rewrite setbit_bit.
      * intros Hc. left. unfold __qedu_is_irq_done.
        cbn [e_st edu on_edu set_irq_q set_state state set_timer]. rewrite !setbit_bit by done.
        by rewrite !orb_true_r.
  - (* shutdown *)
    apply einv_empty. exact (einv_no_queue _ HI eq_refl).
  - apply einv_empty. exact (einv_no_queue _ HI eq_refl).
Qed.

Lemma einv_steps S S' : einv S -> esteps reads S S' -> einv S'.
Proof. intros HI Hs. induction Hs; eauto using einv_step. Qed.
End Invariant.

(** ** The bit nobody clears *)

(** The WAIT bit is set and no caller is left to clear it. *)
Definition stuck (S : esys) : Prop :=
  e_callers S = ∅ /\ bit (edu (e_st S)) QEDU_STATE_IRQ_WAIT = true.

(** What a call made now returns. *)
Definition refused (S : esys) : Prop :=
  forall k, held k = false ->
  wp test_irq_show (fun r _ s' => s' = e_st S /\
    r = Show (if bit (edu (e_st S)) QEDU_STATE_SHUTDOWN then - ECANCELED else - EBUSY) "")
    k (e_st S).

Lemma stuck_refused S : stuck S -> refused S.
Proof.
  intros [Hc Hw] k Hk. eapply wp_mono; [apply wp_test_irq_show; [done | by rewrite Hw] |].
  intros r k' s' [_ H]. unfold test_irq_effect in H. rewrite Hw in H.
  destruct (bit _ QEDU_STATE_SHUTDOWN); by destruct H as [-> ->].
Qed.

Section Stuck.
Context (reads : edu_st -> Z -> Prop).

Lemma stuck_step S S' : stuck S -> estep reads S S' -> stuck S'.
Proof.
  intros [Hc Hw] Hs. destruct Hs as [s cs v t k r k' s' Ht Hk He
    | s cs v lv t k r k' s' Ht Hk He | s cs v lv t k b k' s' Ht He
    | s cs v lv t Ht Hq | s cs v lv t q Ht Hq | s cs v lv z Hz Hd | s cs v lv z k r k' s' Hz Hd Hk He
    | s cs v lv z Hz Hn Hd | s cs v lv z k r k' s' Hz Hd Hk He | s cs v lv x Hx Hf
    | s cs v lv k x k' s' Hf Hd Hk He | s v | s v Hf];
    cbn [e_callers e_st] in *; subst; try (by rewrite lookup_empty in Ht); try done.
  - pose proof (stuck_refused (ESys s ∅ v true) (conj eq_refl Hw) k Hk) as Hr.
    destruct (wpc_done _ _ _ _ _ _ _ Hr He) as [-> ->].
    split; [by rewrite <- (delete_empty t) | done].
  - destruct (wpc_done _ _ _ _ _ _ _ (wp_irq (c := True) k s Hk) He) as [_ Hr].
    split; [done |]. destruct r; destruct Hr as [_ ->]; try done.
    cbn [e_st]. by rewrite wait_handled.
  - destruct (wpc_done _ _ _ _ _ _ _ (wp_thr (c := True) k s Hk) He) as (_ & _ & status & ->).
    split; [done |]. cbn [e_st]. by rewrite wait_handled.
  - destruct (wpc_done _ _ _ _ _ _ _ (wp_timeout (c := True) k _ Hk) He) as [_ Hr].
    split; [done |]. destruct x; cbn in Hr; subst; [done | by destruct Hr as (z & ->) |].
    revert Hw. unfold bit. cbn [e_st edu on_edu set_irq_q set_state state set_timer].
    by rewrite setbit_bit.
  - split; [done |]. revert Hw. unfold bit.
    cbn [e_st edu on_edu set_irq_q set_state state set_timer]. by rewrite setbit_bit.
Qed.

Lemma stuck_steps S S' : stuck S -> esteps reads S S' -> stuck S'.
Proof. intros HS Hs. induction Hs; eauto using stuck_step. Qed.
End Stuck.

(** ** Properties *)

(** C37: [test_irq_show] refuses when the device is shutting down (-ECANCELED) or
    a test is on (-EBUSY), and changes nothing then; otherwise it raises the
    interrupt, arms the timer, and either sleeps or reports the state and ends
    the test.  It gives the lock back, and can only oops by arming a timer that
    is already pending. *)
Theorem test_irq_show_ok k s :
  held k = false ->
  (timer (edu s) <> None -> bit (edu s) QEDU_STATE_IRQ_WAIT = true \/
     bit (edu s) QEDU_STATE_SHUTDOWN = true) ->
  wp test_irq_show (fun r k' s' => held k' = false /\ test_irq_effect s r s') k s.
Proof.
  intros Hh Ht. apply wp_test_irq_show; [done |].
  intros H1 H2 H3. destruct (Ht H1); congruence.
Qed.

(** The interrupt handler claims an interrupt exactly when the device says
    it raised one; it then acknowledges exactly the bits it read, stops the
    timer, marks the test done and wakes the sleepers, or, when the lock is
    taken, leaves all of it to its thread and changes nothing. *)
Theorem qedu_handle_irq_ok k s :
  held k = false ->
  wp qedu_handle_irq (fun r k' s' =>
    held k' = false /\ irq_effect (next_read k) s r s' /\
    (r = IRQ_HANDLED -> __qedu_is_irq_done (edu s') = true /\ timer (edu s') = None /\
       irq_q (edu s') = ∅)) k s.
Proof.
  intros Hh. eapply wp_mono; [by apply wp_irq |].
  intros r k' s' [H1 H2]. split; [done |]. split; [done |]. intros ->.
  destruct H2 as [_ ->]. by rewrite done_handled.
Qed.

(** C10: whatever the status register reads as, and whatever the order of calls,
    signals, interrupts, timer expiries and the removal, at most one caller is
    inside the test; a caller that sleeps has nothing to report yet, and the
    timer is armed, its callback is running, the interrupt thread is woken or
    running, or the interrupt line is up, so that it will be woken. *)
Theorem test_irq_exclusive reads i n S t :
  esteps reads (new_esys i n) S -> is_Some (e_callers S !! t) ->
  (forall t', is_Some (e_callers S !! t') -> t' = t) /\
  bit (edu (e_st S)) QEDU_STATE_IRQ_WAIT = true /\
  (t ∈ irq_q (edu (e_st S)) ->
     __qedu_is_irq_done (edu (e_st S)) = false /\
     (timer (edu (e_st S)) <> None \/ under_way (e_irqs S))).
Proof.
  intros Hs Ht. assert (einv S) as HI by (eapply einv_steps; [apply new_einv | done]).
  assert (e_callers S <> ∅) as Hne.
  { intros E. rewrite E, lookup_empty in Ht. by destruct Ht. }
  split_and!.
  - intros t' Ht'. by apply (ei_one S HI).
  - by apply (ei_wait S HI).
  - intros Hq. destruct (ei_queue S HI t Hq) as [_ Hd]. split; [done |].
    destruct (ei_coming S HI Hne) as [E |]; [congruence | done].
Qed.

(** C12: a signal that ends a test leaves the WAIT bit set for good: whatever
    happens afterwards, every later call is refused with -EBUSY, or -ECANCELED
    once the device is removed. *)
Theorem interrupted_test_stuck reads i n S S' S'' t q :
  esteps reads (new_esys i n) S -> e_callers S !! t = Some q -> q <> EWait ->
  S' = ESys (on_edu (fun e => set_irq_q (irq_q e ∖ {[t]}) e) (e_st S))
         (delete t (e_callers S)) (e_irqs S) (e_live S) ->
  esteps reads S' S'' -> estep reads S S' /\ stuck S'' /\ refused S''.
Proof.
  intros Hs Ht Hq -> Hs'. assert (einv S) as HI by (eapply einv_steps; [apply new_einv | done]).
  split; [destruct S; by eapply e_signal |].
  assert (stuck S'') as Hst; [| split; [done | by apply stuck_refused]].
  eapply stuck_steps; [| exact Hs']. split; cbn.
  - rewrite (einv_only S t q HI Ht). apply delete_singleton_eq.
  - apply (ei_wait S HI). intros E. by rewrite E, lookup_empty in Ht.
Qed.

(** A call while the timer is pending and no test is on. *)
Lemma test_irq_pending k s :
  held k = false -> timer (edu s) <> None -> bit (edu s) QEDU_STATE_IRQ_WAIT = false ->
  bit (edu s) QEDU_STATE_SHUTDOWN = false ->
  run_oops test_irq_show k s = Some TimerPending.
Proof.
  intros Hh Ht Hw Hs. apply oopses_run. unfold test_irq_show.
  apply oopses_bind. edu_step. apply oopses_bind. unfold qedu_is_shutting_down. edu_steps.
  unfold bit in Hs. rewrite Hs. apply oopses_bind. unfold qedu_is_waiting_irq. edu_steps.
  unfold bit in Hw. rewrite Hw. apply oopses_bind. edu_step. apply oopses_first.
  unfold qedu_set_waiting_irq. apply oopses_bind. edu_step. apply oopses_bind. edu_step.
  apply oopses_bind. edu_steps. apply oopses_bind. edu_step. apply oopses_first, oopses_check.
  cbn [timer edu on_edu set_state]. by destruct (timer (edu s)).
Qed.

(** An interrupt that nobody waited for leaves the OK bit set.  The next test
    then reports success at once, before its own interrupt came, and leaves the
    timer pending; a second test before the timer is stopped is a bug in
    [add_timer], whatever the kernel answers. *)
Lemma wp_stale_ok k s :
  held k = false -> bit (edu s) QEDU_STATE_IRQ_OK = true ->
  bit (edu s) QEDU_STATE_IRQ_WAIT = false -> bit (edu s) QEDU_STATE_SHUTDOWN = false ->
  timer (edu s) = None ->
  wp test_irq_show (fun r _ s' =>
    r = printed ("IRQ OK" +:+ newline) /\ timer (edu s') <> None /\
    forall k2, held k2 = false -> run_oops test_irq_show k2 s' = Some TimerPending) k s.
Proof.
  intros Hh Hok Hw Hs Ht.
  eapply wp_mono; [apply wp_test_irq_show; [done | by rewrite Ht] |].
  intros r k' s' [_ H]. unfold test_irq_effect in H. rewrite Hs, Hw in H.
  destruct H as (_ & x & H). unfold checked in H. rewrite started_done in H.
  unfold __qedu_is_irq_done in H at 1. unfold bit in Hok. rewrite Hok in H.
  destruct H as [-> ->].
  assert (bit (edu (started x s)) QEDU_STATE_IRQ_OK = true) as Hok'.
  { unfold bit. cbn [edu started state]. by rewrite setbit_bit, Hok. }
  assert (bit (edu (ended (started x s))) QEDU_STATE_SHUTDOWN = false) as Hs'.
  { unfold bit. cbn [edu ended on_edu set_state state started]. unfold cleared.
    unfold bit in Hs. by rewrite !clearbit_bit, setbit_bit, Hs. }
  split_and!; [unfold result_page; by rewrite Hok' | done |].
  intros k2 Hk2. apply test_irq_pending; [done | done | apply wait_cleared | done].
Qed.

(** ** Witnesses *)

Definition idle_edu : edu_st := new_edu 4294967533 750.

(** After an interrupt nobody waited for. *)
Definition stale_edu : edu_st := handled_irq 4 idle_edu.

Lemma test_irq_show_ok_witness :
  wp test_irq_show (fun r k' s' => test_irq_effect idle_edu r s') all_ok idle_edu.
Proof.
  eapply wp_mono; [apply test_irq_show_ok; [reflexivity | intros H; by destruct H] |].
  cbv beta. intros r k' s' [_ H]. exact H.
Defined.

Lemma qedu_handle_irq_ok_witness :
  wp qedu_handle_irq (fun r k' s' => r = IRQ_HANDLED -> timer (edu s') = None)
    (Kern (fun _ => 2) false 0 true) idle_edu.
Proof.
  eapply wp_mono; [apply qedu_handle_irq_ok; reflexivity |].
  cbv beta. intros r k' s' (_ & _ & H) Hr. exact (proj1 (proj2 (H Hr))).
Defined.

(** One caller asleep, its timer armed. *)
Definition asleep_edu : esys :=
  ESys (on_edu (set_irq_q {[7%nat]}) (started 750 idle_edu)) {[7%nat := EAsleep]} no_irqs true.

Lemma asleep_reached reads : esteps reads (new_esys 4294967533 750) asleep_edu.
Proof.
  eapply esteps_step.
  { apply (e_enter reads idle_edu ∅ no_irqs 7 all_ok ShowSleep
      (Kern (fun i => 0) false 0 true) (started 750 idle_edu)); reflexivity. }
  eapply esteps_step; [| apply esteps_refl].
  set (s' := on_edu (set_irq_q {[7%nat]}) (started 750 idle_edu)).
  replace asleep_edu with (ESys s' (<[7%nat := EAsleep]> (callers_after 7 ShowSleep ∅))
    no_irqs true) by (vm_compute; reflexivity).
  by apply (e_wait reads (started 750 idle_edu) _ no_irqs true 7 all_ok false all_ok s').
Qed.

Lemma test_irq_exclusive_witness :
  7%nat ∈ irq_q (edu (e_st asleep_edu)) /\ __qedu_is_irq_done (edu (e_st asleep_edu)) = false.
Proof.
  assert (7%nat ∈ irq_q (edu (e_st asleep_edu))) as H.
  { eapply bool_decide_eq_true_1. vm_compute. reflexivity. }
  split; [exact H |].
  refine (proj1 (proj2 (proj2 (test_irq_exclusive any_read 4294967533 750 asleep_edu 7 _ _)) H)).
  - apply asleep_reached.
  - exists EAsleep. reflexivity.
Defined.

Lemma interrupted_test_stuck_witness :
  refused (ESys (on_edu (fun e => set_irq_q (irq_q e ∖ {[7%nat]}) e) (e_st asleep_edu))
    (delete 7%nat (e_callers asleep_edu)) no_irqs true).
Proof.
  eapply (interrupted_test_stuck any_read 4294967533 750 asleep_edu _ _ 7 EAsleep).
  - apply asleep_reached.
  - reflexivity.
  - discriminate.
  - reflexivity.
  - apply esteps_refl.
Defined.
