(* ===== verification/EduHw.v ===== *)
(** * The edu driver on a device that keeps its promises

    EduIrq.v lets every register read return anything.  Here the interrupt
    status register behaves as its documentation says: a write to the raise
    register sets bits of it, a write to the acknowledge register clears them
    ([EduSpec]).  On such a device a test that waits for its interrupt gets it;
    but the handler and its thread can both handle one interrupt, and then two
    tests later the driver arms its timer twice; and a callback of the timer
    that is overtaken by the interrupt makes the next test fail. *)

From S2P Require Import Prelude Kernel Text Edu EduIrq.

Implicit Types (k : kern) (s : edu_st) (e : qedu_device) (w : list (Z * Z)).

(** ** The device *)

(** What the register holds after the writes [w], oldest first.  The driver
    starts no computation and no DMA, so nothing else raises an interrupt. *)
Class EduSpec := {
  intr_status : list (Z * Z) -> Z;
  intr_status_new : intr_status [] = 0;
  intr_status_raise w v :
    intr_status (w ++ [(QEDU_INTR_RAISE_REG, v)]) = Z.lor (intr_status w) v;
  intr_status_ack w v :
    intr_status (w ++ [(QEDU_INTR_ACK_REG, v)]) = Z.ldiff (intr_status w) v
}.

(** One step of a concrete run, whose code is evaluated. *)
Ltac run_step step H :=
  eapply step; [eapply H; first [reflexivity | assumption] |].

Section Device.
Context `{EduSpec}.

Definition status s : Z := intr_status (bus s).

(** A read of the status register gives what the device holds. *)
Definition reads_status k s : Prop := next_read k = status s.

(** ** The system

    That of EduIrq.v; the register reads as what the device holds. *)
Definition holds s (z : Z) : Prop := z = status s.

Definition dstep : esys -> esys -> Prop := estep holds.

Definition dsteps : esys -> esys -> Prop := esteps holds.

(** ** The invariant *)

(** What makes the next test fail: it timed out, and no interrupt was handled. *)
Definition timed_out s : bool :=
  bit (edu s) QEDU_STATE_IRQ_TIMEDOUT && negb (bit (edu s) QEDU_STATE_IRQ_OK).

(** Only the bit of the test is ever raised; as long as a caller has nothing to
    report it has not been acknowledged; and a caller inside the test has
    something to report only once the interrupt was handled. *)
Record dinv (S : esys) : Prop := DInv {
  di_range : status (e_st S) = 0 \/ status (e_st S) = 2;
  di_wait : e_callers S <> ∅ -> __qedu_is_irq_done (edu (e_st S)) = false ->
    status (e_st S) = 2;
  di_ok : e_callers S <> ∅ -> __qedu_is_irq_done (edu (e_st S)) = true ->
    bit (edu (e_st S)) QEDU_STATE_IRQ_OK = true;
  di_live : e_live S = true \/ e_callers S <> ∅ ->
    bit (edu (e_st S)) QEDU_STATE_SHUTDOWN = false
}.

Lemma new_dinv i n : dinv (new_esys i n).
Proof.
  split; cbn [new_esys new_edu e_st e_callers edu timer state]; try done.
  left. apply intr_status_new.
Qed.

Lemma ack_range v z : z = 0 \/ z = 2 -> Z.ldiff z v = 0 \/ Z.ldiff z v = 2.
Proof.
  intros [-> | ->]; [left; apply Z.ldiff_0_l |].
  assert (Z.ldiff 2 v = if Z.testbit v 1 then 0 else 2) as ->; [| destruct (Z.testbit v 1); auto].
  apply Z.bits_inj'. intros n Hn. rewrite Z.ldiff_spec.
  assert (Z.testbit 2 n = (n =? 1)) as ->.
  { change 2 with (2 ^ 1). rewrite Z.pow2_bits_eqb by lia. apply Z.eqb_sym. }
  destruct (Z.eqb_spec n 1) as [-> |].
  - by destruct (Z.testbit v 1).
  - cbn [andb]. destruct (Z.testbit v 1); [by rewrite Z.bits_0 |].
    change 2 with (2 ^ 1). rewrite Z.pow2_bits_eqb by lia. symmetry. apply Z.eqb_neq. lia.
Qed.

Lemma status_raised s x : status s = 0 \/ status s = 2 -> status (started x s) = 2.
Proof.
  unfold status. cbn [started bus]. rewrite intr_status_raise. by intros [-> | ->].
Qed.

Lemma status_handled v s : status (handled_irq v s) = Z.ldiff (status s) (wrap32 v).
Proof. unfold status. cbn [handled_irq bus]. apply intr_status_ack. Qed.

(** A timer on a device whose interrupt is up leaves it to the handler. *)
Lemma wp_timeout_raised {c : Prop} k s :
  held k = false -> __qedu_is_irq_raised (next_read k) = true ->
  wpc c qedu_timeout (fun x _ s' => x = TimeoutRaised /\ s' = s) k s.
Proof.
  intros Hh Hr. unfold qedu_timeout. edu_step. edu_step. edu_step. apply wp_readl.
  intros f. unfold next_read in *. cbn [ans]. rewrite Hr. by edu_steps.
Qed.

Lemma reads_raised k s : reads_status k s -> status s = 2 ->
  __qedu_is_irq_raised (next_read k) = true.
Proof. by unfold reads_status; intros -> ->. Qed.

Lemma bit_ended s n : bit (edu s) n = false -> bit (edu (ended s)) n = false.
Proof.
  unfold bit. cbn [edu ended on_edu set_state state]. unfold cleared.
  intros Hb. by rewrite !clearbit_bit, Hb.
Qed.

Lemma bit_started x s n : n <> QEDU_STATE_IRQ_WAIT -> bit (edu s) n = false ->
  bit (edu (started x s)) n = false.
Proof.
  unfold bit. cbn [edu started state]. intros Hn Hb. rewrite setbit_bit by done.
  rewrite Hb. destruct (Z.eqb_spec QEDU_STATE_IRQ_WAIT n) as [<- |]; done.
Qed.

Lemma bit_handled v s n : n <> QEDU_STATE_IRQ_OK ->
  bit (edu (handled_irq v s)) n = bit (edu s) n.
Proof.
  unfold bit. cbn [edu handled_irq state]. intros Hn. rewrite setbit_bit by done.
  destruct (Z.eqb_spec QEDU_STATE_IRQ_OK n) as [<- |]; done.
Qed.

Lemma ended_timed_out s : timed_out (ended s) = false.
Proof.
  unfold timed_out, bit. cbn [edu ended on_edu set_state state]. unfold cleared.
  by rewrite !clearbit_bit, andb_false_r.
Qed.

Lemma done_bits s :
  __qedu_is_irq_done (edu s) =
    bit (edu s) QEDU_STATE_IRQ_OK || bit (edu s) QEDU_STATE_IRQ_TIMEDOUT ||
    bit (edu s) QEDU_STATE_SHUTDOWN.
Proof. reflexivity. Qed.

(** The section at the head of the loop keeps the invariant, and ends the
    timeout that it reports. *)
Lemma dinv_checked s t r s' cs v lv :
  dinv (ESys s cs v lv) -> bit (edu s) QEDU_STATE_SHUTDOWN = false ->
  (__qedu_is_irq_done (edu s) = false -> status s = 2) -> checked s r s' ->
  cs = ∅ \/ cs = {[t := EAgain]} ->
  dinv (ESys s' (callers_after t r cs) v lv) /\ timed_out s' = false.
Proof.
  intros [Hr Hw Ho Hl] Hs Hd Hc Hcs. cbn [e_st e_callers e_live] in *. unfold checked in Hc.
  destruct (__qedu_is_irq_done (edu s)) eqn:Ed; destruct Hc as [-> ->].
  - assert (delete t cs = ∅) as Ec.
    { destruct Hcs as [-> | ->]; by rewrite ?delete_empty, ?delete_singleton_eq. }
    split; [| apply ended_timed_out].
    split; cbn [e_st e_callers e_live callers_after printed]; rewrite ?Ec; try done.
    intros _. by apply bit_ended.
  - split; [| unfold timed_out; rewrite done_bits, !orb_false_iff in Ed;
      by destruct Ed as [[_ ->] _]].
    split; cbn [e_st e_callers e_live callers_after]; auto; congruence.
Qed.

(** What is true of the state alone. *)
Lemma dinv_moved s cs cs' v v' lv :
  dinv (ESys s cs v lv) -> (cs' <> ∅ -> cs <> ∅) -> dinv (ESys s cs' v' lv).
Proof.
  intros [Hr Hw Ho Hl] Hc. split; cbn [e_st e_callers e_live] in *; eauto.
  intros [? | ?]; eauto.
Qed.

Lemma dinv_queue q s cs v lv :
  dinv (ESys s cs v lv) ->
  dinv (ESys (on_edu (fun e => set_irq_q (q e) e) s) cs v lv).
Proof. by intros [? ? ? ?]. Qed.

Lemma dinv_timer x s cs v v' lv :
  dinv (ESys s cs v lv) -> dinv (ESys (on_edu (set_timer x) s) cs v' lv).
Proof. by intros [? ? ? ?]. Qed.

Lemma ok_handled z s : bit (edu (handled_irq z s)) QEDU_STATE_IRQ_OK = true.
Proof. unfold bit. cbn [edu handled_irq state]. by rewrite setbit_bit. Qed.

Lemma dinv_handled z s cs v v' lv :
  dinv (ESys s cs v lv) ->
  dinv (ESys (handled_irq z s) cs v' lv) /\ timed_out (handled_irq z s) = false.
Proof.
  intros [Hr Hw Ho Hl]. split.
  - split; cbn [e_st e_callers e_live] in *.
    + rewrite status_handled. by apply ack_range.
    + by rewrite done_handled.
    + intros _ _. apply ok_handled.
    + rewrite bit_handled by done. exact Hl.
  - unfold timed_out. by rewrite ok_handled, andb_false_r.
Qed.

(** The callback that finds the interrupt acknowledged comes too late for the test:
    the test is over, or has its answer. *)
Lemma dinv_late k s s' cs v v' lv :
  dinv (ESys s cs v lv) -> reads_status k s -> held k = false ->
  wpc True qedu_timeout (fun x _ s' =>
    dinv (ESys s' cs v' lv) /\
    (timed_out s' = true -> timed_out s = true \/
      status s = 0 /\ cs = ∅ /\ timeout_effect s TimeoutSet s')) k s.
Proof.
  intros HI Hd Hk. pose proof HI as [Hr Hw Ho Hl]. cbn [e_st e_callers e_live] in *.
  destruct Hr as [H0 | H2].
  - eapply wp_mono; [by apply wp_timeout |]. cbv beta. intros x k' s1 [_ Hx].
    assert (cs <> ∅ -> bit (edu s) QEDU_STATE_IRQ_OK = true) as Hok.
    { intros Hc. destruct (__qedu_is_irq_done (edu s)) eqn:Ed; [by apply Ho |].
      rewrite (Hw Hc eq_refl) in H0. done. }
    destruct x; cbn [timeout_effect] in Hx.
    + subst. split; [by eapply dinv_moved | by left].
    + destruct Hx as [z ->]. split; [by eapply dinv_timer | by left].
    + assert (forall n, n <> QEDU_STATE_IRQ_TIMEDOUT -> bit (edu s1) n = bit (edu s) n) as Hb.
      { intros n Hn. rewrite Hx. unfold bit. cbn [edu on_edu set_irq_q set_state state].
        rewrite setbit_bit by done. destruct (Z.eqb_spec QEDU_STATE_IRQ_TIMEDOUT n); [congruence | done]. }
      assert (status s1 = status s) as Es by by rewrite Hx.
      split.
      * split; cbn [e_st e_callers e_live]; rewrite ?Es, ?Hb by done; auto.
        intros Hc Hd1. rewrite done_bits, Hb, (Hok Hc) in Hd1 by done. done.
      * intros Ht. right. split; [done |]. split; [| done].
        destruct (decide (cs = ∅)) as [| Hc]; [done |]. unfold timed_out in Ht.
        rewrite (Hb QEDU_STATE_IRQ_OK), (Hok Hc), andb_false_r in Ht by done. done.
  - eapply wp_mono; [apply wp_timeout_raised; [done | by eapply reads_raised] |].
    cbv beta. intros x k' s1 [_ ->]. split; [by eapply dinv_moved | by left].
Qed.

(** Between tests a late callback of the timer leaves a timeout behind, and nothing
    else does. *)
Definition overtaken (S S' : esys) : Prop :=
  i_fired (e_irqs S) = true /\ status (e_st S) = 0 /\ e_callers S = ∅ /\
  timeout_effect (e_st S) TimeoutSet (e_st S').

Lemma dinv_step S S' : einv S -> dinv S -> dstep S S' ->
  dinv S' /\ (timed_out (e_st S') = true -> timed_out (e_st S) = true \/ overtaken S S').
Proof.
  intros HE HI Hs. destruct Hs as [s cs v t k r k' s' Ht Hk He
    | s cs v lv t k r k' s' Ht Hk He | s cs v lv t k b k' s' Ht He
    | s cs v lv t Ht Hq | s cs v lv t q Ht Hq | s cs v lv z Hz Hd | s cs v lv z k r k' s' Hz Hd Hk He
    | s cs v lv z Hz Hn Hd | s cs v lv z k r k' s' Hz Hd Hk He | s cs v lv x Hx Hf
    | s cs v lv k x k' s' Hf Hd Hk He | s v | s v Hf]; cbn [e_st e_callers].
  - destruct (wpc_done _ _ _ _ _ _ _ (wp_test_irq_show (c := True) k s Hk (fun _ _ _ => I)) He)
      as [_ Hr]. unfold test_irq_effect in Hr.
    destruct (bit _ QEDU_STATE_SHUTDOWN) eqn:Es; [| destruct (bit _ QEDU_STATE_IRQ_WAIT) eqn:Ew].
    1, 2: destruct Hr as [-> ->]; cbn [callers_after]; rewrite delete_id by done; auto.
    destruct Hr as (_ & x & Hr).
    assert (cs = ∅) as ->.
    { destruct (decide (cs = ∅)) as [| Hne]; [done |].
      pose proof (ei_wait _ HE Hne) as E. cbn [e_st] in E. congruence. }
    pose proof (status_raised s x (di_range _ HI)) as H2.
    assert (bit (edu (started x s)) QEDU_STATE_SHUTDOWN = false) as Es' by by apply bit_started.
    edestruct (dinv_checked (started x s) t r s' ∅ v true) as [H3 H4]; [| done..| by left |].
    { split; cbn [e_st e_callers e_live]; auto; done. }
    split; [done | congruence].
  - pose proof (einv_only _ _ _ HE Ht) as E. cbn [e_callers] in E. subst cs.
    pose proof (map_non_empty_singleton t EAgain) as Hne.
    assert (wpc True test_irq_again (fun r _ s' => checked s r s') k s) as Hr.
    { unfold test_irq_again. edu_steps. by apply wp_test_irq_check. }
    apply (wpc_done _ _ _ _ _ _ _ Hr) in He.
    destruct (dinv_checked s t r s' _ v lv HI) as [H3 H4]; auto.
    + apply (di_live _ HI). by right.
    + by apply (di_wait _ HI).
    + split; [done | congruence].
  - apply (wpc_done _ _ _ _ _ _ _ (wp_test_irq_wait (c := True) t k s)) in He.
    assert (<[t:=if b then EAgain else EAsleep]> cs <> ∅ -> cs <> ∅) as Hc.
    { intros _ E. by rewrite E, lookup_empty in Ht. }
    destruct b; [subst | destruct He as [_ ->]]; (split; [| by left]);
      eapply dinv_moved with (cs := cs); try done.
    by apply (dinv_queue (fun e => {[t]} ∪ irq_q e)).
  - split; [| by left]. eapply dinv_moved; [done |]. intros _ E. by rewrite E, lookup_empty in Ht.
  - split; [| by left].
    eapply dinv_moved; [by apply (dinv_queue (fun e => irq_q e ∖ {[t]})) |].
    intros _ E. by rewrite E, lookup_empty in Ht.
  - split; [by eapply dinv_moved | by left].
  - destruct (wpc_done _ _ _ _ _ _ _ (wp_irq (c := True) k s Hk) He) as [_ Hr].
    destruct r; destruct Hr as [_ ->]; [split; [by eapply dinv_moved | by left] | |
      split; [by eapply dinv_moved | by left]].
    edestruct dinv_handled as [H3 H4]; [done |]. split; [exact H3 | congruence].
  - split; [by eapply dinv_moved | by left].
  - destruct (wpc_done _ _ _ _ _ _ _ (wp_thr (c := True) k s Hk) He) as (_ & _ & z' & ->).
    edestruct dinv_handled as [H3 H4]; [done |]. split; [exact H3 | congruence].
  - split; [by eapply dinv_timer | by left].
  - pose proof (dinv_late k s s' cs v (timeout_returns x v) lv HI Hd Hk) as Hr.
    destruct (wpc_done _ _ _ _ _ _ _ Hr He) as [H3 H4]. split; [done |].
    intros Ht. destruct (H4 Ht) as [? | ?]; [by left |]. by right; split.
  - destruct HI as [Hr Hw Ho Hl].
    assert (timed_out (on_edu (fun e => set_state (Z.setbit (state e) QEDU_STATE_SHUTDOWN) e) s) =
      timed_out s) as ->; [| split; [| by left]].
    { unfold timed_out, bit. cbn [edu on_edu set_state state]. by rewrite !setbit_bit. }
    split; cbn [e_st e_callers e_live] in *; try done. by intros [? | []].
  - split; [by eapply dinv_timer | by left].
Qed.

Lemma dinv_steps S S' : einv S -> dinv S -> dsteps S S' -> einv S' /\ dinv S'.
Proof.
  intros HE HI Hs. induction Hs; [done |].
  apply IHHs; [by eapply einv_step | by eapply dinv_step].
Qed.

Lemma dsteps_inv i n S : dsteps (new_esys i n) S -> einv S /\ dinv S.
Proof. apply dinv_steps; [apply new_einv | apply new_dinv]. Qed.

(** The handler when the interrupt is up and the lock free. *)
Lemma wp_irq_free {c : Prop} k s :
  held k = false -> ans k 1%nat = 0 -> __qedu_is_irq_raised (next_read k) = true ->
  wpc c qedu_handle_irq (fun r _ s' => r = IRQ_HANDLED /\ s' = handled_irq (next_read k) s) k s.
Proof.
  intros Hh Ha Hr. unfold qedu_handle_irq, spin_trylock_irqsave. unfold readl, spin_lock_irqsave,
    spin_unlock_irqrestore, __qedu_handle_irq, del_timer, set_bit, writel,
    wake_up_interruptible_sync.
  mred. unfold next_read in *. rewrite Hr. cbn. rewrite Ha. cbn. rewrite Hh. cbn. split; [done |].
  by destruct s as [[] ?].
Qed.

Definition irq_ok : show := printed ("IRQ OK" +:+ newline).

Definition irq_fail (z : Z) : show := printed ("IRQ FAIL " +:+ fmt_x z +:+ newline).

(** What the head of the loop gives. *)
Lemma checked_answer s r s' :
  bit (edu s) QEDU_STATE_SHUTDOWN = false -> checked s r s' ->
  r = irq_ok \/ r = ShowSleep \/ (timed_out s = true /\ r = irq_fail (state (edu s))).
Proof.
  unfold checked, result_page. rewrite done_bits. intros -> Hc. rewrite orb_false_r in Hc.
  unfold timed_out. destruct (bit (edu s) QEDU_STATE_IRQ_OK); cbn [orb negb] in *.
  - left. by destruct Hc.
  - rewrite andb_true_r. destruct (bit (edu s) QEDU_STATE_IRQ_TIMEDOUT); destruct Hc; auto.
Qed.

Lemma started_timed_out x s : timed_out (started x s) = timed_out s.
Proof. unfold timed_out, bit. cbn [edu started state]. by rewrite !setbit_bit. Qed.

(** ** Properties *)

(** C11: on a device that keeps its promises a caller that had to sleep prints
    "IRQ OK" or sleeps again: while it has nothing to report the device holds
    its interrupt up, and the handler, if it gets the lock, acknowledges it,
    marks the test done and wakes everybody.  A call made while the attribute is
    there finds a test on (-EBUSY), prints "IRQ OK" or sleeps; it prints
    "IRQ FAIL" only when a timeout was left behind before it, with no interrupt
    handled since, and oopses only when the timer is still armed from an earlier
    test ([stale_ok_reachable]).  The only step that leaves such a timeout is the
    callback of a timer that had expired, running when no test is on any more and
    the interrupt has been acknowledged. *)
Theorem test_irq_answers i n S :
  dsteps (new_esys i n) S ->
  (forall k, held k = false -> e_live S = true ->
     wpc (timer (edu (e_st S)) <> None) test_irq_show (fun r _ _ =>
       r = Show (- EBUSY) "" \/ r = irq_ok \/ r = ShowSleep \/
       (timed_out (e_st S) = true /\
        r = irq_fail (Z.setbit (state (edu (e_st S))) QEDU_STATE_IRQ_WAIT))) k (e_st S)) /\
  (forall t k, held k = false -> e_callers S !! t = Some EAgain ->
     wp test_irq_again (fun r _ _ => r = irq_ok \/ r = ShowSleep) k (e_st S)) /\
  (e_callers S <> ∅ -> __qedu_is_irq_done (edu (e_st S)) = false ->
   status (e_st S) = 2 /\
   forall k, held k = false -> reads_status k (e_st S) -> ans k 1%nat = 0 ->
     wp qedu_handle_irq (fun r _ s' => r = IRQ_HANDLED /\ status s' = 0 /\
       __qedu_is_irq_done (edu s') = true /\ irq_q (edu s') = ∅) k (e_st S)) /\
  (forall S', dstep S S' -> timed_out (e_st S') = true ->
     timed_out (e_st S) = true \/ overtaken S S').
Proof.
  intros Hs. destruct (dsteps_inv _ _ _ Hs) as [HE HI]. split_and!.
  - intros k Hk Hl. pose proof (di_live _ HI (or_introl Hl)) as Hd.
    eapply wp_mono; [by apply wp_test_irq_show |].
    intros r k' s' [_ Hr]. unfold test_irq_effect in Hr. rewrite Hd in Hr.
    destruct (bit _ QEDU_STATE_IRQ_WAIT); [by destruct Hr as [-> _]; left |].
    destruct Hr as (_ & x & Hr). right. rewrite <- (started_timed_out x).
    eapply (checked_answer (started x _)); [by apply bit_started | exact Hr].
  - intros t k Hk Ht. unfold test_irq_again. edu_steps. apply wp_test_irq_check; [done |].
    assert (e_callers S <> ∅) as Hne by (intros E; by rewrite E, lookup_empty in Ht).
    intros r k' s' _ Hr. edestruct checked_answer as [H1 | [H1 | [H1 H2]]];
      [apply (di_live _ HI); by right | exact Hr | by left | by right |].
    unfold timed_out in H1. apply andb_true_iff in H1 as [H1 H3].
    rewrite (di_ok _ HI Hne) in H3; [done |]. by rewrite done_bits, H1, orb_true_r.
  - intros Hc Hd. pose proof (di_wait _ HI Hc Hd) as H2. split; [done |].
    intros k Hk Hr Ha. eapply wp_mono; [apply wp_irq_free; [done | done | by eapply reads_raised] |].
    intros r k' s' [-> ->]. split_and!; [done | | apply done_handled | done].
    rewrite status_handled. rewrite Hr, H2. done.
  - intros S' Hst. by apply dinv_step.
Qed.

(** C38: on that same device the handler and its thread can both handle one
    interrupt: the lock is taken when the interrupt comes, so the handler leaves
    it to its thread ([A]); the device repeats the interrupt, the lock is free,
    and the handler acknowledges it ([B]); the test prints "IRQ OK" and clears its
    bits ([C]); the thread then handles the interrupt once more, with no test on
    and nothing to acknowledge, which sets the OK bit again ([D]).  The next test
    prints "IRQ OK" at once, whatever the kernel answers, without its own
    interrupt, and leaves its timer running; the test after it arms a timer that
    is pending. *)
Theorem stale_ok_reachable i n :
  exists A B C D t,
    dsteps (new_esys i n) A /\ status (e_st A) = 2 /\ i_woken (e_irqs A) = true /\
    is_Some (e_callers A !! t) /\
    dsteps A B /\ e_st B = handled_irq 2 (e_st A) /\ i_woken (e_irqs B) = true /\
    dsteps B C /\ e_callers C = ∅ /\ e_st C = ended (e_st B) /\
      bit (edu (e_st C)) QEDU_STATE_IRQ_OK = false /\ status (e_st C) = 0 /\
    dsteps C D /\ e_callers D = ∅ /\ e_live D = true /\ e_st D = handled_irq 0 (e_st C) /\
    forall k, held k = false ->
      wp test_irq_show (fun r _ s' => r = irq_ok /\ timer (edu s') <> None /\
        forall k2, held k2 = false -> run_oops test_irq_show k2 s' = Some TimerPending) k (e_st D).
Proof.
  set (s0 := new_edu i n). set (x := wrap64 (0 + n)).
  set (s1 := started x s0). set (s2 := handled_irq 2 s1). set (s3 := ended s2).
  set (rd := irq_reads 2). set (v1 := irq_returns IRQ_WAKE_THREAD (rd no_irqs)).
  set (v2 := irq_returns IRQ_HANDLED (rd v1)). set (cs := {[0%nat := EWait]} : gmap nat epc).
  set (free := Kern (fun i => if decide (i = 0%nat) then 2 else 0) false 0 true).
  assert (2 = status s1) as H1.
  { symmetry. apply status_raised. left. apply intr_status_new. }
  assert (0 = status s3) as H3.
  { change (status s3) with (status s2). unfold s2. by rewrite status_handled, <- H1. }
  exists (ESys s1 cs v1 true), (ESys s2 cs v2 true), (ESys s3 ∅ v2 true),
    (ESys (handled_irq 0 s3) ∅ (thr_returns (thr_reads 0 v2)) true), 0%nat. split_and!; try done.
  - run_step (esteps_step holds) (e_enter holds s0 ∅ no_irqs 0 all_ok ShowSleep).
    run_step (esteps_step holds) (e_irq_read holds s1 cs no_irqs true 2).
    run_step (esteps_step holds) (e_irq holds s1 cs (rd no_irqs) true 2
      (Kern (fun _ => 2) false 0 true) IRQ_WAKE_THREAD).
    constructor.
  - run_step (esteps_step holds) (e_irq_read holds s1 cs v1 true 2).
    run_step (esteps_step holds) (e_irq holds s1 cs (rd v1) true 2 free IRQ_HANDLED).
    constructor.
  - run_step (esteps_step holds) (e_wait holds s2 cs v2 true 0 all_ok true).
    run_step (esteps_step holds) (e_again holds s2 (<[0%nat := EAgain]> cs) v2 true 0 all_ok
      irq_ok all_ok s3).
    constructor.
  - run_step (esteps_step holds) (e_thr_read holds s3 ∅ v2 true 0).
    run_step (esteps_step holds) (e_thr holds s3 ∅ (thr_reads 0 v2) true 0 all_ok IRQ_HANDLED).
    constructor.
  - intros k Hk. by apply wp_stale_ok.
Qed.

(** On that device a test can fail although its interrupt comes in time: the
    timer expires while a test is on, and its callback starts but does not get
    the lock ([A]); the interrupt comes and is acknowledged, which no longer
    stops the callback ([B]); the test prints "IRQ OK" and is over ([C]); the
    callback finds no interrupt raised and takes that for a timeout ([D]).  The
    next test prints "IRQ FAIL 5" at once, whatever the kernel answers, with its
    own interrupt still up and its timer running. *)
Theorem late_timeout_fails i n :
  exists A B C D t,
    dsteps (new_esys i n) A /\ is_Some (e_callers A !! t) /\ status (e_st A) = 2 /\
      timer (edu (e_st A)) = None /\ i_fired (e_irqs A) = true /\
    dsteps A B /\ e_st B = handled_irq 2 (e_st A) /\ i_fired (e_irqs B) = true /\
    dsteps B C /\ e_callers C = ∅ /\ e_st C = ended (e_st B) /\ status (e_st C) = 0 /\
    dsteps C D /\ overtaken C D /\ e_callers D = ∅ /\ e_live D = true /\
    forall k, held k = false ->
      wp test_irq_show (fun r _ s' => r = irq_fail 5 /\ status s' = 2 /\
        timer (edu s') <> None) k (e_st D).
Proof.
  set (s0 := new_edu i n). set (x := wrap64 (0 + n)).
  set (s1 := started x s0). set (s1' := on_edu (set_timer None) s1).
  set (s2 := handled_irq 2 s1'). set (s3 := ended s2).
  set (s4 := on_edu (fun e => set_irq_q ∅
    (set_state (Z.setbit (state e) QEDU_STATE_IRQ_TIMEDOUT) e)) s3).
  set (fired := set_fired true no_irqs). set (v2 := irq_returns IRQ_HANDLED (irq_reads 2 fired)).
  set (cs := {[0%nat := EWait]} : gmap nat epc).
  set (free := Kern (fun i => if decide (i = 0%nat) then 2 else 0) false 0 true).
  assert (2 = status s1') as H1.
  { symmetry. change (status s1') with (status s1). apply status_raised. left. apply intr_status_new. }
  assert (0 = status s3) as H3.
  { change (status s3) with (status s2). unfold s2. by rewrite status_handled, <- H1. }
  exists (ESys s1' cs fired true), (ESys s2 cs v2 true), (ESys s3 ∅ v2 true),
    (ESys s4 ∅ (timeout_returns TimeoutSet v2) true), 0%nat.
  split_and!; try done.
  - run_step (esteps_step holds) (e_enter holds s0 ∅ no_irqs 0 all_ok ShowSleep).
    run_step (esteps_step holds) (e_expire holds s1 cs no_irqs true x).
    constructor.
  - run_step (esteps_step holds) (e_irq_read holds s1' cs fired true 2).
    run_step (esteps_step holds) (e_irq holds s1' cs (irq_reads 2 fired) true 2 free IRQ_HANDLED).
    constructor.
  - run_step (esteps_step holds) (e_wait holds s2 cs v2 true 0 all_ok true).
    run_step (esteps_step holds) (e_again holds s2 (<[0%nat := EAgain]> cs) v2 true 0 all_ok
      irq_ok all_ok s3).
    constructor.
  - run_step (esteps_step holds) (e_timeout holds s3 ∅ v2 true all_ok TimeoutSet).
    constructor.
  - intros k Hk. eapply wp_mono; [by apply wp_test_irq_show |].
    intros r k' s' [_ Hr]. change (test_irq_effect s4 r s') in Hr.
    destruct Hr as (_ & y & -> & ->). split_and!; [reflexivity | | done].
    change (status (started y s3) = 2). apply status_raised. left. by symmetry.
Qed.
End Device.

(** ** A device *)

(** The device of the emulator: the register starts at 0. *)
Definition on_write (z : Z) (w : Z * Z) : Z :=
  if w.1 =? QEDU_INTR_RAISE_REG then Z.lor z w.2
  else if w.1 =? QEDU_INTR_ACK_REG then Z.ldiff z w.2 else z.

#[export] Instance emulated : EduSpec.
Proof.
  refine {| intr_status := fun w => fold_left on_write w 0 |}.
  - done.
  - intros w v. by rewrite fold_left_app.
  - intros w v. by rewrite fold_left_app.
Defined.

(** ** Witnesses *)

(** A test sleeps, then the device holds its interrupt up. *)
Lemma test_irq_answers_witness :
  dsteps (new_esys 4294967533 750) asleep_edu /\ status (e_st asleep_edu) = 2.
Proof.
  assert (dsteps (new_esys 4294967533 750) asleep_edu) as Hs by apply asleep_reached.
  split; [exact Hs |].
  destruct (test_irq_answers 4294967533 750 asleep_edu Hs) as (_ & _ & H & _).
  apply H; [discriminate | reflexivity].
Defined.
