(* ===== verification/EduAttr.v ===== *)
(** * The attributes and the identification of the edu device

    Printing a number in hexadecimal and reading it back, what a store to the
    [inverse] attribute writes, and which identification registers the probe
    accepts. *)

From Stdlib Require Import Ascii.
From S2P Require Import Prelude Kernel Text Edu EduIrq.

Implicit Types (k : kern) (s : edu_st).

(** ** Definitions *)

(** The value of a hexadecimal digit. *)
Definition digit_value (a : ascii) : option Z :=
  let n := Z.of_N (N_of_ascii a) in
  if (48 <=? n) && (n <=? 57) then Some (n - 48)
  else if (97 <=? n) && (n <=? 102) then Some (n - 87)
  else None.

(** The number at the front of a text, in base [b], continuing [z]. *)
Fixpoint scan (b z : Z) (t : string) : Z :=
  match t with
  | EmptyString => z
  | String a t =>
      match digit_value a with
      | Some d => scan b (z * b + d) t
      | None => z
      end
  end.

(** A reader of hexadecimal numbers, as [sscanf] with %llx is on lower-case
    digits without a prefix. *)
Definition scan_x (t : string) : option Z :=
  match t with
  | EmptyString => None
  | String a _ => match digit_value a with Some _ => Some (scan 16 0 t) | None => None end
  end.

(** ** Numbers as text *)

Lemma digit_value_digit n : 0 <= n < 16 -> digit_value (digit n) = Some n.
Proof.
  intros Hn. assert (n ∈ seqZ 0 16) as Hin by (apply elem_of_seqZ; lia).
  clear Hn. revert n Hin.
  apply (proj1 (list.Forall_forall (fun n => digit_value (digit n) = Some n) (seqZ 0 16))).
  vm_compute. repeat constructor.
Qed.

(** Reading back what [digits] wrote in front of [acc]. *)
Lemma scan_digits b n z acc :
  2 <= b <= 16 -> 0 <= z < b ^ Z.of_nat (S n) ->
  scan b 0 (digits b (S n) z acc) = scan b z acc.
Proof.
  intros Hb. revert z acc. induction n as [| n IH]; intros z acc Hz.
  - assert (z < b) by lia. cbn [digits]. rewrite Z.mod_small, Z.div_small by lia.
    cbn [scan Z.eqb]. by rewrite digit_value_digit by lia.
  - change (digits b (S (S n)) z acc) with
      (let acc := String (digit (z mod b)) acc in
       if z / b =? 0 then acc else digits b (S n) (z / b) acc). cbv zeta.
    pose proof (Z.mod_pos_bound z b). pose proof (Z.div_mod z b).
    destruct (z / b =? 0) eqn:E.
    + cbn [scan]. rewrite digit_value_digit by lia. f_equal. lia.
    + rewrite IH.
      * cbn [scan]. rewrite digit_value_digit by lia. f_equal. lia.
      * split; [apply Z.div_pos; lia |]. apply Z.div_lt_upper_bound; [lia |].
        rewrite (Nat2Z.inj_succ (S n)), Z.pow_succ_r in Hz by lia. lia.
Qed.

(** The text starts with a digit. *)
Lemma digits_head b n z acc :
  2 <= b <= 16 -> 0 <= z ->
  exists d t, digits b (S n) z acc = String (digit d) t /\ 0 <= d < 16.
Proof.
  intros Hb. revert z acc. induction n as [| n IH]; intros z acc Hz;
    pose proof (Z.mod_pos_bound z b ltac:(lia)).
  - cbn [digits]. exists (z mod b), acc. split; [by destruct (_ =? _) | lia].
  - change (digits b (S (S n)) z acc) with
      (let acc := String (digit (z mod b)) acc in
       if z / b =? 0 then acc else digits b (S n) (z / b) acc). cbv zeta.
    destruct (z / b =? 0); [exists (z mod b), acc; split; [done | lia] |].
    apply IH. apply Z.div_pos; lia.
Qed.

(** The number [fmt_x] prints is the number a reader of hexadecimal text gets. *)
Lemma fmt_x_scan z :
  0 <= z < 2 ^ 64 -> scan_x (fmt_x z +:+ newline) = Some z.
Proof.
  assert (forall b n z acc t, digits b n z acc +:+ t = digits b n z (acc +:+ t)) as Happ.
  { intros b n. induction n as [| n IH]; intros z' acc t; [done |]. cbn [digits].
    destruct (_ =? _); [done |]. by rewrite IH. }
  intros Hz. unfold fmt_x. rewrite Happ.
  destruct (digits_head 16 15 z ("" +:+ newline)) as (d & t & E & Hd); [lia.. |].
  unfold scan_x. rewrite E, digit_value_digit by done. rewrite <- E.
  by rewrite scan_digits by lia.
Qed.

(** ** Properties *)

(** A store to [inverse] writes the number it read, and nothing else, when it
    has 32 bits, and refuses every larger one without touching the device; a
    text without a number makes it write a value nobody chose. *)
Theorem inverse_store_ok sscanf_llx page count k s :
  held k = false ->
  (forall v, sscanf_llx page = Some v -> 0 <= v < 2 ^ 64) ->
  wp (inverse_store sscanf_llx page count) (fun r k' s' =>
    held k' = false /\ edu s' = edu s /\
    exists v, (forall v', sscanf_llx page = Some v' -> v = v') /\
    if UINT_MAX <? v then r = - EINVAL /\ bus s' = bus s
    else r = count /\ bus s' = bus s ++ [(QEDU_INVERSE_REG, v)]) k s.
Proof.
  intros Hh Hv. unfold inverse_store.
  assert (forall v k, held k = false -> 0 <= v < 2 ^ 64 ->
    wp (if UINT_MAX <? v then mret (- EINVAL)
        else spin_lock_irqsave;; writel v QEDU_INVERSE_REG;; spin_unlock_irqrestore;; mret count)
      (fun r k' s' => held k' = false /\ edu s' = edu s /\
        if UINT_MAX <? v then r = - EINVAL /\ bus s' = bus s
        else r = count /\ bus s' = bus s ++ [(QEDU_INVERSE_REG, v)]) k s) as Hw.
  { intros v k1 Hk1 Hv1. destruct (UINT_MAX <? v) eqn:E; edu_steps; try done.
    split_and!; try done. cbn. by rewrite wrap32_small by (unfold UINT_MAX in E; lia). }
  edu_step. destruct (sscanf_llx page) as [v |] eqn:E.
  - edu_step. eapply wp_mono; [by apply Hw; auto |].
    intros r k' s' (H1 & H2 & H3). split; [done |]. split; [done |].
    exists v. split; [congruence | done].
  - do 3 edu_step. eapply wp_mono; [apply Hw; [done | apply wrap64_range] |].
    intros r k' s' (H1 & H2 & H3). split; [done |]. split; [done |]. by exists (wrap64 a).
Qed.

(** The identification check looks at the lower half of the minor version as
    well: a device it accepts has a minor version that is a multiple of 16. *)
Theorem id_check_minor val :
  0 <= val < 2 ^ 32 -> QEDU_IS_ID val = true ->
  QEDU_MAJOR_VERSION val = val / 2 ^ 24 /\
  QEDU_MINOR_VERSION val = val / 2 ^ 16 mod 2 ^ 8 /\
  QEDU_MINOR_VERSION val mod 16 = 0.
Proof.
  intros Hv Hid. unfold QEDU_MAJOR_VERSION, QEDU_MINOR_VERSION, QEDU_IS_ID in *.
  rewrite !Z.shiftr_div_pow2, Z.shiftl_mul_pow2 by lia.
  change 1048575 with (Z.ones 20) in Hid. rewrite Z.land_ones in Hid by lia.
  apply Z.eqb_eq in Hid. unfold wrap32.
  split_and!; [done | Z.to_euclidean_division_equations; lia
    | Z.to_euclidean_division_equations; lia].
Qed.

(** Showing [inverse] and storing the page that was printed. *)
Definition show_then_store (sscanf_llx : string -> option Z) : M edu_st Z :=
  r ← inverse_show;
  match r with
  | Show size page => inverse_store sscanf_llx page size
  | ShowSleep => mret 0
  end.

(** Storing to [inverse] the text that showing it printed writes back to the
    device the value that was read from it, for any reader of numbers that
    understands hexadecimal text. *)
Theorem inverse_roundtrip sscanf_llx k s :
  held k = false ->
  (forall v, 0 <= v < 2 ^ 32 -> sscanf_llx (fmt_x v +:+ newline) = Some v) ->
  wp (show_then_store sscanf_llx) (fun r k' s' =>
    held k' = false /\ 0 < r /\ bus s' = bus s ++ [(QEDU_INVERSE_REG, next_read k)]) k s.
Proof.
  intros Hh Hs. unfold show_then_store, inverse_show. do 2 edu_step. edu_step. edu_step.
  apply wp_readl. intros f. do 3 edu_step. unfold printed, inverse_store.
  assert (0 <= next_read k < 2 ^ 32) as Hv by apply wrap32_range.
  rewrite Hs by done. cbn [held kobjs]. change (next_read _) with (next_read k).
  do 2 edu_step. replace (UINT_MAX <? next_read k) with false by (unfold UINT_MAX; lia).
  edu_steps; try done. split; [done |]. split.
  - destruct (digits_head 16 15 (next_read k) "") as (d & t & E & _); [lia.. |].
    unfold fmt_x. rewrite E. 
    change (0 < Z.of_nat (S (String.length (t +:+ newline)))). lia.
  - cbn. by rewrite wrap32_small.
Qed.

(** ** Witnesses *)

(** Storing what a show printed. *)
Lemma inverse_store_ok_witness :
  wp (inverse_store scan_x (fmt_x 48879 +:+ newline) 5) (fun r _ s' => edu s' = edu idle_edu)
    all_ok idle_edu.
Proof.
  eapply wp_mono; [apply inverse_store_ok; [reflexivity |] |].
  - intros v Hv.
    assert (scan_x (fmt_x 48879 +:+ newline) = Some 48879) as E by (vm_compute; reflexivity).
    rewrite E in Hv. injection Hv as <-. lia.
  - cbv beta. intros r k' s' (_ & H & _). exact H.
Defined.

Lemma id_check_minor_witness : QEDU_MINOR_VERSION 16777453 mod 16 = 0.
Proof. apply (id_check_minor 16777453); [lia | reflexivity]. Defined.

Lemma inverse_roundtrip_witness :
  wp (show_then_store scan_x) (fun _ _ s' => bus s' = [(QEDU_INVERSE_REG, 48879)])
    (Kern (fun _ => 48879) false 0 true) idle_edu.
Proof.
  eapply wp_mono; [apply inverse_roundtrip; [reflexivity |] |].
  - intros v Hv. apply fmt_x_scan. lia.
  - cbv beta. intros r k' s' (_ & _ & H). exact H.
Defined.
