(* ===== verification/EduProbe.v ===== *)
(** * Probing and removing the edu device (src/edu/init.c, sysfs.c)

    What the driver acquires from the PCI core, the interrupt core and sysfs,
    in the order of the code, with every error path.  A service that can fail
    answers from the stream of the kernel.  Resources are flags; the theorems
    say which are held when the probe ends and that a removal gives them all
    back. *)

From S2P Require Import Prelude Kernel Text Edu.

(** ** Data *)

(** The module parameters. *)
Record edu_params := EParams { dma_mask : Z; use_msi : bool }.

Definition QEDU_DEFAULT_DMA_MASK : Z := 28.

(** What the driver holds.  [mem]: the [qedu_device] is allocated; [drvdata]:
    the PCI device points to it; [qedu_dev]: the global does; [edu_use_msi] and
    [bits] are its fields; [files] are the attributes, 0 version, 1 inverse,
    2 test_irq; [bad_free]: [free_irq] was called without an interrupt
    requested; [complained]: the message of lines 50-51 was printed. *)
Record probe_st := PrSt {
  epar : edu_params;
  mem : bool;
  drvdata : bool;
  qedu_dev : bool;
  enabled : bool;
  region : bool;
  mapped : bool;
  vectors : bool;
  irq_requested : bool;
  files : gset nat;
  edu_use_msi : bool;
  bits : Z;
  bad_free : bool;
  complained : bool
}.

Definition set_epar (p : edu_params) (s : probe_st) : probe_st :=
  PrSt p (mem s) (drvdata s) (qedu_dev s) (enabled s) (region s) (mapped s) (vectors s)
    (irq_requested s) (files s) (edu_use_msi s) (bits s) (bad_free s) (complained s).

(** A zeroed [qedu_device], or none. *)
Definition set_mem (b : bool) (s : probe_st) : probe_st :=
  PrSt (epar s) b (drvdata s) (qedu_dev s) (enabled s) (region s) (mapped s) (vectors s)
    (irq_requested s) (files s) false 0 (bad_free s) (complained s).

Definition set_links (d q : bool) (s : probe_st) : probe_st :=
  PrSt (epar s) (mem s) d q (enabled s) (region s) (mapped s) (vectors s)
    (irq_requested s) (files s) (edu_use_msi s) (bits s) (bad_free s) (complained s).

Definition set_pci (e r m : bool) (s : probe_st) : probe_st :=
  PrSt (epar s) (mem s) (drvdata s) (qedu_dev s) e r m (vectors s)
    (irq_requested s) (files s) (edu_use_msi s) (bits s) (bad_free s) (complained s).

Definition set_vectors (v : bool) (s : probe_st) : probe_st :=
  PrSt (epar s) (mem s) (drvdata s) (qedu_dev s) (enabled s) (region s) (mapped s) v
    (irq_requested s) (files s) (edu_use_msi s) (bits s) (bad_free s) (complained s).

Definition set_irq (b bad : bool) (s : probe_st) : probe_st :=
  PrSt (epar s) (mem s) (drvdata s) (qedu_dev s) (enabled s) (region s) (mapped s) (vectors s)
    b (files s) (edu_use_msi s) (bits s) bad (complained s).

Definition set_files (f : gset nat) (s : probe_st) : probe_st :=
  PrSt (epar s) (mem s) (drvdata s) (qedu_dev s) (enabled s) (region s) (mapped s) (vectors s)
    (irq_requested s) f (edu_use_msi s) (bits s) (bad_free s) (complained s).

Definition set_edu_use_msi (b : bool) (s : probe_st) : probe_st :=
  PrSt (epar s) (mem s) (drvdata s) (qedu_dev s) (enabled s) (region s) (mapped s) (vectors s)
    (irq_requested s) (files s) b (bits s) (bad_free s) (complained s).

Definition set_bits (z : Z) (c : bool) (s : probe_st) : probe_st :=
  PrSt (epar s) (mem s) (drvdata s) (qedu_dev s) (enabled s) (region s) (mapped s) (vectors s)
    (irq_requested s) (files s) (edu_use_msi s) z (bad_free s) c.

(** ** Kernel services *)

(** 0, or a negative error. *)
Definition status : M probe_st Z :=
  a ← ask; mret (if a =? 0 then 0 else - Z.max 1 (Z.abs a)).

Definition pci_enable_device : M probe_st Z :=
  r ← status;
  (if r =? 0 then modify (fun s => set_pci true (region s) (mapped s) s) else mret tt);;
  mret r.

Definition pci_request_region : M probe_st Z :=
  r ← status;
  (if r =? 0 then modify (fun s => set_pci (enabled s) true (mapped s) s) else mret tt);;
  mret r.

Definition pci_iomap : M probe_st bool :=
  r ← status;
  if r =? 0 then modify (fun s => set_pci (enabled s) (region s) true s);; mret true
  else mret false.

Definition pci_iounmap : M probe_st unit :=
  modify (fun s => set_pci (enabled s) (region s) false s).
Definition pci_disable_device : M probe_st unit :=
  modify (fun s => set_pci false (region s) (mapped s) s).
Definition pci_release_regions : M probe_st unit :=
  modify (fun s => set_pci (enabled s) false (mapped s) s).

Definition pci_alloc_irq_vectors : M probe_st Z :=
  r ← status;
  if r =? 0 then modify (set_vectors true);; mret 1 else mret r.

Definition pci_free_irq_vectors : M probe_st unit := modify (set_vectors false).

Definition request_threaded_irq : M probe_st Z :=
  r ← status;
  (if r =? 0 then modify (fun s => set_irq true (bad_free s) s) else mret tt);;
  mret r.

Definition free_irq : M probe_st unit :=
  modify (fun s => set_irq false (bad_free s || negb (irq_requested s)) s).

Definition driver_create_file (n : nat) : M probe_st Z :=
  r ← status;
  (if r =? 0 then modify (fun s => set_files ({[n]} ∪ files s) s) else mret tt);;
  mret r.

Definition driver_remove_file (n : nat) : M probe_st unit :=
  modify (fun s => set_files (files s ∖ {[n]}) s).

(** Any access to the [qedu_device]. *)
Definition deref_edu : M probe_st unit :=
  s ← gets (fun s => s); check (mem s) UseAfterFree.

(** ** The attributes (src/edu/sysfs.c) *)

Definition qedu_sysfs_create_entries : M probe_st Z :=
  deref_edu;;
  ret ← driver_create_file 0;
  if negb (ret =? 0) then mret ret
  else
    ret ← driver_create_file 1;
    if negb (ret =? 0) then driver_remove_file 0;; mret ret
    else
      ret ← driver_create_file 2;
      if negb (ret =? 0) then
        driver_remove_file 1;;
        driver_remove_file 0;;
        mret ret
      else mret 0.

Definition qedu_sysfs_remove_entries : M probe_st unit :=
  deref_edu;;
  driver_remove_file 2;;
  driver_remove_file 1;;
  driver_remove_file 0.

(** ** Removing *)

Definition __qedu_remove : M probe_st unit :=
  lockdep_assert_held;;
  deref_edu;;
  modify (fun s => set_bits (Z.setbit (bits s) QEDU_STATE_SHUTDOWN) (complained s) s);;
  __mutex_unlock_sparse;;
  __mutex_lock_sparse;;
  s ← gets (fun s => s);
  (if negb (Z.testbit (bits s) QEDU_STATE_IRQ_OK || Z.testbit (bits s) QEDU_STATE_IRQ_TIMEDOUT
            || Z.testbit (bits s) QEDU_STATE_SHUTDOWN)
   then modify (fun s => set_bits (bits s) true s) else mret tt);;
  (if Z.testbit (bits s) QEDU_STATE_IRQ_WAIT then
     __mutex_unlock_sparse;; __mutex_lock_sparse
   else mret tt);;
  free_irq;;
  s ← gets (fun s => s);
  (if edu_use_msi s then pci_free_irq_vectors else mret tt);;
  pci_iounmap;;
  pci_disable_device;;
  pci_release_regions.

Definition qedu_remove : M probe_st unit :=
  s ← gets (fun s => s);
  if negb (drvdata s) then mret tt
  else
    qedu_sysfs_remove_entries;;
    __mutex_lock_sparse;;
    __qedu_remove;;
    __mutex_unlock_sparse;;
    kfree;;
    modify (set_mem false).

(** ** Probing *)

(** The label [end]. *)
Definition probe_end (ret : Z) : M probe_st Z :=
  __mutex_unlock_sparse;;
  kfree;;
  modify (set_mem false);;
  modify (fun s => set_links (drvdata s) false s);;
  mret ret.

Definition probe_fail (ret : Z) : M probe_st Z := __qedu_remove;; probe_end ret.

(** The labels [fail_irq] and [fail_iomap]. *)
Definition probe_fail_iomap (ret : Z) : M probe_st Z :=
  pci_disable_device;;
  pci_release_regions;;
  probe_end ret.

Definition probe_fail_irq (ret : Z) : M probe_st Z :=
  pci_iounmap;;
  probe_fail_iomap ret.

(** Lines 128-144: the DMA masks. *)
Definition probe_dma : M probe_st Z :=
  ret ← status;
  s ← gets (fun s => s);
  ret ← (if negb (ret =? 0) && negb (dma_mask (epar s) =? QEDU_DEFAULT_DMA_MASK) then
           modify (fun s => set_epar (EParams QEDU_DEFAULT_DMA_MASK (use_msi (epar s))) s);;
           status
         else mret 0);
  if negb (ret =? 0) then mret ret else status.

(** Lines 150-165: 0, or the error of [pci_irq_vector]. *)
Definition probe_vectors : M probe_st Z :=
  s ← gets (fun s => s);
  if use_msi (epar s) then
    ret ← pci_alloc_irq_vectors;
    if ret <? 0 then
      modify (fun s => set_epar (EParams (dma_mask (epar s)) false) s);;
      mret 0
    else status
  else mret 0.

(** Lines 174-190, the interrupt being requested; [edu_id] is what the
    identification register reads. *)
Definition probe_identify (ret : Z) : M probe_st Z :=
  a ← ask;
  if negb (QEDU_IS_ID (wrap32 a)) then probe_fail ret
  else
    ret ← qedu_sysfs_create_entries;
    if negb (ret =? 0) then probe_fail ret
    else
      modify (fun s => set_edu_use_msi (use_msi (epar s)) s);;
      __mutex_unlock_sparse;;
      mret 0.

(** Lines 146-190. *)
Definition probe_irq : M probe_st Z :=
  modify (fun s => set_links true (qedu_dev s) s);;
  ret ← probe_vectors;
  if negb (ret =? 0) then probe_fail_irq ret
  else
    ret ← request_threaded_irq;
    if negb (ret =? 0) then probe_fail_irq ret
    else probe_identify ret.

(** The lists and the timer that lines 105-109 set up, and the timeout, are the
    interrupt protocol's (Edu.v); the services are called with the lock held, and
    that some of them sleep is not modelled. *)
Definition qedu_probe : M probe_st Z :=
  ok ← kmalloc;
  if negb ok then mret (- ENOMEM)
  else
    modify (set_mem true);;
    __mutex_lock_sparse;;
    modify (fun s => set_links (drvdata s) true s);;
    ret ← pci_enable_device;
    if negb (ret =? 0) then probe_end ret
    else
      ret ← pci_request_region;
      if negb (ret =? 0) then pci_disable_device;; probe_end ret
      else
        m ← pci_iomap;
        if negb m then probe_fail_iomap (- ENODEV)
        else
          ret ← probe_dma;
          if negb (ret =? 0) then probe_fail ret
          else probe_irq.

(** No device is bound. *)
Definition unbound (p : edu_params) : probe_st :=
  PrSt p false false false false false false false false ∅ false 0 false false.

(** ** Resources *)

(** Nothing is held but, perhaps, interrupt vectors, and the driver is not
    linked to a device of its own. *)
Definition all_released (s : probe_st) : Prop :=
  mem s = false /\ qedu_dev s = false /\ enabled s = false /\ region s = false /\
  mapped s = false /\ irq_requested s = false /\ files s = ∅.

(** The device is bound and everything is held. *)
Definition bound (s : probe_st) : Prop :=
  mem s = true /\ drvdata s = true /\ qedu_dev s = true /\ enabled s = true /\
  region s = true /\ mapped s = true /\ irq_requested s = true /\
  files s = {[0%nat; 1%nat; 2%nat]} /\ edu_use_msi s = vectors s.

Lemma wp_status {c : Prop} (Q : Z -> kern -> probe_st -> Prop) k s :
  (forall f, Q 0 (Kern f (held k) (kobjs k) (lockdep k)) s) ->
  (forall f r, r < 0 -> Q r (Kern f (held k) (kobjs k) (lockdep k)) s) ->
  wpc c status Q k s.
Proof.
  intros H0 HF. unfold status. do 3 wp_step. destruct (a =? 0) eqn:E; [apply H0 | apply HF]. lia.
Qed.

(** Symbolic steps through the probe; a failing service branches. *)
Ltac probe_step :=
  cbv beta iota;
  lazymatch goal with
  | |- wpc _ status _ _ _ => apply wp_status; intros
  | |- wpc _ (if ?r =? 0 then _ else _) _ _ _ => destruct (r =? 0) eqn:?; try lia
  | |- wpc _ (if negb (?r =? 0) then _ else _) _ _ _ =>
      destruct (r =? 0) eqn:?; try lia; cbn [negb]
  | |- wpc _ (check _ _) _ _ _ => apply wp_check; [reflexivity |]
  | |- _ => wp_step
  end.

Ltac probe_steps := repeat (probe_step; cbn [held kobjs ans lockdep]).

(** [__qedu_remove] gives everything back but vectors it does not know of, and
    its complaint is never printed. *)
Lemma wp_qedu_remove_locked {c : Prop} (Q : unit -> kern -> probe_st -> Prop) k s :
  held k = true -> mem s = true ->
  (forall z, Q tt k (PrSt (epar s) true (drvdata s) (qedu_dev s) false false false
     (vectors s && negb (edu_use_msi s)) false (files s) (edu_use_msi s) z
     (bad_free s || negb (irq_requested s)) (complained s))) ->
  wpc c __qedu_remove Q k s.
Proof.
  intros Hh Hm HQ. unfold __qedu_remove, deref_edu, free_irq, pci_iounmap, pci_disable_device,
    pci_release_regions, pci_free_irq_vectors.
  destruct s as [p m d q en r mp v i f u z bf co]. cbn in Hm. subst m.
  assert (forall z', Q tt k (PrSt p true d q false false false (v && negb u) false f u z'
    (bf || negb i) co)) as HQ' by (intros z'; apply HQ). clear HQ.
  destruct k as [an he ko ld]. cbn in Hh. subst he.
  do 15 probe_step. cbn [bits set_bits]. rewrite Z.setbit_eq, !orb_true_r by done. cbn [negb].
  destruct u; rewrite ?andb_false_r, ?andb_true_r in *; cbn [negb] in *; probe_steps;
    try done; try apply HQ'.
Qed.

Lemma wp_create_entries {c : Prop} (Q : Z -> kern -> probe_st -> Prop) k s :
  mem s = true -> files s = ∅ ->
  (forall f, Q 0 (Kern f (held k) (kobjs k) (lockdep k)) (set_files {[0%nat; 1%nat; 2%nat]} s)) ->
  (forall f r, r < 0 -> Q r (Kern f (held k) (kobjs k) (lockdep k)) s) ->
  wpc c qedu_sysfs_create_entries Q k s.
Proof.
  intros Hm Hf H0 HF. destruct s as [p m d q en r mp v i f u z bf co]. cbn in Hm, Hf. subst m f.
  unfold qedu_sysfs_create_entries, deref_edu, driver_create_file, driver_remove_file.
  probe_steps; try (by apply HF); try apply H0.
Qed.

(** How a probe can end. *)
Definition probe_result (p : edu_params) (k : kern) (r : Z) (k' : kern) (s' : probe_st) : Prop :=
  (r = 0 /\ bound s' /\ kobjs k' = kobjs k + 1 /\ bits s' = 0) \/
  (all_released s' /\ kobjs k' = kobjs k /\
   (vectors s' = true -> use_msi p = true) /\ (r = 0 -> drvdata s' = true) /\ r <= 0).

(** The paths that end in [__qedu_remove]. *)
Lemma wp_probe_fail {c : Prop} p k0 ret k s :
  held k = true -> mem s = true -> ret <= 0 -> files s = ∅ ->
  kobjs k = kobjs k0 + 1 -> (vectors s = true -> use_msi p = true) ->
  (ret = 0 -> drvdata s = true) ->
  wpc c (probe_fail ret) (fun r k' s' => held k' = false /\ probe_result p k0 r k' s') k s.
Proof.
  intros Hh Hm Hr Hf Hk Hv Hd. unfold probe_fail, probe_end. wp_step.
  apply wp_qedu_remove_locked; [done.. |]. intros z. wp_steps. split; [done |].
  right. unfold all_released. cbn. split_and!; try done; [lia |].
  intros [? _]%andb_true_iff. auto.
Qed.

Lemma wp_probe_fail_irq {c : Prop} p k0 ret k s :
  held k = true -> ret < 0 -> files s = ∅ -> irq_requested s = false ->
  kobjs k = kobjs k0 + 1 -> (vectors s = true -> use_msi p = true) ->
  wpc c (probe_fail_irq ret) (fun r k' s' => held k' = false /\ probe_result p k0 r k' s') k s.
Proof.
  intros Hh Hr Hf Hi Hk Hv. unfold probe_fail_irq, probe_fail_iomap, probe_end,
    pci_iounmap, pci_disable_device, pci_release_regions. wp_steps.
  split; [done |]. right. unfold all_released. cbn. split_and!; try done; lia.
Qed.

(** Everything up to the mapping is held, and nothing of what follows. *)
Definition mapped_in (p : edu_params) (k0 k : kern) (s : probe_st) : Prop :=
  held k = true /\ kobjs k = kobjs k0 + 1 /\ mem s = true /\ qedu_dev s = true /\
  enabled s = true /\ region s = true /\ mapped s = true /\ files s = ∅ /\ bits s = 0.

Lemma wp_probe_identify {c : Prop} p k0 k s :
  mapped_in p k0 k s -> drvdata s = true -> irq_requested s = true ->
  vectors s = use_msi (epar s) -> (vectors s = true -> use_msi p = true) ->
  wpc c (probe_identify 0) (fun r k' s' => held k' = false /\ probe_result p k0 r k' s') k s.
Proof.
  intros (Hh & Hk & Hm & Hq & He & Hr & Hmp & Hf & Hb) Hd Hi Hv Hp. unfold probe_identify.
  do 3 wp_step; [by apply wp_probe_fail |]. wp_step.
  apply wp_create_entries; [done | done | |].
  - intros f'. cbn [Z.eqb negb]. wp_steps. split; [done |]. left.
    unfold bound. cbn. by split_and!.
  - intros f' r Hr'. probe_step. apply wp_probe_fail; try done; lia.
Qed.

(** From the request of the interrupt on. *)
Lemma wp_probe_request {c : Prop} p k0 k s :
  mapped_in p k0 k s -> drvdata s = true -> irq_requested s = false ->
  vectors s = use_msi (epar s) -> (vectors s = true -> use_msi p = true) ->
  wpc c (ret ← request_threaded_irq;
         if negb (ret =? 0) then probe_fail_irq ret else probe_identify ret)
    (fun r k' s' => held k' = false /\ probe_result p k0 r k' s') k s.
Proof.
  intros HM Hd Hi Hv Hp. pose proof HM as (Hh & Hk & Hm & Hq & He & Hr & Hmp & Hf & Hb).
  unfold request_threaded_irq. do 2 wp_step. apply wp_status.
  - intros f'. cbn [Z.eqb]. do 2 wp_step. wp_step. by apply wp_probe_identify.
  - intros f' r Hr'. replace (r =? 0) with false by lia. do 3 wp_step.
    replace (r =? 0) with false by lia. by apply wp_probe_fail_irq.
Qed.

Lemma wp_probe_irq {c : Prop} p k0 k s :
  mapped_in p k0 k s -> irq_requested s = false -> vectors s = false ->
  use_msi (epar s) = use_msi p ->
  wpc c probe_irq (fun r k' s' => held k' = false /\ probe_result p k0 r k' s') k s.
Proof.
  intros HM Hi Hv Hu. pose proof HM as (Hh & Hk & Hm & Hq & He & Hr & Hmp & Hf & Hb).
  unfold probe_irq, probe_vectors, pci_alloc_irq_vectors. do 5 wp_step.
  cbn [epar set_links]. rewrite Hu. destruct (use_msi p) eqn:Ep.
  - do 2 wp_step. apply wp_status.
    + intros f'. cbn [Z.eqb]. do 3 wp_step. cbn [Z.ltb Z.compare]. apply wp_status.
      * intros f2. cbn [Z.eqb negb]. by apply wp_probe_request.
      * intros f2 r Hr'. replace (r =? 0) with false by lia. by apply wp_probe_fail_irq.
    + intros f' r Hr'. replace (r =? 0) with false by lia. wp_step.
      replace (r <? 0) with true by lia. do 3 wp_step. cbn [Z.eqb negb].
      by apply wp_probe_request.
  - wp_step. cbn [Z.eqb negb]. apply wp_probe_request; try done; cbn; congruence.
Qed.

Lemma wp_probe_dma {c : Prop} (Q : Z -> kern -> probe_st -> Prop) k s :
  (forall f r d, r <= 0 ->
    Q r (Kern f (held k) (kobjs k) (lockdep k)) (set_epar (EParams d (use_msi (epar s))) s)) ->
  wpc c probe_dma Q k s.
Proof.
  intros HQ.
  assert (forall f r, r <= 0 -> Q r (Kern f (held k) (kobjs k) (lockdep k)) s) as HQ'.
  { intros f r Hr. specialize (HQ f r (dma_mask (epar s)) Hr).
    by destruct s as [[] ? ? ? ? ? ? ? ? ? ? ? ? ?]. }
  unfold probe_dma. probe_steps; try done; first [apply HQ; lia | apply HQ'; lia].
Qed.

Lemma wp_qedu_probe {c : Prop} p k :
  held k = false ->
  wpc c qedu_probe (fun r k' s' => held k' = false /\
    ((r = - ENOMEM /\ s' = unbound p /\ kobjs k' = kobjs k) \/ probe_result p k r k' s'))
    k (unbound p).
Proof.
  intros Hh. unfold qedu_probe, pci_enable_device, pci_request_region, pci_iomap,
    probe_fail_iomap, probe_end, pci_disable_device, pci_release_regions. wp_step.
  apply wp_kmalloc; intros f; cbn [negb]; [| wp_step; auto].
  probe_steps; try done;
    try (split; [done |]; right; right; unfold all_released; cbn; split_and!; (done || lia)).
  apply wp_probe_dma. intros f' r d Hr.
  match goal with |- wpc _ _ _ ?k1 ?s1 => assert (mapped_in p k k1 s1) as HM end.
  { unfold mapped_in. cbn. split_and!; done || lia. }
  probe_step.
  - eapply wp_mono; [by apply (wp_probe_irq p k) |].
    intros r' k' s' [? ?]. auto.
  - eapply wp_mono; [apply (wp_probe_fail p k); try done; cbn; lia |].
    intros r' k' s' [? ?]. auto.
Qed.

(** ** Properties *)

(** C19: a probe ends with the lock free and either binds the device, holding
    exactly one object, the BAR, the interrupt, the three attributes and, when
    MSI is in use, its vectors; or it gives everything back, except that the
    vectors of MSI may stay allocated.  Its value is never positive, and 0 from
    a probe that gave everything back comes with a PCI device that still points
    to the freed object. *)
Theorem qedu_probe_ok p k :
  held k = false ->
  wp qedu_probe (fun r k' s' => held k' = false /\
    ((r = - ENOMEM /\ s' = unbound p /\ kobjs k' = kobjs k) \/ probe_result p k r k' s'))
    k (unbound p).
Proof. apply wp_qedu_probe. Qed.

(** C40: removing a bound device gives everything back, the vectors included,
    whatever its state bits are, and never prints the message about an
    interrupt that is not done: the shutdown bit was set just before. *)
Theorem qedu_remove_ok k s :
  held k = false -> bound s -> complained s = false -> bad_free s = false ->
  wp qedu_remove (fun _ k' s' => held k' = false /\ kobjs k' = kobjs k - 1 /\
    mem s' = false /\ enabled s' = false /\ region s' = false /\ mapped s' = false /\
    irq_requested s' = false /\ vectors s' = false /\ files s' = ∅ /\
    complained s' = false /\ bad_free s' = false) k s.
Proof.
  intros Hh (Hm & Hd & Hq & He & Hr & Hmp & Hi & Hf & Hv) Hc Hb.
  unfold qedu_remove, qedu_sysfs_remove_entries, deref_edu, driver_remove_file.
  do 2 wp_step. rewrite Hd. cbn [negb]. do 5 wp_step; [exact Hm |].
  do 8 wp_step. apply wp_qedu_remove_locked; [done | exact Hm |]. intros z.
  wp_steps. cbn. rewrite Hv, Hc, Hb, Hi, Hf. split_and!; try done; by destruct (vectors s).
Qed.

(** A device whose identification is wrong makes the probe return 0, success,
    after it freed the object and gave everything back; the PCI core then takes
    the device as bound, and its removal follows the stale pointer to freed
    memory. *)
Theorem wrong_id_use_after_free p k :
  held k = false ->
  run_value qedu_probe all_ok (unbound p) = Some 0 /\
  (mem <$> run_state qedu_probe all_ok (unbound p)) = Some false /\
  (run_state qedu_probe all_ok (unbound p) ≫= run_oops qedu_remove k) = Some UseAfterFree.
Proof.
  intros Hh. destruct p as [d []], k as [an he ko ld]; cbn in Hh; subst he;
    (split; [reflexivity | split; [reflexivity |]]); reflexivity.
Qed.

(** With MSI, a probe that cannot request the interrupt returns its error
    with the interrupt vectors still allocated. *)
Theorem probe_leaks_vectors d :
  let k := Kern (fun i => if (i =? 7)%nat then 16 else 0) false 0 true in
  run_value qedu_probe k (unbound (EParams d true)) = Some (- EBUSY) /\
  (vectors <$> run_state qedu_probe k (unbound (EParams d true))) = Some true.
Proof. split; reflexivity. Qed.

(** ** Witnesses *)

Lemma qedu_probe_ok_witness :
  wp qedu_probe (fun _ k' _ => held k' = false) all_ok (unbound (EParams 28 true)).
Proof.
  eapply wp_mono; [apply qedu_probe_ok; reflexivity |].
  cbv beta. intros r k' s' [H _]. exact H.
Defined.

Definition bound_edu : probe_st :=
  PrSt (EParams 28 true) true true true true true true true true {[0%nat; 1%nat; 2%nat]} true 1
    false false.

Lemma qedu_remove_ok_witness :
  wp qedu_remove (fun _ _ s' => vectors s' = false) all_ok bound_edu.
Proof.
  eapply wp_mono; [apply qedu_remove_ok; [reflexivity | | reflexivity..] |].
  - unfold bound. split_and!; reflexivity.
  - cbv beta. intros _ k' s' (_ & _ & _ & _ & _ & _ & _ & H & _). exact H.
Defined.

Lemma wrong_id_use_after_free_witness :
  (run_state qedu_probe all_ok (unbound (EParams 28 true)) ≫= run_oops qedu_remove all_ok)
  = Some UseAfterFree.
Proof. apply wrong_id_use_after_free. reflexivity. Defined.
