(* ===== verification/EduRemove.v ===== *)
(** * Removing the edu device while its interrupt comes (src/edu/init.c)

    EduProbe.v says what the removal gives back; here it runs against the
    interrupt, its thread and the timer.  It frees the interrupt with the
    spinlock held, and [free_irq] waits for the thread, which may be waiting for
    that lock. *)

From S2P Require Import Prelude Kernel Edu EduIrq.

Implicit Types (k : kern) (s : edu_st).

(** ** The code, cut where the lock is dropped or somebody is waited for *)

(** Up to line 43; the attributes are gone, so nobody is in [test_irq_show]. *)
Definition remove_begin : M edu_st unit :=
  spin_lock_irqsave;;
  lockdep_assert_held;;
  set_bit QEDU_STATE_SHUTDOWN;;
  spin_unlock_irqrestore.

(** Lines 48-55; [true]: a test was on, and the lock is dropped for the wait of
    line 57. *)
Definition remove_lock : M edu_st bool :=
  spin_lock_irqsave;;
  qedu_is_irq_done;;
  waiting ← qedu_is_waiting_irq;
  if (waiting : bool) then spin_unlock_irqrestore;; mret true
  else mret false.

(** Line 58. *)
Definition remove_relock : M edu_st unit := spin_lock_irqsave.

(** ** The system *)

(** Where the removal is: before its first section, at [del_timer_sync], about
    to lock again, in the timed wait, about to lock after it, in [free_irq], and
    past it. *)
Inductive rpc := RBegin | RDelTimer | RLock | RWaiting | RRelock | RFreeIrq | RFreed.

#[export] Instance rpc_eq_dec : EqDecision rpc.
Proof. solve_decision. Defined.

(** [r_locked]: the removal holds the lock; [r_woken]: the interrupt thread runs
    its handler; [r_fired]: the timer has expired and its callback has not got
    the lock yet. *)
Record rsys := RSys {
  r_st : edu_st; r_pc : rpc; r_locked : bool; r_woken : bool; r_fired : bool
}.

(** [spin_trylock] gets the lock exactly when it is free. *)
Definition sees_lock k (locked : bool) : Prop := (ans k 1%nat =? 0) = negb locked.

(** [del_timer_sync] waits for the callback, and [free_irq] for the thread. *)
Inductive rstep : rsys -> rsys -> Prop :=
  | r_begin s w f k k' s' :
      held k = false -> remove_begin k s = Done (tt, k', s') ->
      rstep (RSys s RBegin false w f) (RSys s' RDelTimer false w f)
  | r_del_timer s w k k' s' :
      del_timer k s = Done (tt, k', s') ->
      rstep (RSys s RDelTimer false w false) (RSys s' RLock false w false)
  | r_lock s w f k b k' s' :
      held k = false -> remove_lock k s = Done (b, k', s') ->
      rstep (RSys s RLock false w f)
        (RSys s' (if b then RWaiting else RFreeIrq) (held k') w f)
  | r_waited s w f : rstep (RSys s RWaiting false w f) (RSys s RRelock false w f)
  | r_relock s w f k k' s' :
      held k = false -> remove_relock k s = Done (tt, k', s') ->
      rstep (RSys s RRelock false w f) (RSys s' RFreeIrq (held k') w f)
  | r_free_irq s f :
      rstep (RSys s RFreeIrq true false f) (RSys s RFreed false false f)
  | r_irq s p l w f k r k' s' :
      p <> RFreed -> held k = false -> sees_lock k l ->
      qedu_handle_irq k s = Done (r, k', s') ->
      rstep (RSys s p l w f)
        (RSys s' p l (match r with IRQ_WAKE_THREAD => true | _ => w end) f)
  | r_thr s p f k r k' s' :
      held k = false -> qedu_thr_handle_irq k s = Done (r, k', s') ->
      rstep (RSys s p false true f) (RSys s' p false false f)
  | r_expire s p l w expires :
      timer (edu s) = Some expires ->
      rstep (RSys s p l w false) (RSys (on_edu (set_timer None) s) p l w true)
  | r_timeout s p w k x k' s' :
      held k = false -> qedu_timeout k s = Done (x, k', s') ->
      rstep (RSys s p false w true) (RSys s' p false w false).

Inductive rsteps : rsys -> rsys -> Prop :=
  | rsteps_refl S : rsteps S S
  | rsteps_step S1 S2 S3 : rstep S1 S2 -> rsteps S2 S3 -> rsteps S1 S3.

Lemma rsteps_trans S1 S2 S3 : rsteps S1 S2 -> rsteps S2 S3 -> rsteps S1 S3.
Proof. induction 1; intros; [done |]. econstructor; eauto. Qed.

(** The removal waits for the thread, and the thread for the lock. *)
Definition deadlocked (S : rsys) : Prop :=
  r_pc S = RFreeIrq /\ r_locked S = true /\ r_woken S = true.

Definition removal_done (S : rsys) : Prop := r_pc S = RFreed.

(** ** The sections *)

Lemma wp_remove_begin {c : Prop} k s :
  held k = false ->
  wpc c remove_begin (fun _ k' s' => held k' = false /\
    s' = on_edu (fun e => set_state (Z.setbit (state e) QEDU_STATE_SHUTDOWN) e) s) k s.
Proof. intros Hh. unfold remove_begin. by edu_steps. Qed.

Lemma wp_remove_lock {c : Prop} k s :
  held k = false ->
  wpc c remove_lock (fun b k' s' => held k' = negb b /\ s' = s) k s.
Proof.
  intros Hh. unfold remove_lock, qedu_is_waiting_irq. edu_step. edu_step. edu_step.
  apply wp_is_done; [done |]. by edu_steps.
Qed.

(** ** The invariant *)

(** Past [del_timer_sync] the timer is gone for good. *)
Definition stopped (p : rpc) : bool := match p with RBegin | RDelTimer => false | _ => true end.

(** The lock is held in [free_irq] and nowhere else. *)
Record rinv (S : rsys) : Prop := RInv {
  ri_lock : r_locked S = bool_decide (r_pc S = RFreeIrq);
  ri_timer : stopped (r_pc S) = true -> timer (edu (r_st S)) = None /\ r_fired S = false;
  ri_shutdown : r_pc S <> RBegin -> bit (edu (r_st S)) QEDU_STATE_SHUTDOWN = true;
  ri_freed : r_pc S = RFreed -> r_woken S = false
}.

Lemma rinv_start s w f : rinv (RSys s RBegin false w f).
Proof. by split. Qed.

(** An interrupt that is handled stops the timer and keeps the shutdown bit. *)
Lemma rinv_handled v s p l w w' f :
  rinv (RSys s p l w f) -> p <> RFreed -> rinv (RSys (handled_irq v s) p l w' f).
Proof.
  intros [H1 H2 H3 H4] Hp. split; cbn [r_st r_pc r_locked r_woken r_fired] in *; try done.
  { intros Hs. split; [done |]. by apply H2. }
  intros Hb. rewrite shutdown_handled. by apply H3.
Qed.

Lemma shutdown_timer (x : timeout_exit) s s' :
  timeout_effect s x s' -> bit (edu s) QEDU_STATE_SHUTDOWN = true ->
  bit (edu s') QEDU_STATE_SHUTDOWN = true.
Proof.
  destruct x; cbn [timeout_effect]; [by intros -> | by intros (z & ->) | intros ->].
  unfold bit. cbn [edu on_edu set_irq_q set_state state]. intros Hb. by rewrite setbit_bit, Hb.
Qed.

Lemma rinv_step S S' : rinv S -> rstep S S' -> rinv S'.
Proof.
  intros HI Hs. pose proof HI as [H1 H2 H3 H4].
  destruct Hs as [s w f k k' s' Hk He | s w k k' s' He | s w f k b k' s' Hk He | s w f
    | s w f k k' s' Hk He | s f | s p l w f k r k' s' Hp Hk Hl He | s p f k r k' s' Hk He
    | s p l w x Hx | s p w k y k' s' Hk He]; cbn [r_st r_pc r_locked r_woken r_fired] in *.
  - destruct (wpc_done _ _ _ _ _ _ _ (wp_remove_begin (c := True) k s Hk) He) as [_ ->].
    split; cbn [r_st r_pc r_locked r_woken r_fired]; try done. intros _. unfold bit.
    cbn [edu on_edu set_state state]. by rewrite setbit_bit.
  - injection He as _ <-. split; cbn [r_st r_pc r_locked r_woken r_fired]; try done. intros _. by apply H3.
  - destruct (wpc_done _ _ _ _ _ _ _ (wp_remove_lock (c := True) k s Hk) He) as [Hh ->].
    split; cbn [r_st r_pc r_locked r_woken r_fired]; [by rewrite Hh; destruct b | | | by destruct b].
    + intros _. by apply H2.
    + intros _. by apply H3.
  - split; cbn [r_st r_pc r_locked r_woken r_fired]; auto; done.
  - unfold remove_relock in He. unfold spin_lock_irqsave, mutex_lock in He.
    assert (s' = s /\ held k' = true) as [-> Hh].
    { revert He. mred. rewrite Hk. cbn. by intros [= <- <-]. }
    split; cbn [r_st r_pc r_locked r_woken r_fired]; [by rewrite Hh | | | done]; intros _; auto.
  - split; cbn [r_st r_pc r_locked r_woken r_fired]; auto; done.
  - destruct (wpc_done _ _ _ _ _ _ _ (wp_irq (c := True) k s Hk) He) as [_ Hr].
    destruct r; destruct Hr as [_ ->]; [done | by eapply rinv_handled |].
    by split.
  - destruct (wpc_done _ _ _ _ _ _ _ (wp_thr (c := True) k s Hk) He) as (_ & _ & v & ->).
    assert (p <> RFreed) as Hp by (intros ->; by specialize (H4 eq_refl)).
    by eapply rinv_handled.
  - assert (stopped p = false) as Hst.
    { destruct (stopped p) eqn:E; [| done]. destruct (H2 eq_refl). congruence. }
    split; cbn [r_st r_pc r_locked r_woken r_fired]; [done | congruence | exact H3 | done].
  - destruct (wpc_done _ _ _ _ _ _ _ (wp_timeout (c := True) k _ Hk) He) as [_ Hr].
    assert (stopped p = false) as Hst.
    { destruct (stopped p) eqn:E; [| done]. by destruct (H2 eq_refl). }
    split; cbn [r_st r_pc r_locked r_woken r_fired]; [done | congruence | | done].
    intros Hb. eapply shutdown_timer; [exact Hr |]. by apply H3.
Qed.

Lemma rinv_steps S S' : rinv S -> rsteps S S' -> rinv S'.
Proof. intros HI Hs. induction Hs; eauto using rinv_step. Qed.

(** ** The deadlock *)

Lemma deadlocked_step S S' : deadlocked S -> rstep S S' -> deadlocked S'.
Proof.
  intros (Hp & Hl & Hw) Hs. destruct Hs; cbn [r_pc r_locked r_woken] in *; simplify_eq; try done.
  split_and!; cbn; try done. by destruct r.
Qed.

Lemma deadlocked_steps S S' : deadlocked S -> rsteps S S' -> deadlocked S'.
Proof. intros HD Hs. induction Hs; eauto using deadlocked_step. Qed.

Definition grants : kern := Kern (fun _ => 0) false 0 false.

Lemma lock_runs s :
  remove_lock grants s =
    if bit (edu s) QEDU_STATE_IRQ_WAIT then Done (true, Kern (fun _ => 0) false 0 false, s)
    else Done (false, Kern (fun _ => 0) true 0 false, s).
Proof. unfold remove_lock, bit, qedu_is_waiting_irq, qedu_is_irq_done, spin_lock_irqsave,
    spin_unlock_irqrestore.
  mred. by destruct (Z.odd (state (edu s))).
Qed.

(** A callback that runs comes to its end. *)
Lemma reach_fired s p w f :
  exists s', rsteps (RSys s p false w f) (RSys s' p false w false).
Proof.
  destruct f; [| exists s; constructor].
  destruct (qedu_timeout grants s) as [[[x k'] s'] | o] eqn:E.
  - exists s'. eapply rsteps_step; [| constructor]. by eapply r_timeout; [| exact E].
  - pose proof (wp_timeout (c := False) grants s eq_refl) as H. unfold wpc in H. by rewrite E in H.
Qed.

(** The removal comes to [free_irq] whatever the others do. *)
Lemma reach_free_irq S :
  rinv S -> r_locked S = false -> r_pc S <> RFreed ->
  exists s, rsteps S (RSys s RFreeIrq true (r_woken S) false).
Proof.
  destruct S as [s p l w f]. intros HI Hl Hp. cbn in Hl. subst l. cbn [r_woken].
  set (ends q := forall s, exists s', rsteps (RSys s q false w false) (RSys s' RFreeIrq true w false)).
  assert (ends RRelock) as H1.
  { intros s1. exists s1. eapply rsteps_step; [| constructor].
    by apply (r_relock s1 w false grants (Kern (fun _ => 0) true 0 false)). }
  assert (ends RWaiting) as H2.
  { intros s1. destruct (H1 s1) as [s2 H]. exists s2. eapply rsteps_step; [constructor | done]. }
  assert (ends RLock) as H3.
  { intros s1. pose proof (lock_runs s1) as E. destruct (bit (edu s1) QEDU_STATE_IRQ_WAIT).
    - destruct (H2 s1) as [s2 H]. exists s2. eapply rsteps_step; [| exact H].
      by apply (r_lock s1 w false grants true (Kern (fun _ => 0) false 0 false)).
    - exists s1. eapply rsteps_step; [| constructor].
      by apply (r_lock s1 w false grants false (Kern (fun _ => 0) true 0 false)). }
  assert (ends RDelTimer) as H4.
  { intros s1. destruct (H3 (on_edu (set_timer None) s1)) as [s2 H]. exists s2.
    eapply rsteps_step; [by apply (r_del_timer s1 w grants grants) | exact H]. }
  assert (ends RBegin) as H5.
  { intros s1. set (s' := on_edu (fun e => set_state (Z.setbit (state e) QEDU_STATE_SHUTDOWN) e) s1).
    destruct (H4 s') as [s2 H]. exists s2. eapply rsteps_step; [| exact H].
    by apply (r_begin s1 w false grants grants s'). }
  destruct (reach_fired s p w f) as [s1 Hf].
  assert (ends p) as Hq by (pose proof (ri_lock _ HI); destruct p; done).
  destruct (Hq s1) as [s2 H]. exists s2. by eapply rsteps_trans.
Qed.

(** Once it is there with the thread at rest, it ends. *)
Lemma reach_freed S :
  rinv S -> r_pc S <> RFreed -> ~ deadlocked S -> exists S', rsteps S S' /\ removal_done S'.
Proof.
  intros HI Hp Hd. destruct S as [s p l w f].
  assert (forall S1, rinv S1 -> r_locked S1 = false -> r_woken S1 = false -> r_pc S1 <> RFreed ->
    exists S', rsteps S1 S' /\ removal_done S') as Hrest.
  { intros S1 HI1 Hl1 Hw1 Hp1. destruct (reach_free_irq S1 HI1 Hl1 Hp1) as [s2 H].
    rewrite Hw1 in H. exists (RSys s2 RFreed false false false). split; [| done].
    eapply rsteps_trans; [exact H |]. eapply rsteps_step; [constructor | constructor]. }
  pose proof (ri_lock _ HI) as El. cbn [r_pc r_locked] in El. destruct l.
  - symmetry in El. apply bool_decide_eq_true in El. subst p.
    destruct w; [by destruct Hd |]. exists (RSys s RFreed false false f). split; [| done].
    eapply rsteps_step; constructor.
  - destruct w; [| by apply Hrest].
    assert (rstep (RSys s p false true f) (RSys (handled_irq 0 s) p false false f)) as Hs.
    { apply (r_thr s p f grants IRQ_HANDLED grants (handled_irq 0 s)); [done |].
      by destruct s as [[] ?]. }
    destruct (Hrest (RSys (handled_irq 0 s) p false false f)) as (S' & H & HD); try done.
    { by eapply rinv_step. }
    exists S'. split; [by eapply rsteps_step | done].
Qed.

(** ** Properties *)

(** C20: when the removal is over the timer is stopped and neither the interrupt, nor
    its thread, nor the timer and its callback touch the device again, which is
    then freed.  But the removal waits in [free_irq] for the interrupt thread with
    the lock held: when an interrupt comes in between, the thread waits for the
    lock, and neither ever goes on.  Such a deadlock can be reached from every
    start, and it is the only thing that keeps the removal from its end. *)
Theorem remove_deadlocks s w f S :
  rsteps (RSys s RBegin false w f) S ->
  (removal_done S -> timer (edu (r_st S)) = None /\ r_woken S = false /\ r_fired S = false /\
     forall S', ~ rstep S S') /\
  (forall S', deadlocked S -> rsteps S S' -> deadlocked S' /\ ~ removal_done S') /\
  (~ deadlocked S -> exists S', rsteps S S' /\ removal_done S') /\
  (exists S', rsteps (RSys s RBegin false w f) S' /\ deadlocked S').
Proof.
  intros Hs. pose proof (rinv_steps _ _ (rinv_start s w f) Hs) as HI. split_and!.
  - intros HD. unfold removal_done in HD. pose proof HI as [H1 H2 H3 H4].
    rewrite HD in *. cbn in H1, H2, H4. destruct (H2 eq_refl) as [H5 H6].
    split_and!; [done | by apply H4 | done |].
    intros S' Hst. destruct Hst; cbn [r_pc r_woken r_st r_locked r_fired] in *; try done; subst.
    + by specialize (H4 eq_refl).
    + congruence.
  - intros S' HD Hst. pose proof (deadlocked_steps _ _ HD Hst) as HD'. split; [done |].
    destruct HD' as (Hp & _). unfold removal_done. by rewrite Hp.
  - intros Hd. destruct (decide (r_pc S = RFreed)) as [E | E]; [| by apply reach_freed].
    exists S. split; [constructor | done].
  - destruct (reach_free_irq (RSys s RBegin false w f) (rinv_start s w f) eq_refl) as [s2 H]; [done |].
    exists (RSys s2 RFreeIrq true true false). split; [| done]. eapply rsteps_trans; [exact H |].
    eapply rsteps_step; [| constructor].
    by apply (r_irq s2 RFreeIrq true w false (Kern (fun _ => 2) false 0 false) IRQ_WAKE_THREAD
      (Kern (fun _ => 2) false 0 false) s2).
Qed.

(** ** Witnesses *)

Lemma remove_deadlocks_witness :
  exists S', rsteps (RSys idle_edu RBegin false false false) S' /\ deadlocked S'.
Proof.
  exact (proj2 (proj2 (proj2 (remove_deadlocks idle_edu false false
    (RSys idle_edu RBegin false false false) (rsteps_refl _))))).
Defined.
