(* ===== verification/ProcFiles.v ===== *)
(** * The files in /proc of jit, jiq and scull (src/jit/jit.c, src/jiq/jiq.c, src/scull/proc.c)

    The tables of operations and the open functions behind them.  A pointer to a
    function is a constructor, and [call_open] and [call_seq] call it.  A file
    that [single_open] opened has a table of operations of its own, which only
    [single_release] frees. *)

From S2P Require Import Prelude Kernel.

Implicit Types (k : kern).

(** ** Data *)

(** What a read of the file runs. *)
Inductive pshow :=
  | ShowCurrenttime | ShowFn | ShowTimer | ShowTasklet
  | ShowWq | ShowWqDelayed | ShowRunTimer | ShowJiqTasklet
  | ShowScull.

(** The open functions of the drivers. *)
Inductive open_fn :=
  | JitFnOpen | JitCurrenttimeOpen | JitTimerOpen | JitTaskletOpen
  | JiqWqOpen | JiqWqDelayedOpen | JiqTaskletOpen | JiqRunTimerOpen
  | ScullSeqOpen.

(** Functions of fs/seq_file.c. *)
Inductive seq_fn := SeqRead | SeqLseek | SeqRelease | SingleRelease.

Record proc_ops := ProcOps {
  proc_open : open_fn;
  proc_read : seq_fn;
  proc_lseek : seq_fn;
  proc_release : seq_fn
}.

(** An open file: what it shows, [private], and whether its table of operations was
    allocated for it. *)
Record open_file := OpenFile { of_show : pshow; of_private : Z; of_single : bool }.

#[export] Instance pshow_eq_dec : EqDecision pshow.
Proof. solve_decision. Defined.
#[export] Instance open_fn_eq_dec : EqDecision open_fn.
Proof. solve_decision. Defined.
#[export] Instance seq_fn_eq_dec : EqDecision seq_fn.
Proof. solve_decision. Defined.
#[export] Instance proc_ops_eq_dec : EqDecision proc_ops.
Proof. solve_decision. Defined.

Section Files.
Context {S : Type}.

(** ** Kernel services

    [None]: no memory. *)

Definition seq_open (show : pshow) : M S (option open_file) :=
  ok ← kmalloc;
  mret (if (ok : bool) then Some (OpenFile show 0 false) else None).

Definition single_open (show : pshow) (data : Z) : M S (option open_file) :=
  ok ← kmalloc;
  if negb ok then mret None
  else
    x ← seq_open show;
    match x with
    | Some _ => mret (Some (OpenFile show data true))
    | None => kfree;; mret None
    end.

(** [single_release] of a file that shares its table frees static memory. *)
Definition call_seq (fn : seq_fn) (f : open_file) : M S unit :=
  match fn with
  | SeqRead | SeqLseek => mret tt
  | SeqRelease => kfree
  | SingleRelease => check (of_single f) UseAfterFree;; kfree;; kfree
  end.

(** ** The open functions

    [data] is PDE_DATA of the inode. *)

Definition jit_fn_open (data : Z) : M S (option open_file) := single_open ShowFn data.

Definition jit_currenttime_open (data : Z) : M S (option open_file) :=
  single_open ShowCurrenttime 0.

Definition jit_timer_open (data : Z) : M S (option open_file) := single_open ShowTimer 0.

Definition jit_tasklet_open (data : Z) : M S (option open_file) := single_open ShowTasklet data.

Definition jiq_read_wq_open (data : Z) : M S (option open_file) := single_open ShowWq 0.

Definition jiq_read_wq_delayed_open (data : Z) : M S (option open_file) :=
  single_open ShowWqDelayed 0.

Definition jiq_read_tasklet_open (data : Z) : M S (option open_file) :=
  single_open ShowJiqTasklet 0.

Definition jiq_read_run_timer_open (data : Z) : M S (option open_file) :=
  single_open ShowRunTimer 0.

Definition scullseq_proc_open (data : Z) : M S (option open_file) := seq_open ShowScull.

Definition call_open (fn : open_fn) (data : Z) : M S (option open_file) :=
  match fn with
  | JitFnOpen => jit_fn_open data
  | JitCurrenttimeOpen => jit_currenttime_open data
  | JitTimerOpen => jit_timer_open data
  | JitTaskletOpen => jit_tasklet_open data
  | JiqWqOpen => jiq_read_wq_open data
  | JiqWqDelayedOpen => jiq_read_wq_delayed_open data
  | JiqTaskletOpen => jiq_read_tasklet_open data
  | JiqRunTimerOpen => jiq_read_run_timer_open data
  | ScullSeqOpen => scullseq_proc_open data
  end.

(** A file is opened, used, and closed. *)
Definition use_file (ops : proc_ops) (data : Z) : M S (option open_file) :=
  x ← call_open (proc_open ops) data;
  match x with
  | None => mret None
  | Some f =>
      call_seq (proc_lseek ops) f;;
      call_seq (proc_read ops) f;;
      call_seq (proc_release ops) f;;
      mret (Some f)
  end.
End Files.

(** ** The tables *)

Definition jit_fn_fops : proc_ops := ProcOps JitFnOpen SeqRead SeqLseek SingleRelease.
Definition jit_currenttime_fops : proc_ops :=
  ProcOps JitCurrenttimeOpen SeqRead SeqLseek SingleRelease.
Definition jit_timer_fops : proc_ops := ProcOps JitTimerOpen SeqRead SeqLseek SingleRelease.
Definition jit_tasklet_fops : proc_ops := ProcOps JitTaskletOpen SeqRead SeqLseek SingleRelease.
Definition jiq_read_wq_fops : proc_ops := ProcOps JiqWqOpen SeqRead SeqLseek SingleRelease.
Definition jiq_read_wq_delayed_fops : proc_ops :=
  ProcOps JiqWqDelayedOpen SeqRead SeqLseek SingleRelease.
Definition jiq_read_tasklet_fops : proc_ops :=
  ProcOps JiqTaskletOpen SeqRead SeqLseek SingleRelease.
Definition jiq_read_run_timer_fops : proc_ops :=
  ProcOps JiqRunTimerOpen SeqRead SeqLseek SingleRelease.
Definition scullseq_proc_ops : proc_ops := ProcOps ScullSeqOpen SeqRead SeqLseek SeqRelease.

(** ** Lemmas *)

(** Whether an open function allocates a table, and what its file shows. *)
Definition opens_single (fn : open_fn) : bool :=
  match fn with ScullSeqOpen => false | _ => true end.

Definition opens_show (fn : open_fn) : pshow :=
  match fn with
  | JitFnOpen => ShowFn
  | JitCurrenttimeOpen => ShowCurrenttime
  | JitTimerOpen => ShowTimer
  | JitTaskletOpen => ShowTasklet
  | JiqWqOpen => ShowWq
  | JiqWqDelayedOpen => ShowWqDelayed
  | JiqTaskletOpen => ShowJiqTasklet
  | JiqRunTimerOpen => ShowRunTimer
  | ScullSeqOpen => ShowScull
  end.

(** Only two of the open functions hand the data on. *)
Definition opens_data (fn : open_fn) (data : Z) : Z :=
  match fn with JitFnOpen | JitTaskletOpen => data | _ => 0 end.

(** The table releases what its open function allocates. *)
Definition ops_match (ops : proc_ops) : Prop :=
  proc_read ops = SeqRead /\ proc_lseek ops = SeqLseek /\
  proc_release ops = if opens_single (proc_open ops) then SingleRelease else SeqRelease.

Lemma wp_call_open {S} fn data k (s : S) :
  wp (call_open fn data) (fun x k' s' =>
    held k' = held k /\ s' = s /\
    match x with
    | Some f => f = OpenFile (opens_show fn) (opens_data fn data) (opens_single fn) /\
        kobjs k' = kobjs k + (if opens_single fn then 2 else 1)
    | None => kobjs k' = kobjs k
    end) k s.
Proof.
  destruct fn; cbn [call_open opens_show opens_data opens_single];
    unfold jit_fn_open, jit_currenttime_open, jit_timer_open, jit_tasklet_open, jiq_read_wq_open,
      jiq_read_wq_delayed_open, jiq_read_tasklet_open, jiq_read_run_timer_open,
      scullseq_proc_open, single_open, seq_open;
    wp_steps; split_and!; cbn [held kobjs]; done || lia.
Qed.

Lemma wp_use_file {S} (ops : proc_ops) data k (s : S) :
  ops_match ops ->
  wp (use_file ops data) (fun x k' s' =>
    held k' = held k /\ kobjs k' = kobjs k /\ s' = s /\
    forall f, x = Some f -> of_show f = opens_show (proc_open ops) /\
      of_private f = opens_data (proc_open ops) data) k s.
Proof.
  intros (Er & El & Eo). unfold use_file. rewrite Er, El, Eo. wp_step.
  eapply wp_mono; [apply wp_call_open |]. intros [f |] k' s' (Hh & -> & H).
  - destruct H as [-> Hk]. destruct (opens_single (proc_open ops)); cbn [call_seq of_single];
      wp_steps; try done; (split; [done |]); (split; [cbn [kobjs]; lia |]); (split; [done |]);
      by intros f [= <-].
  - wp_step. by split_and!.
Qed.

(** ** Properties *)

(** Each of the nine tables opens a file of its own kind, hands on what the file
    was created with where the code does, and its release frees exactly what its
    open function allocated, whatever the kernel answers. *)
Theorem proc_files_balanced {S} ops data k (s : S) :
  ops ∈ [jit_fn_fops; jit_currenttime_fops; jit_timer_fops; jit_tasklet_fops; jiq_read_wq_fops;
         jiq_read_wq_delayed_fops; jiq_read_tasklet_fops; jiq_read_run_timer_fops;
         scullseq_proc_ops] ->
  wp (use_file ops data) (fun x k' s' =>
    held k' = held k /\ kobjs k' = kobjs k /\ s' = s /\
    forall f, x = Some f -> of_show f = opens_show (proc_open ops) /\
      of_private f = opens_data (proc_open ops) data) k s.
Proof.
  intros Hin. apply wp_use_file.
  assert (Forall ops_match [jit_fn_fops; jit_currenttime_fops; jit_timer_fops; jit_tasklet_fops;
    jiq_read_wq_fops; jiq_read_wq_delayed_fops; jiq_read_tasklet_fops; jiq_read_run_timer_fops;
    scullseq_proc_ops]) as H by repeat constructor.
  by apply (proj1 (list.Forall_forall _ _) H).
Qed.
