(* ===== verification/JitDelay.v ===== *)
(** * The delays of the jit module (src/jit/jit.c, [jit_fn_show])

    Four files that print a line after a delay, two by spinning on [jiffies]
    and two by sleeping.  The state is the clock, a [Z] that never wraps; the
    code reads it modulo 2^64.  Time passes by what the kernel answers. *)

From S2P Require Import Prelude Kernel.

(** ** The clock *)

(** A read of [jiffies]: any time may have passed since the last one. *)
Definition read_jiffies : M Z Z :=
  a ← ask; modify (fun now => now + Z.max 0 a);; gets wrap64.

(** linux/jiffies.h: [(long)(a - b) < 0]. *)
Definition time_before (a b : Z) : bool := s64 (a - b) <? 0.

(** A sleep of [d] ticks: at least that long, or shorter after a signal. *)
Definition sleep (d : Z) : M Z unit :=
  a ← ask;
  b ← ask;
  modify (fun now => now + (if a =? 0 then d else 0) + Z.max 0 b).

(** ** The files *)

Inductive jit_files := JIT_BUSY | JIT_SCHED | JIT_QUEUE | JIT_SCHEDTO.

(** The data pointer of the file. *)
Definition jit_file (private : Z) : option jit_files :=
  if private =? 0 then Some JIT_BUSY
  else if private =? 1 then Some JIT_SCHED
  else if private =? 2 then Some JIT_QUEUE
  else if private =? 3 then Some JIT_SCHEDTO
  else None.

(** The [while (time_before(jiffies, j1))] loops; [cpu_relax] and [schedule]
    only let time pass.  [false]: the fuel ran out. *)
Fixpoint delay_loop (fuel : nat) (j1 : Z) : M Z bool :=
  match fuel with
  | O => mret false
  | S fuel =>
      j ← read_jiffies;
      if time_before j j1 then delay_loop fuel j1 else mret true
  end.

(** The three numbers of the line, as %9li prints them. *)
Record jit_line := JLine { line_j0 : Z; line_j1 : Z; line_diff : Z }.

Definition jit_fn_show (fuel : nat) (delay private : Z) : M Z (option (Z * jit_line)) :=
  j0 ← read_jiffies;
  let j1 := wrap64 (j0 + delay) in
  ended ← (match jit_file private with
           | Some JIT_BUSY | Some JIT_SCHED => delay_loop fuel j1
           | Some JIT_QUEUE | Some JIT_SCHEDTO => sleep delay;; mret true
           | None => mret true
           end);
  if (ended : bool) then
    j1 ← read_jiffies;
    mret (Some (0, JLine (s64 j0) (s64 j1) (s64 (j1 - (j0 + delay)))))
  else mret None.

(** ** Lemmas *)

(** The time that passes in the next [n] reads. *)
Fixpoint elapsed (f : nat -> Z) (n : nat) : Z :=
  match n with
  | O => 0
  | S n => Z.max 0 (f 0%nat) + elapsed (fun i => f (i + 1)%nat) n
  end.

Lemma elapsed_nonneg f n : 0 <= elapsed f n.
Proof. revert f. induction n; intros f; cbn; [done |]. pose proof (IHn (fun i => f (i + 1)%nat)). lia. Qed.

(** The kernel after one answer. *)
Definition later (k : kern) : kern :=
  Kern (fun i => ans k (i + 1)%nat) (held k) (kobjs k) (lockdep k).

Lemma wp_read_jiffies {c : Prop} (Q : Z -> kern -> Z -> Prop) k t :
  Q (wrap64 (t + Z.max 0 (ans k 0%nat))) (later k) (t + Z.max 0 (ans k 0%nat)) ->
  wpc c read_jiffies Q k t.
Proof. done. Qed.

Lemma wp_sleep {c : Prop} d (Q : unit -> kern -> Z -> Prop) k t :
  Q tt (later (later k))
    (t + (if ans k 0%nat =? 0 then d else 0) + Z.max 0 (ans k (0 + 1)%nat)) ->
  wpc c (sleep d) Q k t.
Proof. done. Qed.

(** The comparison is right across a wrap of the counter. *)
Lemma time_before_spec t u :
  - 2 ^ 63 <= t - u < 2 ^ 63 -> time_before (wrap64 t) (wrap64 u) = (t <? u).
Proof.
  intros H. unfold time_before. rewrite s64_wrap64_sub by done. lia.
Qed.

Lemma s64_diff t u d :
  - 2 ^ 63 <= t - (u + d) < 2 ^ 63 -> s64 (wrap64 t - (wrap64 u + d)) = t - (u + d).
Proof. intros. word_lia. Qed.

Lemma delay_loop_ok n fuel j t0 d k (Q : bool -> kern -> Z -> Prop) t :
  0 <= d < 2 ^ 32 -> j = wrap64 (t0 + d) -> t0 <= t -> t - t0 < d + 2 ^ 61 ->
  (forall i, ans k i < 2 ^ 61) ->
  (n < fuel)%nat -> t0 + d <= t + elapsed (ans k) (S n) ->
  (forall k' t', t0 + d <= t' -> t <= t' -> t' - t0 < d + 2 ^ 61 + 2 ^ 61 ->
     (forall i, ans k' i < 2 ^ 61) -> Q true k' t') ->
  wp (delay_loop fuel j) Q k t.
Proof.
  intros Hd -> . revert k fuel t.
  induction n as [| n IH]; intros k fuel t Ht Hw Hk Hf He HQ; (destruct fuel as [| fuel]; [lia |]);
    cbn [delay_loop elapsed Nat.add] in *; unfold read_jiffies; pose proof (Hk 0%nat);
    unfold wpc; mred; fold (wpc (S := Z) False (A := bool));
    rewrite time_before_spec by lia; destruct (_ <? _) eqn:E.
  - lia.
  - apply HQ; [lia.. |]. intros i. apply Hk.
  - apply IH; cbn; [lia | lia | intros; apply Hk | lia | lia |].
    intros k' t' ? ? ? ?. apply HQ; [lia.. | done].
  - apply HQ; [lia.. |]. intros i. apply Hk.
Qed.

(** What the kernel must do for the delay of a file to pass: the clock reads
    that follow the first one see [delay] ticks pass before the fuel runs out,
    or no signal ends the sleep. *)
Definition delay_passes (fuel : nat) (delay : Z) (f : jit_files) (a : nat -> Z) : Prop :=
  match f with
  | JIT_BUSY | JIT_SCHED =>
      exists n, (n < fuel)%nat /\ delay <= elapsed (fun i => a (i + 1)%nat) (S n)
  | JIT_QUEUE | JIT_SCHEDTO => a 1%nat = 0
  end.

(** ** Properties *)

(** C22: when the delay passes, a read of any of the four files ends, and the
    three numbers it prints are the time before the delay, the time after it
    and by how much the delay was exceeded, which is never negative, also when
    the tick counter wraps meanwhile. *)
Theorem jit_fn_show_ok fuel delay private f k t :
  0 <= delay < 2 ^ 32 -> jit_file private = Some f ->
  (forall i, ans k i < 2 ^ 61) -> delay_passes fuel delay f (ans k) ->
  wp (jit_fn_show fuel delay private) (fun r _ t' =>
    exists T0, t <= T0 /\ T0 + delay <= t' /\
      r = Some (0, JLine (s64 T0) (s64 t') (t' - (T0 + delay)))) k t.
Proof.
  intros Hd Hf Hk Hp. unfold jit_fn_show. rewrite Hf.
  pose proof (Hk 0%nat). pose proof (Hk 1%nat). pose proof (Hk 2%nat). pose proof (Hk 3%nat).
  assert (forall T0 T1, T0 + delay <= T1 < T0 + delay + 2 ^ 63 ->
    JLine (s64 (wrap64 T0)) (s64 (wrap64 T1)) (s64 (wrap64 T1 - (wrap64 T0 + delay)))
    = JLine (s64 T0) (s64 T1) (T1 - (T0 + delay))) as Hl.
  { intros T0 T1 ?. by rewrite !s64_wrap64, s64_diff by lia. }
  wp_step. apply wp_read_jiffies.
  set (T0 := t + Z.max 0 (ans k 0%nat)). assert (t <= T0) by lia.
  assert (forall k' T1, T0 + delay <= T1 < T0 + delay + 2 ^ 61 + 2 ^ 61 ->
    (forall i, ans k' i < 2 ^ 61) ->
    wp (j1 ← read_jiffies;
        mret (Some (0, JLine (s64 (wrap64 T0)) (s64 j1) (s64 (j1 - (wrap64 T0 + delay))))))
      (fun r _ t' => exists T0, t <= T0 /\ T0 + delay <= t' /\
         r = Some (0, JLine (s64 T0) (s64 t') (t' - (T0 + delay)))) k' T1) as Hend.
  { intros k' T1 HT Hk'. pose proof (Hk' 0%nat). wp_step. apply wp_read_jiffies.
    wp_step. exists T0. split_and!; [lia.. |]. by rewrite Hl by lia. }
  apply wp_bind. destruct f; cbn [delay_passes] in Hp.
  1, 2: destruct Hp as (n & Hn & He);
    eapply (delay_loop_ok n _ _ T0 delay);
    [lia | by rewrite wrap64_wrap64_add | lia | lia | intros i; apply Hk | done
    | cbn [ans later]; lia | intros k' t' ? ? ? ?; apply Hend; [lia | done]].
  1, 2: wp_step; apply wp_sleep; cbn [ans later Nat.add]; rewrite Hp, Z.eqb_refl; wp_step;
    apply Hend; [lia | intros i; apply Hk].
Qed.

(** Three ticks pass between two reads; the counter wraps during the delay. *)
Definition slow_clock : kern := Kern (fun _ => 3) false 0 true.

Lemma jit_fn_show_ok_witness :
  wp (jit_fn_show 10 10 0) (fun r _ _ =>
    r = Some (0, JLine (-5) 10 5)) slow_clock (2 ^ 64 - 8) /\
  wp (jit_fn_show 10 10 0) (fun r _ t' =>
    exists T0, 2 ^ 64 - 8 <= T0 /\ T0 + 10 <= t' /\
      r = Some (0, JLine (s64 T0) (s64 t') (t' - (T0 + 10)))) slow_clock (2 ^ 64 - 8).
Proof.
  split.
  - vm_compute. reflexivity.
  - apply (jit_fn_show_ok 10 10 0 JIT_BUSY); [lia | reflexivity | intros i; cbn; lia |].
    exists 4%nat. split; [lia | vm_compute; discriminate].
Defined.
