(* ===== verification/JitTime.v ===== *)
(** * The current-time file of the jit module (src/jit/jit.c,
    [jit_currenttime_show])

    One line with the counter of ticks and two clocks of the kernel, which are
    arguments here.  The first clock's nanoseconds are printed in the six
    digits of the microseconds the file once showed. *)

From Stdlib Require Import Ascii.
From S2P Require Import Prelude Text.

(** ** Printing *)

Record timespec64 := Timespec { tv_sec : Z; tv_nsec : Z }.

Fixpoint zeros (n : nat) (s : string) : string :=
  match n with O => s | S n => String "0" (zeros n s) end.

(** A field of width [n], filled with zeros. *)
Definition zpad (n : nat) (s : string) : string := zeros (n - String.length s) s.

(** %10llu.%06lu and %40llu.%09lu *)
Definition fmt_ts (width frac : nat) (tv : timespec64) : string :=
  pad width (fmt_zu (wrap64 (tv_sec tv))) +:+ "." +:+ zpad frac (fmt_zu (wrap64 (tv_nsec tv))).

Definition jit_currenttime_show (j1 j2 : Z) (tv1 tv2 : timespec64) : string :=
  "0x" +:+ zpad 8 (fmt_x j1) +:+ " 0x" +:+ zpad 16 (fmt_x j2) +:+ " " +:+
  fmt_ts 10 6 tv1 +:+ " " +:+ fmt_ts 40 9 tv2 +:+ newline.

(** ** Reading it back *)

(** The digits [s] after those of [a]. *)
Fixpoint decimal (a : Z) (s : string) : Z :=
  match s with
  | EmptyString => a
  | String c s => decimal (10 * a + (Z.of_N (N_of_ascii c) - 48)) s
  end.

(** The nanoseconds that the digits after a decimal point denote. *)
Definition fraction_ns (s : string) : Z := decimal 0 s * 10 ^ (9 - slen s).

Lemma digit_value n : 0 <= n < 10 -> Z.of_N (N_of_ascii (digit n)) - 48 = n.
Proof.
  intros H. assert (n ∈ seqZ 0 10) as Hin by (apply elem_of_seqZ; lia).
  revert n Hin H. apply (proj1 (list.Forall_forall
    (fun n => 0 <= n < 10 -> Z.of_N (N_of_ascii (digit n)) - 48 = n) _)).
  vm_compute. repeat constructor.
Qed.

Lemma decimal_digits n z acc :
  0 <= z < 10 ^ Z.of_nat n -> (0 < n)%nat ->
  decimal 0 (digits 10 n z acc) = decimal z acc.
Proof.
  revert z acc. induction n as [| n IH]; intros z acc Hz Hn; [lia |]. cbn [digits].
  pose proof (Z.mod_pos_bound z 10 ltac:(lia)). pose proof (Z.div_mod z 10 ltac:(lia)).
  rewrite Nat2Z.inj_succ, Z.pow_succ_r in Hz by lia.
  destruct (z / 10 =? 0) eqn:E.
  - cbn [decimal]. rewrite digit_value by lia. f_equal. lia.
  - rewrite IH; [| split; [apply Z.div_pos; lia | apply Z.div_lt_upper_bound; lia] |].
    + cbn [decimal]. rewrite digit_value by lia. f_equal. lia.
    + destruct n; [cbn in Hz; assert (z / 10 = 0) by (apply Z.div_small; lia); lia | lia].
Qed.

Lemma decimal_zpad n z : 0 <= z < 10 ^ 20 -> decimal 0 (zpad n (fmt_zu z)) = z.
Proof.
  intros Hz. unfold zpad. induction (n - _)%nat as [| m IH]; cbn [zeros decimal].
  - unfold fmt_zu. by rewrite decimal_digits by (cbn; lia).
  - exact IH.
Qed.

Lemma slen_zeros n s : slen (zeros n s) = Z.of_nat n + slen s.
Proof. induction n as [| n IH]; cbn [zeros]; rewrite ?slen_cons; lia. Qed.

Lemma slen_zpad n s : slen (zpad n s) = Z.max (Z.of_nat n) (slen s).
Proof. unfold zpad. rewrite slen_zeros. lia. Qed.

Lemma slen_fmt_zu m z :
  0 <= z < 10 ^ Z.of_nat m -> (0 < m)%nat -> slen (fmt_zu z) <= Z.of_nat m.
Proof.
  intros Hz Hm. unfold fmt_zu. pose proof (slen_digits_small m 20 z "" Hz Hm).
  cbn [String.length] in *. lia.
Qed.

(** ** Properties *)

(** The nanoseconds of the second clock are printed as the fraction they are.
    Those of the first one, unless they are 0 or have all nine digits, read as
    ten times as much or more. *)
Theorem currenttime_fraction tv :
  0 <= tv_nsec tv < 10 ^ 9 ->
  fraction_ns (zpad 9 (fmt_zu (wrap64 (tv_nsec tv)))) = tv_nsec tv /\
  (0 < tv_nsec tv < 10 ^ 8 ->
   10 * tv_nsec tv <= fraction_ns (zpad 6 (fmt_zu (wrap64 (tv_nsec tv))))).
Proof.
  intros Hn. rewrite wrap64_small by lia. unfold fraction_ns.
  rewrite !decimal_zpad, !slen_zpad by lia. split.
  - pose proof (slen_fmt_zu 9 (tv_nsec tv) ltac:(cbn; lia) ltac:(lia)).
    rewrite Z.max_l by lia. cbn. lia.
  - intros H. pose proof (slen_fmt_zu 8 (tv_nsec tv) ltac:(cbn; lia) ltac:(lia)).
    pose proof (Z.pow_le_mono_r 10 1 (9 - Z.max (Z.of_nat 6) (slen (fmt_zu (tv_nsec tv))))
      ltac:(lia) ltac:(lia)). nia.
Qed.

(** Five nanoseconds after the second read as five microseconds. *)
Example currenttime_run :
  jit_currenttime_show 255 (2 ^ 32 + 255) (Timespec 7 5) (Timespec 7 5) =
  "0x000000ff 0x00000001000000ff          7.000005 " +:+ pad 40 "7" +:+ ".000000005" +:+ newline.
Proof. vm_compute. reflexivity. Qed.

Lemma currenttime_fraction_witness :
  10 * 5 <= fraction_ns (zpad 6 (fmt_zu (wrap64 (tv_nsec (Timespec 7 5))))).
Proof. apply (currenttime_fraction (Timespec 7 5)); cbn; lia. Defined.
