(* ===== verification/Jit.v ===== *)
(** * The timer and tasklet files of the jit module (src/jit/jit.c)

    Reading one of these files starts a callback that prints five lines, and
    sleeps until the last one.  The callback runs on its own: a timer when it
    expires, a tasklet at any moment.  [jstep] interleaves the reader, the
    callback, signals and the closing of the file.  The theorems give what a
    reader gets, and exactly when freed memory is used. *)

From S2P Require Import Prelude Kernel.

(** ** Data *)

Definition JIT_ASYNC_LOOPS : Z := 5.

(** A printed line: the time and the time since the line before.  The other
    columns (counters, pid, cpu and command of the current task) are left
    out. *)
Record async_line := ALine { a_time : Z; a_delta : Z }.

(** The [jit_data] of a read; [expires] is a field of its timer, [waiting]
    tells that the reader is on the wait queue. *)
Record jit_data := JData {
  expires : Z;
  hi : Z;
  waiting : bool;
  prev_jiffies : Z;
  loops : Z
}.

Inductive armed := ATimer | ATasklet (high : bool).

(** [clock] counts the ticks and never wraps; [seq_buf] is the output, [None]
    when the file is closed; [jdata] is the memory of the read, [None] before
    [kmalloc] and after [kfree]; [pending]: the callback is to come. *)
Record jit_st := JSt {
  tdelay : Z;
  clock : Z;
  seq_buf : option (list async_line);
  jdata : option jit_data;
  pending : option armed
}.

Definition set_clock (z : Z) (s : jit_st) : jit_st :=
  JSt (tdelay s) z (seq_buf s) (jdata s) (pending s).
Definition set_buf (b : option (list async_line)) (s : jit_st) : jit_st :=
  JSt (tdelay s) (clock s) b (jdata s) (pending s).
Definition set_jdata (d : option jit_data) (s : jit_st) : jit_st :=
  JSt (tdelay s) (clock s) (seq_buf s) d (pending s).
Definition set_pending (p : option armed) (s : jit_st) : jit_st :=
  JSt (tdelay s) (clock s) (seq_buf s) (jdata s) p.

Definition set_waiting (b : bool) (d : jit_data) : jit_data :=
  JData (expires d) (hi d) b (prev_jiffies d) (loops d).
Definition set_loops (n : Z) (d : jit_data) : jit_data :=
  JData (expires d) (hi d) (waiting d) (prev_jiffies d) n.
Definition set_prev (e j : Z) (d : jit_data) : jit_data :=
  JData e (hi d) (waiting d) j (loops d).

(** ** Kernel services *)

Definition jiffies : M jit_st Z := gets (fun s => wrap64 (clock s)).

(** Any access to the [jit_data]. *)
Definition get_jdata : M jit_st jit_data := fun k s =>
  match jdata s with
  | Some d => Done (d, k, s)
  | None => Crash UseAfterFree
  end.

Definition put_data (d : jit_data) : M jit_st unit := modify (set_jdata (Some d)).

Definition seq_printf (l : async_line) : M jit_st unit := fun k s =>
  match seq_buf s with
  | Some ls => Done (tt, k, set_buf (Some (ls ++ [l])) s)
  | None => Crash UseAfterFree
  end.

(** [add_timer] is a bug on a pending timer ([BUG_ON]). *)
Definition add_timer : M jit_st unit :=
  s ← gets (fun s => s);
  check (match pending s with None => true | Some _ => false end) TimerPending;;
  modify (set_pending (Some ATimer)).

(** A tasklet that is scheduled already stays as it is. *)
Definition tasklet_schedule (high : bool) : M jit_st unit :=
  modify (fun s => match pending s with
                   | None => set_pending (Some (ATasklet high)) s
                   | Some _ => s
                   end).

(** ** The callbacks

    [true]: the wake-up of the reader is still to come. *)

Definition jit_timer_fn : M jit_st bool :=
  d ← get_jdata;
  j ← jiffies;
  seq_printf (ALine (s64 j) (s64 (j - prev_jiffies d)));;
  let d := set_loops (wrap64 (loops d - 1)) d in
  put_data d;;
  if negb (loops d =? 0) then
    s ← gets (fun s => s);
    put_data (set_prev (wrap64 (expires d + tdelay s)) j d);;
    add_timer;;
    mret false
  else mret true.

Definition jit_tasklet_fn : M jit_st bool :=
  d ← get_jdata;
  j ← jiffies;
  seq_printf (ALine (s64 j) (s64 (j - prev_jiffies d)));;
  let d := set_loops (wrap64 (loops d - 1)) d in
  put_data d;;
  if negb (loops d =? 0) then
    put_data (set_prev (expires d) j d);;
    tasklet_schedule (negb (hi d =? 0));;
    mret false
  else mret true.

(** [wake_up_interruptible(&data->wait)], the last thing a callback does. *)
Definition jit_wake : M jit_st unit :=
  d ← get_jdata; put_data (set_waiting false d).

(** ** The reader *)

(** [kmalloc] with its uninitialised fields; the wait queue is initialised. *)
Definition new_data : M jit_st bool :=
  ok ← kmalloc;
  if (ok : bool) then
    a ← ask; b ← ask;
    put_data (JData (wrap64 a) (s32 a) false (wrap64 b) (wrap64 b));;
    mret true
  else mret false.

(** From the entry to the wait; [Some r]: it returns [r] at once. *)
Definition jit_timer_show : M jit_st (option Z) :=
  j ← jiffies;
  ok ← new_data;
  if negb ok then mret (Some (- ENOMEM))
  else
    seq_printf (ALine (s64 j) 0);;
    d ← get_jdata;
    s ← gets (fun s => s);
    put_data (JData (wrap64 (j + tdelay s)) (hi d) (waiting d) j JIT_ASYNC_LOOPS);;
    add_timer;;
    mret None.

Definition jit_tasklet_show (private : Z) : M jit_st (option Z) :=
  j ← jiffies;
  ok ← new_data;
  if negb ok then mret (Some (- ENOMEM))
  else
    seq_printf (ALine (s64 j) 0);;
    d ← get_jdata;
    put_data (JData (expires d) (s32 private) (waiting d) j JIT_ASYNC_LOOPS);;
    tasklet_schedule (negb (private =? 0));;
    mret None.

(** The condition of the wait: [true] when it holds, otherwise the reader is on
    the queue. *)
Definition jit_wait : M jit_st bool :=
  d ← get_jdata;
  if loops d =? 0 then mret true
  else put_data (set_waiting true d);; mret false.

(** After the wait; a pending signal skips the [kfree]. *)
Definition jit_finish : M jit_st Z :=
  a ← ask;
  if negb (a =? 0) then mret (- ERESTARTSYS)
  else
    get_jdata;;
    kfree;;
    modify (set_jdata None);;
    mret 0.

(** A signal that ends the sleep. *)
Definition jit_interrupted : M jit_st Z :=
  d ← get_jdata;
  put_data (set_waiting false d);;
  mret (- ERESTARTSYS).

(** ** The system *)

Inductive source := Timer | Tasklet.

Inductive jpc := JStart | JTest | JAsleep | JEnd | JReturned (r : Z) | JReleased.

#[export] Instance jpc_eq_dec : EqDecision jpc.
Proof. solve_decision. Defined.

(** [j_waking]: a callback has the wake-up still to do. *)
Record jsys := JSys { j_st : jit_st; j_pc : jpc; j_waking : bool }.

Definition run1 {A} (r : outcome (A * kern * jit_st)) (f : A -> jit_st -> jsys)
    : outcome jsys :=
  match r with
  | Done (a, _, s) => Done (f a s)
  | Crash o => Crash o
  end.

(** A pending timer runs when the clock has reached its time. *)
Definition due (s : jit_st) : Prop :=
  match pending s with
  | None => False
  | Some ATimer => forall d, jdata s = Some d -> 0 <= s64 (wrap64 (clock s) - expires d)
  | Some (ATasklet _) => True
  end.

Definition new_jsys (td t : Z) : jsys := JSys (JSt td t (Some []) None None) JStart false.

Section System.
Context (src : source) (private : Z).

Definition jit_show : M jit_st (option Z) :=
  match src with Timer => jit_timer_show | Tasklet => jit_tasklet_show private end.

Definition callback : M jit_st bool :=
  match src with Timer => jit_timer_fn | Tasklet => jit_tasklet_fn end.

(** A step ends in a state or in an oops. *)
Inductive jstep : jsys -> outcome jsys -> Prop :=
  | j_tick s p w n : 0 <= n -> jstep (JSys s p w) (Done (JSys (set_clock (clock s + n) s) p w))
  | j_show s w k :
      jstep (JSys s JStart w) (run1 (jit_show k s) (fun r s' =>
        JSys s' (match r with Some e => JReturned e | None => JTest end) w))
  | j_test s w k :
      jstep (JSys s JTest w) (run1 (jit_wait k s) (fun b s' =>
        JSys s' (if b then JEnd else JAsleep) w))
  | j_woken s w d :
      jdata s = Some d -> waiting d = false ->
      jstep (JSys s JAsleep w) (Done (JSys s JTest w))
  | j_signal s w k :
      jstep (JSys s JAsleep w) (run1 (jit_interrupted k s) (fun r s' =>
        JSys s' (JReturned r) w))
  | j_end s w k :
      jstep (JSys s JEnd w) (run1 (jit_finish k s) (fun r s' => JSys s' (JReturned r) w))
  | j_fire s p k :
      due s ->
      jstep (JSys s p false) (run1 (callback k (set_pending None s)) (fun w s' =>
        JSys s' p w))
  | j_wake s p k :
      jstep (JSys s p true) (run1 (jit_wake k s) (fun _ s' => JSys s' p false))
  | j_release s r w :
      jstep (JSys s (JReturned r) w) (Done (JSys (set_buf None s) JReleased w)).

Inductive jreach : jsys -> jsys -> Prop :=
  | jreach_refl S : jreach S S
  | jreach_step S S' S'' : jreach S S' -> jstep S' (Done S'') -> jreach S S''.
End System.

(** ** Running the system *)

(** The steps by name, under a kernel that grants everything. *)
Inductive jmove := GTick (n : Z) | GShow | GTest | GSignal | GEnd | GFire | GWake | GRelease.

Definition grant : kern := Kern (fun _ => 0) false 0 false.

#[export] Instance due_dec s : Decision (due s).
Proof.
  unfold due. destruct (pending s) as [[|] |]; [| apply _ | apply _].
  destruct (jdata s) as [d |].
  - destruct (decide (0 <= s64 (wrap64 (clock s) - expires d))) as [H | H].
    + left. by intros ? [= <-].
    + right. intros Hd. by apply H, Hd.
  - by left.
Defined.

Definition jexec1 (src : source) (private : Z) (m : jmove) (S : jsys) : option (outcome jsys) :=
  let s := j_st S in let w := j_waking S in
  match m, j_pc S, w with
  | GTick n, p, _ =>
      if decide (0 <= n) then Some (Done (JSys (set_clock (clock s + n) s) p w)) else None
  | GShow, JStart, _ => Some (run1 (jit_show src private grant s) (fun r s' =>
      JSys s' (match r with Some e => JReturned e | None => JTest end) w))
  | GTest, JTest, _ => Some (run1 (jit_wait grant s) (fun b s' =>
      JSys s' (if b then JEnd else JAsleep) w))
  | GSignal, JAsleep, _ => Some (run1 (jit_interrupted grant s) (fun r s' =>
      JSys s' (JReturned r) w))
  | GEnd, JEnd, _ => Some (run1 (jit_finish grant s) (fun r s' => JSys s' (JReturned r) w))
  | GFire, p, false =>
      if decide (due s) then
        Some (run1 (callback src grant (set_pending None s)) (fun w s' => JSys s' p w))
      else None
  | GWake, p, true => Some (run1 (jit_wake grant s) (fun _ s' => JSys s' p false))
  | GRelease, JReturned r, _ => Some (Done (JSys (set_buf None s) JReleased w))
  | _, _, _ => None
  end.

Fixpoint jexec (src : source) (private : Z) (ms : list jmove) (S : jsys) : option jsys :=
  match ms with
  | [] => Some S
  | m :: ms =>
      match jexec1 src private m S with
      | Some (Done S') => jexec src private ms S'
      | _ => None
      end
  end.

Lemma jexec1_step src private m S r :
  jexec1 src private m S = Some r -> jstep src private S r.
Proof.
  destruct S as [s p w]. destruct m, p, w; cbn; intros H; simplify_option_eq; by constructor.
Qed.

Lemma jreach_trans src private S S' S'' :
  jreach src private S S' -> jreach src private S' S'' -> jreach src private S S''.
Proof.
  intros H1 H2. revert H1.
  induction H2 as [| A B C _ IH Hs]; [done |].
  intros H1. eapply jreach_step; [by apply IH | done].
Qed.

Lemma jexec_reach src private ms S S' :
  jexec src private ms S = Some S' -> jreach src private S S'.
Proof.
  revert S. induction ms as [| m ms IH]; cbn; intros S H.
  - injection H as ->. constructor.
  - destruct (jexec1 src private m S) as [[S1 | o] |] eqn:E; try done.
    apply jexec1_step in E. eapply jreach_trans; [| by apply IH].
    eapply jreach_step; [constructor | done].
Qed.
