(* ===== verification/JitInv.v ===== *)
(** * What a read of a jit timer or tasklet file gives

    The invariant of the reader and its callback, with the times of the lines
    as unwrapped integers, and the properties that follow from it. *)

From S2P Require Import Prelude Kernel Jit.

Implicit Types (s : jit_st) (k : kern).

(** ** The lines *)

Fixpoint lines_from (p : Z) (Us : list Z) : list async_line :=
  match Us with
  | [] => []
  | U :: Us => ALine (s64 U) (U - p) :: lines_from U Us
  end.

(** The output for a read that starts at [T] and callbacks at [Us]. *)
Definition lines_of (T : Z) (Us : list Z) : list async_line :=
  ALine (s64 T) 0 :: lines_from T Us.

(** The times do not go back, from [p] to [now]. *)
Fixpoint chain (p : Z) (Us : list Z) (now : Z) : Prop :=
  match Us with
  | [] => p <= now
  | U :: Us => p <= U /\ chain U Us now
  end.

(** The callbacks of a timer keep to the grid of [td] ticks. *)
Definition on_time (src : source) (td T : Z) (Us : list Z) : Prop :=
  src = Timer -> forall i U, Us !! i = Some U -> T + (Z.of_nat i + 1) * td <= U.

Definition last_of (p : Z) (Us : list Z) : Z := default p (list.last Us).

Lemma last_of_cons p U Us : last_of p (U :: Us) = last_of U Us.
Proof. unfold last_of. rewrite last_cons. by destruct (list.last Us). Qed.

Lemma last_of_snoc p Us U : last_of p (Us ++ [U]) = U.
Proof. unfold last_of. by rewrite last_snoc. Qed.

Lemma lines_from_snoc p Us U :
  lines_from p (Us ++ [U]) = lines_from p Us ++ [ALine (s64 U) (U - last_of p Us)].
Proof.
  revert p. induction Us as [| V Us IH]; intros p; [done |].
  cbn [app lines_from]. by rewrite IH, last_of_cons.
Qed.

Lemma lines_of_snoc T Us U :
  lines_of T (Us ++ [U]) = lines_of T Us ++ [ALine (s64 U) (U - last_of T Us)].
Proof. unfold lines_of. by rewrite lines_from_snoc. Qed.

Lemma chain_mono p Us now now' : now <= now' -> chain p Us now -> chain p Us now'.
Proof.
  intros H. revert p. induction Us as [| U Us IH]; intros p; cbn; [lia |].
  intros [? ?]. auto.
Qed.

Lemma chain_snoc p Us now : chain p Us now -> chain p (Us ++ [now]) now.
Proof.
  revert p. induction Us as [| U Us IH]; intros p; cbn; [lia |].
  intros [? ?]. auto.
Qed.

Lemma chain_last p Us now : chain p Us now -> p <= last_of p Us <= now.
Proof.
  revert p. induction Us as [| U Us IH]; intros p; cbn [chain].
  - unfold last_of. cbn. lia.
  - intros [? H%IH]. rewrite last_of_cons. lia.
Qed.

Lemma on_time_snoc src td T Us U :
  on_time src td T Us -> (src = Timer -> T + (zlen Us + 1) * td <= U) ->
  on_time src td T (Us ++ [U]).
Proof.
  intros H HU Hs i V [Hi | [Hi HV]]%lookup_app_Some; [by apply H |].
  apply list_lookup_singleton_Some in HV as [Hi' <-].
  replace i with (length Us) by lia. by apply HU.
Qed.

(** ** Steps *)

Lemma wp_get_jdata {c : Prop} (Q : jit_data -> kern -> jit_st -> Prop) k s d :
  jdata s = Some d -> Q d k s -> wpc c get_jdata Q k s.
Proof. intros E. unfold wpc, get_jdata. by rewrite E. Qed.

Lemma wp_seq_printf {c : Prop} (Q : unit -> kern -> jit_st -> Prop) k s l ls :
  seq_buf s = Some ls -> Q tt k (set_buf (Some (ls ++ [l])) s) ->
  wpc c (seq_printf l) Q k s.
Proof. intros E. unfold wpc, seq_printf. by rewrite E. Qed.

Ltac jit_steps :=
  repeat (cbv beta iota;
    lazymatch goal with
    | |- wpc _ get_jdata _ _ _ => eapply wp_get_jdata; [done |]
    | |- wpc _ (seq_printf _) _ _ _ => eapply wp_seq_printf; [done |]
    | |- wpc _ (check _ _) _ _ _ => apply wp_check; [done |]
    | |- _ => wp_step
    end; cbn [held kobjs ans lockdep negb]).

(** No section moves the clock. *)
Definition keeps_clock {A} (m : M jit_st A) : Prop :=
  forall k s, wlp m (fun _ _ s' => clock s' = clock s) k s.

Lemma run1_clock {A} (m : M jit_st A) (f : A -> jit_st -> jsys) k s S :
  keeps_clock m -> (forall a s', j_st (f a s') = s') ->
  run1 (m k s) f = Done S -> clock (j_st S) = clock s.
Proof.
  intros Hm Hf. specialize (Hm k s). unfold wpc, run1 in *.
  destruct (m k s) as [[[a k'] s'] | o]; [| done]. intros [= <-]. by rewrite Hf.
Qed.

Lemma wlp_get_jdata (Q : jit_data -> kern -> jit_st -> Prop) k s :
  (forall d, Q d k s) -> wlp get_jdata Q k s.
Proof. intros H. unfold wpc, get_jdata. by destruct (jdata s). Qed.

Lemma wlp_seq_printf (Q : unit -> kern -> jit_st -> Prop) k s l :
  (forall b, Q tt k (set_buf b s)) -> wlp (seq_printf l) Q k s.
Proof. intros H. unfold wpc, seq_printf. by destruct (seq_buf s). Qed.

Ltac clock_steps :=
  intros k s;
  repeat (cbv beta iota;
    lazymatch goal with
    | |- wpc _ get_jdata _ _ _ => apply wlp_get_jdata; intros
    | |- wpc _ (seq_printf _) _ _ _ => apply wlp_seq_printf; intros
    | |- _ => wp_step
    end; cbn [held kobjs ans lockdep negb]);
  cbn; try done; by destruct (pending s).

Lemma show_clock src private : keeps_clock (jit_show src private).
Proof.
  unfold jit_show, jit_timer_show, jit_tasklet_show, new_data, put_data, jiffies, add_timer,
    tasklet_schedule. destruct src; clock_steps.
Qed.

Lemma callback_clock src : keeps_clock (callback src).
Proof.
  unfold callback, jit_timer_fn, jit_tasklet_fn, put_data, jiffies, add_timer,
    tasklet_schedule. destruct src; clock_steps.
Qed.

Lemma wait_clock : keeps_clock jit_wait.
Proof. unfold jit_wait, put_data. clock_steps. Qed.

Lemma finish_clock : keeps_clock jit_finish.
Proof. unfold jit_finish. clock_steps. Qed.

Lemma interrupted_clock : keeps_clock jit_interrupted.
Proof. unfold jit_interrupted, put_data. clock_steps. Qed.

Lemma wake_clock : keeps_clock jit_wake.
Proof. unfold jit_wake, put_data. clock_steps. Qed.

(** ** The invariant *)

Section Inv.
Context (src : source) (private td t : Z) (Htd : 0 <= td < 2 ^ 32).

(** The lines written so far, and that the clock has not run too far. *)
Record written (T : Z) (Us : list Z) (s : jit_st) (p : jpc) : Prop := Written {
  wr_start : t <= T;
  wr_chain : chain T Us (clock s);
  wr_time : on_time src td T Us;
  wr_buf : seq_buf s = match p with JReleased => None | _ => Some (lines_of T Us) end;
  wr_td : tdelay s = td
}.

Definition is_armed (s : jit_st) : Prop :=
  match src, pending s with
  | Timer, Some ATimer => True
  | Tasklet, Some (ATasklet _) => True
  | _, _ => False
  end.

(** The memory while it is allocated. *)
Record alive (T : Z) (Us : list Z) (d : jit_data) (S : jsys) : Prop := Alive {
  al_loops : loops d = 5 - zlen Us;
  al_range : 0 <= loops d;
  al_more : 0 < loops d -> is_armed (j_st S) /\ j_waking S = false /\
    prev_jiffies d = wrap64 (last_of T Us) /\
    (src = Timer -> expires d = wrap64 (T + (zlen Us + 1) * td));
  al_done : loops d = 0 -> pending (j_st S) = None;
  al_end : j_pc S = JEnd -> loops d = 0;
  al_asleep : j_pc S = JAsleep -> waiting d = true -> loops d = 0 -> j_waking S = true;
  al_pc : j_pc S = JTest \/ j_pc S = JAsleep \/ j_pc S = JEnd \/
          j_pc S = JReturned (- ERESTARTSYS) \/ j_pc S = JReleased
}.

(** Nothing is allocated and the callback is not to come. *)
Definition quiet_st (S : jsys) : Prop := jdata (j_st S) = None /\ pending (j_st S) = None.

Inductive jinv (S : jsys) : Prop :=
  | inv_start :
      j_pc S = JStart -> quiet_st S -> j_waking S = false ->
      seq_buf (j_st S) = Some [] -> tdelay (j_st S) = td -> t <= clock (j_st S) -> jinv S
  | inv_refused :
      j_pc S = JReturned (- ENOMEM) \/ j_pc S = JReleased -> quiet_st S ->
      j_waking S = false -> jinv S
  | inv_alive T Us d :
      jdata (j_st S) = Some d -> written T Us (j_st S) (j_pc S) -> alive T Us d S -> jinv S
  | inv_freed T Us :
      quiet_st S -> written T Us (j_st S) (j_pc S) -> length Us = 5%nat ->
      j_pc S = JReturned 0 \/ j_pc S = JReleased -> jinv S.

(** The oopses that can happen: the wake-up of a callback whose reader has
    already freed the memory, and a callback after the file is closed. *)
Definition can_oops (S : jsys) (o : oops) : Prop :=
  o = UseAfterFree /\
  ((j_waking S = true /\ jdata (j_st S) = None) \/
   (j_pc S = JReleased /\ is_Some (jdata (j_st S)) /\ pending (j_st S) <> None)).

(** The outcome of a step. *)
Definition jok (S : jsys) (r : outcome jsys) : Prop :=
  match r with
  | Done S' => jinv S'
  | Crash o => can_oops S o
  end.

Lemma new_jinv : jinv (new_jsys td t).
Proof. apply inv_start; done. Qed.

Lemma written_tick T Us s p n :
  0 <= n -> written T Us s p -> written T Us (set_clock (clock s + n) s) p.
Proof.
  intros Hn [H1 H2 H3 H4 H5]. split; try done. cbn. eapply chain_mono; [| done]. lia.
Qed.

Lemma tick_ok s p w n : 0 <= n -> jinv (JSys s p w) -> jinv (JSys (set_clock (clock s + n) s) p w).
Proof.
  intros Hn [H1 H2 H3 H4 H5 H6 | H1 H2 H3 | T Us d H1 H2 H3 | T Us H1 H2 H3 H4].
  - apply inv_start; try done. cbn in *. lia.
  - by apply inv_refused.
  - eapply inv_alive; [done | by apply written_tick |]. by destruct H3; split.
  - eapply inv_freed; [done | by apply written_tick | done | done].
Qed.

(** A section that does not oops. *)
Lemma jok_wp {A} (m : M jit_st A) (f : A -> jit_st -> jsys) k s S :
  wp m (fun a _ s' => jinv (f a s')) k s -> jok S (run1 (m k s) f).
Proof. unfold wpc. by destruct (m k s) as [[[a k'] s'] | o]. Qed.

Lemma show_ok s w k :
  jinv (JSys s JStart w) ->
  jok (JSys s JStart w) (run1 (jit_show src private k s) (fun r s' =>
    JSys s' (match r with Some e => JReturned e | None => JTest end) w)).
Proof.
  intros [H1 H2 H3 H4 H5 H6 | [H1 | H1] H2 H3 | T Us d H1 H2 H3 | T Us H1 H2 H3 [H4 | H4]];
    cbn in *; try done.
  - destruct s as [td' c b d p], H2 as [Hd Hp]. cbn in *. subst. apply jok_wp.
    unfold jit_show, jit_timer_show, jit_tasklet_show, new_data, put_data, jiffies, add_timer,
      tasklet_schedule.
    destruct src eqn:Es; jit_steps; try (by apply inv_refused; [left |..]).
    all: eapply (inv_alive _ c []); [reflexivity | split | split]; cbn; try done; try lia;
      try (by left).
    all: try (unfold lines_of; cbn; by rewrite s64_wrap64).
    all: intros _; unfold is_armed; rewrite Es; cbn; split_and!; try done.
    rewrite wrap64_wrap64_add. intros _. f_equal. lia.
  - destruct (al_pc _ _ _ _ H3) as [|[|[|[|]]]]; done.
Qed.

(** What [written] says does not depend on the memory of the read, nor on
    where the reader is as long as the file is open. *)
Lemma written_jdata T Us s p d : written T Us s p -> written T Us (set_jdata d s) p.
Proof. by intros [? ? ? ? ?]. Qed.

Lemma written_pending T Us s p a : written T Us s p -> written T Us (set_pending a s) p.
Proof. by intros [? ? ? ? ?]. Qed.

Lemma written_pc T Us s p p' :
  written T Us s p -> p <> JReleased -> p' <> JReleased -> written T Us s p'.
Proof. intros [? ? ? Hb ?] ? ?. split; try done. rewrite Hb. by destruct p, p'. Qed.

Ltac jit_written :=
  cbn; eapply written_pc; [first [eassumption | apply written_jdata; eassumption] | done | done].

Lemma alive_of s p w : jinv (JSys s p w) -> p = JTest \/ p = JAsleep \/ p = JEnd ->
  exists T Us d, jdata s = Some d /\ written T Us s p /\ alive T Us d (JSys s p w).
Proof.
  intros [H1 H2 H3 H4 H5 H6 | [H1 | H1] H2 H3 | T Us d H1 H2 H3 | T Us H1 H2 H3 [H4 | H4]] Hp;
    cbn in *; subst; try by destruct Hp as [|[|]]. eauto 6.
Qed.

Lemma test_ok s w k :
  jinv (JSys s JTest w) ->
  jok (JSys s JTest w) (run1 (jit_wait k s) (fun b s' => JSys s' (if b then JEnd else JAsleep) w)).
Proof.
  intros (T & Us & d & Hd & Hw & [H1 H2 H3 H4 H5 H6 H7])%alive_of; [| by left].
  apply jok_wp. unfold jit_wait, put_data. jit_steps;
    (eapply inv_alive; [done | jit_written | split; cbn in *; auto; (done || lia)]).
Qed.

Lemma woken_ok s w d :
  jdata s = Some d -> waiting d = false -> jinv (JSys s JAsleep w) -> jinv (JSys s JTest w).
Proof.
  intros Hd Hf (T & Us & d' & Hd' & Hw & [H1 H2 H3 H4 H5 H6 H7])%alive_of; [| by right; left].
  eapply inv_alive; [done | jit_written | split; cbn in *; auto; done].
Qed.

Lemma signal_ok s w k :
  jinv (JSys s JAsleep w) ->
  jok (JSys s JAsleep w) (run1 (jit_interrupted k s) (fun r s' => JSys s' (JReturned r) w)).
Proof.
  intros (T & Us & d & Hd & Hw & [H1 H2 H3 H4 H5 H6 H7])%alive_of; [| by right; left].
  apply jok_wp. unfold jit_interrupted, put_data. jit_steps.
  eapply inv_alive; [done | jit_written | split; cbn in *; auto; done].
Qed.

Lemma end_ok s w k :
  jinv (JSys s JEnd w) ->
  jok (JSys s JEnd w) (run1 (jit_finish k s) (fun r s' => JSys s' (JReturned r) w)).
Proof.
  intros (T & Us & d & Hd & Hw & [H1 H2 H3 H4 H5 H6 H7])%alive_of; [| by right; right].
  apply jok_wp. unfold jit_finish. jit_steps.
  - eapply inv_alive; [done | jit_written | split; cbn in *; auto; done].
  - cbn in *. eapply inv_freed; [split; cbn; auto | | | by left].
    + jit_written.
    + specialize (H5 eq_refl). lia.
Qed.

Lemma wake_ok s p k :
  jinv (JSys s p true) ->
  jok (JSys s p true) (run1 (jit_wake k s) (fun _ s' => JSys s' p false)).
Proof.
  intros [H1 H2 H3 H4 H5 H6 | H1 H2 H3 | T Us d H1 H2 [A1 A2 A3 A4 A5 A6 A7] | T Us [H1 H1'] H2 H3 H4];
    cbn in *; try done.
  - apply jok_wp. unfold jit_wake, put_data. jit_steps.
    eapply inv_alive; [done | by apply written_jdata | split; cbn in *; auto; try done].
    intros Hl. by destruct (A3 Hl) as (_ & ? & _).
  - unfold jit_wake, get_jdata. mred. rewrite H1. cbn. split; [done | by left].
Qed.

Lemma release_ok s r w :
  jinv (JSys s (JReturned r) w) -> jinv (JSys (set_buf None s) JReleased w).
Proof.
  intros [H1 H2 H3 H4 H5 H6 | H1 H2 H3 | T Us d H1 [] [A1 A2 A3 A4 A5 A6 A7] | T Us [H1 H1'] [] H3 H4];
    cbn in *; try done.
  - apply inv_refused; [by right | done | done].
  - eapply inv_alive; [done | split; cbn; eauto | split; cbn in *; auto; done].
  - eapply inv_freed; [done | split; cbn; eauto | done | by right].
Qed.
(** The time at which a pending timer has run. *)
Lemma due_time s p w T Us d :
  written T Us s p -> alive T Us d (JSys s p w) -> jdata s = Some d -> 0 < loops d ->
  due s -> clock s < t + 2 ^ 62 ->
  src = Timer -> T + (zlen Us + 1) * td <= clock s.
Proof.
  intros [H1 H2 _ _ _] [A1 A2 A3 _ _ _ _] Hd Hl Hdue Hc Hs.
  destruct (A3 Hl) as (Ha & _ & _ & He). specialize (He Hs).
  apply chain_last in H2. unfold is_armed, due in *. rewrite Hs in Ha. cbn in Ha.
  destruct (pending s) as [[|] |]; try done. specialize (Hdue d Hd).
  assert (0 <= (zlen Us + 1) * td <= 6 * 2 ^ 32) by nia.
  rewrite He, s64_wrap64_sub in Hdue by lia. lia.
Qed.

(** A callback while the file is open. *)
Lemma callback_ok s p T Us d k :
  jdata s = Some d -> written T Us s p -> alive T Us d (JSys s p false) ->
  0 < loops d -> due s -> clock s < t + 2 ^ 62 -> p <> JReleased ->
  wp (callback src) (fun w _ s' => jinv (JSys s' p w)) k (set_pending None s).
Proof.
  intros Hd Hw Ha Hl Hdue Hc Hb.
  pose proof (due_time _ _ _ _ _ _ Hw Ha Hd Hl Hdue Hc) as Ht.
  destruct Hw as [H1 H2 H3 Hw4 H5], Ha as [A1 A2 A3 A4 A5 A6 A7].
  destruct (A3 Hl) as (Harm & _ & Hprev & Hexp). clear A3.
  pose proof (chain_last _ _ _ H2) as Hlast.
  assert (seq_buf s = Some (lines_of T Us)) as Hb' by (rewrite Hw4; by destruct p). clear Hw4.
  destruct s as [td' c b jd pe]. cbn in *. subst td' jd b.
  assert (lines_of T Us ++ [ALine (s64 (wrap64 c)) (s64 (wrap64 c - prev_jiffies d))]
          = lines_of T (Us ++ [c])) as Hline.
  { rewrite lines_of_snoc, Hprev, s64_wrap64, s64_wrap64_sub by lia. done. }
  assert (zlen (Us ++ [c]) = zlen Us + 1) as Hlen by (rewrite length_app; cbn; lia).
  assert (forall td' jd pe, td' = td -> written T (Us ++ [c])
    (JSt td' c (Some (lines_of T (Us ++ [c]))) jd pe) p) as Hw'.
  { intros td' jd pe' ->. split; cbn; [done | by eapply chain_snoc | by apply on_time_snoc | by destruct p | done]. }
  assert (wrap64 (loops d - 1) = loops d - 1) as Hwl by (words; lia).
  unfold callback. destruct src eqn:Es;
    unfold jit_timer_fn, jit_tasklet_fn, put_data, add_timer, tasklet_schedule, jiffies;
    jit_steps; cbn -[lines_of]; rewrite ?Hline, ?Hwl in *; cbn in Heqb;
    (eapply (inv_alive _ T (Us ++ [c])); [reflexivity | by apply Hw' |]);
    (split; cbn; rewrite ?Hlen, ?last_of_snoc; try done; try lia).
  all: try (intros Hp; specialize (A5 Hp); lia).
  all: intros _; unfold is_armed; rewrite Es; cbn; split_and!; try done.
  intros _. rewrite Hexp, wrap64_wrap64_add by done. f_equal. lia.
Qed.

Lemma fire_ok s p k :
  due s -> clock s < t + 2 ^ 62 -> jinv (JSys s p false) ->
  jok (JSys s p false) (run1 (callback src k (set_pending None s)) (fun w s' => JSys s' p w)).
Proof.
  intros Hdue Hc [H1 [H2 H2'] H3 H4 H5 H6 | H1 [H2 H2'] H3 | T Us d H1 H2 H3 | T Us [H1 H1'] H2 H3 H4];
    try (cbn in *; unfold due in Hdue; by simplify_option_eq).
  assert (0 < loops d) as Hl.
  { pose proof (al_range _ _ _ _ H3). destruct (decide (loops d = 0)) as [E |]; [| lia].
    apply (al_done _ _ _ _ H3) in E. cbn in E. unfold due in Hdue. by rewrite E in Hdue. }
  pose proof (wr_buf _ _ _ _ H2) as Hb. cbn in Hb.
  destruct (decide (p = JReleased)) as [-> | Hp].
  2: { apply jok_wp. by eapply callback_ok. }
  - cbn in *. unfold jok, run1, callback.
    destruct src eqn:Es; unfold jit_timer_fn, jit_tasklet_fn, get_jdata, seq_printf, jiffies;
      mred; rewrite H1; cbn; rewrite Hb; cbn;
      (split; [done | right; cbn; split_and!; [done | by eexists |]]);
      intros E; unfold due in Hdue; by rewrite E in Hdue.
Qed.

(** Every step keeps the invariant or is one of the oopses. *)
Lemma jstep_ok S r : jstep src private S r -> clock (j_st S) < t + 2 ^ 62 -> jinv S -> jok S r.
Proof.
  intros H Hc HI. destruct H.
  - by apply tick_ok.
  - by apply show_ok.
  - by apply test_ok.
  - by eapply woken_ok.
  - by apply signal_ok.
  - by apply end_ok.
  - by apply fire_ok.
  - by apply wake_ok.
  - by eapply release_ok.
Qed.

(** The clock does not go back. *)
Lemma jstep_clock S S' : jstep src private S (Done S') -> clock (j_st S) <= clock (j_st S').
Proof.
  intros H. inversion H as [? ? ? n | | | | | | | |]; subst; cbn; try lia.
  all: match goal with E : run1 _ _ = _ |- _ =>
         eapply run1_clock in E as ->; [done | | done] end.
  all: first [apply show_clock | apply callback_clock | apply wait_clock | apply finish_clock
              | apply interrupted_clock | apply wake_clock].
Qed.

Lemma jreach_inv S S' :
  jreach src private S S' -> clock (j_st S') < t + 2 ^ 62 -> jinv S -> jinv S'.
Proof.
  induction 1 as [| S S' S'' Hr IH Hs]; intros Hc HI; [done |].
  pose proof (jstep_clock _ _ Hs).
  assert (jinv S') as HI' by (apply IH; [lia | done]).
  eapply (jstep_ok _ _ Hs); [lia | done].
Qed.
End Inv.

(** ** Properties *)

(** C13: whatever the interleaving of the reader, the callbacks and a signal, a
    read that returns 0 has printed its first line and exactly five more, each
    with the time of its callback and the time since the line before, a timer
    line never earlier than its tick of the grid; the memory is freed and no
    callback is to come.  A read without memory leaves nothing, an interrupted
    one leaks.  A reader is asleep only while a callback is to come or is about
    to wake it. *)
Theorem jit_read_ok src private td t S :
  0 <= td < 2 ^ 32 -> jreach src private (new_jsys td t) S -> clock (j_st S) < t + 2 ^ 62 ->
  (forall r, j_pc S = JReturned r ->
     (r = 0 /\ jdata (j_st S) = None /\ pending (j_st S) = None /\
      exists T Us, t <= T /\ length Us = 5%nat /\ chain T Us (clock (j_st S)) /\
        on_time src td T Us /\ seq_buf (j_st S) = Some (lines_of T Us)) \/
     (r = - ENOMEM /\ jdata (j_st S) = None /\ pending (j_st S) = None) \/
     (r = - ERESTARTSYS /\ is_Some (jdata (j_st S)))) /\
  (forall d, j_pc S = JAsleep -> jdata (j_st S) = Some d -> waiting d = true ->
     pending (j_st S) <> None \/ j_waking S = true).
Proof.
  intros Htd Hr Hc. assert (jinv src td t S) as HI.
  { eapply jreach_inv; [done | done | done |]. apply new_jinv. }
  destruct HI as [H1 H2 H3 H4 H5 H6 | H1 [] H3 | T Us d H1 H2 H3 | T Us [H1 H1'] H2 H3 H4];
    (split; [intros r Hp | intros d' Hp Hd' Hwait]); try congruence.
  - destruct H1; [| congruence]. right. left. split; [congruence | done].
  - destruct (al_pc _ _ _ _ _ _ H3) as [|[|[|[|]]]]; try congruence. right. right.
    split; [congruence | by eexists].
  - destruct H3 as [A1 A2 A3 A4 A5 A6 A7]. destruct (decide (loops d = 0)) as [E | E].
    + right. apply A6; [done | congruence | done].
    + left. destruct A3 as [Ha _]; [lia |]. unfold is_armed in Ha.
      by destruct src, (pending (j_st S)).
  - destruct H4; [| congruence]. left. destruct H2 as [W1 W2 W3 W4 W5]. rewrite Hp in W4.
    split_and!; [congruence | done | done |]. exists T, Us. by split_and!.
Qed.

(** C21: the only oopses are uses of freed memory, in two situations: a callback
    has printed the last line but not yet woken the reader, which saw the end
    by itself and freed the memory; or an interrupted reader closed the file
    while its callback was still to come. *)
Theorem jit_oops_only src private td t S o :
  0 <= td < 2 ^ 32 -> jreach src private (new_jsys td t) S -> clock (j_st S) < t + 2 ^ 62 ->
  jstep src private S (Crash o) -> can_oops S o.
Proof.
  intros Htd Hr Hc Hs. eapply (jstep_ok src private td t Htd S (Crash o)); [done | done |].
  eapply jreach_inv; [done | done | done |]. apply new_jinv.
Qed.

(** After an interrupted read and the closing of the file, a callback that
    is still to come uses the freed output, whatever the kernel answers. *)
Theorem jit_interrupted_oops src private td t S k :
  0 <= td < 2 ^ 32 -> jreach src private (new_jsys td t) S -> clock (j_st S) < t + 2 ^ 62 ->
  j_pc S = JReleased -> pending (j_st S) <> None ->
  run_oops (callback src) k (set_pending None (j_st S)) = Some UseAfterFree.
Proof.
  intros Htd Hr Hc Hp Hpe. assert (jinv src td t S) as HI.
  { eapply jreach_inv; [done | done | done |]. apply new_jinv. }
  destruct HI as [H1 [] H3 H4 H5 H6 | H1 [] H3 | T Us d H1 H2 H3 | T Us [H1 H1'] H2 H3 H4];
    try done.
  destruct H2 as [_ _ _ W4 _]. rewrite Hp in W4.
  unfold run_oops, callback.
  destruct src; unfold jit_timer_fn, jit_tasklet_fn, get_jdata, seq_printf, jiffies;
    mred; rewrite H1; cbn; by rewrite W4.
Qed.

(** ** Runs *)

(** A tasklet reader that sees the end before it is woken. *)
Definition race_moves : list jmove := [GShow; GFire; GFire; GFire; GFire; GFire; GTest; GEnd].

(** A signal between two timer callbacks. *)
Definition signal_moves : list jmove := [GShow; GTest; GSignal; GRelease].

Definition race_end : jsys :=
  Eval vm_compute in default (new_jsys 0 0) (jexec Tasklet 0 race_moves (new_jsys 2 100)).
Definition signal_end : jsys :=
  Eval vm_compute in default (new_jsys 0 0) (jexec Timer 0 signal_moves (new_jsys 2 100)).

Lemma jit_read_ok_witness :
  j_pc race_end = JReturned 0 /\
  exists T Us, 100 <= T /\ length Us = 5%nat /\ chain T Us (clock (j_st race_end)) /\
    on_time Tasklet 2 T Us /\ seq_buf (j_st race_end) = Some (lines_of T Us).
Proof.
  split; [reflexivity |].
  destruct (jit_read_ok Tasklet 0 2 100 race_end) as [H _];
    [lia | by apply (jexec_reach _ _ race_moves) | vm_compute; reflexivity |].
  destruct (H 0 eq_refl) as [(_ & _ & _ & HT) | [[Hr _] | [Hr _]]]; [exact HT | |];
    vm_compute in Hr; discriminate Hr.
Defined.

Lemma jit_oops_only_witness :
  jstep Tasklet 0 race_end (Crash UseAfterFree) /\ can_oops race_end UseAfterFree.
Proof.
  assert (jstep Tasklet 0 race_end (Crash UseAfterFree)) as Hs.
  { by apply (jexec1_step _ _ GWake). }
  split; [exact Hs |].
  apply (jit_oops_only Tasklet 0 2 100);
    [lia | by apply (jexec_reach _ _ race_moves) | vm_compute; reflexivity | exact Hs].
Defined.

Lemma jit_interrupted_oops_witness :
  jdata (j_st signal_end) <> None /\
  run_oops (callback Timer) grant (set_pending None (j_st signal_end)) = Some UseAfterFree.
Proof.
  split; [discriminate |].
  apply (jit_interrupted_oops Timer 0 2 100);
    [lia | by apply (jexec_reach _ _ signal_moves) | vm_compute; reflexivity | reflexivity
    | discriminate].
Defined.
