(* ===== verification/Jiq.v ===== *)
(** * The jiq module (src/jiq/jiq.c)

    A read of one of its files queues a work item, a tasklet or a timer that
    prints a line and queues itself again until [LIMIT], and sleeps meanwhile.
    All four files share the static [jiq_data].  [qstep] interleaves one read,
    alone on that structure, with the queued item, signals and the closing of
    the file; JiqMany.v has any number of readers. *)

From Stdlib Require Import Ascii Strings.Byte.
From S2P Require Import Prelude Text Kernel.

(** ** Data *)

Definition PAGE_SIZE : Z := 4096.
Definition LIMIT : Z := PAGE_SIZE - 128.

(** The output buffer of the file: one page, the text so far, and whether it
    has overflowed. *)
Record seq_file := SeqFile { s_text : string; s_over : bool }.

(** [m->count] *)
Definition seq_count (m : seq_file) : Z :=
  if s_over m then PAGE_SIZE else slen (s_text m).

(** Text that does not fit marks the buffer as full. *)
Definition seq_add (t : string) (m : seq_file) : seq_file :=
  if seq_count m + slen t <? PAGE_SIZE then SeqFile (s_text m +:+ t) (s_over m)
  else SeqFile (s_text m) true.

(** Where an item is that has printed and is not over: at the wake-up of
    [jiq_print] (line 81) with the rest of [jiq_timedout] to come, before the end
    of [jiq_timedout] (line 234), or at its last wake-up (line 81 or 235). *)
Inductive stage := PrintWakes | TimerEnds | ItemWakes.

(** [jiq_data] and the wait queue: [cd_m] is the file it prints to, [None] when
    that is closed; [queued]: the item is on its queue; [q_waiting]: the reader
    is on [jiq_wait]; [waking]: the item is running and about to wake it. *)
Record clientdata := CData {
  cd_m : option seq_file;
  cd_len : Z;
  cd_end : Z;
  cd_jiffies : Z;
  cd_delay : Z;
  queued : bool;
  q_waiting : bool;
  waking : option stage
}.

Definition set_m (m : option seq_file) (d : clientdata) : clientdata :=
  CData m (cd_len d) (cd_end d) (cd_jiffies d) (cd_delay d) (queued d) (q_waiting d) (waking d).
Definition set_printed (l j : Z) (d : clientdata) : clientdata :=
  CData (cd_m d) l (cd_end d) j (cd_delay d) (queued d) (q_waiting d) (waking d).
Definition set_end (e : Z) (d : clientdata) : clientdata :=
  CData (cd_m d) (cd_len d) e (cd_jiffies d) (cd_delay d) (queued d) (q_waiting d) (waking d).
Definition set_delay (z : Z) (d : clientdata) : clientdata :=
  CData (cd_m d) (cd_len d) (cd_end d) (cd_jiffies d) z (queued d) (q_waiting d) (waking d).
Definition set_queued (b : bool) (d : clientdata) : clientdata :=
  CData (cd_m d) (cd_len d) (cd_end d) (cd_jiffies d) (cd_delay d) b (q_waiting d) (waking d).
Definition set_qwaiting (b : bool) (d : clientdata) : clientdata :=
  CData (cd_m d) (cd_len d) (cd_end d) (cd_jiffies d) (cd_delay d) (queued d) b (waking d).
Definition set_waking (g : option stage) (d : clientdata) : clientdata :=
  CData (cd_m d) (cd_len d) (cd_end d) (cd_jiffies d) (cd_delay d) (queued d) (q_waiting d) g.

(** ** Kernel services *)

Definition jiffies : M clientdata Z := a ← ask; mret (wrap64 a).

Definition seq_puts (t : string) : M clientdata unit := fun k d =>
  match cd_m d with
  | Some m => Done (tt, k, set_m (Some (seq_add t m)) d)
  | None => Crash UseAfterFree
  end.

Definition m_count : M clientdata Z := fun k d =>
  match cd_m d with
  | Some m => Done (seq_count m, k, d)
  | None => Crash UseAfterFree
  end.

Definition wake_up : M clientdata unit := modify (set_qwaiting false).

(** The item has come to a wake-up, which is a step of its own. *)
Definition at_stage (g : stage) : M clientdata unit := modify (set_waking (Some g)).

(** The name of the current task: TASK_COMM_LEN is 16 with the final zero. *)
Fixpoint comm (n : nat) (a : Z) : string :=
  match n with
  | O => ""
  | S n =>
      let b := byte_of_Z a in
      if bool_decide (b = Byte.x00) then ""
      else String (ascii_of_byte b) (comm n (a / 256))
  end.

(** ** Printing *)

Definition header : string :=
  "    time  delta preempt   pid cpu command" +:+ newline.

(** "%9li  %4li     %3i %5i %3i %s\n" *)
Definition line (j delta preempt pid cpu : Z) (command : string) : string :=
  pad 9 (fmt_d (s64 j)) +:+ "  " +:+ pad 4 (fmt_d (s64 delta)) +:+ "     " +:+
  pad 3 (fmt_d (s32 preempt)) +:+ " " +:+ pad 5 (fmt_d (s32 pid)) +:+ " " +:+
  pad 3 (fmt_d (s32 cpu)) +:+ " " +:+ command +:+ newline.

(** [len > LIMIT] compares as [unsigned long], and the sums are [size_t]s
    stored to an [int].  When it returns [false] the wake-up of line 81 is still
    to come. *)
Definition jiq_print : M clientdata bool :=
  d ← gets (fun d => d);
  let len := cd_len d in
  j ← jiffies;
  if LIMIT <? wrap64 len then
    modify (set_end 1);;
    mret false
  else
    len ← (if len =? 0 then seq_puts header;; c ← m_count; mret (s32 c) else mret 0);
    preempt ← ask; pid ← ask; cpu ← ask; name ← ask;
    seq_puts (line j (j - cd_jiffies d) preempt pid cpu (comm 15 name));;
    c ← m_count;
    let len := s32 (wrap64 (len + c)) in
    modify (fun d => set_printed (s32 (cd_len d + len)) j d);;
    mret true.

(** ** The items

    Up to the point where they wake the readers. *)

(** An item that is queued already stays as it is. *)
Definition schedule_item : M clientdata unit := modify (set_queued true).

Definition jiq_print_wq : M clientdata unit :=
  r ← jiq_print;
  if negb r then at_stage ItemWakes else schedule_item.

(** [schedule_delayed_work]; the delay passes before the item runs. *)
Definition jiq_print_wq_delayed : M clientdata unit :=
  r ← jiq_print;
  if negb r then at_stage ItemWakes else schedule_item.

Definition jiq_print_tasklet : M clientdata unit :=
  r ← jiq_print;
  if (r : bool) then schedule_item else at_stage ItemWakes.

(** Lines 234-235. *)
Definition jiq_timedout_end : M clientdata unit :=
  modify (set_end 1);;
  at_stage ItemWakes.

Definition jiq_timedout : M clientdata unit :=
  r ← jiq_print;
  if negb r then at_stage PrintWakes else jiq_timedout_end.

(** An item that runs goes on from [g]. *)
Definition item_goes_on (g : stage) : M clientdata unit :=
  match g with
  | PrintWakes => wake_up;; at_stage TimerEnds
  | TimerEnds => jiq_timedout_end
  | ItemWakes => wake_up;; modify (set_waking None)
  end.

(** ** The reads

    Up to the point where the reader waits. *)

(** Lines 134-136 and their like; the file is new and empty. *)
Definition start_read (m : seq_file) : M clientdata unit :=
  modify (fun d => set_printed 0 (cd_jiffies d) d);;
  modify (set_m (Some m));;
  j ← jiffies;
  modify (fun d => set_printed (cd_len d) j d).

Definition jiq_read_wq_show (m : seq_file) : M clientdata unit :=
  start_read m;;
  modify (set_delay 0);;
  modify (set_qwaiting true);;
  schedule_item.

Definition jiq_read_wq_delayed_show (delay : Z) (m : seq_file) : M clientdata unit :=
  start_read m;;
  modify (set_delay delay);;
  modify (set_qwaiting true);;
  schedule_item.

Definition jiq_read_tasklet_show (m : seq_file) : M clientdata unit :=
  start_read m;;
  modify (set_end 0);;
  schedule_item.

(** To initialise a timer that is pending corrupts the list it is on, and to add
    one is a bug. *)
Definition timer_setup : M clientdata unit :=
  d ← gets (fun d => d);
  check (negb (queued d)) TimerPending.

Definition add_timer : M clientdata unit :=
  d ← gets (fun d => d);
  check (negb (queued d)) TimerPending;;
  schedule_item.

Definition jiq_read_run_timer_show (m : seq_file) : M clientdata unit :=
  start_read m;;
  modify (set_end 0);;
  timer_setup;;
  jiq_print;;
  add_timer.

(** The condition of [wait_event_interruptible]. *)
Definition jiq_wait_end : M clientdata bool :=
  d ← gets (fun d => d);
  if negb (cd_end d =? 0) then mret true
  else modify (set_qwaiting true);; mret false.

(** ** The system *)

Inductive jiq_file := JiqWq | JiqWqDelay (delay : Z) | JiqTimer | JiqTasklet.

(** After the wait: [finish_wait], and for the timer [del_timer_sync], which
    waits for a timer that runs ([can_finish]). *)
Definition can_finish (f : jiq_file) (g : option stage) : bool :=
  match f, g with JiqTimer, Some _ => false | _, _ => true end.

Definition jiq_finish (f : jiq_file) : M clientdata Z :=
  modify (set_qwaiting false);;
  (match f with JiqTimer => modify (set_queued false) | _ => mret tt end);;
  mret 0.

Definition jiq_show (f : jiq_file) (m : seq_file) : M clientdata unit :=
  match f with
  | JiqWq => jiq_read_wq_show m
  | JiqWqDelay delay => jiq_read_wq_delayed_show delay m
  | JiqTimer => jiq_read_run_timer_show m
  | JiqTasklet => jiq_read_tasklet_show m
  end.

Definition jiq_item (f : jiq_file) : M clientdata unit :=
  match f with
  | JiqWq => jiq_print_wq
  | JiqWqDelay _ => jiq_print_wq_delayed
  | JiqTimer => jiq_timedout
  | JiqTasklet => jiq_print_tasklet
  end.

(** The work-queue files sleep at once and do not test a condition; [sig]
    remembers whether a signal ended the wait. *)
Definition tests_end (f : jiq_file) : bool :=
  match f with JiqWq | JiqWqDelay _ => false | JiqTimer | JiqTasklet => true end.

Inductive qpc := QStart | QTest | QAsleep | QEnd (sig : bool) | QReturned (r : Z) (sig : bool)
  | QClosed (sig : bool).

Record qsys := QSys { q_data : clientdata; q_pc : qpc }.

Definition qrun {A} (r : outcome (A * kern * clientdata)) (f : A -> qpc) : outcome qsys :=
  match r with
  | Done (a, _, d) => Done (QSys d (f a))
  | Crash o => Crash o
  end.

Definition new_file : seq_file := SeqFile "" false.

(** [jiq_data] as the module finds it. *)
Definition new_qsys : qsys := QSys (CData None 0 0 0 0 false false None) QStart.

Inductive qstep (f : jiq_file) : qsys -> outcome qsys -> Prop :=
  | q_show d k :
      qstep f (QSys d QStart) (qrun (jiq_show f new_file k d)
        (fun _ => if tests_end f then QTest else QAsleep))
  | q_test d k :
      qstep f (QSys d QTest) (qrun (jiq_wait_end k d)
        (fun b => if (b : bool) then QEnd false else QAsleep))
  | q_woken d :
      q_waiting d = false ->
      qstep f (QSys d QAsleep) (Done (QSys d (if tests_end f then QTest else QEnd false)))
  | q_signal d :
      qstep f (QSys d QAsleep) (Done (QSys d (QEnd true)))
  | q_end d sig k :
      can_finish f (waking d) = true ->
      qstep f (QSys d (QEnd sig)) (qrun (jiq_finish f k d) (fun r => QReturned r sig))
  | q_item d p k :
      queued d = true -> waking d = None ->
      qstep f (QSys d p) (qrun (jiq_item f k (set_queued false d)) (fun _ => p))
  | q_goes_on d p g k :
      waking d = Some g ->
      qstep f (QSys d p) (qrun (item_goes_on g k d) (fun _ => p))
  | q_close d r sig :
      qstep f (QSys d (QReturned r sig)) (Done (QSys (set_m None d) (QClosed sig))).

Inductive qreach (f : jiq_file) : qsys -> qsys -> Prop :=
  | qreach_refl S : qreach f S S
  | qreach_step S S' S'' : qreach f S S' -> qstep f S' (Done S'') -> qreach f S S''.

(** ** Running the system *)

Inductive qmove := XShow | XTest | XWoken | XSignal | XEnd | XItem | XGoesOn | XClose.

Definition grant : kern := Kern (fun _ => 0) false 0 false.

Definition qexec1 (f : jiq_file) (m : qmove) (X : qsys) : option (outcome qsys) :=
  let d := q_data X in
  match m, q_pc X with
  | XShow, QStart => Some (qrun (jiq_show f new_file grant d)
      (fun _ => if tests_end f then QTest else QAsleep))
  | XTest, QTest => Some (qrun (jiq_wait_end grant d)
      (fun b => if (b : bool) then QEnd false else QAsleep))
  | XWoken, QAsleep =>
      if q_waiting d then None
      else Some (Done (QSys d (if tests_end f then QTest else QEnd false)))
  | XSignal, QAsleep => Some (Done (QSys d (QEnd true)))
  | XEnd, QEnd sig =>
      if can_finish f (waking d) then Some (qrun (jiq_finish f grant d) (fun r => QReturned r sig))
      else None
  | XItem, p =>
      match queued d, waking d with
      | true, None => Some (qrun (jiq_item f grant (set_queued false d)) (fun _ => p))
      | _, _ => None
      end
  | XGoesOn, p => g ← waking d; Some (qrun (item_goes_on g grant d) (fun _ => p))
  | XClose, QReturned r sig => Some (Done (QSys (set_m None d) (QClosed sig)))
  | _, _ => None
  end.

Fixpoint qexec (f : jiq_file) (ms : list qmove) (X : qsys) : option qsys :=
  match ms with
  | [] => Some X
  | m :: ms =>
      match qexec1 f m X with
      | Some (Done X') => qexec f ms X'
      | _ => None
      end
  end.

Lemma qexec1_step f m X r : qexec1 f m X = Some r -> qstep f X r.
Proof.
  destruct X as [d p]. unfold qexec1. cbn [q_data q_pc]. destruct m.
  6: { destruct (queued d) eqn:E, (waking d) eqn:Ew; try done. injection 1 as <-. by apply q_item. }
  6: { destruct (waking d) as [g |] eqn:Ew; [| done]. injection 1 as <-. by apply q_goes_on. }
  all: destruct p; try done; cbn.
  - injection 1 as <-. constructor.
  - injection 1 as <-. constructor.
  - destruct (q_waiting d) eqn:E; [done |]. injection 1 as <-. by constructor.
  - injection 1 as <-. constructor.
  - destruct (can_finish f (waking d)) eqn:E; [| done]. injection 1 as <-. by constructor.
  - injection 1 as <-. constructor.
Qed.

Lemma qreach_trans f X Y Z : qreach f X Y -> qreach f Y Z -> qreach f X Z.
Proof.
  intros H1 H2. revert H1. induction H2 as [| A B C _ IH Hs]; [done |].
  intros H1. eapply qreach_step; [by apply IH | done].
Qed.

Lemma qexec_reach f ms X Y : qexec f ms X = Some Y -> qreach f X Y.
Proof.
  revert X. induction ms as [| m ms IH]; cbn; intros X H.
  - injection H as ->. constructor.
  - destruct (qexec1 f m X) as [[X1 | o] |] eqn:E; try done.
    apply qexec1_step in E. eapply qreach_trans; [| by apply IH].
    eapply qreach_step; [constructor | done].
Qed.
