(* ===== verification/JiqInv.v ===== *)
(** * What a read of a jiq file gives

    The length of the output and the running sum [cd_len] bound each other, so
    the chain of items stops and the page does not overflow. *)

From Stdlib Require Import Ascii Strings.Byte.
From S2P Require Import Prelude Text Kernel Jiq.

Implicit Types (k : kern) (d : clientdata) (m : seq_file).

(** ** The output *)

(** A line as some run of [jiq_print] writes it. *)
Definition is_line (L : string) : Prop :=
  exists j delta preempt pid cpu name, L = line j delta preempt pid cpu (comm 15 name).

(** The header and then the lines. *)
Definition report (Ls : list string) : string :=
  foldl (fun t L => t +:+ L) header Ls.

(** [n] lines after the header, or nothing at all. *)
Definition filled (n : nat) (m : seq_file) : Prop :=
  s_over m = false /\
  match n with
  | O => s_text m = ""
  | _ => exists Ls, length Ls = n /\ Forall is_line Ls /\ s_text m = report Ls
  end.

Lemma slen_header : slen header = 42.
Proof. reflexivity. Qed.

Lemma slen_newline : slen newline = 1.
Proof. reflexivity. Qed.

Lemma slen_comm n a : 0 <= slen (comm n a) <= Z.of_nat n.
Proof.
  revert a. induction n as [| n IH]; intros a; cbn [comm]; [done |].
  destruct (bool_decide _); [cbn; lia |]. rewrite slen_cons. specialize (IH (a / 256)). lia.
Qed.

Lemma slen_line L : is_line L -> 35 <= slen L <= 99.
Proof.
  intros (j & delta & pr & pid & cpu & name & ->). unfold line.
  rewrite !slen_app, !slen_pad, slen_newline.
  pose proof (slen_fmt_d (s64 j)). pose proof (slen_fmt_d (s64 delta)).
  pose proof (slen_fmt_int pr). pose proof (slen_fmt_int pid). pose proof (slen_fmt_int cpu).
  pose proof (slen_comm 15 name). cbn [String.length]. lia.
Qed.

Lemma report_snoc Ls L : report (Ls ++ [L]) = report Ls +:+ L.
Proof. unfold report. by rewrite foldl_app. Qed.

Lemma slen_report Ls :
  Forall is_line Ls -> 42 + 35 * zlen Ls <= slen (report Ls) <= 42 + 99 * zlen Ls.
Proof.
  induction Ls as [| L Ls IH] using rev_ind; intros H; [done |].
  apply Forall_app in H as [H1 H2%Forall_inv]. specialize (IH H1).
  rewrite report_snoc, slen_app, length_app. apply slen_line in H2. cbn [length]. lia.
Qed.

(** The length of the output by the number of its lines. *)
Lemma filled_count n m :
  filled n m -> (0 < n)%nat ->
  42 + 35 * Z.of_nat n <= seq_count m <= 42 + 99 * Z.of_nat n.
Proof.
  intros [Ho H] Hn. unfold seq_count. rewrite Ho. destruct n as [| n]; [lia |].
  destruct H as (Ls & Hl & HL & ->). apply slen_report in HL. lia.
Qed.

(** The first line comes with the header. *)
Lemma filled_first m L :
  filled 0 m -> is_line L -> filled 1 (seq_add L (seq_add header m)) /\
  seq_count (seq_add header m) = 42.
Proof.
  destruct m as [t o]. intros [Ho Ht] HL. cbn in Ho, Ht. subst t o.
  pose proof (slen_line L HL).
  assert (seq_add header (SeqFile "" false) = SeqFile header false) as -> by reflexivity.
  split; [| reflexivity]. unfold seq_add, seq_count. cbn [s_over s_text].
  rewrite slen_header. unfold PAGE_SIZE. destruct (_ <? _) eqn:E; [| lia].
  split; [done |]. exists [L]. split_and!; [done | by constructor | done].
Qed.

Lemma filled_next n m L :
  filled n m -> (0 < n <= 14)%nat -> is_line L -> filled (S n) (seq_add L m).
Proof.
  intros Hf Hn HL. pose proof (filled_count n m Hf (proj1 Hn)). pose proof (slen_line L HL).
  unfold seq_add. unfold PAGE_SIZE. destruct (_ <? _) eqn:E; [| lia].
  destruct Hf as [Ho Hf]. split; [done |]. cbn [s_text].
  destruct n as [| n]; [lia |]. destruct Hf as (Ls & Hl & HL' & ->).
  exists (Ls ++ [L]). rewrite length_app, report_snoc. cbn [length].
  split_and!; [lia | | done]. apply Forall_app. split; [done | by constructor].
Qed.

(** ** The running sum *)

(** [cd_len] after [n] lines: the sum of the lengths of the output so far,
    each time it was printed to. *)
Definition summed (n : nat) (d : clientdata) : Prop :=
  let z := Z.of_nat n in
  if decide (n = 0%nat) then cd_len d = 0
  else 84 * (z + 1) + 35 * z * (z + 1) <= 2 * cd_len d <= 84 * (z + 1) + 99 * z * (z + 1).

Lemma summed_limit n d : summed n d -> cd_len d <= LIMIT -> (n <= 13)%nat.
Proof.
  unfold summed, LIMIT, PAGE_SIZE. destruct (decide (n = 0%nat)); [lia |]. intros [H _] Hl.
  destruct (decide (n <= 13)%nat); [done |]. assert (14 <= Z.of_nat n) by lia. nia.
Qed.

(** What [n] lines more than [LIMIT] means. *)
Lemma summed_full n d : summed n d -> LIMIT < cd_len d -> (9 <= n)%nat.
Proof.
  unfold summed, LIMIT, PAGE_SIZE. destruct (decide (n = 0%nat)); [lia |]. intros [_ H] Hl.
  destruct (decide (9 <= n)%nat); [done |]. assert (Z.of_nat n <= 8) by lia. nia.
Qed.

Lemma summed_range n d : summed n d -> (n <= 14)%nat -> 0 <= cd_len d <= 12000.
Proof.
  unfold summed. destruct (decide (n = 0%nat)); [lia |]. intros H Hn.
  assert (Z.of_nat n <= 14) by lia. nia.
Qed.

Lemma wp_seq_puts {c : Prop} (Q : unit -> kern -> clientdata -> Prop) k d m t :
  cd_m d = Some m -> Q tt k (set_m (Some (seq_add t m)) d) -> wpc c (seq_puts t) Q k d.
Proof. intros E. unfold wpc, seq_puts. by rewrite E. Qed.

Lemma wp_m_count {c : Prop} (Q : Z -> kern -> clientdata -> Prop) k d m :
  cd_m d = Some m -> Q (seq_count m) k d -> wpc c m_count Q k d.
Proof. intros E. unfold wpc, m_count. by rewrite E. Qed.

Ltac jiq_steps :=
  repeat (cbv beta iota;
    lazymatch goal with
    | |- wpc _ (seq_puts _) _ _ _ => eapply wp_seq_puts; [done |]
    | |- wpc _ m_count _ _ _ => eapply wp_m_count; [done |]
    | |- wpc _ (check _ _) _ _ _ => apply wp_check; [done |]
    | |- _ => wp_step
    end; cbn [held kobjs ans lockdep negb]).

(** One run of [jiq_print] on an open file. *)
Lemma wp_jiq_print {c : Prop} n m (Q : bool -> kern -> clientdata -> Prop) k d :
  cd_m d = Some m -> filled n m -> summed n d -> (n <= 14)%nat ->
  (forall k', LIMIT < cd_len d -> Q false k' (set_end 1 d)) ->
  (forall k' m' l j, cd_len d <= LIMIT -> (n <= 13)%nat -> filled (S n) m' ->
     summed (S n) (set_printed l j d) -> Q true k' (set_printed l j (set_m (Some m') d))) ->
  wpc c jiq_print Q k d.
Proof.
  intros Hm Hf Hs Hn HF HT. pose proof (summed_range n d Hs Hn) as Hr.
  unfold jiq_print, jiffies. do 5 wp_step. rewrite (wrap64_small (cd_len d)) by lia.
  destruct (LIMIT <? cd_len d) eqn:E; [wp_steps; apply HF; lia |].
  assert (n <= 13)%nat as Hn' by (eapply summed_limit; [done | lia]).
  set (L := fun pr pid cpu name => line (wrap64 a) (wrap64 a - cd_jiffies d) pr pid cpu (comm 15 name)).
  assert (forall pr pid cpu name, is_line (L pr pid cpu name)) as HL.
  { intros. unfold is_line, L. eauto 8. }
  destruct (decide (n = 0%nat)) as [-> | Hn0].
  - unfold summed in Hs. rewrite decide_True in Hs by done. rewrite Hs. cbn [Z.eqb]. jiq_steps.
    destruct (filled_first m (L a0 a1 a2 a3) Hf (HL _ _ _ _)) as [Hf1 Hc1].
    pose proof (filled_count 1 _ Hf1) as Hc. rewrite Hc1. fold (L a0 a1 a2 a3).
    set (m' := seq_add (L a0 a1 a2 a3) (seq_add header m)) in *.
    apply (HT _ m'); [lia | done | done |].
    specialize (Hc ltac:(lia)). unfold summed. rewrite decide_False by done.
    cbn [cd_len set_printed set_m]. rewrite Hs. words. lia.
  - assert (cd_len d <> 0) as Hne by (unfold summed in Hs; rewrite decide_False in Hs by done; nia).
    replace (cd_len d =? 0) with false by lia. jiq_steps. fold (L a0 a1 a2 a3).
    assert (filled (S n) (seq_add (L a0 a1 a2 a3) m)) as Hf1
      by (apply filled_next; [done | lia | apply HL]).
    pose proof (filled_count (S n) _ Hf1 ltac:(lia)) as Hc.
    set (m' := seq_add (L a0 a1 a2 a3) m) in *.
    apply (HT _ m'); [lia | done | done |].
    unfold summed in Hs |- *. rewrite decide_False in Hs by done. rewrite decide_False by done.
    cbn [cd_len set_printed set_m]. words. nia.
Qed.

(** ** The invariant *)

Definition sig_of (p : qpc) : bool :=
  match p with QEnd s | QReturned _ s | QClosed s => s | _ => false end.

(** The item is queued or on its way to wake the reader. *)
Definition coming (d : clientdata) : bool := queued d || bool_decide (waking d <> None).

(** Where the item is, by where the reader is. *)
Definition ready (f : jiq_file) (p : qpc) (d : clientdata) : Prop :=
  match p with
  | QStart => False
  | QTest => tests_end f = true /\ queued d = (cd_end d =? 0)
  | QAsleep =>
      if tests_end f then queued d = (cd_end d =? 0) /\ (q_waiting d = true -> coming d = true)
      else coming d = q_waiting d
  | QEnd false => queued d = false
  | QEnd true => True
  | QReturned r false => r = 0 /\ queued d = false
  | QReturned r true => r = 0 /\ (f = JiqTimer -> queued d = false)
  | QClosed false => queued d = false
  | QClosed true => f = JiqTimer -> queued d = false
  end.

(** The file, by where the reader is. *)
Definition file_ok (n : nat) (p : qpc) (d : clientdata) : Prop :=
  match p with
  | QClosed _ => cd_m d = None
  | _ => exists m, cd_m d = Some m /\ filled n m
  end.

(** When no item is to come: the chain has reached its end, or a signal stopped
    the timer. *)
Definition finished (f : jiq_file) (n : nat) (p : qpc) (d : clientdata) : Prop :=
  match f with
  | JiqTimer => sig_of p = true \/ n = 2%nat
  | _ => LIMIT < cd_len d
  end.

(** An item that is not over is at its last wake-up, and one of the work-queue files
    is not queued again then. *)
Definition waking_ok (f : jiq_file) (d : clientdata) : Prop :=
  (waking d = None \/ waking d = Some ItemWakes) /\
  (tests_end f = false -> waking d <> None -> queued d = false).

(** A read of a work-queue file starts with its item over. *)
Definition start_ok (f : jiq_file) (d : clientdata) : Prop :=
  queued d = false /\ (waking d = None \/ waking d = Some ItemWakes /\ tests_end f = true).

Record qlive (f : jiq_file) (n : nat) (S : qsys) : Prop := QLive {
  ql_n : (n <= 14)%nat;
  ql_sum : summed n (q_data S);
  ql_file : file_ok n (q_pc S) (q_data S);
  ql_ready : ready f (q_pc S) (q_data S);
  ql_done : queued (q_data S) = false -> finished f n (q_pc S) (q_data S);
  ql_timer : f = JiqTimer -> queued (q_data S) = true -> n = 1%nat;
  ql_waking : waking_ok f (q_data S)
}.

Definition qinv (f : jiq_file) (S : qsys) : Prop :=
  (q_pc S = QStart /\ start_ok f (q_data S)) \/ exists n, qlive f n S.

(** The one oops: an item of an interrupted reader that has closed its file. *)
Definition item_orphaned (f : jiq_file) (S : qsys) : Prop :=
  q_pc S = QClosed true /\ queued (q_data S) = true /\ f <> JiqTimer /\
  cd_len (q_data S) <= LIMIT.

Definition qok (f : jiq_file) (S : qsys) (r : outcome qsys) : Prop :=
  match r with
  | Done S' => qinv f S'
  | Crash o => o = UseAfterFree /\ item_orphaned f S
  end.

Lemma qok_wp {A} f (m : M clientdata A) (g : A -> qpc) k d S :
  wp m (fun a _ d' => qinv f (QSys d' (g a))) k d -> qok f S (qrun (m k d) g).
Proof. unfold wpc. by destruct (m k d) as [[[a k'] d'] | o]. Qed.

Lemma wp_start_read {c : Prop} (Q : unit -> kern -> clientdata -> Prop) k d m :
  (forall k' j, Q tt k' (set_printed 0 j (set_m (Some m) d))) -> wpc c (start_read m) Q k d.
Proof. intros H. unfold start_read, jiffies. wp_steps. apply H. Qed.

Lemma filled_new : filled 0 new_file.
Proof. done. Qed.

Lemma q_show_ok f d k :
  start_ok f d ->
  qok f (QSys d QStart) (qrun (jiq_show f new_file k d)
    (fun _ => if tests_end f then QTest else QAsleep)).
Proof.
  intros [Hq Hw]. apply qok_wp.
  assert ((waking d = None \/ waking d = Some ItemWakes) /\
    (tests_end f = false -> waking d = None)) as [Hw1 Hw2].
  { destruct Hw as [-> | [-> ->]]; (split; [auto | done]). }
  assert (forall p d', file_ok 0 p d' -> cd_len d' = 0 -> ready f p d' -> f <> JiqTimer ->
    queued d' = true -> waking d' = waking d -> qinv f (QSys d' p)) as Hi.
  { intros p d' H1 H2 H3 H4 H5 H6. right. exists 0%nat.
    split; cbn; [lia | done | done | done | congruence | done |]. unfold waking_ok. rewrite H6.
    split; [done |]. intros H7. rewrite (Hw2 H7). done. }
  destruct f; cbn [jiq_show tests_end]; unfold jiq_read_wq_show, jiq_read_wq_delayed_show,
    jiq_read_tasklet_show, jiq_read_run_timer_show, timer_setup, add_timer, schedule_item;
    wp_step; apply wp_start_read; intros k' j; wp_steps;
    try (apply Hi; cbn; eauto using filled_new; fail); [cbn; by rewrite Hq |].
  eapply (wp_jiq_print 0); [reflexivity | apply filled_new | reflexivity | lia | done |].
  intros k2 m' l j' _ _ Hf Hs. wp_steps; [cbn; by rewrite Hq |].
  right. exists 1%nat. split; cbn; [lia | done | eauto | done | done | done | by split].
Qed.

Lemma q_test_ok f d k :
  qinv f (QSys d QTest) ->
  qok f (QSys d QTest) (qrun (jiq_wait_end k d) (fun b => if (b : bool) then QEnd false else QAsleep)).
Proof.
  intros [[? _] | (n & [H1 H2 H3 [H4 H4'] H5 H6 H7])]; [done |]. cbn in *. apply qok_wp.
  unfold jiq_wait_end. wp_steps; right; exists n.
  - split; cbn; [done | done | done | | done | done | done]. rewrite H4'. by destruct (cd_end d =? 0).
  - split; cbn; [done | done | done | | done | done | done]. rewrite H4. split; [done |]. intros _.
    unfold coming. cbn. rewrite H4'. by destruct (cd_end d =? 0).
Qed.

Lemma q_woken_ok f d :
  q_waiting d = false -> qinv f (QSys d QAsleep) ->
  qinv f (QSys d (if tests_end f then QTest else QEnd false)).
Proof.
  intros Hw [[? _] | (n & [H1 H2 H3 H4 H5 H6 H7])]; [done |]. cbn in *. right. exists n.
  destruct (tests_end f) eqn:Ef; split; cbn; try done.
  - by destruct H4.
  - rewrite Hw in H4. by apply orb_false_iff in H4 as [? _].
Qed.

Lemma q_signal_ok f d : qinv f (QSys d QAsleep) -> qinv f (QSys d (QEnd true)).
Proof.
  intros [[? _] | (n & [H1 H2 H3 H4 H5 H6 H7])]; [done |]. cbn in *. right. exists n.
  split; cbn; try done. intros Hq. specialize (H5 Hq). destruct f; try done. by left.
Qed.

Lemma q_end_ok f d sig k :
  qinv f (QSys d (QEnd sig)) ->
  qok f (QSys d (QEnd sig)) (qrun (jiq_finish f k d) (fun r => QReturned r sig)).
Proof.
  intros [[? _] | (n & [H1 H2 H3 H4 H5 H6 H7])]; [done |]. cbn in *. apply qok_wp.
  unfold jiq_finish. destruct f; wp_steps; right; exists n;
    (split; cbn; [done | done | done | destruct sig; done | | done | split; [apply H7 |];
      by try apply H7]); intros Hq.
  all: try (by apply H5). destruct sig; [by left | by apply H5].
Qed.

Lemma q_close_ok f d r sig :
  qinv f (QSys d (QReturned r sig)) -> qinv f (QSys (set_m None d) (QClosed sig)).
Proof.
  intros [[? _] | (n & [H1 H2 H3 H4 H5 H6 H7])]; [done |]. cbn in *. right. exists n.
  split; cbn; try done. by destruct sig, H4.
Qed.

(** The end of the chain goes on to wake the reader; until then the item is queued
    again. *)
Lemma ready_ended f p d d' :
  ready f p d -> queued d = true -> queued d' = false -> cd_end d' = 1 ->
  waking d' = Some ItemWakes -> q_waiting d' = q_waiting d -> ready f p d'.
Proof.
  intros H Hq Hq' He Hw Hd. unfold ready, coming in *.
  destruct p as [| | | [] | r [] | []]; rewrite ?Hq', ?He, ?Hw, ?Hd; rewrite ?Hq in H; cbn in *;
    try done; first [by destruct (tests_end f) | by destruct H].
Qed.

Lemma ready_requeued f p d d' :
  ready f p d -> queued d = true -> queued d' = true -> cd_end d' = cd_end d ->
  q_waiting d' = q_waiting d -> ready f p d'.
Proof.
  intros H Hq Hq' He Hw. unfold ready, coming in *.
  destruct p as [| | | [] | r [] | []]; cbn in *; rewrite ?Hq', ?He, ?Hw; rewrite ?Hq in H; done.
Qed.

(** A wake-up, by the item of the reader or by another one. *)
Lemma ready_woken f p d g :
  ready f p d -> (tests_end f = false -> queued d = false /\ g = None) ->
  ready f p (set_qwaiting false (set_waking g d)).
Proof.
  intros H Hq. unfold ready, coming in *. destruct p as [| | | [] | r [] | []]; cbn in *; try done.
  destruct (tests_end f); [by destruct H |]. by destruct (Hq eq_refl) as [-> ->].
Qed.

Lemma q_goes_on_ok f d p g k :
  waking d = Some g -> qinv f (QSys d p) ->
  qok f (QSys d p) (qrun (item_goes_on g k d) (fun _ => p)).
Proof.
  intros Hg [[Hp [Hq Hw]] | (n & [H1 H2 H3 H4 H5 H6 [H7 H8]])]; cbn in *.
  - destruct Hw as [? | [Hw _]]; [congruence |]. assert (g = ItemWakes) as -> by congruence.
    left. split; [done |]. split; [done |]. by left.
  - destruct H7 as [? | H7]; [congruence |]. assert (g = ItemWakes) as -> by congruence.
    right. exists n. split; cbn; [done | done | by destruct p | | by destruct f | done | by split; [left |]].
    apply ready_woken; [done |]. intros Hf. split; [| done]. apply H8; [done | congruence].
Qed.

(** The reader of a file that tests a condition, woken by somebody else. *)
Lemma qlive_stray f n d p :
  tests_end f = true -> qlive f n (QSys d p) -> qlive f n (QSys (set_qwaiting false d) p).
Proof.
  intros Hf [H1 H2 H3 H4 H5 H6 H7]. split; cbn in *; try done.
  unfold ready in *. destruct p as [| | | [] | r [] | []]; cbn in *; try done.
  rewrite Hf in *. by destruct H4.
Qed.

(** An item that runs while its file is open. *)
Lemma q_item_open f n d p k :
  qlive f n (QSys d p) -> queued d = true -> waking d = None -> (forall s, p <> QClosed s) ->
  wp (jiq_item f) (fun _ _ d' => qinv f (QSys d' p)) k (set_queued false d).
Proof.
  intros [H1 H2 H3 H4 H5 H6 H7] Hq Hw Hp. cbn in *.
  assert (exists m, cd_m d = Some m /\ filled n m) as (m & Hm & Hf).
  { destruct p as [| | | | |s]; try done. by destruct (Hp s). }
  assert (forall n' d', (n' <= 14)%nat -> summed n' d' ->
    (exists m, cd_m d' = Some m /\ filled n' m) -> ready f p d' ->
    (queued d' = false -> finished f n' p d') -> (f = JiqTimer -> queued d' = false) ->
    waking_ok f d' -> qinv f (QSys d' p)) as Hi.
  { intros n' d' ? ? ? ? ? H8 ?. right. exists n'. split; cbn; try done.
    - destruct p as [| | | | |s]; try done. by destruct (Hp s).
    - intros Ef Hq'. rewrite H8 in Hq'; done. }
  assert (forall d', queued d' = false -> waking d' = Some ItemWakes -> waking_ok f d') as Hke.
  { intros d' ? ?. split; [by right | done]. }
  assert (forall d', waking d' = None -> waking_ok f d') as Hkq.
  { intros d' E. split; [by left | by rewrite E]. }
  destruct f; cbn [jiq_item]; unfold jiq_print_wq, jiq_print_wq_delayed, jiq_print_tasklet,
    jiq_timedout, jiq_timedout_end, schedule_item, at_stage; wp_step;
    (eapply (wp_jiq_print n m); [done | done | done | done | intros k' Hl | intros k' m' l j Hl Hn Hf' Hs]);
    wp_steps; try done.
  1, 3, 7: apply (Hi n); cbn; eauto using ready_ended.
  1, 2, 5: apply (Hi (S n)); cbn; eauto using ready_requeued; try done; lia.
  - rewrite (H6 eq_refl Hq) in H2. unfold summed in H2. rewrite decide_False in H2 by done.
    unfold LIMIT, PAGE_SIZE in Hl. cbn [cd_len set_queued] in Hl. lia.
  - rewrite (H6 eq_refl Hq) in *. apply (Hi 2%nat); cbn; eauto using ready_ended. lia.
Qed.

(** An item that runs after its file is closed. *)
Lemma jiq_print_closed k d :
  cd_m d = None -> 0 <= cd_len d <= 12000 ->
  jiq_print k d = if LIMIT <? cd_len d
                  then Done (false, Kern (fun i => ans k (i + 1)%nat) (held k) (kobjs k) (lockdep k),
                             set_end 1 d)
                  else Crash UseAfterFree.
Proof.
  intros Hm Hl. unfold jiq_print, jiffies, m_count, seq_puts. mred.
  rewrite wrap64_small by lia.
  destruct (LIMIT <? cd_len d); [done |]. destruct (cd_len d =? 0); cbn; by rewrite Hm.
Qed.

Lemma closed_queued f n d sig :
  qlive f n (QSys d (QClosed sig)) -> queued d = true -> sig = true /\ f <> JiqTimer.
Proof.
  intros [_ _ _ H4 _ _ _] Hq. cbn in H4. destruct sig; [| congruence].
  split; [done |]. intros E. specialize (H4 E). congruence.
Qed.

Lemma q_item_ok f d p k :
  qinv f (QSys d p) -> queued d = true -> waking d = None ->
  qok f (QSys d p) (qrun (jiq_item f k (set_queued false d)) (fun _ => p)).
Proof.
  intros [[_ [? _]] | (n & HL)] Hq Hw; [cbn in *; congruence |].
  destruct (bool_decide (is_Some (cd_m d))) eqn:Em; [apply bool_decide_eq_true in Em
    | apply bool_decide_eq_false in Em].
  - apply qok_wp. eapply q_item_open; [done | done | done |]. intros s ->.
    pose proof (ql_file _ _ _ HL) as Hm. cbn in Hm. rewrite Hm in Em. by destruct Em.
  - pose proof (ql_file _ _ _ HL) as Hf. cbn in Hf.
    assert (exists sig, p = QClosed sig) as [sig ->].
    { destruct p as [| | | | | s]; try (destruct Hf as (m & Hm & _); exfalso; apply Em; eauto; fail).
      eauto. }
    destruct (closed_queued _ _ _ _ HL Hq) as [-> Hft].
    pose proof HL as [H1 H2 H3 H4 H5 H6 H7]. cbn in *.
    pose proof (summed_range n d H2 H1) as Hr.
    pose proof (jiq_print_closed k (set_queued false d) Hf Hr) as Hp. cbn [cd_len set_queued] in Hp.
    assert (LIMIT < cd_len d -> qinv f (QSys (set_waking (Some ItemWakes) (set_end 1 (set_queued false d)))
      (QClosed true))) as Hi.
    { intros Hl. right. exists n. split; cbn; try done; [by destruct f | by split; [right |]]. }
    destruct f; try done; unfold jiq_item, jiq_print_wq, jiq_print_wq_delayed, jiq_print_tasklet,
      mbind, M_bind; rewrite Hp; destruct (LIMIT <? cd_len d) eqn:E; cbn; try (apply Hi; lia);
      unfold item_orphaned; cbn; split_and!; try done; lia.
Qed.

(** ** Reachable states *)

Lemma qstep_ok f S r : qstep f S r -> qinv f S -> qok f S r.
Proof.
  intros H HI. destruct H.
  - destruct HI as [[_ Hq] | (n & [_ _ _ Hr _ _ _])]; [by apply q_show_ok | done].
  - by apply q_test_ok.
  - by apply q_woken_ok.
  - by apply q_signal_ok.
  - by apply q_end_ok.
  - by apply q_item_ok.
  - by apply q_goes_on_ok.
  - by eapply q_close_ok.
Qed.

Lemma qreach_inv f S : qreach f new_qsys S -> qinv f S.
Proof.
  intros H. remember new_qsys as S0 eqn:E0.
  induction H as [| S1 S2 S3 Hr IH Hs]; subst; [left; by repeat split; left |].
  by apply (qstep_ok _ _ _ Hs), IH.
Qed.

(** How many lines a whole read has. *)
Definition lines_printed (f : jiq_file) (n : nat) : Prop :=
  match f with JiqTimer => n = 2%nat | _ => (9 <= n <= 14)%nat end.

Lemma finished_lines f n S :
  qlive f n S -> queued (q_data S) = false -> sig_of (q_pc S) = false -> lines_printed f n.
Proof.
  intros [H1 H2 _ _ H5 _ _] Hq Hs. specialize (H5 Hq). pose proof (summed_full n _ H2) as H9.
  destruct f; cbn in *; try (split; [by apply H9 | done]).
  destruct H5; [congruence | done].
Qed.

(** ** Properties *)

(** Whatever the order of the reader, its item and a signal, the output
    stays within the page.  A read that no signal ended returns 0 with the
    header and a number of whole lines, two for the timer, from nine to fourteen
    for the others, and no item is to come.  A reader is asleep only while its
    item is queued or about to wake it. *)
Theorem jiq_read_ok f S :
  qreach f new_qsys S -> q_pc S <> QStart ->
  (forall m, cd_m (q_data S) = Some m -> s_over m = false /\ slen (s_text m) <= 1428) /\
  (forall r, q_pc S = QReturned r false ->
     r = 0 /\ queued (q_data S) = false /\
     exists m Ls, cd_m (q_data S) = Some m /\ s_text m = report Ls /\ Forall is_line Ls /\
       lines_printed f (length Ls)) /\
  (q_pc S = QAsleep -> q_waiting (q_data S) = true -> coming (q_data S) = true).
Proof.
  intros Hr Hp. apply qreach_inv in Hr as [[? _] | (n & HL)]; [done |].
  pose proof HL as [H1 H2 H3 H4 H5 H6 _]. split_and!.
  - intros m Hm. assert (filled n m) as [Ho Hf].
    { unfold file_ok in H3. destruct (q_pc S); try congruence;
        destruct H3 as (m' & Hm' & ?); congruence. }
    split; [done |]. destruct n as [| n]; [by rewrite Hf |].
    destruct Hf as (Ls & Hl & HL' & ->). apply slen_report in HL'. lia.
  - intros r Hr. pose proof (finished_lines f n S HL) as Hn. rewrite Hr in *. cbn in *.
    destruct H4 as [-> Hq]. specialize (Hn Hq eq_refl). split_and!; [done | done |].
    destruct H3 as (m & Hm & _ & Hf). exists m.
    assert (n <> 0%nat) by (destruct f; cbn in Hn; lia). destruct n as [| n]; [done |].
    destruct Hf as (Ls & Hl & HLs & Ht). exists Ls. rewrite Hl. by split_and!.
  - intros Ha Hw. rewrite Ha in H4. cbn in H4. destruct (tests_end f); [| congruence].
    by apply H4.
Qed.

(** C26: in one read of one file, while nobody else uses [jiq_data], the only oops
    is that an item prints to the closed file, and only after a signal ended the
    read, of a work-queue or tasklet file, with the item still queued. *)
Theorem jiq_oops_only f S o :
  qreach f new_qsys S -> qstep f S (Crash o) -> o = UseAfterFree /\ item_orphaned f S.
Proof. intros Hr%qreach_inv Hs. by apply (qstep_ok f S (Crash o)). Qed.

(** After a signal has ended the read of a work-queue or tasklet file and
    the file is closed, the item that is still queued writes to freed memory,
    whatever the kernel answers, unless it was at its end anyway. *)
Theorem jiq_interrupted_oops f S k :
  qreach f new_qsys S -> item_orphaned f S ->
  run_oops (jiq_item f) k (set_queued false (q_data S)) = Some UseAfterFree.
Proof.
  intros Hr (Hp & Hq & Hf & Hl).
  apply qreach_inv in Hr as [[? _] | (n & HL)]; [congruence |].
  pose proof HL as [H1 H2 H3 _ _ _ _]. rewrite Hp in H3. cbn in H3.
  pose proof (summed_range n _ H2 H1) as Hr.
  pose proof (jiq_print_closed k (set_queued false (q_data S)) H3 Hr) as E.
  cbn [cd_len set_queued] in E. replace (LIMIT <? _) with false in E by lia.
  unfold run_oops. destruct f; try done; unfold jiq_item, jiq_print_wq, jiq_print_wq_delayed,
    jiq_print_tasklet, mbind, M_bind; by rewrite E.
Qed.

(** ** Runs *)

(** A whole read of the work-queue file, and one that a signal ends before the
    first line. *)
Definition whole_moves : list qmove := [XShow] ++ replicate 15 XItem ++ [XGoesOn; XWoken; XEnd].
Definition orphan_moves : list qmove := [XShow; XSignal; XEnd; XClose].

Definition whole_end : qsys :=
  Eval vm_compute in default new_qsys (qexec JiqWq whole_moves new_qsys).
Definition orphan_end : qsys :=
  Eval vm_compute in default new_qsys (qexec JiqWq orphan_moves new_qsys).

Lemma jiq_read_ok_witness :
  q_pc whole_end = QReturned 0 false /\ queued (q_data whole_end) = false /\
  exists m Ls, cd_m (q_data whole_end) = Some m /\ s_text m = report Ls /\
    Forall is_line Ls /\ lines_printed JiqWq (length Ls).
Proof.
  split; [reflexivity |].
  destruct (jiq_read_ok JiqWq whole_end) as (_ & H & _);
    [by apply (qexec_reach _ whole_moves); vm_compute | discriminate |].
  by destruct (H 0 eq_refl) as (_ & Hq & HL).
Defined.

Lemma orphan_state : item_orphaned JiqWq orphan_end.
Proof. repeat split; discriminate. Qed.

Lemma jiq_oops_only_witness :
  qstep JiqWq orphan_end (Crash UseAfterFree) /\ item_orphaned JiqWq orphan_end.
Proof.
  assert (qstep JiqWq orphan_end (Crash UseAfterFree)) as Hs by by apply (qexec1_step _ XItem).
  split; [exact Hs |].
  apply (jiq_oops_only JiqWq orphan_end UseAfterFree);
    [by apply (qexec_reach _ orphan_moves) | exact Hs].
Defined.

Lemma jiq_interrupted_oops_witness :
  queued (q_data orphan_end) = true /\
  run_oops (jiq_item JiqWq) grant (set_queued false (q_data orphan_end)) = Some UseAfterFree.
Proof.
  split; [reflexivity |].
  apply (jiq_interrupted_oops JiqWq);
    [by apply (qexec_reach _ orphan_moves) | exact orphan_state].
Defined.
