(* ===== verification/JiqMany.v ===== *)
(** * Several readers of the jiq files

    The four files share [jiq_data] and its wait queue, and nothing in the
    module stops two reads from overlapping.  Here any number of readers have
    the files open; each section of a reader, each item up to where it wakes the
    readers, and each wake-up is the code of Jiq.v run on the one shared
    structure.  Reads that follow one another work as long as one of a
    work-queue file does not start before a wake-up of an earlier one; otherwise
    readers can lose their output, initialise a pending timer, or leave an item
    that writes to a closed file, without any signal. *)

From Stdlib Require Import Ascii Strings.Byte.
From S2P Require Import Prelude Text Kernel Jiq JiqInv.

Implicit Types (k : kern) (d : clientdata) (f : jiq_file).

(** ** Data *)

(** The queued item of each file. *)
Inductive jiq_kind := WorkItem | DelayedItem | TimerItem | TaskletItem.

#[export] Instance jiq_kind_eq_dec : EqDecision jiq_kind.
Proof. solve_decision. Defined.

#[export] Instance jiq_kind_countable : Countable jiq_kind.
Proof.
  refine (inj_countable' (fun i => match i with
      | WorkItem => 0%nat | DelayedItem => 1%nat | TimerItem => 2%nat | TaskletItem => 3%nat end)
    (fun n => match n with
      | 0%nat => WorkItem | 1%nat => DelayedItem | 2%nat => TimerItem | _ => TaskletItem end) _).
  by intros [].
Defined.

Definition kind_of (f : jiq_file) : jiq_kind :=
  match f with
  | JiqWq => WorkItem
  | JiqWqDelay _ => DelayedItem
  | JiqTimer => TimerItem
  | JiqTasklet => TaskletItem
  end.

(** [jiq_data] with the reader whose buffer [m] points to; the buffers of the open
    files; the items that are queued; the readers on [jiq_wait]; the items that
    have printed and are about to wake them; and where every reader is in its
    file. *)
Record jiq_state := JState {
  js_len : Z;
  js_end : Z;
  js_jiffies : Z;
  js_delay : Z;
  js_m : option nat;
  js_files : gmap nat seq_file;
  js_items : gset jiq_kind;
  js_wait : gset nat;
  js_waking : gmap jiq_kind stage;
  js_readers : gmap nat (jiq_file * qpc)
}.

Definition new_jiq : jiq_state := JState 0 0 0 0 None ∅ ∅ ∅ ∅ ∅.

(** ** The structure as one section of the code sees it *)

(** The code of one file touches one item.  [w]: the readers that matter to the
    section are on the wait queue. *)
Definition view (f : jiq_file) (w : bool) (X : jiq_state) : clientdata :=
  CData (t ← js_m X; js_files X !! t) (js_len X) (js_end X) (js_jiffies X) (js_delay X)
    (bool_decide (kind_of f ∈ js_items X)) w (js_waking X !! kind_of f).

(** What the section leaves. *)
Definition put (f : jiq_file) (d : clientdata) (w : gset nat) (X : jiq_state) : jiq_state :=
  JState (cd_len d) (cd_end d) (cd_jiffies d) (cd_delay d) (js_m X)
    (match js_m X, cd_m d with Some t, Some m => <[t := m]> (js_files X) | _, _ => js_files X end)
    (if queued d then {[kind_of f]} ∪ js_items X else js_items X ∖ {[kind_of f]})
    w (partial_alter (fun _ => waking d) (kind_of f) (js_waking X)) (js_readers X).

Definition at_pc (t : nat) (f : jiq_file) (p : qpc) (X : jiq_state) : jiq_state :=
  JState (js_len X) (js_end X) (js_jiffies X) (js_delay X) (js_m X) (js_files X) (js_items X)
    (js_wait X) (js_waking X) (<[t := (f, p)]> (js_readers X)).

Definition point_to (t : nat) (X : jiq_state) : jiq_state :=
  JState (js_len X) (js_end X) (js_jiffies X) (js_delay X) (Some t) (js_files X) (js_items X)
    (js_wait X) (js_waking X) (js_readers X).

Definition close_file (t : nat) (X : jiq_state) : jiq_state :=
  JState (js_len X) (js_end X) (js_jiffies X) (js_delay X) (js_m X) (delete t (js_files X))
    (js_items X) (js_wait X) (js_waking X) (js_readers X).

(** A section of reader [t]: it puts itself on the queue or takes itself off. *)
Definition own_wait (t : nat) (d : clientdata) (X : jiq_state) : gset nat :=
  if q_waiting d then {[t]} ∪ js_wait X else js_wait X ∖ {[t]}.

(** A wake-up is one for everybody. *)
Definition all_wait (d : clientdata) (X : jiq_state) : gset nat :=
  if q_waiting d then js_wait X else ∅.

(** ** The moves *)

Inductive jmove :=
  | MShow (t : nat) (f : jiq_file)
  | MTest (t : nat)
  | MWoken (t : nat)
  | MSignal (t : nat)
  | MEnd (t : nat)
  | MClose (t : nat)
  | MItem (f : jiq_file)
  | MGoesOn (f : jiq_file).

Definition mrun {A} (r : outcome (A * kern * clientdata)) (g : A -> clientdata -> jiq_state)
    : outcome jiq_state :=
  match r with
  | Done (a, _, d) => Done (g a d)
  | Crash o => Crash o
  end.

(** [None]: the move is not possible.  A reader's number is not used again after
    it has closed its file. *)
Definition mexec1 (k : kern) (mv : jmove) (X : jiq_state) : option (outcome jiq_state) :=
  match mv with
  | MShow t f =>
      match js_readers X !! t with
      | Some _ => None
      | None => Some (mrun (jiq_show f new_file k (view f false X)) (fun _ d =>
          at_pc t f (if tests_end f then QTest else QAsleep)
            (put f d (own_wait t d X) (point_to t X))))
      end
  | MTest t =>
      match js_readers X !! t with
      | Some (f, QTest) =>
          Some (mrun (jiq_wait_end k (view f (bool_decide (t ∈ js_wait X)) X)) (fun b d =>
            at_pc t f (if b : bool then QEnd false else QAsleep) (put f d (own_wait t d X) X)))
      | _ => None
      end
  | MWoken t =>
      match js_readers X !! t with
      | Some (f, QAsleep) =>
          if bool_decide (t ∈ js_wait X) then None
          else Some (Done (at_pc t f (if tests_end f then QTest else QEnd false) X))
      | _ => None
      end
  | MSignal t =>
      match js_readers X !! t with
      | Some (f, QAsleep) => Some (Done (at_pc t f (QEnd true) X))
      | _ => None
      end
  | MEnd t =>
      match js_readers X !! t with
      | Some (f, QEnd sig) =>
          if can_finish f (js_waking X !! kind_of f) then
            Some (mrun (jiq_finish f k (view f (bool_decide (t ∈ js_wait X)) X)) (fun r d =>
              at_pc t f (QReturned r sig) (put f d (own_wait t d X) X)))
          else None
      | _ => None
      end
  | MClose t =>
      match js_readers X !! t with
      | Some (f, QReturned r sig) => Some (Done (at_pc t f (QClosed sig) (close_file t X)))
      | _ => None
      end
  | MItem f =>
      match bool_decide (kind_of f ∈ js_items X), js_waking X !! kind_of f with
      | true, None =>
          Some (mrun (jiq_item f k (set_queued false (view f (bool_decide (js_wait X <> ∅)) X)))
            (fun _ d => put f d (all_wait d X) X))
      | _, _ => None
      end
  | MGoesOn f =>
      g ← js_waking X !! kind_of f;
      Some (mrun (item_goes_on g k (view f (bool_decide (js_wait X <> ∅)) X))
        (fun _ d => put f d (all_wait d X) X))
  end.

(** The states that moves allowed by [P] reach from [X0], and from the start. *)
Inductive mfrom (P : jiq_state -> jmove -> Prop) (X0 : jiq_state) : jiq_state -> Prop :=
  | mfrom_refl : mfrom P X0 X0
  | mfrom_step X k mv Y :
      mfrom P X0 X -> P X mv -> mexec1 k mv X = Some (Done Y) -> mfrom P X0 Y.

Definition mreach (P : jiq_state -> jmove -> Prop) : jiq_state -> Prop := mfrom P new_jiq.

(** No signal comes. *)
Definition no_signal (X : jiq_state) (mv : jmove) : Prop :=
  match mv with MSignal _ => False | _ => True end.

(** A reader that has not returned yet. *)
Definition reading (p : qpc) : bool :=
  match p with QReturned _ _ | QClosed _ => false | _ => true end.

(** No two reads overlap, and no signal comes. *)
Definition in_turn (X : jiq_state) (mv : jmove) : Prop :=
  match mv with
  | MShow _ _ => forall t f p, js_readers X !! t = Some (f, p) -> reading p = false
  | MSignal _ => False
  | _ => True
  end.

(** No two reads overlap, and one of a work-queue file starts only when no item is
    about to wake somebody; signals only come to readers of the timer file, which
    stops its timer. *)
Definition one_by_one (X : jiq_state) (mv : jmove) : Prop :=
  match mv with
  | MShow _ f =>
      (forall t f p, js_readers X !! t = Some (f, p) -> reading p = false) /\
      (tests_end f = false -> js_waking X = ∅)
  | MSignal t => forall f p, js_readers X !! t = Some (f, p) -> f = JiqTimer
  | _ => True
  end.

(** ** The invariant of reads that follow one another *)

(** A read that is over: unless a signal ended it, its file holds the whole
    output until it is closed. *)
Definition over (X : jiq_state) (t : nat) (f : jiq_file) (p : qpc) : Prop :=
  match p with
  | QClosed _ => True
  | QReturned r sig =>
      r = 0 /\
      (sig = false -> exists m Ls, js_files X !! t = Some m /\ s_over m = false /\
         s_text m = report Ls /\ Forall is_line Ls /\ lines_printed f (length Ls))
  | _ => False
  end.

(** The last reader: alone with its item, it sees the state of Jiq.v. *)
Record last_reader (X : jiq_state) (t : nat) (f : jiq_file) (p : qpc) (n : nat) : Prop := LastReader {
  lr_m : js_m X = Some t;
  lr_pc : js_readers X !! t = Some (f, p);
  lr_live : qlive f n (QSys (view f (bool_decide (t ∈ js_wait X)) X) p);
  lr_sig : sig_of p = true -> f = JiqTimer;
  lr_items : js_items X ⊆ {[kind_of f]};
  lr_foreign : forall i, i <> kind_of f -> js_waking X !! i = None \/
    js_waking X !! i = Some ItemWakes /\ tests_end f = true;
  lr_wait : js_wait X ⊆ (if reading p then {[t]} else ∅);
  lr_over : forall t' f' p', t' <> t -> js_readers X !! t' = Some (f', p') -> over X t' f' p'
}.

Definition minv (X : jiq_state) : Prop :=
  (js_readers X = ∅ /\ js_items X = ∅ /\ js_wait X = ∅ /\ js_waking X = ∅) \/
  exists t f p n, last_reader X t f p n.

(** A section of the last reader, or its item, left [d]. *)
Lemma last_reader_put X t f p' d w :
  js_m X = Some t -> qinv f (QSys d p') -> p' <> QStart ->
  (cd_m d = None -> js_files X !! t = None) ->
  (sig_of p' = true -> f = JiqTimer) -> js_items X ⊆ {[kind_of f]} ->
  (forall i, i <> kind_of f -> js_waking X !! i = None \/
    js_waking X !! i = Some ItemWakes /\ tests_end f = true) ->
  w ⊆ (if reading p' then {[t]} else ∅) -> (t ∈ w <-> q_waiting d = true) ->
  (forall t' f' q, t' <> t -> js_readers X !! t' = Some (f', q) -> over X t' f' q) ->
  minv (at_pc t f p' (put f d w X)).
Proof.
  intros Hm [[? _] | (n & HL)] Hp Hd Hs Hi Hf Hw Ht Ho; [done |].
  right. exists t, f, p', n. split; cbn [at_pc put js_m js_readers js_items js_wait js_waking].
  - done.
  - by rewrite lookup_insert_eq.
  - replace (view f _ _) with d; [done |].
    unfold view, put, at_pc.
    cbn [js_len js_end js_jiffies js_delay js_m js_files js_items js_wait js_waking js_readers].
    rewrite Hm, lookup_partial_alter_eq. cbn. destruct d as [dm dl de dj dd dq dw dk].
    cbn in *. f_equal; symmetry.
    + destruct dm; [apply lookup_insert_eq | by apply Hd].
    + destruct dq; [apply bool_decide_eq_true | apply bool_decide_eq_false]; set_solver.
    + destruct dw; [apply bool_decide_eq_true | apply bool_decide_eq_false]; naive_solver.
  - done.
  - destruct (queued d); set_solver.
  - intros i Hi'. rewrite lookup_partial_alter_ne by done. by apply Hf.
  - done.
  - intros t' f' q Hne Hq. rewrite lookup_insert_ne in Hq by done.
    specialize (Ho t' f' q Hne Hq). unfold over in *. destruct q; try done.
    destruct Ho as [-> Ho]. split; [done |]. intros Hsig.
    destruct (Ho Hsig) as (m' & Ls & ? & ?). exists m', Ls. split; [| done].
    cbn [at_pc put js_files]. rewrite Hm. destruct (cd_m d); [by rewrite lookup_insert_ne | done].
Qed.

(** The last reader when it has returned: nothing is queued, and its read is
    over. *)
Lemma last_reader_over X t f p n :
  last_reader X t f p n -> reading p = false ->
  js_items X = ∅ /\ js_wait X = ∅ /\ over X t f p.
Proof.
  intros [H1 H2 H3 H4 H5 _ H6 H7] Hp. rewrite Hp in H6.
  assert (kind_of f ∉ js_items X) as Hq.
  { pose proof (ql_ready _ _ _ H3) as Hr. cbn [q_pc q_data ready] in Hr.
    apply (bool_decide_eq_false (kind_of f ∈ js_items X)).
    destruct p as [| | | | r [] | []]; try done; cbn in Hr, H4; destruct_and?; auto. }
  split_and!; [clear -Hq H5; set_solver | clear -H6; set_solver |].
  destruct p as [| | | | r sig |]; try done. cbn [over].
  split; [by pose proof (ql_ready _ _ _ H3) as Hr; destruct sig, Hr |]. intros ->.
  pose proof (ql_file _ _ _ H3) as Hf. cbn in Hf. rewrite H1 in Hf. cbn in Hf.
  destruct Hf as (m & Hm & Ho & Hf). exists m.
  assert (lines_printed f n) as Hn.
  { eapply finished_lines; [exact H3 | | done]. cbn. by apply bool_decide_eq_false. }
  assert (n <> 0%nat) by (destruct f; cbn in Hn; lia). destruct n as [| n]; [done |].
  destruct Hf as (Ls & Hl & HLs & Htx). exists Ls. rewrite Hl. by split_and!.
Qed.

(** Between two reads nothing is queued and nobody waits. *)
Lemma minv_over X t f p :
  minv X -> js_readers X !! t = Some (f, p) -> reading p = false -> over X t f p.
Proof.
  intros [(Hr & _) | (t0 & f0 & p0 & n & HL)] Ht Hp; [by rewrite Hr, lookup_empty in Ht |].
  destruct (decide (t = t0)) as [-> | Hne]; [| by eapply lr_over].
  pose proof (lr_pc _ _ _ _ _ HL) as E. rewrite Ht in E. injection E as <- <-.
  by apply (last_reader_over _ _ _ _ _ HL).
Qed.

Lemma minv_idle X :
  minv X -> (forall t f p, js_readers X !! t = Some (f, p) -> reading p = false) ->
  js_items X = ∅ /\ js_wait X = ∅ /\
  forall i, js_waking X !! i = None \/ js_waking X !! i = Some ItemWakes.
Proof.
  intros [(Hr & Hi & Hw & Hk) | (t & f & p & n & HL)] Hidle.
  { split_and!; [done | done |]. rewrite Hk. intros i. left. apply lookup_empty. }
  destruct (last_reader_over _ _ _ _ _ HL) as (? & ? & _); [by eapply Hidle, lr_pc |].
  split_and!; [done | done |]. intros i. destruct (decide (i = kind_of f)) as [-> | Hi].
  - exact (proj1 (ql_waking _ _ _ (lr_live _ _ _ _ _ HL))).
  - destruct (lr_foreign _ _ _ _ _ HL i Hi) as [| [? _]]; auto.
Qed.

(** An item never puts anybody on the queue. *)
Lemma print_no_wait {A} (g : bool -> M clientdata A) k d :
  (forall b k' d', (q_waiting d' = true -> q_waiting d = true) ->
     wlp (g b) (fun _ _ d2 => q_waiting d2 = true -> q_waiting d = true) k' d') ->
  wlp (mbind g jiq_print) (fun _ _ d' => q_waiting d' = true -> q_waiting d = true) k d.
Proof.
  intros Hg. wp_step. unfold jiq_print, jiffies. do 5 wp_step.
  destruct (_ <? _); [wp_steps; by apply Hg |].
  assert (forall t (Q : unit -> kern -> clientdata -> Prop) k' d',
    (forall m, Q tt k' (set_m m d')) -> wlp (seq_puts t) Q k' d') as Hputs.
  { intros t Q k' d' H. unfold wpc, seq_puts. by destruct (cd_m d'). }
  assert (forall (Q : Z -> kern -> clientdata -> Prop) k' d',
    (forall z, Q z k' d') -> wlp m_count Q k' d') as Hcount.
  { intros Q k' d' H. unfold wpc, m_count. by destruct (cd_m d'). }
  wp_step. destruct (cd_len d =? 0);
    repeat first [apply Hputs; intros ? | apply Hcount; intros ? | progress wp_steps];
    by apply Hg.
Qed.

Lemma item_no_wait f k d :
  wlp (jiq_item f) (fun _ _ d' => q_waiting d' = true -> q_waiting d = true) k d.
Proof.
  destruct f; cbn [jiq_item]; unfold jiq_print_wq, jiq_print_wq_delayed, jiq_print_tasklet,
    jiq_timedout, jiq_timedout_end, schedule_item, at_stage; apply print_no_wait;
    intros b k' d' H; wp_steps; done.
Qed.

(** What a move gives. *)
Definition mok (r : outcome jiq_state) : Prop :=
  match r with Done Y => minv Y | Crash _ => False end.

Lemma mrun_ok {A} (m : M clientdata A) g k d :
  wp m (fun a _ d' => minv (g a d')) k d -> mok (mrun (m k d) g).
Proof. unfold wpc. by destruct (m k d) as [[[a k'] d'] | o]. Qed.

(** From the system of one reader: no oops, and a state that goes on. *)
Lemma qok_run {A} f (m : M clientdata A) (g : A -> qpc) k d S :
  qok f S (qrun (m k d) g) -> ~ item_orphaned f S ->
  wp m (fun a _ d' => qinv f (QSys d' (g a))) k d.
Proof.
  unfold wpc. destruct (m k d) as [[[a k'] d'] | o]; [done |]. intros [_ Ho] Hn. by destruct Hn.
Qed.

Lemma qinv_file f d p : qinv f (QSys d p) -> p <> QStart -> (forall s, p <> QClosed s) ->
  is_Some (cd_m d).
Proof.
  intros [[? _] | (n & HL)] Hp Hc; [done |]. pose proof (ql_file _ _ _ HL) as H. cbn in H.
  destruct p as [| | | | | s]; try (destruct H as (m & -> & _); by eexists); try done.
  by destruct (Hc s).
Qed.

Lemma qinv_open f d p (P : Prop) : qinv f (QSys d p) -> p <> QStart -> (forall s, p <> QClosed s) ->
  cd_m d = None -> P.
Proof. intros H1 H2 H3 E. destruct (qinv_file f d p H1 H2 H3) as [m Hm]. congruence. Qed.

(** Nothing is orphaned after reads that follow one another. *)
Lemma not_orphaned f p d : (sig_of p = true -> f = JiqTimer) -> ~ item_orphaned f (QSys d p).
Proof. intros Hs (Hp & _ & Hf & _). cbn in Hp. subst. by apply Hf, Hs. Qed.

(** The reader a move is about is the last one. *)
Lemma minv_reader X t f p :
  minv X -> js_readers X !! t = Some (f, p) -> reading p = true ->
  exists n, last_reader X t f p n.
Proof.
  intros [(Hr & _) | (t' & f' & p' & n & HL)] Ht Hp; [by rewrite Hr, lookup_empty in Ht |].
  destruct (decide (t = t')) as [<- | Hne].
  - pose proof (lr_pc _ _ _ _ _ HL) as E. rewrite Ht in E. injection E as <- <-. by exists n.
  - pose proof (lr_over _ _ _ _ _ HL t f p Hne Ht) as Ho. by destruct p.
Qed.

(** A section of a reader that is reading. *)
Lemma minv_section {A} X t f p (m : M clientdata A) (g : A -> qpc) k :
  minv X -> js_readers X !! t = Some (f, p) -> reading p = true ->
  (forall d, d = view f (bool_decide (t ∈ js_wait X)) X -> qstep f (QSys d p) (qrun (m k d) g)) ->
  (forall a, g a <> QStart /\ (forall s, g a <> QClosed s) /\
     (sig_of (g a) = true -> f = JiqTimer \/ sig_of p = true)) ->
  (forall a, reading (g a) = false ->
     wlp m (fun _ _ d' => q_waiting d' = false) k (view f (bool_decide (t ∈ js_wait X)) X)) ->
  mok (mrun (m k (view f (bool_decide (t ∈ js_wait X)) X))
    (fun a d => at_pc t f (g a) (put f d (own_wait t d X) X))).
Proof.
  intros HI Ht Hp Hs Hg Hw. destruct (minv_reader X t f p HI Ht Hp) as [n HL].
  set (d := view f _ X) in *. specialize (Hs d eq_refl).
  pose proof HL as [H1 H2 H3 H4 H5 H8 H6 H7]. rewrite Hp in H6.
  assert (qok f (QSys d p) (qrun (m k d) g)) as Hq by (eapply qstep_ok; [done | right; by exists n]).
  apply mrun_ok. pose proof (qok_run _ _ _ _ _ _ Hq (not_orphaned f p d H4)) as Hm.
  unfold wpc in Hm |- *. unfold wpc in Hw. destruct (m k d) as [[[a k'] d'] | o]; [| done].
  destruct (Hg a) as (Hg1 & Hg2 & Hg3).
  apply last_reader_put; try done.
  - by eapply qinv_open.
  - intros Hsg. destruct (Hg3 Hsg) as [| Hsp]; auto.
  - unfold own_wait. destruct (reading (g a)) eqn:Er.
    + destruct (q_waiting d'); clear -H6; set_solver.
    + rewrite (Hw a Er). clear -H6. set_solver.
  - unfold own_wait. destruct (q_waiting d'); clear; set_solver.
Qed.

(** A reader that goes on without touching anything. *)
Lemma minv_at X t f p p' :
  minv X -> js_readers X !! t = Some (f, p) -> reading p = true -> reading p' = true ->
  p' <> QStart -> (sig_of p' = true -> f = JiqTimer) ->
  (forall d, d = view f (bool_decide (t ∈ js_wait X)) X -> qstep f (QSys d p) (Done (QSys d p'))) ->
  minv (at_pc t f p' X).
Proof.
  intros HI Ht Hp Hp' Hn Hsg Hs. destruct (minv_reader X t f p HI Ht Hp) as [n HL].
  specialize (Hs _ eq_refl). pose proof HL as [H1 H2 H3 H4 H5 H8 H6 H7].
  assert (qinv f (QSys (view f (bool_decide (t ∈ js_wait X)) X) p')) as [[? _] | (n' & HL')];
    [| done |].
  { by apply (qstep_ok f _ (Done _) Hs); right; exists n. }
  right. exists t, f, p', n'. split; try done.
  - cbn. by rewrite lookup_insert_eq.
  - rewrite Hp in H6. by rewrite Hp'.
  - intros t' f' q Hne Hq. cbn in Hq. rewrite lookup_insert_ne in Hq by done. by eapply H7.
Qed.

Lemma reader_show_ok X t f k :
  minv X -> one_by_one X (MShow t f) -> js_readers X !! t = None ->
  mok (mrun (jiq_show f new_file k (view f false X)) (fun _ d =>
    at_pc t f (if tests_end f then QTest else QAsleep)
      (put f d (own_wait t d X) (point_to t X)))).
Proof.
  intros HI [Hone Hwq] Ht. destruct (minv_idle X HI Hone) as (Hi & Hw & Hk).
  assert (forall i, js_waking X !! i = None \/
    js_waking X !! i = Some ItemWakes /\ tests_end f = true) as Hk2.
  { intros i. destruct (tests_end f) eqn:E; [destruct (Hk i); auto |].
    rewrite (Hwq eq_refl), lookup_empty. by left. }
  apply mrun_ok.
  assert (qok f (QSys (view f false X) QStart) (qrun (jiq_show f new_file k (view f false X))
    (fun _ => if tests_end f then QTest else QAsleep))) as Hq.
  { apply q_show_ok. split; [cbn; rewrite Hi; by apply bool_decide_eq_false | apply Hk2]. }
  assert (~ item_orphaned f (QSys (view f false X) QStart)) as Hno by by intros [? _].
  eapply wp_mono; [exact (qok_run _ _ _ _ _ _ Hq Hno) |]. cbv beta. intros _ k' d H.
  set (p' := if tests_end f then QTest else QAsleep) in *.
  assert (reading p' = true /\ p' <> QStart /\ (forall s, p' <> QClosed s) /\ sig_of p' = false)
    as (Hp1 & Hp2 & Hp3 & Hp4) by (unfold p'; by destruct (tests_end f)).
  apply last_reader_put; try done.
  - by eapply qinv_open.
  - by rewrite Hp4.
  - cbn [js_items point_to]. rewrite Hi. set_solver.
  - rewrite Hp1. unfold own_wait. rewrite Hw. destruct (q_waiting d); clear; set_solver.
  - unfold own_wait. destruct (q_waiting d); clear; set_solver.
  - cbn [js_readers point_to]. intros t' f' q _ Hq'. exact (minv_over X _ _ _ HI Hq' (Hone _ _ _ Hq')).
Qed.

(** Files with the same item run the same code. *)
Lemma same_kind f f0 : kind_of f = kind_of f0 ->
  jiq_item f = jiq_item f0 /\ (forall w X, view f w X = view f0 w X) /\
  (forall d w X, put f d w X = put f0 d w X).
Proof. unfold view, put. intros E. rewrite E. by destruct f, f0. Qed.

(** A section of the item of the last reader leaves [d']. *)
Lemma item_put X t f p n d' :
  last_reader X t f p n -> p <> QStart -> qinv f (QSys d' p) ->
  (cd_m d' = None -> js_files X !! t = None) ->
  (q_waiting d' = true -> t ∈ js_wait X) -> minv (put f d' (all_wait d' X) X).
Proof.
  intros [H1 H2 H3 H4 H5 H8 H6 H7] Hp HI Hf Hw.
  replace (put f d' (all_wait d' X) X) with (at_pc t f p (put f d' (all_wait d' X) X)).
  2: { unfold at_pc, put. cbn [js_len js_end js_jiffies js_delay js_m js_files js_items
         js_wait js_waking js_readers]. by rewrite insert_id. }
  apply last_reader_put; try done.
  - unfold all_wait. destruct (q_waiting d'); [done | clear; set_solver].
  - unfold all_wait. destruct (q_waiting d') eqn:E; [| clear; set_solver].
    split; [done |]. intros _. by apply Hw.
Qed.

(** What the item of the last reader sees. *)
Lemma item_view X t f0 f p n :
  last_reader X t f p n -> kind_of f0 = kind_of f ->
  view f0 (bool_decide (js_wait X <> ∅)) X = view f (bool_decide (t ∈ js_wait X)) X.
Proof.
  intros [H1 H2 H3 H4 H5 H8 H6 H7] Ek. destruct (same_kind f0 f Ek) as (_ & Ev & _).
  rewrite Ev. f_equal.
  assert (js_wait X ⊆ {[t]}) as Hw1 by (clear -H6; destruct (reading p); set_solver).
  apply bool_decide_ext. split; [intros Hne | by intros Ht E; rewrite E in Ht; set_solver].
  apply set_choose_L in Hne as [t' Ht']. by rewrite <- (elem_of_singleton_1 t' t (Hw1 _ Ht')).
Qed.

(** Only the last reader has an item. *)
Lemma item_ok X f k :
  minv X -> kind_of f ∈ js_items X -> js_waking X !! kind_of f = None ->
  mok (mrun (jiq_item f k (set_queued false (view f (bool_decide (js_wait X <> ∅)) X)))
    (fun _ d => put f d (all_wait d X) X)).
Proof.
  intros [(_ & Hi & _) | (t & f0 & p & n & HL)] Hk Hg; [set_solver |].
  pose proof HL as [H1 H2 H3 H4 H5 H8 H6 H7].
  pose proof (H5 _ Hk) as Ek. apply elem_of_singleton in Ek.
  rewrite (item_view X t f f0 p n HL Ek). rewrite Ek in Hk, Hg.
  destruct (same_kind f f0 Ek) as (Ei & _ & Ep). rewrite Ei. set (d := view f0 _ X) in *.
  assert (queued d = true) as Hqd.
  { by apply bool_decide_eq_true. }
  assert (qinv f0 (QSys d p)) as HI by (right; by exists n).
  assert (p <> QStart) as Hp by (intros ->; exact (ql_ready _ _ _ H3)).
  assert (forall s, p <> QClosed s) as Hc.
  { intros s ->. destruct (closed_queued _ _ _ _ H3 Hqd) as [-> Hf]. by apply Hf, H4. }
  pose proof (q_item_ok f0 d p k HI Hqd Hg) as Hok.
  apply mrun_ok. pose proof (qok_run _ _ _ _ _ _ Hok (not_orphaned f0 p d H4)) as Hm.
  pose proof (item_no_wait f0 k (set_queued false d)) as Hnw.
  unfold wpc in Hm, Hnw |- *. destruct (jiq_item f0 k (set_queued false d)) as [[[a k'] d'] |]; [| done].
  rewrite Ep. eapply item_put; [done | done | done | by eapply qinv_open |].
  intros E. specialize (Hnw E). by apply bool_decide_eq_true in Hnw.
Qed.

(** A wake-up, by the item of the last reader or by that of an earlier one. *)
Lemma goes_on_ok X f g k :
  minv X -> js_waking X !! kind_of f = Some g ->
  mok (mrun (item_goes_on g k (view f (bool_decide (js_wait X <> ∅)) X))
    (fun _ d => put f d (all_wait d X) X)).
Proof.
  intros [(_ & _ & _ & Hi) | (t & f0 & p & n & HL)] Hg; [by rewrite Hi, lookup_empty in Hg |].
  pose proof HL as [H1 H2 H3 H4 H5 H8 H6 H7].
  assert (p <> QStart) as Hp by (intros ->; exact (ql_ready _ _ _ H3)).
  assert (g = ItemWakes) as ->.
  { destruct (decide (kind_of f = kind_of f0)) as [E | E].
    - destruct (ql_waking _ _ _ H3) as [[Hw | Hw] _]; cbn in Hw; congruence.
    - destruct (H8 _ E) as [? | [? _]]; congruence. }
  assert (forall d, item_goes_on ItemWakes k d =
    Done (tt, k, set_waking None (set_qwaiting false d))) as Er by done.
  rewrite Er. cbn [mrun mok]. unfold all_wait. cbn [q_waiting set_waking set_qwaiting].
  destruct (decide (kind_of f = kind_of f0)) as [E | E].
  - destruct (same_kind f f0 E) as (_ & _ & Ep).
    rewrite (item_view X t f f0 p n HL E), Ep. set (d := view f0 _ X) in *.
    rewrite E in Hg.
    pose proof (q_goes_on_ok f0 d p ItemWakes k Hg (or_intror (ex_intro _ n H3))) as Hq.
    rewrite Er in Hq. cbn [qrun qok] in Hq. pose proof (item_put X t f0 p n _ HL Hp Hq) as Hi. unfold all_wait in Hi.
    cbn [q_waiting set_waking set_qwaiting] in Hi. apply Hi; [| done]. cbn. by rewrite H1.
  - destruct (H8 _ E) as [? | [_ Hf]]; [congruence |].
    pose proof (qlive_stray f0 n _ p Hf H3) as Hq. right. exists t, f0, p, n.
    split; cbn [put js_m js_readers js_items js_wait js_waking]; try done.
    + replace (view f0 _ _) with (set_qwaiting false (view f0 (bool_decide (t ∈ js_wait X)) X));
        [done |].
      unfold view, put, set_qwaiting, set_waking.
      cbn [js_len js_end js_jiffies js_delay js_m js_files js_items js_wait js_waking js_readers
        cd_m cd_len cd_end cd_jiffies cd_delay queued q_waiting waking].
      rewrite H1, lookup_partial_alter_ne by done. cbn. f_equal.
      * destruct (js_files X !! t) as [m |] eqn:Em; [by rewrite lookup_insert_eq | done].
      * apply bool_decide_ext. clear -E. case_bool_decide; set_solver.
    + clear -H5 E. cbn [view queued set_waking set_qwaiting]. case_bool_decide; set_solver.
    + intros i Hi. destruct (decide (i = kind_of f)) as [-> | Hne];
        [rewrite lookup_partial_alter_eq | rewrite lookup_partial_alter_ne by done]; auto.
    + intros t' f' q Hne Hq'. specialize (H7 t' f' q Hne Hq'). unfold over in *.
      destruct q; try done. destruct H7 as [-> H7]. split; [done |]. intros Hsg.
      destruct (H7 Hsg) as (m' & Ls & ? & ?). exists m', Ls. split; [| done].
      cbn [put js_files view set_waking set_qwaiting cd_m]. rewrite H1. cbn.
      destruct (js_files X !! t); [by rewrite lookup_insert_ne | done].
Qed.

Lemma finish_no_wait f k d : wp (jiq_finish f) (fun _ _ d' => q_waiting d' = false) k d.
Proof. unfold jiq_finish. by destruct f; wp_steps. Qed.

Lemma close_ok X t f r sig :
  minv X -> js_readers X !! t = Some (f, QReturned r sig) ->
  minv (at_pc t f (QClosed sig) (close_file t X)).
Proof.
  intros [(Hr & _) | (t0 & f0 & p & n & HL)] Ht; [by rewrite Hr, lookup_empty in Ht |].
  pose proof HL as [H1 H2 H3 H4 H5 H8 H6 H7]. right.
  assert (forall t' f' q, t' <> t0 ->
    <[t := (f, QClosed sig)]> (js_readers X) !! t' = Some (f', q) ->
    over (at_pc t f (QClosed sig) (close_file t X)) t' f' q) as Ho.
  { intros t' f' q Hne Hq. destruct (decide (t = t')) as [<- | Hne'].
    - rewrite lookup_insert_eq in Hq. by injection Hq as <- <-.
    - rewrite lookup_insert_ne in Hq by done. specialize (H7 _ _ _ Hne Hq).
      destruct q; try done. destruct H7 as [-> H7]. split; [done |]. intros Hsg.
      destruct (H7 Hsg) as (m & Ls & Hm & ?). exists m, Ls. split; [| done].
      cbn [at_pc close_file js_files]. by rewrite lookup_delete_ne. }
  destruct (decide (t = t0)) as [<- | Hne].
  - rewrite H2 in Ht. injection Ht as -> ->.
    assert (qinv f (QSys (view f (bool_decide (t ∈ js_wait X)) X) (QReturned r sig))) as Hq
      by (right; by exists n).
    apply q_close_ok in Hq as [[? _] | (n' & HL')]; [done |].
    exists t, f, (QClosed sig), n'. split; try done; [by cbn; rewrite lookup_insert_eq |].
    revert HL'. unfold set_m, view, at_pc, close_file.
    cbn [js_len js_end js_jiffies js_delay js_m js_files js_items js_wait js_readers
      cd_len cd_end cd_jiffies cd_delay queued q_waiting].
    rewrite H1. cbn. by rewrite lookup_delete_eq.
  - exists t0, f0, p, n. split; try done; [by cbn; rewrite lookup_insert_ne |].
    revert H3. unfold view, at_pc, close_file.
    cbn [js_len js_end js_jiffies js_delay js_m js_files js_items js_wait js_readers].
    rewrite H1. cbn. by rewrite lookup_delete_ne.
Qed.

Lemma mexec1_ok X mv k r :
  minv X -> one_by_one X mv -> mexec1 k mv X = Some r -> mok r.
Proof.
  intros HI Hone Hr. destruct mv as [t f | t | t | t | t | t | f | f]; cbn [mexec1] in Hr.
  - destruct (js_readers X !! t) eqn:Ht; [done |]. injection Hr as <-. by apply reader_show_ok.
  - destruct (js_readers X !! t) as [[f []] |] eqn:Ht; try done. injection Hr as <-.
    eapply minv_section; try done.
    + intros d ->. apply q_test.
    + by intros [].
    + by intros [].
  - destruct (js_readers X !! t) as [[f []] |] eqn:Ht; try done.
    case_bool_decide as Hw; [done |]. injection Hr as <-.
    eapply minv_at; try done; [by destruct (tests_end f) .. |].
    intros d ->. apply q_woken. by apply bool_decide_eq_false.
  - destruct (js_readers X !! t) as [[f []] |] eqn:Ht; try done. injection Hr as <-.
    eapply minv_at; try done.
    + intros _. by eapply Hone.
    + intros d ->. apply q_signal.
  - destruct (js_readers X !! t) as [[f [| | | sig | |]] |] eqn:Ht; try done.
    destruct (can_finish f _) eqn:Ec; [| done]. injection Hr as <-.
    eapply (minv_section X t f (QEnd sig) _ (fun r => QReturned r sig)); try done.
    + intros d ->. by apply q_end.
    + intros a. split_and!; [done | done |]. by right.
    + intros a _. apply wp_wlp, finish_no_wait.
  - destruct (js_readers X !! t) as [[f [| | | | r' sig |]] |] eqn:Ht; try done.
    injection Hr as <-. by eapply close_ok.
  - case_bool_decide as Hk; [| done]. destruct (js_waking X !! kind_of f) eqn:Hg; [done |].
    injection Hr as <-. by apply item_ok.
  - destruct (js_waking X !! kind_of f) as [g |] eqn:Hg; [| done].
    injection Hr as <-. by apply goes_on_ok.
Qed.

Lemma mreach_inv X : mreach one_by_one X -> minv X.
Proof.
  induction 1 as [| X k mv Y HX IH Hmv HY]; [by left |].
  exact (mexec1_ok X mv k (Done Y) IH Hmv HY).
Qed.

(** ** Running the system *)

Definition no_signalb (X : jiq_state) (mv : jmove) : bool :=
  match mv with MSignal _ => false | _ => true end.

Definition one_by_oneb (X : jiq_state) (mv : jmove) : bool :=
  match mv with
  | MShow _ f =>
      bool_decide (map_Forall (fun _ fp => reading fp.2 = false) (js_readers X)) &&
      (tests_end f || bool_decide (js_waking X = ∅))
  | MSignal t => match js_readers X !! t with Some (JiqTimer, _) | None => true | _ => false end
  | _ => true
  end.

Definition in_turnb (X : jiq_state) (mv : jmove) : bool :=
  match mv with
  | MShow _ _ => bool_decide (map_Forall (fun _ fp => reading fp.2 = false) (js_readers X))
  | MSignal _ => false
  | _ => true
  end.

Fixpoint mexec (k : kern) (ok : jiq_state -> jmove -> bool) (ms : list jmove) (X : jiq_state)
    : option jiq_state :=
  match ms with
  | [] => Some X
  | mv :: ms =>
      match (if ok X mv then mexec1 k mv X else None) with
      | Some (Done Y) => mexec k ok ms Y
      | _ => None
      end
  end.

Lemma mexec_reach (P : jiq_state -> jmove -> Prop) ok k ms X Y :
  (forall Z mv, ok Z mv = true -> P Z mv) ->
  mreach P X -> mexec k ok ms X = Some Y -> mreach P Y.
Proof.
  intros Hok. revert X. induction ms as [| mv ms IH]; cbn; intros X HX HY;
    [by injection HY as <- |].
  destruct (ok X mv) eqn:Eo; [| done].
  destruct (mexec1 k mv X) as [[Z | o] |] eqn:E; try done.
  eapply IH; [| done]. eapply mfrom_step; eauto.
Qed.

Lemma no_signalb_ok X mv : no_signalb X mv = true -> no_signal X mv.
Proof. by destruct mv. Qed.

Lemma in_turnb_ok X mv : in_turnb X mv = true -> in_turn X mv.
Proof.
  destruct mv as [t f | | | | | | |]; try done; cbn.
  intros H%bool_decide_eq_true t' f' p Ht. exact (H t' (f', p) Ht).
Qed.

Lemma one_by_oneb_ok X mv : one_by_oneb X mv = true -> one_by_one X mv.
Proof.
  destruct mv as [t f | | | t | | | |]; try done; cbn.
  - intros [H%bool_decide_eq_true Hw]%andb_true_iff. split.
    + intros t' f' p Ht. exact (H t' (f', p) Ht).
    + intros E. rewrite E in Hw. by apply bool_decide_eq_true in Hw.
  - intros H f p Ht. rewrite Ht in H. by destruct f.
Qed.

Definition after (ok : jiq_state -> jmove -> bool) (ms : list jmove) : jiq_state :=
  default new_jiq (mexec grant ok ms new_jiq).

Lemma after_reach (P : jiq_state -> jmove -> Prop) ok ms :
  (forall Z mv, ok Z mv = true -> P Z mv) -> is_Some (mexec grant ok ms new_jiq) ->
  mreach P (after ok ms).
Proof.
  unfold after. intros Hok [Y HY]. rewrite HY. eapply mexec_reach; [done | constructor | done].
Qed.

(** ** Readers that break each other *)

(** A reader of a work-queue file is asleep with its item queued, and another item
    is about to wake it. *)
Record stray_wake (X : jiq_state) (t : nat) (f g : jiq_file) : Prop := StrayWake {
  sw_file : tests_end f = false;
  sw_pc : js_readers X !! t = Some (f, QAsleep);
  sw_m : js_m X = Some t;
  sw_item : kind_of f ∈ js_items X;
  sw_rest : js_waking X !! kind_of f = None;
  sw_other : js_waking X !! kind_of g = Some ItemWakes;
  sw_len : 0 <= js_len X <= LIMIT
}.

(** The reader wakes, returns and closes its file. *)
Definition stray_moves (t : nat) (g : jiq_file) : list jmove :=
  [MGoesOn g; MWoken t; MEnd t; MClose t].

Lemma stray_wake_closes X t f g k :
  stray_wake X t f g ->
  exists Y, mexec k (fun _ _ => true) (stray_moves t g) X = Some Y /\
    js_readers Y !! t = Some (f, QClosed false) /\ js_m Y = Some t /\ js_files Y !! t = None /\
    kind_of f ∈ js_items Y /\ js_waking Y !! kind_of f = None /\ js_len Y = js_len X.
Proof.
  intros [H1 H2 H3 H4 H5 H6 H7].
  assert (kind_of f <> kind_of g) as Hne by congruence.
  set (d1 := set_waking None (set_qwaiting false (view g (bool_decide (js_wait X <> ∅)) X))).
  set (X1 := put g d1 (all_wait d1 X) X). set (X2 := at_pc t f (QEnd false) X1).
  set (d2 := set_qwaiting false (view f (bool_decide (t ∈ js_wait X2)) X2)).
  set (X3 := at_pc t f (QReturned 0 false) (put f d2 (own_wait t d2 X2) X2)).
  assert (mexec1 k (MGoesOn g) X = Some (Done X1)) as E1 by (cbn [mexec1]; by rewrite H6).
  assert (mexec1 k (MWoken t) X1 = Some (Done X2)) as E2.
  { unfold mexec1. change (js_readers X1) with (js_readers X). rewrite H2.
    rewrite bool_decide_eq_false_2 by (cbn; set_solver). by rewrite H1. }
  assert (mexec1 k (MEnd t) X2 = Some (Done X3)) as E3.
  { unfold mexec1. assert (js_readers X2 !! t = Some (f, QEnd false)) as -> by apply lookup_insert_eq.
    by destruct f. }
  assert (mexec1 k (MClose t) X3 = Some (Done (at_pc t f (QClosed false) (close_file t X3)))) as E4.
  { unfold mexec1. by assert (js_readers X3 !! t = Some (f, QReturned 0 false)) as ->
      by apply lookup_insert_eq. }
  assert (kind_of f ∈ js_items X2) as Hi.
  { cbn. clear -H4 Hne. destruct (bool_decide _); set_solver. }
  eexists. split; [unfold stray_moves; cbn [mexec]; rewrite E1, E2, E3, E4; done |].
  split_and!; try done.
  - apply lookup_insert_eq.
  - apply lookup_delete_eq.
  - cbn. rewrite (bool_decide_eq_true_2 _ Hi). set_solver.
  - cbn. rewrite lookup_partial_alter_eq, lookup_partial_alter_ne by done. exact H5.
Qed.

(** The item of a reader that has closed its file. *)
Lemma closed_item X t f k :
  f <> JiqTimer -> js_m X = Some t -> js_files X !! t = None -> kind_of f ∈ js_items X ->
  js_waking X !! kind_of f = None -> 0 <= js_len X <= LIMIT ->
  mexec1 k (MItem f) X = Some (Crash UseAfterFree).
Proof.
  intros Hf H1 H2 H3 H4 H5. cbn [mexec1]. rewrite (bool_decide_eq_true_2 _ H3), H4.
  set (d := set_queued false _).
  assert (jiq_print k d = Crash UseAfterFree) as E.
  { unfold LIMIT, PAGE_SIZE in H5. rewrite jiq_print_closed; [| cbn; by rewrite H1 |].
    - unfold d. cbn [set_queued view cd_len]. replace (LIMIT <? js_len X) with false; [done |].
      unfold LIMIT, PAGE_SIZE. lia.
    - unfold d. cbn [set_queued view cd_len]. lia. }
  destruct f; try done; unfold jiq_item, jiq_print_wq, jiq_print_wq_delayed, jiq_print_tasklet,
    mbind, M_bind; by rewrite E.
Qed.

(** To show the timer file while its timer is pending. *)
Lemma timer_show_pending m k d :
  queued d = true -> jiq_read_run_timer_show m k d = Crash TimerPending.
Proof.
  intros Hq. unfold jiq_read_run_timer_show, start_read, jiffies, timer_setup. mred. cbn.
  by rewrite Hq.
Qed.

(** A reader's output is not touched while [jiq_data] points to another one. *)
Lemma lost_buffer_step X t k mv Y :
  is_Some (js_readers X !! t) -> js_m X <> Some t -> mv <> MClose t ->
  mexec1 k mv X = Some (Done Y) ->
  is_Some (js_readers Y !! t) /\ js_m Y <> Some t /\ js_files Y !! t = js_files X !! t.
Proof.
  intros Hr Hm Hc HY.
  assert (forall f d w X', js_m X' <> Some t -> js_files X' !! t = js_files X !! t ->
    js_files (put f d w X') !! t = js_files X !! t) as Hput.
  { intros f d w X' Hm' E. cbn. rewrite <- E. destruct (js_m X') as [t' |]; [| done].
    destruct (cd_m d); [| done]. rewrite lookup_insert_ne; [done | congruence]. }
  assert (forall t' f p X', is_Some (js_readers X' !! t) -> is_Some (js_readers (at_pc t' f p X') !! t))
    as Hat.
  { intros t' f p X' H. cbn. destruct (decide (t' = t)) as [-> |];
      [rewrite lookup_insert_eq | rewrite lookup_insert_ne by done]; eauto. }
  destruct mv as [t' f | t' | t' | t' | t' | t' | f | f]; cbn [mexec1] in HY.
  - destruct (js_readers X !! t') eqn:E; [done |].
    assert (t' <> t) as Hne by (intros ->; rewrite E in Hr; by destruct Hr).
    destruct (jiq_show _ _ _ _) as [[[a k'] d] | o]; [| done]. injection HY as <-.
    split; [by apply Hat |]. split; [cbn; congruence |]. apply Hput; [cbn; congruence | done].
  - destruct (js_readers X !! t') as [[f []] |]; try done.
    destruct (jiq_wait_end _ _) as [[[a k'] d] | o]; [| done]. injection HY as <-.
    split; [by apply Hat |]. split; [done |]. by apply Hput.
  - destruct (js_readers X !! t') as [[f []] |]; try done. case_bool_decide; [done |].
    injection HY as <-. split; [by apply Hat | done].
  - destruct (js_readers X !! t') as [[f []] |]; try done.
    injection HY as <-. split; [by apply Hat | done].
  - destruct (js_readers X !! t') as [[f [| | | sig | |]] |]; try done.
    destruct (can_finish f _); [| done].
    destruct (jiq_finish _ _ _) as [[[a k'] d] | o]; [| done]. injection HY as <-.
    split; [by apply Hat |]. split; [done |]. by apply Hput.
  - destruct (js_readers X !! t') as [[f [| | | | r sig |]] |]; try done.
    injection HY as <-. split; [by apply Hat |]. split; [done |].
    cbn. rewrite lookup_delete_ne; [done | congruence].
  - case_bool_decide; [| done]. destruct (js_waking X !! kind_of f); [done |].
    destruct (jiq_item _ _ _) as [[[a k'] d] | o]; [| done]. injection HY as <-.
    split; [done |]. split; [done |]. by apply Hput.
  - destruct (js_waking X !! kind_of f) as [g |]; [| done]. cbn [mbind option_bind] in HY.
    destruct (item_goes_on g _ _) as [[[a k'] d] | o]; [| done]. injection HY as <-.
    split; [done |]. split; [done |]. by apply Hput.
Qed.

Definition not_closed (t : nat) (X : jiq_state) (mv : jmove) : Prop := mv <> MClose t.

Lemma lost_buffer X t Y :
  is_Some (js_readers X !! t) -> js_m X <> Some t -> mfrom (not_closed t) X Y ->
  is_Some (js_readers Y !! t) /\ js_m Y <> Some t /\ js_files Y !! t = js_files X !! t.
Proof.
  intros Hr Hm. induction 1 as [| Y k mv Z HY IH Hmv HZ]; [done |].
  destruct IH as (H1 & H2 & <-). by eapply lost_buffer_step.
Qed.

(** ** Properties *)

(** C14: reads that follow one another all work, whichever files they are of and
    even when a signal ends a read of the timer file, as long as a read of a
    work-queue file does not start while the item of an earlier read is still
    about to wake its reader: no move oopses; a read that no signal ended returns
    0, and its file keeps the whole output, the header and two lines for the
    timer, nine to fourteen for the others, whatever is read afterwards; a reader
    is asleep only while its item is queued or about to wake it. *)
Theorem jiq_reads_ok X :
  mreach one_by_one X ->
  (forall mv k r, one_by_one X mv -> mexec1 k mv X = Some r -> exists Y, r = Done Y) /\
  (forall t f r, js_readers X !! t = Some (f, QReturned r false) ->
     r = 0 /\ exists m Ls, js_files X !! t = Some m /\ s_over m = false /\
       s_text m = report Ls /\ Forall is_line Ls /\ lines_printed f (length Ls)) /\
  (forall t f, js_readers X !! t = Some (f, QAsleep) -> t ∈ js_wait X ->
     kind_of f ∈ js_items X \/ is_Some (js_waking X !! kind_of f)).
Proof.
  intros HX%mreach_inv. split_and!.
  - intros mv k r Hone Hr. pose proof (mexec1_ok X mv k r HX Hone Hr) as Hok.
    destruct r as [Y | o]; [by exists Y | done].
  - intros t f r Ht. destruct (minv_over X t f _ HX Ht eq_refl) as [-> Ho].
    split; [done |]. by apply Ho.
  - intros t f Ht Hw. destruct (minv_reader X t f QAsleep HX Ht eq_refl) as [n HL].
    pose proof (ql_ready _ _ _ (lr_live _ _ _ _ _ HL)) as Hr.
    cbn [q_pc q_data ready view q_waiting] in Hr.
    rewrite (bool_decide_eq_true_2 _ Hw) in Hr.
    assert (coming (view f true X) = true) as Hc by (destruct (tests_end f); [by apply Hr | done]).
    unfold coming in Hc. cbn [view queued waking] in Hc.
    apply orb_true_iff in Hc as [Hc%bool_decide_eq_true | Hc%bool_decide_eq_true]; [by left |].
    right. by apply not_eq_None_Some.
Qed.

(** A read of the tasklet file ends between lines 79 and 81 of its tasklet, and one
    of the work-queue file follows. *)
Definition late_moves : list jmove :=
  [MShow 0 JiqTasklet] ++ replicate 15 (MItem JiqTasklet) ++
  [MTest 0; MEnd 0; MClose 0; MShow 1 JiqWq].

(** The timer of the first reader fires before the delayed work of the second
    runs for the first time. *)
Definition early_moves : list jmove :=
  [MShow 0 JiqTimer; MTest 0; MShow 1 (JiqWqDelay 1000); MItem JiqTimer].

(** A reader of the timer file. *)
Definition timer_moves : list jmove := [MShow 0 JiqTimer; MTest 0].

(** A second reader comes before the item of the first has printed. *)
Definition taken_moves : list jmove := [MShow 0 JiqWq; MShow 1 JiqWq].

(** C39: readers break each other without any signal, since they share [jiq_data] and
    its wait queue.  (1) A reader of a work-queue file that the item of another
    reader wakes returns with its own item queued, and once it has closed its
    file that item writes to freed memory, whatever the kernel answers.  This can
    happen to reads that overlap, and even to one that starts after the read of
    the tasklet file before it is over and closed, whose tasklet has set the end
    but not yet woken anybody.  (2) A read of the timer file while its timer is
    pending initialises a pending timer.  (3) A reader whose buffer was replaced
    before anything was printed to it has no output, whatever happens until it
    closes its file. *)
Theorem jiq_readers_collide :
  (forall X t f g k, stray_wake X t f g ->
     exists Y, mexec k (fun _ _ => true) (stray_moves t g) X = Some Y /\
       js_readers Y !! t = Some (f, QClosed false) /\
       forall k', mexec1 k' (MItem f) Y = Some (Crash UseAfterFree)) /\
  (exists X, mreach in_turn X /\ stray_wake X 1 JiqWq JiqTasklet) /\
  (exists X, mreach no_signal X /\ stray_wake X 1 (JiqWqDelay 1000) JiqTimer) /\
  (forall X t k, js_readers X !! t = None -> TimerItem ∈ js_items X ->
     mexec1 k (MShow t JiqTimer) X = Some (Crash TimerPending)) /\
  (exists X, mreach no_signal X /\ js_readers X !! 1%nat = None /\ TimerItem ∈ js_items X) /\
  (forall X t Y, is_Some (js_readers X !! t) -> js_m X <> Some t ->
     js_files X !! t = Some new_file -> mfrom (not_closed t) X Y ->
     js_files Y !! t = Some new_file) /\
  (exists X, mreach no_signal X /\ js_readers X !! 0%nat = Some (JiqWq, QAsleep) /\
     js_m X = Some 1%nat /\ js_files X !! 0%nat = Some new_file).
Proof.
  split_and!.
  - intros X t f g k HX. destruct (stray_wake_closes X t f g k HX) as (Y & HY & H1 & H2 & H3 & H4 & H5 & H6).
    exists Y. split_and!; [done | done |]. intros k'. pose proof (sw_len _ _ _ _ HX).
    apply (closed_item Y t); [| done .. | by rewrite H6].
    intros ->. by pose proof (sw_file _ _ _ _ HX).
  - exists (after in_turnb late_moves).
    split; [apply after_reach; [apply in_turnb_ok | by vm_compute; eexists] |].
    split; by vm_compute.
  - exists (after no_signalb early_moves).
    split; [apply after_reach; [apply no_signalb_ok | by vm_compute; eexists] |].
    split; by vm_compute.
  - intros X t k Ht Hi. cbn [mexec1]. rewrite Ht. cbn [jiq_show].
    rewrite timer_show_pending; [done |]. by apply bool_decide_eq_true.
  - exists (after no_signalb timer_moves).
    split; [apply after_reach; [apply no_signalb_ok | by vm_compute; eexists] |].
    split; by vm_compute.
  - intros X t Y Hr Hm Hf HY. destruct (lost_buffer X t Y Hr Hm HY) as (_ & _ & ->). done.
  - exists (after no_signalb taken_moves).
    split; [apply after_reach; [apply no_signalb_ok | by vm_compute; eexists] | by vm_compute].
Qed.

(** ** Witnesses *)

(** A read of the timer file, then one of the work-queue file. *)
Definition two_reads : list jmove :=
  [MShow 0 JiqTimer; MTest 0; MItem JiqTimer; MGoesOn JiqTimer; MWoken 0; MTest 0; MEnd 0;
   MShow 1 JiqWq] ++
  replicate 15 (MItem JiqWq) ++ [MGoesOn JiqWq; MWoken 1; MEnd 1].

Lemma jiq_reads_ok_witness :
  js_readers (after one_by_oneb two_reads) !! 0%nat = Some (JiqTimer, QReturned 0 false) /\
  exists m Ls, js_files (after one_by_oneb two_reads) !! 0%nat = Some m /\ s_over m = false /\
    s_text m = report Ls /\ Forall is_line Ls /\ lines_printed JiqTimer (length Ls).
Proof.
  assert (js_readers (after one_by_oneb two_reads) !! 0%nat = Some (JiqTimer, QReturned 0 false))
    as Ht by (vm_compute; reflexivity).
  split; [exact Ht |].
  destruct (jiq_reads_ok (after one_by_oneb two_reads)) as (_ & H & _).
  { apply after_reach; [apply one_by_oneb_ok | by vm_compute; eexists]. }
  exact (proj2 (H 0%nat JiqTimer 0 Ht)).
Defined.
