(* ===== verification/Qus.v ===== *)
(** * The USB storage skeleton (src/qus/qus.c, src/qus/qus.h)

    Probing and disconnecting: what the driver holds of the USB core, and the
    reference count that decides when it is given back.  A service of the core
    answers from the stream of the kernel. *)

From S2P Require Import Prelude Kernel.

(** ** Data *)

Definition QUS_VENDOR_ID : Z := 18164.
Definition QUS_PRODUCT_ID : Z := 1.
Definition QUS_MINOR_BASE : Z := 192.

(** An endpoint of the interface: a byte of address and the 16-bit field of the
    packet size, whose low eleven bits are the size. *)
Record usb_endpoint_descriptor := Endpoint {
  bEndpointAddress : Z;
  wMaxPacketSize : Z
}.

Definition usb_endpoint_maxp (e : usb_endpoint_descriptor) : Z :=
  Z.land (wMaxPacketSize e) 2047.

(** The pointers of the structure are flags, [false] for NULL; that of the buffer
    is the size it was allocated with. *)
Record qemu_usb_storage := QUS {
  q_dev : bool;
  q_intf : bool;
  q_urb : bool;
  q_buf : option Z;
  buf_len : Z;
  bulk_in_endpoint : Z;
  bulk_out_endpoint : Z;
  kref : Z;
  max_lun : Z
}.

(** What the driver holds: the structure (when it is allocated), references to
    the device and the interface, URBs, the interface's data pointer and the
    registration of the minor. *)
Record qus_st := QSt {
  qus : option qemu_usb_storage;
  dev_refs : Z;
  intf_refs : Z;
  urbs : Z;
  intfdata : bool;
  registered : bool
}.

Definition set_qus (q : option qemu_usb_storage) (s : qus_st) : qus_st :=
  QSt q (dev_refs s) (intf_refs s) (urbs s) (intfdata s) (registered s).
Definition set_refs (d i u : Z) (s : qus_st) : qus_st :=
  QSt (qus s) d i u (intfdata s) (registered s).
Definition set_bound (i r : bool) (s : qus_st) : qus_st :=
  QSt (qus s) (dev_refs s) (intf_refs s) (urbs s) i r.

(** ** Kernel services *)

(** 0, or a negative error. *)
Definition status : M qus_st Z :=
  a ← ask; mret (if a =? 0 then 0 else - Z.max 1 (Z.abs a)).

Definition usb_get_dev : M qus_st bool :=
  modify (fun s => set_refs (dev_refs s + 1) (intf_refs s) (urbs s) s);; mret true.
Definition usb_put_dev : M qus_st unit :=
  modify (fun s => set_refs (dev_refs s - 1) (intf_refs s) (urbs s) s).
Definition usb_get_intf : M qus_st bool :=
  modify (fun s => set_refs (dev_refs s) (intf_refs s + 1) (urbs s) s);; mret true.
Definition usb_put_intf : M qus_st unit :=
  modify (fun s => set_refs (dev_refs s) (intf_refs s - 1) (urbs s) s).

Definition usb_alloc_urb : M qus_st bool :=
  a ← ask;
  if a =? 0 then modify (fun s => set_refs (dev_refs s) (intf_refs s) (urbs s + 1) s);; mret true
  else mret false.

(** A NULL pointer is not freed. *)
Definition usb_free_urb (u : bool) : M qus_st unit :=
  if u then modify (fun s => set_refs (dev_refs s) (intf_refs s) (urbs s - 1) s) else mret tt.
Definition kfree_buf (p : option Z) : M qus_st unit :=
  match p with Some _ => kfree | None => mret tt end.

Definition usb_register_dev : M qus_st Z :=
  r ← status;
  (if r =? 0 then modify (fun s => set_bound (intfdata s) true s) else mret tt);;
  mret r.
Definition usb_deregister_dev : M qus_st unit :=
  modify (fun s => set_bound (intfdata s) false s).
Definition usb_set_intfdata (b : bool) : M qus_st unit :=
  modify (fun s => set_bound b (registered s) s).

(** It finds the first bulk endpoints of the interface, or fails. *)
Definition usb_find_common_endpoints : M qus_st Z := status.

(** Any access to the structure. *)
Definition get_qus : M qus_st qemu_usb_storage := fun k s =>
  match qus s with
  | Some q => Done (q, k, s)
  | None => Crash UseAfterFree
  end.

Definition put_qus (q : qemu_usb_storage) : M qus_st unit := modify (set_qus (Some q)).

(** ** Reference counting *)

Definition qus_del : M qus_st unit :=
  q ← get_qus;
  usb_free_urb (q_urb q);;
  usb_put_intf;;
  usb_put_dev;;
  kfree_buf (q_buf q);;
  kfree;;
  modify (set_qus None).

Definition kref_init : M qus_st unit :=
  q ← get_qus;
  put_qus (QUS (q_dev q) (q_intf q) (q_urb q) (q_buf q) (buf_len q) (bulk_in_endpoint q)
    (bulk_out_endpoint q) 1 (max_lun q)).

Definition kref_put : M qus_st unit :=
  q ← get_qus;
  put_qus (QUS (q_dev q) (q_intf q) (q_urb q) (q_buf q) (buf_len q) (bulk_in_endpoint q)
    (bulk_out_endpoint q) (kref q - 1) (max_lun q));;
  if kref q - 1 =? 0 then qus_del else mret tt.

(** ** Probing *)

(** The transfer of one byte goes to the first byte of the 32-bit [max_lun]. *)
Definition __test_control_endpoint : M qus_st Z :=
  q ← get_qus;
  ret ← status;
  if ret <? 0 then mret ret
  else
    a ← ask;
    put_qus (QUS (q_dev q) (q_intf q) (q_urb q) (q_buf q) (buf_len q) (bulk_in_endpoint q)
      (bulk_out_endpoint q) (kref q) (max_lun q - max_lun q mod 256 + a mod 256));;
    mret ret.

(** The label [error]. *)
Definition probe_error (ret : Z) : M qus_st Z := kref_put;; mret ret.

(** Lines 107-120: the registration. *)
Definition probe_register : M qus_st Z :=
  usb_set_intfdata true;;
  ret ← usb_register_dev;
  if negb (ret =? 0) then
    usb_set_intfdata false;;
    probe_error ret
  else
    __test_control_endpoint;;
    mret 0.

(** [bulk_in] and [bulk_out] are the bulk endpoints of the interface that is
    probed, if it has them. *)
Definition qus_probe (bulk_in bulk_out : usb_endpoint_descriptor) : M qus_st Z :=
  ok ← kmalloc;
  if negb ok then mret (- ENOMEM)
  else
    put_qus (QUS false false false None 0 0 0 0 0);;
    kref_init;;
    d ← usb_get_dev;
    i ← usb_get_intf;
    q ← get_qus;
    put_qus (QUS d i (q_urb q) (q_buf q) (buf_len q) (bulk_in_endpoint q)
      (bulk_out_endpoint q) (kref q) (max_lun q));;
    ret ← usb_find_common_endpoints;
    if negb (ret =? 0) then probe_error ret
    else
      q ← get_qus;
      put_qus (QUS (q_dev q) (q_intf q) (q_urb q) (q_buf q) (usb_endpoint_maxp bulk_in)
        (bEndpointAddress bulk_in) (bulk_out_endpoint q) (kref q) (max_lun q));;
      buf ← kmalloc;
      q ← get_qus;
      put_qus (QUS (q_dev q) (q_intf q) (q_urb q) (if buf then Some (buf_len q) else None)
        (buf_len q) (bulk_in_endpoint q) (bulk_out_endpoint q) (kref q) (max_lun q));;
      if negb buf then probe_error (- ENOMEM)
      else
        urb ← usb_alloc_urb;
        q ← get_qus;
        put_qus (QUS (q_dev q) (q_intf q) urb (q_buf q) (buf_len q) (bulk_in_endpoint q)
          (bulk_out_endpoint q) (kref q) (max_lun q));;
        if negb urb then probe_error (- ENOMEM)
        else
          q ← get_qus;
          put_qus (QUS (q_dev q) (q_intf q) (q_urb q) (q_buf q) (buf_len q)
            (bulk_in_endpoint q) (bEndpointAddress bulk_out) (kref q) (max_lun q));;
          probe_register.

(** ** Disconnecting *)

(** [usb_get_intfdata] gives NULL when no data is set. *)
Definition qus_disconnect : M qus_st unit :=
  s ← gets (fun s => s);
  usb_set_intfdata false;;
  usb_deregister_dev;;
  check (intfdata s) NullDeref;;
  get_qus;;
  kref_put.

(** ** Properties *)

(** No device is bound. *)
Definition idle_qus : qus_st := QSt None 0 0 0 false false.

(** The device is bound: one reference of each kind, one URB, the addresses of
    both endpoints, a buffer of the packet size of the first, and one reference
    to the structure. *)
Definition bound (bulk_in bulk_out : usb_endpoint_descriptor) (s : qus_st) : Prop :=
  dev_refs s = 1 /\ intf_refs s = 1 /\ urbs s = 1 /\ intfdata s = true /\
  registered s = true /\
  exists q, qus s = Some q /\ q_dev q = true /\ q_intf q = true /\ q_urb q = true /\
    q_buf q = Some (usb_endpoint_maxp bulk_in) /\ buf_len q = usb_endpoint_maxp bulk_in /\
    bulk_in_endpoint q = bEndpointAddress bulk_in /\
    bulk_out_endpoint q = bEndpointAddress bulk_out /\ kref q = 1.

Lemma wp_usb_status {c : Prop} (Q : Z -> kern -> qus_st -> Prop) k s :
  (forall f, Q 0 (Kern f (held k) (kobjs k) (lockdep k)) s) ->
  (forall f r, r < 0 -> Q r (Kern f (held k) (kobjs k) (lockdep k)) s) ->
  wpc c status Q k s.
Proof.
  intros H0 HF. unfold status. do 3 wp_step. destruct (a =? 0) eqn:E; [apply H0 | apply HF]. lia.
Qed.

Lemma wp_get_qus {c : Prop} (Q : qemu_usb_storage -> kern -> qus_st -> Prop) k s q :
  qus s = Some q -> Q q k s -> wpc c get_qus Q k s.
Proof. intros E. unfold wpc, get_qus. by rewrite E. Qed.

Ltac qus_step :=
  cbv beta iota;
  lazymatch goal with
  | |- wpc _ status _ _ _ => apply wp_usb_status; intros
  | |- wpc _ get_qus _ _ _ => eapply wp_get_qus; [reflexivity |]
  | |- wpc _ (check _ _) _ _ _ => apply wp_check; [reflexivity |]
  | |- wpc _ (put_qus _) _ _ _ => apply wp_modify
  | |- wpc _ (if ?r =? 0 then _ else _) _ _ _ => destruct (r =? 0) eqn:?; try lia
  | |- wpc _ (if negb (?r =? 0) then _ else _) _ _ _ =>
      destruct (r =? 0) eqn:?; try lia; cbn [negb]
  | |- _ => wp_step
  end;
  cbn [held kobjs ans lockdep negb set_qus set_refs set_bound qus dev_refs intf_refs urbs
    intfdata registered q_dev q_intf q_urb q_buf buf_len bulk_in_endpoint bulk_out_endpoint
    kref max_lun].

Ltac qus_steps := repeat qus_step.

(** The last reference: everything the structure holds is given back. *)
Lemma wp_kref_put {c : Prop} (Q : unit -> kern -> qus_st -> Prop) (k : kern) (d i u : Z) (b r dv it ur : bool)
    (bf : option Z) (bl bi bo ml : Z) :
  Q tt (Kern (ans k) (held k) (kobjs k - 1 - (if bf is Some _ then 1 else 0)) (lockdep k))
    (QSt None (d - 1) (i - 1) (u - (if ur then 1 else 0)) b r) ->
  wpc c kref_put Q k (QSt (Some (QUS dv it ur bf bl bi bo 1 ml)) d i u b r).
Proof.
  intros H. assert (forall n u', n = kobjs k - 1 - (if bf is Some _ then 1 else 0) ->
    u' = u - (if ur then 1 else 0) ->
    Q tt (Kern (ans k) (held k) n (lockdep k)) (QSt None (d - 1) (i - 1) u' b r)) as H'
    by (by intros ? ? -> ->).
  unfold kref_put, qus_del, usb_free_urb, usb_put_intf, usb_put_dev, kfree_buf.
  destruct ur, bf; qus_steps; apply H'; cbn; lia.
Qed.

Lemma wp_probe_register {c : Prop} (k k0 : kern) e f (ml : Z) :
  kobjs k = kobjs k0 + 2 ->
  wpc c probe_register (fun r k' s' =>
    (r = 0 /\ bound e f s' /\ kobjs k' = kobjs k0 + 2) \/
    (r < 0 /\ s' = idle_qus /\ kobjs k' = kobjs k0))
    k (QSt (Some (QUS true true true (Some (usb_endpoint_maxp e)) (usb_endpoint_maxp e)
      (bEndpointAddress e) (bEndpointAddress f) 1 ml)) 1 1 1 false false).
Proof.
  intros Hk. unfold probe_register, usb_set_intfdata, usb_register_dev,
    __test_control_endpoint, probe_error. qus_steps.
  all: try (left; split; [done |]; split; [| done]; unfold bound; cbn; by eauto 20).
  apply (wp_kref_put _ _ 1 1 1 false false true true true (Some _)). wp_step. right. cbn.
  split; [done |]. split; [done | lia].
Qed.

(** The end of a probe, with the structure in any state before the
    registration. *)
Lemma wp_probe_error {c : Prop} (k k0 : kern) (ret : Z) (dv it ur : bool) (bf : option Z)
    (bl bi bo ml : Z) :
  kobjs k = kobjs k0 + 1 + (if bf is Some _ then 1 else 0) -> ret < 0 ->
  wpc c (probe_error ret) (fun r k' s' => r < 0 /\ s' = idle_qus /\ kobjs k' = kobjs k0)
    k (QSt (Some (QUS dv it ur bf bl bi bo 1 ml)) 1 1 (if ur then 1 else 0) false false).
Proof.
  intros Hk Hr. unfold probe_error. wp_step. apply wp_kref_put. wp_step. cbn.
  split; [done |]. split; [by destruct ur | lia].
Qed.

Lemma wp_qus_probe {c : Prop} e f k :
  wpc c (qus_probe e f) (fun r k' s' =>
    (r = 0 /\ bound e f s' /\ kobjs k' = kobjs k + 2) \/
    (r < 0 /\ s' = idle_qus /\ kobjs k' = kobjs k)) k idle_qus.
Proof.
  unfold qus_probe, kref_init, usb_get_dev, usb_get_intf, usb_find_common_endpoints,
    usb_alloc_urb. qus_steps.
  - apply wp_probe_register. cbn. lia.
  - eapply wp_mono; [apply (wp_probe_error _ k _ true true false (Some _)); cbn; unfold ENOMEM; lia | auto].
  - eapply wp_mono; [apply (wp_probe_error _ k _ true true false None); cbn; unfold ENOMEM; lia | auto].
  - eapply wp_mono; [apply (wp_probe_error _ k _ true true false None); cbn; unfold ENOMEM; lia | auto].
  - right. by split_and!.
Qed.

(** What a bound device gives back. *)
Lemma wp_qus_disconnect {c : Prop} e f k k0 s :
  bound e f s -> kobjs k = kobjs k0 + 2 ->
  wpc c qus_disconnect (fun _ k' s' => s' = idle_qus /\ kobjs k' = kobjs k0) k s.
Proof.
  destruct s as [qs d i u b r]. unfold bound. cbn.
  intros (-> & -> & -> & -> & -> & q & -> & Hd & Hi & Hu & Hb & _ & _ & _ & Hk) Hn.
  destruct q as [dv it ur bf bl bi bo kr ml]. cbn in *. subst.
  unfold qus_disconnect, usb_set_intfdata, usb_deregister_dev. qus_steps.
  apply (wp_kref_put _ _ 1 1 1 false false true true true (Some _)). cbn. split; [done | lia].
Qed.

(** C24: a probe either returns 0 and the device is bound, with one reference to
    the device and one to the interface, one URB, the addresses of the bulk
    endpoints and a buffer as long as the packets of the bulk-in one
    ([buf_len] says so), or it returns an error and everything is given back, whichever
    step failed. *)
Theorem qus_probe_ok bulk_in bulk_out k :
  wp (qus_probe bulk_in bulk_out) (fun r k' s' =>
    (r = 0 /\ bound bulk_in bulk_out s' /\ kobjs k' = kobjs k + 2) \/
    (r < 0 /\ s' = idle_qus /\ kobjs k' = kobjs k)) k idle_qus.
Proof. apply wp_qus_probe. Qed.

(** Plugging in and, if that succeeded, unplugging. *)
Definition plug_and_unplug (bulk_in bulk_out : usb_endpoint_descriptor) : M qus_st unit :=
  r ← qus_probe bulk_in bulk_out;
  if r =? 0 then qus_disconnect else mret tt.

(** C25: plugging a device in and unplugging it leaves no reference, no URB, no
    memory and no registration behind, and frees nothing twice, whatever the
    USB core answers. *)
Theorem qus_disconnect_ok bulk_in bulk_out k :
  wp (plug_and_unplug bulk_in bulk_out) (fun _ k' s' => s' = idle_qus /\ kobjs k' = kobjs k) k idle_qus.
Proof.
  unfold plug_and_unplug. wp_step. eapply wp_mono; [apply wp_qus_probe |].
  intros r k' s' [(-> & Hb & Hk) | (Hr & -> & Hk)].
  - by eapply wp_qus_disconnect.
  - replace (r =? 0) with false by lia. by wp_step.
Qed.
