(* ===== verification/Procs.v ===== *)
(** * The proc files of jit and jiq (src/jit/jit.c, src/jiq/jiq.c)

    The two modules create their files in the root of /proc when they are
    loaded and remove them by name when they are unloaded.  The directory is
    shared, with the rest of the system too: [owner] is the module whose code a
    file runs.  [procs_run] loads and unloads them in any order. *)

From S2P Require Import Prelude Kernel ProcFiles JitDelay.

Implicit Types (k : kern).

(** ** Data *)

Inductive pmodule := MJit | MJiq.

(** An entry of the directory; [owner] is [None] for the rest of the kernel, and
    [pde_data] the pointer given to [proc_create_data]. *)
Record pentry := PEntry { owner : option pmodule; pde_ops : proc_ops; pde_data : Z }.

#[export] Instance pmodule_eq_dec : EqDecision pmodule.
Proof. solve_decision. Defined.
#[export] Instance pentry_eq_dec : EqDecision pentry.
Proof. solve_decision. Defined.

(** The directory, the modules that are loaded and how many complaints the
    kernel has logged. *)
Record proc_st := ProcSt {
  dir : gmap string pentry;
  loaded : list pmodule;
  complaints : nat
}.

Definition set_dir (d : gmap string pentry) (s : proc_st) : proc_st :=
  ProcSt d (loaded s) (complaints s).
Definition set_loaded (ms : list pmodule) (s : proc_st) : proc_st :=
  ProcSt (dir s) ms (complaints s).
Definition complain (s : proc_st) : proc_st :=
  ProcSt (dir s) (loaded s) (S (complaints s)).

(** ** Kernel services *)

(** Nothing is created without memory, nor under a name that is taken; the
    drivers do not look at the result. *)
Definition proc_create_data (name : string) (e : pentry) : M proc_st unit :=
  a ← ask;
  if negb (a =? 0) then mret tt
  else
    d ← gets dir;
    match d !! name with
    | Some _ => modify complain
    | None => modify (set_dir (<[name := e]> d))
    end.

Definition remove_proc_entry (name : string) : M proc_st unit :=
  d ← gets dir;
  match d !! name with
  | Some _ => modify (set_dir (delete name d))
  | None => modify complain
  end.

Fixpoint proc_create_all (es : list (string * pentry)) : M proc_st unit :=
  match es with
  | [] => mret tt
  | (name, e) :: es => proc_create_data name e;; proc_create_all es
  end.

Fixpoint proc_remove_all (names : list string) : M proc_st unit :=
  match names with
  | [] => mret tt
  | name :: names => remove_proc_entry name;; proc_remove_all names
  end.

(** ** The modules *)

(** The calls of [jit_init], in order. *)
Definition jit_entries : list (string * pentry) :=
  [("currentime", PEntry (Some MJit) jit_currenttime_fops 0);
   ("jitbusy", PEntry (Some MJit) jit_fn_fops 0);
   ("jitsched", PEntry (Some MJit) jit_fn_fops 1);
   ("jitqueue", PEntry (Some MJit) jit_fn_fops 2);
   ("jitschedto", PEntry (Some MJit) jit_fn_fops 3);
   ("jitimer", PEntry (Some MJit) jit_timer_fops 0);
   ("jitasklet", PEntry (Some MJit) jit_tasklet_fops 0);
   ("jitasklethi", PEntry (Some MJit) jit_tasklet_fops 1)].

Definition jit_init : M proc_st Z := proc_create_all jit_entries;; mret 0.

Definition jit_cleanup : M proc_st unit :=
  proc_remove_all ["currentime"; "jitbusy"; "jitsched"; "jitqueue"; "jitschedto";
                   "jitimer"; "jitasklet"; "jitasklethi"].

Definition jiq_entries : list (string * pentry) :=
  [("jiqwq", PEntry (Some MJiq) jiq_read_wq_fops 0);
   ("jiqwqdelay", PEntry (Some MJiq) jiq_read_wq_delayed_fops 0);
   ("jitimer", PEntry (Some MJiq) jiq_read_run_timer_fops 0);
   ("jiqtasklet", PEntry (Some MJiq) jiq_read_tasklet_fops 0)].

(** The work items and the tasklet are set up before (Jiq.v). *)
Definition jiq_init : M proc_st Z := proc_create_all jiq_entries;; mret 0.

Definition jiq_cleanup : M proc_st unit :=
  proc_remove_all ["jiqwq"; "jiqwqdelay"; "jitimer"; "jiqtasklet"].

(** A module is loaded once. *)
Definition load (m : pmodule) : M proc_st Z :=
  ms ← gets loaded;
  if bool_decide (m ∈ ms) then mret (- EEXIST)
  else
    r ← match m with MJit => jit_init | MJiq => jiq_init end;
    modify (set_loaded (m :: ms));;
    mret r.

Definition unload (m : pmodule) : M proc_st Z :=
  ms ← gets loaded;
  if bool_decide (m ∈ ms) then
    match m with MJit => jit_cleanup | MJiq => jiq_cleanup end;;
    modify (set_loaded (filter (fun m' => m' <> m) ms));;
    mret 0
  else mret (- ENOENT).

Fixpoint procs_run (acts : list (bool * pmodule)) : M proc_st unit :=
  match acts with
  | [] => mret tt
  | (true, m) :: acts => load m;; procs_run acts
  | (false, m) :: acts => unload m;; procs_run acts
  end.

(** Opening a file by its name, using and closing it; [None]: there is no such file
    or no memory. *)
Definition use_proc (name : string) : M proc_st (option open_file) :=
  d ← gets dir;
  match d !! name with
  | Some e => use_file (pde_ops e) (pde_data e)
  | None => mret None
  end.

(** ** Lemmas *)

Definition entries_of (m : pmodule) : list (string * pentry) :=
  match m with MJit => jit_entries | MJiq => jiq_entries end.

(** Every file of a module is one of its own, and the module is loaded. *)
Definition procs_inv (ms : list pmodule) (d : gmap string pentry) : Prop :=
  forall name e m, d !! name = Some e -> owner e = Some m ->
    m ∈ ms /\ (name, e) ∈ entries_of m.

(** The module whose code a file runs. *)
Definition show_module (x : pshow) : option pmodule :=
  match x with
  | ShowCurrenttime | ShowFn | ShowTimer | ShowTasklet => Some MJit
  | ShowWq | ShowWqDelayed | ShowRunTimer | ShowJiqTasklet => Some MJiq
  | ShowScull => None
  end.

Lemma entries_ops m name e :
  (name, e) ∈ entries_of m ->
  ops_match (pde_ops e) /\ show_module (opens_show (proc_open (pde_ops e))) = Some m.
Proof.
  assert (Forall (fun x => ops_match (pde_ops (snd x)) /\
    show_module (opens_show (proc_open (pde_ops (snd x)))) = Some m) (entries_of m)) as H.
  { destruct m; repeat constructor. }
  intros Hin. by apply (proj1 (list.Forall_forall _ _) H (name, e)).
Qed.

Lemma wp_create {c : Prop} name e (Q : unit -> kern -> proc_st -> Prop) k s :
  (forall k', Q tt k' s) -> (forall k', Q tt k' (complain s)) ->
  (forall k', dir s !! name = None -> Q tt k' (set_dir (<[name := e]> (dir s)) s)) ->
  wpc c (proc_create_data name e) Q k s.
Proof.
  intros H0 H1 H2. unfold proc_create_data. do 3 wp_step; wp_step; [apply H0 |]. wp_step.
  destruct (dir s !! name) eqn:E; wp_step; auto.
Qed.

(** Where the entries of the new directory come from. *)
Definition dir_plus (es : list (string * pentry)) (d d' : gmap string pentry) : Prop :=
  forall name, d' !! name = d !! name \/ exists e, d' !! name = Some e /\ (name, e) ∈ es.

Lemma dir_plus_cons x es d1 d2 d3 :
  dir_plus [x] d1 d2 -> dir_plus es d2 d3 -> dir_plus (x :: es) d1 d3.
Proof.
  intros H1 H2 name. destruct (H2 name) as [-> | (e & E & Hin)].
  - destruct (H1 name) as [-> | (e & E & Hin)]; [by left | right]. exists e. split; [done |].
    apply list_elem_of_singleton in Hin as ->. by left.
  - right. exists e. split; [done | by right].
Qed.

Lemma wp_create_all es k s :
  wp (proc_create_all es) (fun _ _ s' =>
    loaded s' = loaded s /\ dir_plus es (dir s) (dir s')) k s.
Proof.
  revert k s. induction es as [| [name e] es IH]; intros k s; cbn [proc_create_all]; wp_step.
  { split; [done | by left]. }
  assert (forall k' s', loaded s' = loaded s -> dir_plus [(name, e)] (dir s) (dir s') ->
    wp (proc_create_all es) (fun _ _ s' =>
      loaded s' = loaded s /\ dir_plus ((name, e) :: es) (dir s) (dir s')) k' s') as Hrest.
  { intros k' s' El Hs. eapply wp_mono; [apply IH |]. intros _ k2 s2 (E2 & H2).
    split; [congruence | by eapply dir_plus_cons]. }
  apply wp_create; intros; (apply Hrest; [done |]); cbn; intros n; [by left.. |].
  rewrite lookup_insert. case_decide; [subst; right | by left].
  exists e. split; [done | by left].
Qed.

Lemma wp_remove_all names k s :
  wp (proc_remove_all names) (fun _ _ s' =>
    loaded s' = loaded s /\
    forall name, dir s' !! name = if decide (name ∈ names) then None else dir s !! name) k s.
Proof.
  revert k s. induction names as [| n names IH]; intros k s; cbn [proc_remove_all]; wp_step.
  { split; [done |]. intros name. by rewrite decide_False by apply not_elem_of_nil. }
  assert (forall k' s', loaded s' = loaded s ->
    (forall x, dir s' !! x = if decide (x = n) then None else dir s !! x) ->
    wp (proc_remove_all names) (fun _ _ s' => loaded s' = loaded s /\
      forall x, dir s' !! x = if decide (x ∈ n :: names) then None else dir s !! x) k' s') as Hrest.
  { intros k' s' El Hs. eapply wp_mono; [apply IH |]. intros _ k2 s2 (E2 & H2).
    split; [congruence |]. intros x. rewrite H2, Hs.
    repeat case_decide; rewrite ?elem_of_cons in *; tauto || congruence. }
  unfold remove_proc_entry. do 2 wp_step. destruct (dir s !! n) eqn:E; wp_step; apply Hrest;
    cbn; try done; intros x; case_decide; subst; auto.
  - by rewrite lookup_delete_eq.
  - by rewrite lookup_delete_ne.
Qed.

Lemma owned_name m name e : (name, e) ∈ entries_of m -> owner e = Some m.
Proof.
  assert (Forall (fun x => owner (snd x) = Some m) (entries_of m)) as H.
  { destruct m; repeat constructor. }
  intros Hin. by apply (proj1 (list.Forall_forall _ _) H (name, e)).
Qed.

Lemma wp_load m k s :
  wp (load m) (fun _ _ s' =>
    (m ∈ loaded s /\ s' = s) \/
    ((m ∉ loaded s) /\ loaded s' = m :: loaded s /\ dir_plus (entries_of m) (dir s) (dir s'))) k s.
Proof.
  unfold load. do 2 wp_step. case_bool_decide; wp_step; [by left |].
  assert (match m with MJit => jit_init | MJiq => jiq_init end =
    (proc_create_all (entries_of m);; mret 0)) as -> by now destruct m.
  wp_step. eapply wp_mono; [apply wp_create_all |].
  intros _ k' s' (El & Hd). do 4 wp_step. by right.
Qed.

Lemma wp_unload m k s :
  wp (unload m) (fun _ _ s' =>
    ((m ∉ loaded s) /\ s' = s) \/
    (m ∈ loaded s /\ loaded s' = filter (fun m' => m' <> m) (loaded s) /\
     forall name, dir s' !! name =
       if decide (name ∈ (entries_of m).*1) then None else dir s !! name)) k s.
Proof.
  unfold unload. do 2 wp_step. case_bool_decide; wp_step; [| by left].
  assert (match m with MJit => jit_cleanup | MJiq => jiq_cleanup end =
    proc_remove_all (entries_of m).*1) as -> by now destruct m.
  eapply wp_mono; [apply wp_remove_all |]. intros _ k' s' (El & Hd). do 3 wp_step. by right.
Qed.

Lemma load_inv m d d' ms :
  procs_inv ms d -> dir_plus (entries_of m) d d' -> procs_inv (m :: ms) d'.
Proof.
  intros HI Hd name e m' Hn Hm'. destruct (Hd name) as [E | (e' & E & Hin)].
  - rewrite E in Hn. destruct (HI name e m' Hn Hm'). split; [by right | done].
  - assert (e' = e) as -> by congruence. pose proof (owned_name _ _ _ Hin).
    assert (m' = m) as -> by congruence. by split; [left |].
Qed.

Lemma procs_run_inv acts k s :
  procs_inv (loaded s) (dir s) ->
  wp (procs_run acts) (fun _ _ s' => procs_inv (loaded s') (dir s')) k s.
Proof.
  revert k s. induction acts as [| [b m] acts IH]; intros k s HI; [done |].
  destruct b; cbn [procs_run]; wp_step.
  - eapply wp_mono; [apply wp_load |].
    intros _ k' s' [[_ ->] | (_ & El & Hd)]; apply IH; [done |]. rewrite El.
    by eapply load_inv.
  - eapply wp_mono; [apply wp_unload |].
    intros _ k' s' [[_ ->] | (_ & El & Hd)]; apply IH; [done |]. rewrite El.
    intros name e m' Hn Hm'. rewrite Hd in Hn. case_decide; [done |].
    destruct (HI name e m' Hn Hm') as [? Hin]. split; [| done].
    apply list_elem_of_filter. split; [intros -> | done].
    apply H. apply list_elem_of_fmap. by exists (name, e).
Qed.

Lemma filter_absent m (ms : list pmodule) :
  m ∉ ms -> filter (fun m' => m' <> m) ms = ms.
Proof.
  induction ms as [| m' ms IH]; intros Hm; [done |]. apply not_elem_of_cons in Hm as [? ?].
  rewrite list.filter_cons_True by done. by rewrite IH.
Qed.

(** ** Properties *)

(** C23: however the two modules are loaded and unloaded, and whatever the kernel
    answers, no entry of /proc outlives its module, although both create a file
    of the same name; opening a file of a module runs code of that module, which
    is loaded, and closing it gives back what opening it took. *)
Theorem procs_owned acts k s :
  procs_inv (loaded s) (dir s) ->
  wp (procs_run acts) (fun _ _ s' =>
    forall name e m, dir s' !! name = Some e -> owner e = Some m ->
      m ∈ loaded s' /\
      forall k1, wp (use_proc name) (fun x k2 s2 =>
        kobjs k2 = kobjs k1 /\ s2 = s' /\
        forall f, x = Some f -> show_module (of_show f) = Some m) k1 s') k s.
Proof.
  intros HI. eapply wp_mono; [by apply procs_run_inv |].
  cbv beta. intros _ k' s' HI' name e m Hn Hm. destruct (HI' name e m Hn Hm) as [Hl Hin].
  split; [done |]. intros k1. destruct (entries_ops m name e Hin) as [Hops Hsh].
  unfold use_proc. do 2 wp_step. rewrite Hn.
  eapply wp_mono; [by apply wp_use_file |]. cbv beta.
  intros x k2 s2 (_ & Hk & -> & Hf). split_and!; [done | done |].
  intros f Ef. by destruct (Hf f Ef) as [-> _].
Qed.

(** Loading and unloading a module whose names are free leaves the directory as
    it was, also when some of its files could not be created. *)
Theorem procs_roundtrip m k s :
  m ∉ loaded s -> (forall name, name ∈ (entries_of m).*1 -> dir s !! name = None) ->
  wp (load m;; unload m) (fun _ _ s' => dir s' = dir s /\ loaded s' = loaded s) k s.
Proof.
  intros Hm Hfree. wp_step. eapply wp_mono; [apply wp_load |].
  intros _ k1 s1 [[? _] | (_ & El & Hd)]; [done |].
  eapply wp_mono; [apply wp_unload |].
  intros _ k2 s2 [[Hn _] | (_ & El2 & Hd2)]; [rewrite El in Hn; by destruct Hn; left |].
  split.
  - apply map_eq. intros name. rewrite Hd2. case_decide as Hin; [by rewrite Hfree |].
    destruct (Hd name) as [-> | (e & _ & H)]; [done |]. destruct Hin.
    apply list_elem_of_fmap. by exists (name, e).
  - rewrite El2, El, list.filter_cons_False by (intros H; by apply H). by apply filter_absent.
Qed.

(** Both modules create a file "jitimer".  With jit loaded first, the one of jiq
    is refused, and unloading jiq removes the one of jit, whose other files
    stay. *)
Theorem jitimer_taken n :
  run_state (load MJit;; load MJiq) (Kern (fun _ => 0) false n true) (ProcSt ∅ [] 0)
    = Some (ProcSt (list_to_map (jit_entries ++ filter (fun x => x.1 <> "jitimer") jiq_entries))
        [MJiq; MJit] 1) /\
  run_state (load MJit;; load MJiq;; unload MJiq) (Kern (fun _ => 0) false n true)
      (ProcSt ∅ [] 0)
    = Some (ProcSt (list_to_map (filter (fun x => x.1 <> "jitimer") jit_entries)) [MJit] 1).
Proof. split; vm_compute; reflexivity. Qed.

(** The four delay files get the data that [jit_fn_show] tells them apart by, and
    the two tasklet files what tells their priorities apart. *)
Example jit_files_open :
  (fun s => map (fun name => x ← run_value (use_proc name) all_ok s; of_private <$> x)
              ["jitbusy"; "jitsched"; "jitqueue"; "jitschedto"; "jitasklet"; "jitasklethi"])
    <$> run_state (load MJit) all_ok (ProcSt ∅ [] 0)
  = Some [Some 0; Some 1; Some 2; Some 3; Some 0; Some 1] /\
  map jit_file [0; 1; 2; 3] = [Some JIT_BUSY; Some JIT_SCHED; Some JIT_QUEUE; Some JIT_SCHEDTO].
Proof. split; vm_compute; reflexivity. Qed.

(** ** Witnesses *)

Lemma procs_owned_witness :
  wp (procs_run [(true, MJit); (true, MJiq); (false, MJit)]) (fun _ _ s' =>
    forall name e m, dir s' !! name = Some e -> owner e = Some m -> m ∈ loaded s')
    all_ok (ProcSt ∅ [] 0).
Proof.
  eapply wp_mono; [apply procs_owned; intros name e m H; discriminate H |].
  cbv beta. intros a k' s' H name e m Hn Hm. exact (proj1 (H name e m Hn Hm)).
Defined.

Lemma procs_roundtrip_witness :
  wp (load MJiq;; unload MJiq) (fun _ _ s' => dir s' = ∅ /\ loaded s' = []) all_ok
    (ProcSt ∅ [] 0).
Proof. apply (procs_roundtrip MJiq); [intros H; by apply not_elem_of_nil in H | done]. Defined.
